(* ===== verification/_CoqProject ===== *)
-Q . S2P
Prelude.v
GoStd.v
NetURL.v
Wire.v
RefCodec.v
WireProps.v
Validation.v
ValidatorOnce.v
Reqctx.v
Reply.v
Router.v
RouterProps.v
App.v
AppProps.v
Streaming.v
StreamProps.v
Group.v
GroupProps.v
Middleware.v
MiddlewareProps.v
RateLimit.v
RateLimitProps.v
Lifecycle.v
LifecycleProps.v
Draining.v
Client.v
ClientProps.v
Files.v
Cli.v
CliProps.v
Certs.v
CertsProps.v
Chat.v
ChatProps.v
World.v
Running.v
RunningProps.v
Servers.v
ServersProps.v
Loggers.v
Users.v
UsersProps.v
Scan.v
Demos.v
DemosProps.v
Example.v
ExampleProps.v
Hub.v
Room.v
RoomProps.v
ChatRooms.v
ChatRoomsProps.v
RoomClients.v
Mtls.v
Startup.v
StartupProps.v
Process.v
ProcessProps.v
