(* ===== verification/Prelude.v ===== *)
(** * QuicFrame: a verification library (root file)

    QuicFrame is a web framework over QUIC in Go: a client opens one
    bidirectional stream per request, sends a length-prefixed MsgPack frame,
    and reads a reply of one frame or of a stream of chunks.  This library
    models the framework, its middleware and tools as executable definitions
    translated from the sources under src/, and proves what makes them correct.

    ** The program's parts and the files that model them

    Values flow as they do in the program: the listeners accept connections and
    start a goroutine per stream; the goroutine runs [dispatchStream]; this
    reads a frame, decodes the request, asks the router for a handler and its
    parameters, wraps it in the middleware, runs it on a fresh context, reports
    its error, and runs the after-middleware.  Everything a handler sends goes
    through the context to the frame codec.

    - Prelude.v (this file): bytes, fixed-width integers and big-endian words,
      the hint databases, and the tactics [unpack] and [cases].
    - GoStd.v, NetURL.v, Files.v: the parts of Go's standard library in use.
      [strings], printing verbs, error values and interface values; [url.Parse]
      and [Query]; [path/filepath] and a disk of files and directories.
    - Wire.v, WireProps.v: protocol/types.go and protocol/codec.go.  A stream is
      the chunks its reader will get and the bytes its writer accepted.
      RefCodec.v is a concrete codec for the witnesses.
    - Validation.v: framework/validation.go.  ValidatorOnce.v: the validator all
      requests share, made under a [sync.Once] by whoever comes first.
    - Reqctx.v: framework/context.go.  A handler is a computation in the state
      monad [M] over one request: the context, the stream writers it opened
      (by index, so that pointers alias) and the environment shared by requests.
    - Reply.v: the contract of a reply (docs/protocol.md) as an inductive
      relation, and the class [Safe] of computations that keep it.  It is the
      interface between the context and its clients: the middleware, the
      handlers and the applications prove instances and use no other fact.
    - Router.v, RouterProps.v; Group.v, GroupProps.v: framework/router.go, the
      groups on a heap of Go slices where [append] aliases.
    - App.v, AppProps.v: registration and [dispatchStream] of framework/app.go.
    - Streaming.v, StreamProps.v: a [StreamWriter] shared by goroutines, as
      interleaved steps under its mutex.
    - Lifecycle.v, LifecycleProps.v: the listeners, connections and [Shutdown]
      of framework/app.go, as goroutines with program counters and a wait group;
      Draining.v: how they wind down once the context is cancelled, and which of
      them, the handlers and the WebTransport listener, nothing ends.
    - Running.v, RunningProps.v: the running server.  The goroutines of
      Lifecycle.v with what they work on and log, and [dispatchStream] of App.v
      as the step of a stream's goroutine, on the environment all streams share.
      A listener is open before it makes its record, which is a step of its own.
    - Loggers.v: where the records go, [SetLogger] of framework/app.go and the
      arguments of [Recovery] and [Logger], as a relation between computations
      with a rule per operation, the two middlewares among them.
    - Middleware.v, MiddlewareProps.v; RateLimit.v, RateLimitProps.v: the package
      middleware.
    - Client.v, ClientProps.v: framework/client.go, with the dispatcher as the
      other end of the stream.
    - Cli.v, CliProps.v: internal/cli/cli.go and the two [main] functions.
    - Certs.v, CertsProps.v: tlsutil/certs.go and pki/pki.go.
    - Chat.v, ChatProps.v: the chat hub of examples/streaming-demo/main.go, as
      goroutines that interleave between the sends of a publisher.
    - World.v: the class [Moves] of computations that change the state shared by
      requests along a relation, its rules and instances, applications whose
      every part does ([MovesApp]), and [serve_streams], the dispatcher run on
      a sequence of streams.
    - Servers.v, ServersProps.v: the handlers of examples/basic-server/main.go,
      the application it registers, and the handlers of cmd/example/main.go
      that reply at once.
    - Users.v, UsersProps.v: the requests for the users of the basic server as
      goroutines that run their locked parts statement by statement, and the
      clients that take their replies or do not.
    - Scan.v: the %d verb of [fmt.Sscanf].  Demos.v, DemosProps.v: the streaming
      handlers of examples/streaming-demo/main.go and cmd/example/main.go.
    - Example.v, ExampleProps.v: the application of cmd/example/main.go and its
      start-up, over Servers.v, Demos.v, Group.v, Middleware.v and RateLimit.v.
    - Hub.v: what can happen to a chat hub, as moves in any order, and what they
      keep.  Room.v, RoomProps.v: the room stream of
      examples/streaming-demo/main.go, which joins the hub of Chat.v to a
      stream; the others act on the hub between any two statements of it.
    - ChatRooms.v, ChatRoomsProps.v: the handlers of any number of room streams
      and the posts as goroutines over the hub of Chat.v, statement by statement.
    - RoomClients.v: the handler of Room.v, run as it is executed, is one of the
      clients of ChatRooms.v.
    - Mtls.v: the application of examples/mtls-pki/main.go.
    - Startup.v, StartupProps.v: the start-up of the two demo servers over
      Certs.v and of the mTLS example, transport/transport.go, and what the
      listeners of framework/app.go listen with.
    - Process.v, ProcessProps.v: the servers as processes, [main] and the
      goroutine of the signal beside the running server, from the call of
      [ListenAddr] to the exit code, a statement at a time.

    ** What the theorems show

    The wire: a frame is accepted exactly when it fits, is read back however the
    stream is fragmented, and the length wraps for encodings of 4 GiB.  Routing:
    [matchSegments] decides the declarative relation, the router picks the first
    registered match, patterns print and parse, a group's routes match under its
    prefix behind its middleware.  Groups: registration through aliasing slices
    refines an alias-free specification as long as no slice with spare capacity
    is shared, and not otherwise.  Replies: whatever a safe application is asked,
    what it writes is a prefix of a well-shaped reply; two situations break the
    documented contract and are theorems too.  Streaming: chunks reach the client
    whole and in order; concurrent calls are linearizable and cannot deadlock.
    Lifecycle: the wait group counts what is in flight, but for a connection
    whose goroutine has not started; cancelled and left alone, the server winds
    down in finitely many steps to the handlers that have not returned and the
    WebTransport listener, [ListenAddr] returns, and [Shutdown] does when no
    handler is left.  Middleware: who may pass the JWT and mTLS
    guards, header rules under any map order, recovery and logging; the rate
    limiter's keys do not influence each other.  Client: requests and replies end
    to end, and the one reply that panics it.  Tools: [quicframe new] never loses
    a file.  Certificates: identities are read back, stay stable and are rotated
    in time, while a self-signed pair is replaced on every start.  Chat: a
    subscriber gets its room's events once each; the hub is free of panics
    exactly as long as nobody leaves while a publisher sends.

    Whole programs, as they run: whoever connects and however the goroutines are
    scheduled, a server's goroutines are a run of the lifecycle, every served
    stream has a prefix of a well-shaped reply, and with [Recovery] outermost no
    request takes the process down ([running_server]).  So the basic server
    survives, its users are numbered from 1 in their order, the initial ones and
    then created ones, and its limiters stay apart.
    The example command answers clients without a token in the same way whatever
    its protected handlers are; the mTLS example greets peers by the name in
    their certificate.  An empty body panics a handler of the example command,
    which survives it ([example_runs]).  The loggers of an application only
    direct its records, and with a nil one no listener gets to serve.  The demo
    servers announce the fingerprint of the certificate they serve, and the two
    ends of a connection agree on its protocol.  An exit code tells how a server
    ended, whatever else ran between the last statements of [main], and one that
    got its signal ends, or waits in [Shutdown] for handlers; the demos
    leave requests unserved when they do, while the example command has at some
    point of its [Shutdown] nothing in flight.

    Concurrent handlers: the users behind their mutex are linearizable in the
    order of the unlocks, and every request is served once the clients take
    their replies; but the mutex is held while a client is served, and one that
    takes nothing stops the others.  The clients of a chat room are written
    their snapshot and then what they receive, and at rest nothing is missing
    but what a full buffer lost, as long as subscriber IDs do not collide and no
    publisher panics; a room remembers its last 120 events, panics or not; the
    handler as it is executed is one of these clients, writing to its stream
    what the system says is written; two that leave at once can cut one's stream
    short.  The validator is made once.

    Streams of the demos: the batch and ticking streams are the documented
    streaming handler on their items, so that its round trip holds of them; the
    ticking ones end at their deadline, the counting one after at most 100
    chunks; a room stream delivers its snapshot and then what it receives, while it
    runs and when it returns, and leaves no subscription behind when it ends, by
    a return or by a panic.

    ** What comes from outside

    Code that is not in the repository is a class, whose laws are its documented
    behaviour, with a concrete instance in the witnesses: [Msgpack] and
    [MsgpackLaws] (vmihailenco/msgpack), [Validator], [JWTLib], [RateLib]
    (golang.org/x/time/rate), [Crypto] (key generation, x509, PEM, SHA-256),
    [Unicode] (the tables for text outside ASCII), [URLAuthority], [Cookies],
    [Growslice] (the capacity [append] chooses), [OS] (faults of file
    operations), [ScanSpace] (spaces outside ASCII in [fmt.Sscanf]), [FormatS]
    (the %s verb on an interface) and [Schedule] (when a ticker and a timer fire).
    [Separate] says that the users and the limiters are different parts of the
    state, and [HasUsers] and [HasLimiters] where they are.  A clock is a function from
    its readings, a map iteration order any permutation, and the peer of a stream decides how it is cut and when it
    is stopped.

    ** Bounds and recursion

    Loops over bytes, segments, rules, calls and items are structural on the
    list they consume, and the unbounded behaviour of goroutines is an inductive
    step relation, whose theorems quantify over every reachable state.  Only the
    loops of Demos.v and Room.v that wait for something from outside, a tick or
    an event, take fuel; a run that is cut off is [None], not a result.  With a
    deadline at the k-th select any fuel above k gives the same result
    ([ticks_terminate]), and Example.v runs its event stream with that much.  A
    room stream may never end: the theorems of RoomProps.v say what it has
    written for every fuel, cut off or not, and what it leaves behind when it
    does end, and that of RoomClients.v is about any run as far as it was
    followed.
    Frame lengths, sequence numbers and durations wrap or saturate at the width
    the code uses.

    ** What is not modelled

    The packages that set up TLS and HTTP/3, which get the configurations of
    Startup.v; the delivery of signals by the system, which happens at any time;
    [time.Sleep]; comments-only files; the JavaScript and Rust SDKs.  The table
    of the routes of the streaming demo, and its ping: the room stream may run
    for ever, so it is no [HandlerFunc], and a table without it would not be the
    program's.  Rates outside the range
    of [int] in the limiter.  In Running.v a stream is dispatched in one step of
    the state shared by requests: a handler is a function from states to states,
    as sequential code is, and its steps are not told apart there.  Where handlers
    really meet, the parts that do are modelled as interleaved goroutines
    instead: the users (Users.v, whose specification is the handlers of
    Servers.v by [handlers_run]), the hub (Chat.v), the room streams
    (ChatRooms.v), a stream's writer (Streaming.v), the limiters (RateLimit.v)
    and the validator (ValidatorOnce.v); every other handler touches its own
    request, the clock and the log only. *)

From stdpp Require Export base gmap strings list fin_maps pretty.
From Stdlib Require Export ZArith Lia.
From Stdlib Require Export Strings.Byte NArith.

(** ** Scope and notations *)

Declare Scope go_scope.
Delimit Scope go_scope with go.

(** A byte, as Go's [byte]; [bytes] is the contents of a [[]byte]. *)
Abbreviation byte := Corelib.Init.Byte.byte.
Abbreviation bytes := (list Corelib.Init.Byte.byte).

(** ** Bytes and fixed-width integers *)

(** Conversions to [uint8], [uint32] and [uint64] wrap around. *)
Definition uint8 (z : Z) : Z := Z.modulo z (2 ^ 8).
Definition uint32 (z : Z) : Z := Z.modulo z (2 ^ 32).
Definition uint64 (z : Z) : Z := Z.modulo z (2 ^ 64).

Definition byte_to_Z (b : byte) : Z := Z.of_N (Byte.to_N b).
Definition byte_of_Z (z : Z) : byte :=
  match Byte.of_N (Z.to_N (uint8 z)) with
  | Some b => b
  | None => Byte.x00
  end.

(** [binary.BigEndian.PutUint32] and [binary.BigEndian.Uint32]. *)
Definition PutUint32 (v : Z) : bytes :=
  [byte_of_Z (Z.shiftr v 24); byte_of_Z (Z.shiftr v 16);
   byte_of_Z (Z.shiftr v 8); byte_of_Z v].

Definition Uint32 (b : bytes) : Z :=
  match b with
  | b0 :: b1 :: b2 :: b3 :: _ =>
      Z.lor (byte_to_Z b3)
        (Z.lor (Z.shiftl (byte_to_Z b2) 8)
           (Z.lor (Z.shiftl (byte_to_Z b1) 16) (Z.shiftl (byte_to_Z b0) 24)))
  | _ => 0%Z
  end.

#[global] Arguments PutUint32 : simpl never.
#[global] Arguments Uint32 : simpl never.

(** ** Automation *)

Create HintDb qf discriminated.
Create Rewrite HintDb qf.

(** Split a hypothesis or goal into its conjuncts and existentials, then
    simplify equations between constructors. *)
Ltac unpack :=
  repeat match goal with
    | H : _ /\ _ |- _ => destruct H
    | H : exists _, _ |- _ => destruct H
    end; simplify_eq/=.

(** Case analysis on the innermost [match] scrutinee of the goal, remembering
    the equation, until none is left. *)
Ltac cases :=
  repeat (case_match; simplify_eq/=; try done).

(** ** Lemmas on bytes *)

Lemma byte_to_Z_range b : (0 <= byte_to_Z b < 256)%Z.
Proof.
  unfold byte_to_Z. pose proof (Byte.to_N_bounded b) as H.
  change 255%N with (N.pred 256) in H. lia.
Qed.

Lemma byte_of_Z_to_Z z : byte_to_Z (byte_of_Z z) = uint8 z.
Proof.
  unfold byte_of_Z, byte_to_Z, uint8.
  pose proof (Z.mod_pos_bound z (2 ^ 8) ltac:(lia)) as Hb.
  destruct (Byte.of_N (Z.to_N (z mod 2 ^ 8))) as [b|] eqn:E.
  - apply Byte.to_of_N in E. rewrite E. lia.
  - apply Byte.of_N_None_iff in E. lia.
Qed.

Lemma byte_to_Z_inj a b : byte_to_Z a = byte_to_Z b -> a = b.
Proof.
  unfold byte_to_Z. intros H. apply N2Z.inj in H.
  pose proof (Byte.of_to_N a) as Ha. rewrite H, Byte.of_to_N in Ha. congruence.
Qed.

Lemma byte_to_Z_of_Z b : byte_of_Z (byte_to_Z b) = b.
Proof.
  apply byte_to_Z_inj. rewrite byte_of_Z_to_Z. unfold uint8.
  apply Z.mod_small, byte_to_Z_range.
Qed.

(** Joining a low part below [2 ^ k] with a shifted high part is addition. *)
Lemma lor_shiftl_add lo hi k :
  (0 <= k)%Z -> (0 <= lo < 2 ^ k)%Z -> Z.lor lo (Z.shiftl hi k) = (lo + hi * 2 ^ k)%Z.
Proof.
  intros Hk Hlo. rewrite Z.shiftl_mul_pow2 by lia.
  assert (Z.land lo (hi * 2 ^ k) = 0)%Z as Hland.
  { apply Z.bits_inj'; intros i Hi. rewrite Z.land_spec, Z.bits_0.
    destruct (Z.lt_ge_cases i k) as [Hlt|Hge].
    - by rewrite Z.mul_pow2_bits_low, andb_false_r by lia.
    - rewrite <- (Z.mod_small lo (2 ^ k)) by lia.
      by rewrite Z.mod_pow2_bits_high by lia. }
  by rewrite <- Z.lxor_lor, <- Z.add_nocarry_lxor.
Qed.

Lemma Uint32_arith b0 b1 b2 b3 rest :
  Uint32 (b0 :: b1 :: b2 :: b3 :: rest) =
  (byte_to_Z b3 + 256 * (byte_to_Z b2 + 256 * (byte_to_Z b1 + 256 * byte_to_Z b0)))%Z.
Proof.
  unfold Uint32.
  pose proof (byte_to_Z_range b0); pose proof (byte_to_Z_range b1).
  pose proof (byte_to_Z_range b2); pose proof (byte_to_Z_range b3).
  change 24%Z with (8 + 16)%Z. rewrite <- (Z.shiftl_shiftl _ 8 16) by lia.
  rewrite <- (Z.shiftl_lor _ _ 16), (lor_shiftl_add (byte_to_Z b1)) by lia.
  change 16%Z with (8 + 8)%Z. rewrite <- (Z.shiftl_shiftl _ 8 8) by lia.
  rewrite <- (Z.shiftl_lor _ _ 8), (lor_shiftl_add (byte_to_Z b2)) by lia.
  rewrite lor_shiftl_add by lia. lia.
Qed.

(** The big-endian encoding of a [uint32] decodes to it. *)
Lemma Uint32_PutUint32 v rest :
  (0 <= v < 2 ^ 32)%Z -> Uint32 (PutUint32 v ++ rest) = v.
Proof.
  intros Hv. unfold PutUint32. rewrite <- !app_comm_cons, Uint32_arith.
  rewrite !byte_of_Z_to_Z. unfold uint8. rewrite !Z.shiftr_div_pow2 by lia.
  Z.div_mod_to_equations. lia.
Qed.

Lemma PutUint32_Uint32 b0 b1 b2 b3 :
  PutUint32 (Uint32 [b0; b1; b2; b3]) = [b0; b1; b2; b3].
Proof.
  rewrite Uint32_arith. unfold PutUint32.
  pose proof (byte_to_Z_range b0); pose proof (byte_to_Z_range b1).
  pose proof (byte_to_Z_range b2); pose proof (byte_to_Z_range b3).
  rewrite !Z.shiftr_div_pow2 by lia.
  repeat f_equal; apply byte_to_Z_inj; rewrite byte_of_Z_to_Z; unfold uint8;
    Z.div_mod_to_equations; lia.
Qed.

(** [PutUint32] stores the low 32 bits. *)
Lemma PutUint32_uint32 v : PutUint32 (uint32 v) = PutUint32 v.
Proof.
  unfold PutUint32, uint32. rewrite !Z.shiftr_div_pow2 by lia.
  assert (forall a b, uint8 a = uint8 b -> byte_of_Z a = byte_of_Z b) as Hext.
  { unfold byte_of_Z. by intros a b ->. }
  f_equal; [|f_equal; [|f_equal; [|f_equal]]]; apply Hext; unfold uint8;
    Z.div_mod_to_equations; lia.
Qed.

Lemma Uint32_range b : (0 <= Uint32 b < 2 ^ 32)%Z.
Proof.
  destruct b as [|b0 [|b1 [|b2 [|b3 rest]]]]; try (unfold Uint32; lia).
  rewrite Uint32_arith.
  pose proof (byte_to_Z_range b0); pose proof (byte_to_Z_range b1).
  pose proof (byte_to_Z_range b2); pose proof (byte_to_Z_range b3). lia.
Qed.

Lemma length_PutUint32 v : length (PutUint32 v) = 4.
Proof. done. Qed.

#[export] Hint Resolve byte_to_Z_range Uint32_range : qf.
#[export] Hint Rewrite byte_of_Z_to_Z byte_to_Z_of_Z length_PutUint32 : qf.

#[export] Instance byte_eq_dec : EqDecision byte.
Proof. intros a b. destruct (Byte.byte_eq_dec a b); [by left|by right]. Defined.

#[export] Instance byte_countable : Countable byte.
Proof.
  refine (inj_countable Byte.to_N Byte.of_N _).
  intros b. apply Byte.of_to_N.
Defined.
