(* ===== verification/GoStd.v ===== *)
(** * Go's standard library, as far as the program uses it

    The [strings] functions of the router, the CLI and the middleware, the
    printing verbs of [fmt], and the error values.  Go strings are byte
    strings: [string] is Rocq's, one [ascii] per byte.  The functions that
    fall back on the Unicode tables for non-ASCII input take those tables
    from the class [Unicode]; on ASCII input they are fully defined. *)

From S2P Require Import Prelude.
From Stdlib Require Import Ascii.

Local Open Scope string_scope.

#[global] Arguments String.append !_ _ / : simpl nomatch.

(** ** The error values of the program *)

(** One failed validation rule (framework/validation.go). *)
Record FieldError := mkFieldError {
  fe_Field : string;
  fe_Tag : string;
  fe_Value : string;
}.

Record ValidationError := mkValidationError { ve_Fields : list FieldError }.

(** What an [error] interface holds: the standard library's sentinels and the
    system's errors, a
    formatted error without and with a wrapped cause, and the program's own
    [*ValidationError]. *)
Inductive error :=
  | EOF
  | ErrUnexpectedEOF
  | ErrNoCookie
  | ENOENT
  | EISDIR
  | ENOTDIR
  | errorString (msg : string)
  | wrapError (prefix : string) (cause : error)
  | validationError (e : ValidationError).

(** [errors.Is(err, os.ErrNotExist)]. *)
Fixpoint Is_ErrNotExist (e : error) : bool :=
  match e with
  | ENOENT => true
  | wrapError _ cause => Is_ErrNotExist cause
  | _ => false
  end.

(** A Go [(T, error)] pair: exactly one of the two is meaningful. *)
Inductive result (A : Type) :=
  | Ok (a : A)
  | Err (e : error).
Arguments Ok {A} a.
Arguments Err {A} e.

(** ** Interface values *)

(** Values of the dynamic type [A] among the interface values [V]. *)
Class Boxed (A V : Type) := {
  box : A -> V;
  unbox : V -> option A;
  unbox_box a : unbox (box a) = Some a;
  box_unbox v a : unbox v = Some a -> v = box a;
}.

(** ** Strings *)

(** [strings.HasPrefix]. *)
Fixpoint HasPrefix (s p : string) {struct p} : bool :=
  match p with
  | "" => true
  | String b p =>
      match s with
      | "" => false
      | String a s => (a =? b)%char && HasPrefix s p
      end
  end.

(** [s[n:]]. *)
Fixpoint drop_str (n : nat) (s : string) : string :=
  match n, s with
  | S n, String _ s => drop_str n s
  | _, _ => s
  end.

(** [strings.IndexByte] and [strings.LastIndexByte]; not found is [None]. *)
Fixpoint IndexByte (s : string) (c : ascii) : option nat :=
  match s with
  | EmptyString => None
  | String a s => if (a =? c)%char then Some 0%nat else S <$> IndexByte s c
  end.

Fixpoint LastIndexByte (s : string) (c : ascii) : option nat :=
  match s with
  | EmptyString => None
  | String a s =>
      match LastIndexByte s c with
      | Some i => Some (S i)
      | None => if (a =? c)%char then Some 0%nat else None
      end
  end.

(** [strings.Contains] with a one-byte pattern. *)
Fixpoint Contains (c : ascii) (s : string) : bool :=
  match s with
  | "" => false
  | String a s => (a =? c)%char || Contains c s
  end.

(** [strings.Cut] around a one-byte separator. *)
Fixpoint Cut (s : string) (c : ascii) : string * string * bool :=
  match s with
  | "" => ("", "", false)
  | String a s =>
      if (a =? c)%char then ("", s, true)
      else let '(before, after, found) := Cut s c in
           (String a before, after, found)
  end.

(** [strings.Split] at a one-byte separator. *)
Fixpoint Split (s : string) (c : ascii) : list string :=
  match s with
  | "" => [""]
  | String a s =>
      if (a =? c)%char then "" :: Split s c
      else match Split s c with
           | h :: t => String a h :: t
           | [] => [String a ""]
           end
  end.

(** [strings.Join]. *)
Fixpoint Join (l : list string) (sep : string) : string :=
  match l with
  | [] => ""
  | [x] => x
  | x :: l => x +:+ sep +:+ Join l sep
  end.

(** [strings.Trim] with a one-byte cutset. *)
Fixpoint TrimLeft (s : string) (c : ascii) : string :=
  match s with
  | "" => ""
  | String a s' => if (a =? c)%char then TrimLeft s' c else s
  end.

Fixpoint TrimRight (s : string) (c : ascii) : string :=
  match s with
  | "" => ""
  | String a s' =>
      match TrimRight s' c with
      | "" => if (a =? c)%char then "" else String a ""
      | r => String a r
      end
  end.

Definition Trim (s : string) (c : ascii) : string := TrimRight (TrimLeft s c) c.

(** ** ASCII and Unicode case and space *)

Definition is_ascii (a : ascii) : bool := (nat_of_ascii a <? 128)%nat.

Fixpoint ascii_only (s : string) : bool :=
  match s with
  | "" => true
  | String a s => is_ascii a && ascii_only s
  end.

Definition in_range (lo hi a : ascii) : bool :=
  (nat_of_ascii lo <=? nat_of_ascii a)%nat && (nat_of_ascii a <=? nat_of_ascii hi)%nat.

Definition upper (a : ascii) : ascii :=
  if in_range "a" "z" a then ascii_of_nat (nat_of_ascii a - 32) else a.
Definition lower (a : ascii) : ascii :=
  if in_range "A" "Z" a then ascii_of_nat (nat_of_ascii a + 32) else a.

Fixpoint map_str (f : ascii -> ascii) (s : string) : string :=
  match s with
  | "" => ""
  | String a s => String (f a) (map_str f s)
  end.

(** The Unicode tables, applied to strings that are not all ASCII. *)
Class Unicode := {
  mapToUpper : string -> string;
  mapToLower : string -> string;
  trimFuncSpace : string -> string;
  trimRightFuncSpace : string -> string;
  quoteWide : string -> string;
}.

Definition ToUpper `{Unicode} (s : string) : string :=
  if ascii_only s then map_str upper s else mapToUpper s.
Definition ToLower `{Unicode} (s : string) : string :=
  if ascii_only s then map_str lower s else mapToLower s.

(** [asciiSpace]: tab, newline, vertical tab, form feed, return, space. *)
Definition ascii_space (a : ascii) : bool :=
  let n := nat_of_ascii a in ((9 <=? n)%nat && (n <=? 13)%nat) || (n =? 32)%nat.

(** Skip ASCII spaces; [true] when a non-ASCII byte stopped the scan. *)
Fixpoint skip_space (s : string) : bool * string :=
  match s with
  | "" => (false, "")
  | String a s' =>
      if negb (is_ascii a) then (true, s)
      else if ascii_space a then skip_space s' else (false, s)
  end.

(** [strings.TrimSpace]: the ASCII fast path, then the Unicode one. *)
Definition TrimSpace `{Unicode} (s : string) : string :=
  let '(wide, s1) := skip_space s in
  if wide then trimFuncSpace s1
  else let '(wide, s2) := skip_space (String.rev s1) in
       if wide then trimRightFuncSpace (String.rev s2) else String.rev s2.

(** ** Formatting *)

(** The [%d] verb. *)
Definition fmt_d (z : Z) : string := pretty z.

Definition hex_digit (n : nat) : ascii :=
  if (n <? 10)%nat then ascii_of_nat (48 + n) else ascii_of_nat (87 + n).

(** [hex.EncodeToString], and the [%x] verb on a byte slice. *)
Definition hex_string (b : bytes) : string :=
  foldr (fun x s =>
    let n := N.to_nat (Byte.to_N x) in
    String (hex_digit (n / 16)) (String (hex_digit (n mod 16)) s)) "" b.

Definition quote_char (a : ascii) : string :=
  let n := nat_of_ascii a in
  let esc (c : ascii) := String (ascii_of_nat 92) (String c "") in
  if (n =? 34)%nat || (n =? 92)%nat then esc a
  else if (32 <=? n)%nat && (n <? 127)%nat then String a ""
  else match n with
       | 7 => esc "a"%char | 8 => esc "b"%char | 9 => esc "t"%char | 10 => esc "n"%char
       | 11 => esc "v"%char | 12 => esc "f"%char | 13 => esc "r"%char
       | _ => String (ascii_of_nat 92)
                (String "x"%char (String (hex_digit (n / 16)) (String (hex_digit (n mod 16)) "")))
       end.

Fixpoint quote_body (s : string) : string :=
  match s with
  | "" => ""
  | String a s => quote_char a +:+ quote_body s
  end.

(** The [%q] verb. *)
Definition Quote `{Unicode} (s : string) : string :=
  if ascii_only s
  then String (ascii_of_nat 34) (quote_body s +:+ String (ascii_of_nat 34) "")
  else quoteWide s.

(** [(e *ValidationError) Error()] on a non-nil receiver. *)
Definition FieldError_part (f : FieldError) : string :=
  if negb (String.eqb (fe_Value f) "")
  then fe_Field f +:+ " failed " +:+ fe_Tag f +:+ "=" +:+ fe_Value f
  else fe_Field f +:+ " failed " +:+ fe_Tag f.

Definition ValidationError_Error (e : ValidationError) : string :=
  match ve_Fields e with
  | [] => "validation failed"
  | fields => "validation failed: " +:+ Join (map FieldError_part fields) ", "
  end.

(** The [Error()] method of every error value. *)
Fixpoint Error_string (e : error) : string :=
  match e with
  | EOF => "EOF"
  | ErrUnexpectedEOF => "unexpected EOF"
  | ErrNoCookie => "http: named cookie not present"
  | ENOENT => "no such file or directory"
  | EISDIR => "is a directory"
  | ENOTDIR => "not a directory"
  | errorString msg => msg
  | wrapError prefix cause => prefix +:+ Error_string cause
  | validationError v => ValidationError_Error v
  end.

(** A table that knows no character outside ASCII. *)
Definition ascii_tables : Unicode := {|
  mapToUpper := map_str upper;
  mapToLower := map_str lower;
  trimFuncSpace := fun s => s;
  trimRightFuncSpace := fun s => s;
  quoteWide := fun s => s;
|}.

(** ** Lemmas on strings *)

Lemma ascii_eqb_true (a b : ascii) : (a =? b)%char = true <-> a = b.
Proof. apply Ascii.eqb_eq. Qed.

Lemma ascii_eqb_refl (a : ascii) : (a =? a)%char = true.
Proof. apply Ascii.eqb_refl. Qed.

Lemma Split_not_nil s c : Split s c <> [].
Proof. destruct s as [|a s]; simpl; [done|]. destruct (a =? c)%char; [done|]. by destruct (Split s c). Qed.

Lemma Split_cons_sep s c : Split (String c s) c = "" :: Split s c.
Proof. simpl. by rewrite ascii_eqb_refl. Qed.

Lemma Split_cons_other a s c h t :
  a <> c -> Split s c = h :: t -> Split (String a s) c = String a h :: t.
Proof.
  intros Hne Hs. simpl. rewrite Hs. destruct (Ascii.eqb_spec a c); done.
Qed.

Lemma Split_no_sep s c : Contains c s = false -> Split s c = [s].
Proof.
  induction s as [|a s IH]; simpl; [done|]. intros [Ha Hs]%orb_false_iff.
  by rewrite Ha, IH.
Qed.

Lemma Join_cons x l sep : l <> [] -> Join (x :: l) sep = x +:+ sep +:+ Join l sep.
Proof. by destruct l. Qed.

Lemma append_char c s : String c "" +:+ s = String c s.
Proof. done. Qed.

Lemma append_nil_r s : s +:+ "" = s.
Proof. induction s as [|a s IH]; [done|]. simpl. by rewrite IH. Qed.

Lemma append_assoc s1 s2 s3 : (s1 +:+ s2) +:+ s3 = s1 +:+ s2 +:+ s3.
Proof. induction s1 as [|a s IH]; [done|]. simpl. by rewrite IH. Qed.

(** Splitting at a separator and joining with it gives the string back. *)
Lemma Join_Split s c : Join (Split s c) (String c "") = s.
Proof.
  induction s as [|a s IH]; [done|].
  destruct (Ascii.eqb_spec a c) as [->|Hne].
  - rewrite Split_cons_sep, Join_cons by apply Split_not_nil. simpl. by rewrite IH.
  - destruct (Split s c) as [|h t] eqn:E; [by apply Split_not_nil in E|].
    rewrite (Split_cons_other _ _ _ h t) by done.
    destruct t as [|t0 t]; simpl in *; by rewrite IH.
Qed.

Lemma Split_app_sep x s c :
  Contains c x = false -> Split (x +:+ String c s) c = x :: Split s c.
Proof.
  induction x as [|a x IH]; intros Hx.
  - apply Split_cons_sep.
  - simpl in Hx. apply orb_false_iff in Hx as [Ha Hx].
    simpl. by rewrite Ha, IH.
Qed.

Lemma Split_app s t c : Split (s +:+ String c t) c = (Split s c ++ Split t c)%list.
Proof.
  induction s as [|a s IH]; [apply Split_cons_sep|].
  cbn. destruct (a =? c)%char; [by rewrite IH|]. rewrite IH.
  pose proof (Split_not_nil s c). by destruct (Split s c).
Qed.

(** Joining separator-free segments and splitting gives the segments back. *)
Lemma Split_Join l c :
  l <> [] -> Forall (fun x => Contains c x = false) l -> Split (Join l (String c "")) c = l.
Proof.
  induction l as [|x l IH]; [done|]. intros _ Hall. inversion Hall as [|? ? Hx Hl]; subst.
  destruct l as [|y l].
  - by apply Split_no_sep.
  - rewrite Join_cons by done. rewrite append_char, Split_app_sep by done. f_equal. by apply IH.
Qed.

Lemma Split_Contains s c : Forall (fun x => Contains c x = false) (Split s c).
Proof.
  induction s as [|a s IH]; simpl; [by repeat constructor|].
  destruct (a =? c)%char eqn:E; [by constructor|].
  destruct (Split s c) as [|h t]; inversion IH; subst; constructor; simpl; rewrite ?E; done.
Qed.

(** [k] copies of one byte. *)
Fixpoint repeat_char (c : ascii) (k : nat) : string :=
  match k with
  | O => ""
  | S k => String c (repeat_char c k)
  end.

Lemma TrimLeft_repeat c k s : TrimLeft (repeat_char c k +:+ s) c = TrimLeft s c.
Proof. induction k as [|k IH]; simpl; [done|]. by rewrite ascii_eqb_refl. Qed.

Lemma TrimRight_all c k : TrimRight (repeat_char c k) c = "".
Proof. induction k as [|k IH]; simpl; [done|]. by rewrite IH, ascii_eqb_refl. Qed.

Lemma TrimRight_repeat c k s : TrimRight (s +:+ repeat_char c k) c = TrimRight s c.
Proof.
  induction s as [|a s IH]; simpl; [apply TrimRight_all|]. by rewrite IH.
Qed.

Lemma TrimLeft_id s c : HasPrefix s (String c "") = false -> TrimLeft s c = s.
Proof.
  destruct s as [|a s]; [done|]. simpl. rewrite andb_true_r. by intros ->.
Qed.

Lemma TrimLeft_app s c k :
  TrimRight (TrimLeft (s +:+ repeat_char c k) c) c = TrimRight (TrimLeft s c) c.
Proof.
  induction s as [|a s IH].
  - simpl. replace (repeat_char c k) with (repeat_char c k +:+ "") by apply append_nil_r.
    by rewrite TrimLeft_repeat.
  - simpl. destruct (a =? c)%char eqn:E; [done|].
    apply (TrimRight_repeat c k (String a s)).
Qed.

(** Trimming ignores any number of the cut byte at either end. *)
Lemma Trim_repeat c i j s :
  Trim (repeat_char c i +:+ s +:+ repeat_char c j) c = Trim s c.
Proof. unfold Trim. by rewrite TrimLeft_repeat, TrimLeft_app. Qed.

(** A part of a joined list: not empty, without the separator. *)
Definition plain (c : ascii) (s : string) : Prop := Contains c s = false /\ s <> "".

Lemma TrimRight_app_nonempty s t c :
  TrimRight t c <> "" -> TrimRight (s +:+ t) c = s +:+ TrimRight t c.
Proof.
  intros Ht. induction s as [|a s IH]; cbn; [done|]. rewrite IH.
  destruct (s +:+ TrimRight t c) eqn:E; [|done].
  destruct s; [|done]. cbn in E. congruence.
Qed.

Lemma TrimRight_plain c s : plain c s -> TrimRight s c = s.
Proof.
  intros [Hc Hne]. clear Hne. induction s as [|a s IH]; [done|]. cbn in *.
  apply orb_false_iff in Hc as [Ha Hs]. rewrite (IH Hs), Ha. by destruct s.
Qed.

Lemma Trim_Join c l :
  Forall (plain c) l -> Trim (Join l (String c "")) c = Join l (String c "").
Proof.
  intros Hl. unfold Trim. rewrite TrimLeft_id.
  - induction Hl as [|x l Hx Hl IH]; [done|].
    destruct l as [|y l]; [by apply TrimRight_plain|].
    rewrite Join_cons by done. rewrite <- append_assoc, TrimRight_app_nonempty; [by rewrite IH|].
    rewrite IH. inversion Hl as [|? ? [_ Hy] _]; subst.
    destruct l; cbn; [done|]. by destruct y.
  - destruct Hl as [|x l [Hc Hx] Hl]; [done|]. destruct x as [|a x]; [done|].
    cbn in Hc. apply orb_false_iff in Hc as [Ha _].
    destruct l; cbn; by rewrite Ha.
Qed.

Lemma Join_app (l1 l2 : list string) sep :
  l1 <> [] -> l2 <> [] -> Join (l1 ++ l2)%list sep = Join l1 sep +:+ sep +:+ Join l2 sep.
Proof.
  induction l1 as [|x [|y l1] IH]; intros H1 H2; [done|by cbn [app]; rewrite Join_cons|].
  change ((x :: y :: l1) ++ l2)%list with (x :: ((y :: l1) ++ l2))%list.
  rewrite Join_cons, IH by done. rewrite (Join_cons x (y :: l1)) by done.
  by rewrite <- !append_assoc.
Qed.

#[export] Hint Rewrite append_nil_r append_assoc ascii_eqb_refl : qf.
#[export] Hint Resolve Split_not_nil Split_Contains : qf.

(** ** Upper case *)

Lemma upper_idem a : upper (upper a) = upper a.
Proof. destruct a as [[] [] [] [] [] [] [] []]; reflexivity. Qed.

Lemma upper_ascii a : is_ascii (upper a) = is_ascii a.
Proof. destruct a as [[] [] [] [] [] [] [] []]; reflexivity. Qed.

Lemma ascii_only_upper s : ascii_only (map_str upper s) = ascii_only s.
Proof. induction s as [|a s IH]; simpl; [done|]. by rewrite IH, upper_ascii. Qed.

Lemma ToUpper_idem `{Unicode} s : ascii_only s = true -> ToUpper (ToUpper s) = ToUpper s.
Proof.
  intros Hs. unfold ToUpper. rewrite Hs, ascii_only_upper, Hs.
  clear Hs. induction s as [|a s IH]; simpl; [done|]. by rewrite IH, upper_idem.
Qed.

Lemma HasPrefix_drop s p : HasPrefix s p = true -> s = p +:+ drop_str (String.length p) s.
Proof.
  revert s. induction p as [|b p IH]; intros s Hp; [done|].
  destruct s as [|a s]; [done|]. cbn in Hp.
  apply andb_true_iff in Hp as [->%ascii_eqb_true Hp]. cbn. by rewrite <- IH.
Qed.
