(* ===== verification/NetURL.v ===== *)
(** * [net/url]: the request-target parser the dispatcher calls

    [dispatchStream] (framework/app.go) parses [req.Path] with [url.Parse]
    and reads the result's [Path] and [Query()].  This file models those parts
    of the standard library.  The validity of a [//authority] component, whose
    value the program never reads, comes from the class [URLAuthority]. *)

From S2P Require Import Prelude GoStd.
From Stdlib Require Import Ascii.

Local Open Scope string_scope.

(** ** Data *)

(** The fields of [url.URL] the program reads. *)
Record URL := mkURL { Path : string; RawQuery : string }.

(** [url.Values]: the values of a key, in order. *)
Abbreviation Values := (gmap string (list string)).

Definition Values_Get (v : Values) (key : string) : string :=
  match v !! key with
  | Some (x :: _) => x
  | _ => ""
  end.

Class URLAuthority := { authority_ok : string -> bool }.

(** ** Escapes *)

Definition unhex (a : ascii) : option nat :=
  let n := nat_of_ascii a in
  if in_range "0" "9" a then Some (n - 48)
  else if in_range "a" "f" a then Some (n - 87)
  else if in_range "A" "F" a then Some (n - 55)
  else None.

(** [unescape] in the path, fragment ([plus = false]) and query component
    ([plus = true]) modes; [None] is an [EscapeError]. *)
Fixpoint unescape (plus : bool) (s : string) : option string :=
  match s with
  | "" => Some ""
  | String a s' =>
      if (a =? "%")%char then
        match s' with
        | String h (String l s'') =>
            match unhex h, unhex l with
            | Some vh, Some vl =>
                String (ascii_of_nat (16 * vh + vl)) <$> unescape plus s''
            | _, _ => None
            end
        | _ => None
        end
      else if plus && (a =? "+")%char then String " " <$> unescape plus s'
      else String a <$> unescape plus s'
  end.

(** ** [url.Parse] *)

Definition is_ctl (a : ascii) : bool :=
  let n := nat_of_ascii a in (n <? 32)%nat || (n =? 127)%nat.

Fixpoint has_ctl (s : string) : bool :=
  match s with
  | "" => false
  | String a s => is_ctl a || has_ctl s
  end.

Definition scheme_letter (a : ascii) : bool := in_range "a" "z" a || in_range "A" "Z" a.
Definition scheme_other (a : ascii) : bool :=
  in_range "0" "9" a || (a =? "+")%char || (a =? "-")%char || (a =? ".")%char.

(** The loop of [getScheme] past its first byte: the scheme's rest and what
    follows the colon, or [None] when there is no scheme. *)
Fixpoint scheme_tail (s : string) : option (string * string) :=
  match s with
  | "" => None
  | String a s' =>
      if (a =? ":")%char then Some ("", s')
      else if scheme_letter a || scheme_other a then
        match scheme_tail s' with
        | Some (sch, rest) => Some (String a sch, rest)
        | None => None
        end
      else None
  end.

(** [getScheme]: [None] is the error "missing protocol scheme". *)
Definition getScheme (raw : string) : option (string * string) :=
  match raw with
  | "" => Some ("", "")
  | String a s =>
      if (a =? ":")%char then None
      else if scheme_letter a then
        match scheme_tail s with
        | Some (sch, rest) => Some (String a sch, rest)
        | None => Some ("", raw)
        end
      else Some ("", raw)
  end.

Section Parse.
Context `{URLAuthority}.

(** [rest] after the scheme and the query are cut off. *)
Definition parse_path (scheme rest : string) : option string :=
  if negb (HasPrefix rest "/") then
    if negb (String.eqb scheme "") then Some ""          (* opaque *)
    else if Contains ":" (Cut rest "/").1.1 then None
    else unescape false rest
  else if (negb (String.eqb scheme "") || negb (HasPrefix rest "///"))
            && HasPrefix rest "//" then
    let '(authority, after, found) := Cut (drop_str 2 rest) "/" in
    if authority_ok authority
    then unescape false (if found then String "/" after else "")
    else None
  else unescape false rest.

(** [parse(rawURL, false)].  A trailing [?] alone sets [ForceQuery], which
    the program does not read: the query is empty either way. *)
Definition parse (raw : string) : option URL :=
  if has_ctl raw then None
  else if String.eqb raw "*" then Some (mkURL "*" "")
  else
    match getScheme raw with
    | None => None
    | Some (scheme, rest) =>
        let '(path, query, _) := Cut rest "?" in
        p ← parse_path scheme path; Some (mkURL p query)
    end.

Definition Parse (raw : string) : option URL :=
  let '(u, frag, _) := Cut raw "#" in
  url ← parse u;
  if String.eqb frag "" then Some url
  else _ ← unescape false frag; Some url.
End Parse.

(** ** [(u *URL) Query()]

    Pieces with a semicolon or a malformed escape are dropped, as [Query]
    ignores [ParseQuery]'s error. *)
Definition add_pair (m : Values) (piece : string) : Values :=
  if Contains ";" piece then m
  else if String.eqb piece "" then m
  else
    let '(key, value, _) := Cut piece "=" in
    match unescape true key, unescape true value with
    | Some k, Some v => <[k := (default [] (m !! k) ++ [v])%list]> m
    | _, _ => m
    end.

Definition ParseQuery (query : string) : Values := foldl add_pair ∅ (Split query "&").

Definition Query (u : URL) : Values := ParseQuery (RawQuery u).

(** ** Lemmas *)

Lemma Cut_app_sep s t c : Contains c s = false -> Cut (s +:+ String c t) c = (s, t, true).
Proof.
  induction s as [|a s IH]; simpl; intros Hs.
  - by rewrite ascii_eqb_refl.
  - apply orb_false_iff in Hs as [Ha Hs]. by rewrite Ha, IH.
Qed.

Lemma Cut_no_sep s c : Contains c s = false -> Cut s c = (s, "", false).
Proof.
  induction s as [|a s IH]; simpl; intros Hs; [done|].
  apply orb_false_iff in Hs as [Ha Hs]. by rewrite Ha, IH.
Qed.

Lemma Contains_app c s t : Contains c (s +:+ t) = Contains c s || Contains c t.
Proof. induction s as [|a s IH]; simpl; [done|]. by rewrite IH, orb_assoc. Qed.

Lemma has_ctl_app s t : has_ctl (s +:+ t) = has_ctl s || has_ctl t.
Proof. induction s as [|a s IH]; simpl; [done|]. by rewrite IH, orb_assoc. Qed.

(** The scheme scan stops at the first [?], so a query cannot change it. *)
Lemma scheme_tail_query s q :
  Contains "?" s = false ->
  scheme_tail (s +:+ String "?" q) =
  match scheme_tail s with
  | Some (sch, rest) => Some (sch, rest +:+ String "?" q)
  | None => None
  end.
Proof.
  induction s as [|a s IH]; simpl; intros Hs; [done|].
  apply orb_false_iff in Hs as [Ha Hs]. rewrite (IH Hs).
  destruct (a =? ":")%char; [done|].
  destruct (scheme_letter a || scheme_other a); [|done].
  by destruct (scheme_tail s) as [[sch rest]|].
Qed.

Lemma getScheme_query s q :
  Contains "?" s = false ->
  getScheme (s +:+ String "?" q) =
  match getScheme s with
  | Some (sch, rest) => Some (sch, rest +:+ String "?" q)
  | None => None
  end.
Proof.
  destruct s as [|a s]; simpl; intros Hs; [done|].
  apply orb_false_iff in Hs as [Ha Hs]. rewrite (scheme_tail_query _ _ Hs).
  destruct (a =? ":")%char; [done|]. destruct (scheme_letter a); [|done].
  by destruct (scheme_tail s) as [[sch rest]|].
Qed.

Lemma scheme_tail_rest s sch rest c :
  scheme_tail s = Some (sch, rest) -> Contains c s = false -> Contains c rest = false.
Proof.
  revert sch. induction s as [|a s IH]; simpl; intros sch; [done|].
  intros Hs [Ha Hc]%orb_false_iff. destruct (a =? ":")%char; [congruence|].
  destruct (scheme_letter a || scheme_other a); [|done].
  destruct (scheme_tail s) as [[sch' rest']|]; [|done]. simplify_eq. by eapply IH.
Qed.

Lemma getScheme_rest s sch rest c :
  getScheme s = Some (sch, rest) -> Contains c s = false -> Contains c rest = false.
Proof.
  destruct s as [|a s]; simpl; [intros; simplify_eq; done|].
  intros Hs Hc. pose proof Hc as [Ha Hc']%orb_false_iff.
  destruct (a =? ":")%char; [done|]. destruct (scheme_letter a); [|simplify_eq; exact Hc].
  destruct (scheme_tail s) as [[sch' rest']|] eqn:E; simplify_eq; [|exact Hc].
  by eapply scheme_tail_rest.
Qed.

(** Appending a query to a request target that has none changes nothing but
    [RawQuery]. *)
Lemma Parse_with_query `{URLAuthority} p q :
  Contains "?" p = false -> Contains "#" p = false ->
  Contains "#" q = false -> has_ctl q = false ->
  Parse (p +:+ String "?" q) = (fun u => mkURL (Path u) q) <$> Parse p.
Proof.
  intros Hp Hfp Hfq Hctl. unfold Parse.
  rewrite Cut_no_sep by (rewrite Contains_app; simpl; by rewrite Hfp, Hfq).
  rewrite Cut_no_sep by done. simpl.
  unfold parse. rewrite has_ctl_app. simpl. rewrite Hctl, orb_false_r.
  destruct (has_ctl p) eqn:Hcp; [done|].
  destruct (String.eqb_spec p "*") as [->|Hstar]; [done|].
  destruct (String.eqb_spec (p +:+ String "?" q) "*") as [Heq|_].
  { destruct p as [|a [|b p]]; simpl in Heq; congruence. }
  rewrite getScheme_query by done.
  destruct (getScheme p) as [[sch rest]|] eqn:Hs; [|done].
  pose proof (getScheme_rest _ _ _ "?" Hs Hp) as Hr.
  rewrite Cut_app_sep, Cut_no_sep by done.
  by destruct (parse_path sch rest).
Qed.

(** A plain absolute path: no authority, no escape, no query, no fragment. *)
Definition plain_path (p : string) : bool :=
  HasPrefix p "/" && negb (HasPrefix p "//") && negb (has_ctl p)
  && negb (Contains "%" p) && negb (Contains "?" p) && negb (Contains "#" p).

Lemma unescape_plain p : Contains "%" p = false -> unescape false p = Some p.
Proof.
  induction p as [|a p IH]; simpl; [done|]. intros [Ha Hp]%orb_false_iff.
  rewrite Ha. simpl. by rewrite IH.
Qed.

Lemma Parse_plain `{URLAuthority} p :
  plain_path p = true -> Parse p = Some (mkURL p "").
Proof.
  unfold plain_path. rewrite !andb_true_iff, !negb_true_iff.
  intros [[[[[H1 H2] Hctl] Hpct] Hq] Hf].
  unfold Parse. rewrite Cut_no_sep by done. simpl. unfold parse. rewrite Hctl.
  destruct p as [|a p]; [done|].
  assert (a = "/"%char) as ->.
  { simpl in H1. rewrite andb_true_r in H1. by apply ascii_eqb_true. }
  simpl String.eqb. cbv iota. simpl getScheme. cbv iota beta.
  rewrite Cut_no_sep by done. unfold parse_path. rewrite H1, H2.
  cbn [negb]. rewrite andb_false_r, unescape_plain by done. done.
Qed.
