(* ===== verification/Wire.v ===== *)
(** * The wire protocol (protocol/types.go, protocol/codec.go)

    Frame types, payload structs, and the length-prefixed codec over a QUIC
    stream.  MsgPack itself is a third-party package: the class [Msgpack] is
    its interface and [MsgpackLaws] its documented round trips.

    The stream under the codec is modelled as the reader's pending chunks
    (every [Read] returns one chunk or a part of it, then the final error) and
    the writer's accepted bytes: a send stream takes bytes until the peer or
    the transport stops it ([room]), and every later write fails. *)

From S2P Require Import Prelude GoStd.

Local Open Scope string_scope.
Local Open Scope list_scope.

(** ** Frame types and constants *)

Abbreviation FrameType := byte.

Definition FrameTypeRequest : FrameType := Byte.x01.
Definition FrameTypeResponse : FrameType := Byte.x02.
Definition FrameTypeStreamData : FrameType := Byte.x03.
Definition FrameTypeStreamEnd : FrameType := Byte.x04.
Definition FrameTypeError : FrameType := Byte.x05.
Definition FrameTypePing : FrameType := Byte.x06.
Definition FrameTypePong : FrameType := Byte.x07.

Definition StatusOK : Z := 200.
Definition StatusCreated : Z := 201.
Definition StatusAccepted : Z := 202.
Definition StatusNoContent : Z := 204.
Definition StatusBadRequest : Z := 400.
Definition StatusUnauthorized : Z := 401.
Definition StatusForbidden : Z := 403.
Definition StatusNotFound : Z := 404.
Definition StatusMethodNotAllowed : Z := 405.
Definition StatusConflict : Z := 409.
Definition StatusUnprocessableEntity : Z := 422.
Definition StatusTooManyRequests : Z := 429.
Definition StatusInternalServerError : Z := 500.
Definition StatusNotImplemented : Z := 501.
Definition StatusServiceUnavailable : Z := 503.

(** 64 MiB. *)
Definition MaxFrameSize : Z := (64 * 1024 * 1024)%Z.

(** ** Payloads: a nil map or slice is [None] *)

Abbreviation Headers := (option (gmap string string)).

Record Request := mkRequest {
  req_ID : string;
  req_Method : string;
  req_Path : string;
  req_Headers : Headers;
  req_Body : option bytes;
  req_Stream : bool;
}.

Record Response := mkResponse {
  resp_ID : string;
  resp_Status : Z;
  resp_Headers : Headers;
  resp_Body : option bytes;
  resp_Stream : bool;
}.

Record StreamChunk := mkStreamChunk {
  chunk_ID : string;
  chunk_Seq : Z;
  chunk_Data : option bytes;
  chunk_Final : bool;
}.

Record ErrorFrame := mkErrorFrame {
  ef_ID : string;
  ef_Code : Z;
  ef_Message : string;
  ef_Data : option bytes;
}.

Record PingFrame := mkPingFrame { ping_Timestamp : Z }.

(** What the program passes to [msgpack.Marshal]; [V] is the type of the
    values an application stores in an [interface{}], a nil interface being
    [None]. *)
Inductive payload (V : Type) :=
  | PRequest (r : Request)
  | PResponse (r : Response)
  | PChunk (c : StreamChunk)
  | PError (e : ErrorFrame)
  | PPing (p : PingFrame)
  | PValue (v : option V).
Arguments PRequest {V} r.
Arguments PResponse {V} r.
Arguments PChunk {V} c.
Arguments PError {V} e.
Arguments PPing {V} p.
Arguments PValue {V} v.

(** ** MsgPack *)

Class Msgpack (V : Type) := {
  Marshal : payload V -> result bytes;
  UnmarshalRequest : bytes -> result Request;
  UnmarshalResponse : bytes -> result Response;
  UnmarshalStreamChunk : bytes -> result StreamChunk;
  UnmarshalErrorFrame : bytes -> result ErrorFrame;
  (** Decoding into an existing destination: its new content and the error. *)
  UnmarshalInto : bytes -> V -> V * option error;
}.

(** The [omitempty] fields: an empty map or slice decodes as nil. *)
Definition omitempty_headers (h : Headers) : Headers :=
  match h with
  | Some m => if decide (m = ∅) then None else Some m
  | None => None
  end.
Definition omitempty_bytes (b : option bytes) : option bytes :=
  match b with
  | Some [] => None
  | _ => b
  end.

Definition norm_request (r : Request) : Request :=
  mkRequest (req_ID r) (req_Method r) (req_Path r)
    (omitempty_headers (req_Headers r)) (omitempty_bytes (req_Body r)) (req_Stream r).
Definition norm_response (r : Response) : Response :=
  mkResponse (resp_ID r) (resp_Status r)
    (omitempty_headers (resp_Headers r)) (omitempty_bytes (resp_Body r)) (resp_Stream r).
Definition norm_error (e : ErrorFrame) : ErrorFrame :=
  mkErrorFrame (ef_ID e) (ef_Code e) (ef_Message e) (omitempty_bytes (ef_Data e)).

Class MsgpackLaws (V : Type) `{Msgpack V} : Prop := {
  unmarshal_request r b :
    Marshal (PRequest r) = Ok b -> UnmarshalRequest b = Ok (norm_request r);
  unmarshal_response r b :
    Marshal (PResponse r) = Ok b -> UnmarshalResponse b = Ok (norm_response r);
  unmarshal_chunk c b :
    Marshal (PChunk c) = Ok b -> UnmarshalStreamChunk b = Ok c;
  unmarshal_error e b :
    Marshal (PError e) = Ok b -> UnmarshalErrorFrame b = Ok (norm_error e);
}.

(** ** Streams *)

Record stream := mkStream {
  in_chunks : list bytes;
  in_err : error;
  out : bytes;
  room : option nat;
  out_err : error;
}.

Definition set_in (s : stream) (c : list bytes) : stream :=
  mkStream c (in_err s) (out s) (room s) (out_err s).
Definition set_out (s : stream) (o : bytes) (r : option nat) : stream :=
  mkStream (in_chunks s) (in_err s) o r (out_err s).

(** [w.Write(p)]. *)
Definition Write (s : stream) (p : bytes) : option error * stream :=
  match room s with
  | None => (None, set_out s (out s ++ p) None)
  | Some r =>
      if (length p <=? r)%nat
      then (None, set_out s (out s ++ p) (Some (r - length p)%nat))
      else (Some (out_err s), set_out s (out s ++ take r p) (Some 0%nat))
  end.

(** The loop of [io.ReadAtLeast]: each iteration reads from one chunk. *)
Fixpoint read_loop (chunks : list bytes) (need : nat) (got : bytes) : bytes * list bytes :=
  match need with
  | O => (got, chunks)
  | _ =>
      match chunks with
      | [] => (got, [])
      | c :: cs =>
          if (length c <=? need)%nat
          then read_loop cs (need - length c) (got ++ c)
          else (got ++ take need c, drop need c :: cs)
      end
  end.

(** The error of a read that ended after [got], too early. *)
Definition short_read (got : bytes) (err : error) : error :=
  match got, err with
  | _ :: _, EOF => ErrUnexpectedEOF
  | _, e => e
  end.

(** [io.ReadFull(r, buf)] with [len(buf) = n]. *)
Definition ReadFull (s : stream) (n : nat) : result bytes * stream :=
  let '(got, rest) := read_loop (in_chunks s) n [] in
  if (length got <? n)%nat
  then (Err (short_read got (in_err s)), set_in s rest)
  else (Ok got, set_in s rest).

(** ** The codec *)

Section Codec.
Context {V : Type} `{Msgpack V}.

Definition WriteFrame (w : stream) (frameType : FrameType) (p : payload V)
    : option error * stream :=
  match Marshal p with
  | Err e => (Some (wrapError "quicframe/protocol: marshal: " e), w)
  | Ok encoded =>
      let frameLen := uint32 (1 + Z.of_nat (length encoded)) in
      if (MaxFrameSize <? frameLen)%Z
      then (Some (errorString ("quicframe/protocol: payload too large (" +:+
              fmt_d frameLen +:+ " bytes)")), w)
      else
        match Write w (PutUint32 frameLen) with
        | (Some e, w) => (Some (wrapError "quicframe/protocol: write header: " e), w)
        | (None, w) =>
            match Write w [frameType] with
            | (Some e, w) => (Some (wrapError "quicframe/protocol: write type: " e), w)
            | (None, w) =>
                match Write w encoded with
                | (Some e, w) => (Some (wrapError "quicframe/protocol: write payload: " e), w)
                | (None, w) => (None, w)
                end
            end
        end
  end.

(** [buf] has [frameLen >= 1] bytes, so [buf[0]] and [buf[1:]] exist. *)
Definition ReadFrame (r : stream) : result (FrameType * bytes) * stream :=
  match ReadFull r 4 with
  | (Err e, r) => (Err (wrapError "quicframe/protocol: read header: " e), r)
  | (Ok header, r) =>
      let frameLen := Uint32 header in
      if (frameLen =? 0)%Z || (MaxFrameSize <? frameLen)%Z
      then (Err (errorString ("quicframe/protocol: invalid frame length " +:+
              fmt_d frameLen)), r)
      else
        match ReadFull r (Z.to_nat frameLen) with
        | (Err e, r) => (Err (wrapError "quicframe/protocol: read body: " e), r)
        | (Ok buf, r) => (Ok (hd Byte.x00 buf, tl buf), r)
        end
  end.

Definition DecodeRequest (data : bytes) : result Request :=
  match UnmarshalRequest data with
  | Err e => Err (wrapError "quicframe/protocol: decode request: " e)
  | Ok req => Ok req
  end.

Definition DecodeResponse (data : bytes) : result Response :=
  match UnmarshalResponse data with
  | Err e => Err (wrapError "quicframe/protocol: decode response: " e)
  | Ok resp => Ok resp
  end.

Definition DecodeStreamChunk (data : bytes) : result StreamChunk :=
  match UnmarshalStreamChunk data with
  | Err e => Err (wrapError "quicframe/protocol: decode stream chunk: " e)
  | Ok chunk => Ok chunk
  end.

Definition DecodeError (data : bytes) : result ErrorFrame :=
  match UnmarshalErrorFrame data with
  | Err e => Err (wrapError "quicframe/protocol: decode error: " e)
  | Ok ef => Ok ef
  end.

Definition WriteError (w : stream) (requestID : string) (code : Z) (message : string)
    (data : option bytes) : option error * stream :=
  WriteFrame w FrameTypeError (PError (mkErrorFrame requestID code message data)).
End Codec.

(** ** Specification of the codec: a frame is a byte string *)

Definition frame_bytes (ft : FrameType) (enc : bytes) : bytes :=
  PutUint32 (1 + Z.of_nat (length enc)) ++ [ft] ++ enc.

#[global] Arguments frame_bytes : simpl never.

(** An encoding that fits a frame. *)
Definition fits (enc : bytes) : Prop := (1 + Z.of_nat (length enc) <= MaxFrameSize)%Z.

(** An encoding that passes [WriteFrame]'s size check, made in [uint32]. *)
Definition accepted (enc : bytes) : Prop :=
  (uint32 (1 + Z.of_nat (length enc)) <= MaxFrameSize)%Z.

(** The bytes a reader still has to deliver, whatever their fragmentation. *)
Definition pending (s : stream) : bytes := concat (in_chunks s).

(** [ReadFull] on a byte string ended by [err]. *)
Definition take_full (err : error) (data : bytes) (n : nat) : result bytes * bytes :=
  if (length data <? n)%nat
  then (Err (short_read data err), [])
  else (Ok (take n data), drop n data).

(** [ReadFrame] on a byte string. *)
Definition parse_frame (err : error) (data : bytes) : result (FrameType * bytes) * bytes :=
  match take_full err data 4 with
  | (Err e, data) => (Err (wrapError "quicframe/protocol: read header: " e), data)
  | (Ok header, data) =>
      let frameLen := Uint32 header in
      if (frameLen =? 0)%Z || (MaxFrameSize <? frameLen)%Z
      then (Err (errorString ("quicframe/protocol: invalid frame length " +:+
              fmt_d frameLen)), data)
      else
        match take_full err data (Z.to_nat frameLen) with
        | (Err e, data) => (Err (wrapError "quicframe/protocol: read body: " e), data)
        | (Ok buf, data) => (Ok (hd Byte.x00 buf, tl buf), data)
        end
  end.

(** Successive [ReadFrame] calls, until one fails or [n] frames are read. *)
Fixpoint ReadFrames (n : nat) (s : stream) : list (FrameType * bytes) * stream :=
  match n with
  | O => ([], s)
  | S n =>
      match ReadFrame s with
      | (Ok f, s) => let '(fs, s) := ReadFrames n s in (f :: fs, s)
      | (Err _, s) => ([], s)
      end
  end.

(** Successive [WriteFrame] calls, whatever they return. *)
Definition WriteFrames {V : Type} `{Msgpack V} (w : stream)
    (ps : list (FrameType * payload V)) : stream :=
  foldl (fun w p => (WriteFrame w p.1 p.2).2) w ps.

(** ** Writing *)

Lemma set_out_set_out s o r o' r' : set_out (set_out s o r) o' r' = set_out s o' r'.
Proof. done. Qed.

(** Writing a concatenation is writing the parts, stopping at the first failure. *)
Lemma Write_app s p q :
  Write s (p ++ q) =
  match Write s p with
  | (Some e, s') => (Some e, s')
  | (None, s') => Write s' q
  end.
Proof.
  unfold Write. destruct (room s) as [r|] eqn:Hr.
  - rewrite length_app. destruct (Nat.leb_spec (length p) r) as [Hp|Hp]; simpl.
    + destruct (Nat.leb_spec (length q) (r - length p)) as [Hq|Hq].
      * rewrite (proj2 (Nat.leb_le _ _)) by lia. rewrite set_out_set_out. simpl.
        rewrite app_assoc. do 3 f_equal. lia.
      * rewrite (proj2 (Nat.leb_gt _ _)) by lia. rewrite set_out_set_out. simpl.
        rewrite take_app, (take_ge p) by lia. by rewrite app_assoc.
    + rewrite (proj2 (Nat.leb_gt _ _)) by lia.
      rewrite take_app. replace (r - length p)%nat with 0%nat by lia.
      by rewrite take_0, app_nil_r.
  - simpl. by rewrite set_out_set_out, app_assoc.
Qed.

Lemma Write_in s p : in_chunks (Write s p).2 = in_chunks s /\ in_err (Write s p).2 = in_err s.
Proof. unfold Write. destruct (room s); [case_match|]; done. Qed.

(** What [Write] delivers: everything, or a proper prefix and then silence. *)
Lemma Write_out s p :
  exists lost,
    out s ++ p = out (Write s p).2 ++ lost /\
    (lost <> [] -> room (Write s p).2 = Some 0%nat) /\
    ((Write s p).1 = None <-> lost = []).
Proof.
  unfold Write. destruct (room s) as [r|] eqn:Hr.
  - destruct (Nat.leb_spec (length p) r); simpl.
    + exists []. rewrite app_nil_r. done.
    + exists (drop r p). rewrite <- app_assoc, take_drop. split_and!; [done..|].
      split; [done|]. intros Hd. apply (f_equal length) in Hd.
      rewrite length_drop in Hd. simpl in Hd. lia.
  - exists []. simpl. rewrite app_nil_r. done.
Qed.

Lemma uint32_small z : (0 <= z < 2 ^ 32)%Z -> uint32 z = z.
Proof. apply Z.mod_small. Qed.

Lemma fits_uint32 enc :
  fits enc -> uint32 (1 + Z.of_nat (length enc)) = (1 + Z.of_nat (length enc))%Z.
Proof. unfold fits, MaxFrameSize. intros. apply uint32_small. lia. Qed.

Lemma fits_accepted enc : fits enc -> accepted enc.
Proof. intros Hf. unfold accepted. by rewrite fits_uint32. Qed.

#[export] Hint Resolve fits_accepted : qf.

Section WriteFacts.
Context {V : Type} `{Msgpack V}.

(** A frame that passes the size check is written as one block of bytes. *)
Lemma WriteFrame_write s ft p enc :
  Marshal p = Ok enc -> accepted enc ->
  (WriteFrame s ft p).2 = (Write s (frame_bytes ft enc)).2 /\
  ((WriteFrame s ft p).1 = None <-> (Write s (frame_bytes ft enc)).1 = None).
Proof.
  intros HM Hf. unfold WriteFrame. rewrite HM.
  rewrite (proj2 (Z.ltb_ge _ _)) by exact Hf. rewrite PutUint32_uint32.
  unfold frame_bytes. rewrite !Write_app.
  destruct (Write s (PutUint32 _)) as [[e|] s1]; [done|].
  rewrite Write_app.
  destruct (Write s1 [ft]) as [[e|] s2]; [done|].
  by destruct (Write s2 enc) as [[e|] s3].
Qed.

(** The two outcomes of [WriteFrame]: refused, or written as a frame. *)
Lemma WriteFrame_cases s ft p :
  (exists e, WriteFrame s ft p = (Some e, s)) \/
  (exists enc, Marshal p = Ok enc /\ accepted enc /\
     (WriteFrame s ft p).2 = (Write s (frame_bytes ft enc)).2 /\
     ((WriteFrame s ft p).1 = None <-> (Write s (frame_bytes ft enc)).1 = None)).
Proof.
  destruct (Marshal p) as [enc|e] eqn:HM.
  - destruct (decide (uint32 (1 + Z.of_nat (length enc)) <= MaxFrameSize)%Z) as [Ha|Ha].
    + right. exists enc. destruct (WriteFrame_write s ft p enc HM Ha). done.
    + left. unfold WriteFrame. rewrite HM, (proj2 (Z.ltb_lt _ _)) by lia. by eexists.
  - left. unfold WriteFrame. rewrite HM. by eexists.
Qed.

(** With no failing write, the output grows by the frame. *)
Lemma WriteFrame_ok s ft p enc :
  Marshal p = Ok enc -> accepted enc -> room s = None ->
  WriteFrame s ft p = (None, set_out s (out s ++ frame_bytes ft enc) None).
Proof.
  intros HM Hf Hr. destruct (WriteFrame_write s ft p enc HM Hf) as [H2 H1].
  rewrite (surjective_pairing (WriteFrame s ft p)), H2.
  unfold Write in *. rewrite Hr in *. simpl in *. by rewrite (proj2 H1 eq_refl).
Qed.

Lemma WriteFrames_ok s (ps : list (FrameType * payload V)) encs :
  Forall2 (fun p e => Marshal p.2 = Ok e /\ accepted e) ps encs -> room s = None ->
  WriteFrames s ps =
    set_out s (out s ++ concat (map (fun f => frame_bytes f.1 f.2) (zip (map fst ps) encs))) None.
Proof.
  intros Hall. revert s. induction Hall as [|[ft p] e ps encs [HM Ha] _ IH]; intros s Hr.
  - cbn. rewrite app_nil_r, <- Hr. by destruct s.
  - cbn [WriteFrames foldl fst snd] in *. rewrite (WriteFrame_ok _ _ _ _ HM Ha Hr). cbn [snd].
    change (foldl _ ?x ps) with (WriteFrames x ps). rewrite IH by done.
    cbn. by rewrite set_out_set_out, <- app_assoc.
Qed.

(** A payload that does not marshal, or does not fit and is shorter than
    [2 ^ 32 - 1] bytes, leaves the stream untouched. *)
Lemma WriteFrame_marshal_error s ft p e :
  Marshal p = Err e ->
  WriteFrame s ft p = (Some (wrapError "quicframe/protocol: marshal: " e), s).
Proof. intros HM. unfold WriteFrame. by rewrite HM. Qed.

Lemma WriteFrame_too_large s ft p enc :
  Marshal p = Ok enc -> ~ fits enc -> (1 + Z.of_nat (length enc) < 2 ^ 32)%Z ->
  exists msg, WriteFrame s ft p = (Some (errorString msg), s).
Proof.
  intros HM Hf Hl. unfold WriteFrame. rewrite HM, uint32_small by lia.
  rewrite (proj2 (Z.ltb_lt _ _)) by (unfold fits in Hf; lia). by eexists.
Qed.

Lemma WriteFrame_in s ft p :
  in_chunks (WriteFrame s ft p).2 = in_chunks s /\
  in_err (WriteFrame s ft p).2 = in_err s.
Proof.
  unfold WriteFrame. destruct (Marshal p) as [enc|e]; [|done]. case_match; [done|].
  destruct (Write s _) as [[e|] s1] eqn:E1;
    pose proof (Write_in s (PutUint32 (uint32 (1 + Z.of_nat (length enc))))) as H1;
    rewrite E1 in H1; [done|].
  destruct (Write s1 _) as [[e|] s2] eqn:E2;
    pose proof (Write_in s1 [ft]) as H2; rewrite E2 in H2; simpl in *; [intuition congruence|].
  destruct (Write s2 _) as [[e|] s3] eqn:E3;
    pose proof (Write_in s2 enc) as H3; rewrite E3 in H3; simpl in *; intuition congruence.
Qed.
End WriteFacts.

(** ** Reading *)

Lemma read_loop_spec chunks need got :
  let '(data, rest) := read_loop chunks need got in
  data = got ++ take need (concat chunks) /\ concat rest = drop need (concat chunks).
Proof.
  revert need got. induction chunks as [|c cs IH]; intros need got.
  - destruct need; simpl; by rewrite app_nil_r.
  - destruct need as [|need].
    + simpl. by rewrite app_nil_r.
    + simpl read_loop. destruct (Nat.leb_spec (length c) (S need)) as [Hl|Hl].
      * specialize (IH (S need - length c)%nat (got ++ c)).
        destruct (read_loop cs _ _) as [data rest]. destruct IH as [-> ->].
        simpl concat. rewrite take_app, drop_app.
        rewrite (take_ge c), (drop_ge c) by lia. by rewrite <- app_assoc.
      * simpl concat. rewrite take_app, drop_app.
        replace (S need - length c)%nat with 0%nat by lia.
        by rewrite take_0, drop_0, app_nil_r.
Qed.

(** [ReadFull] depends on the pending bytes only. *)
Lemma ReadFull_spec s n :
  (ReadFull s n).1 = (take_full (in_err s) (pending s) n).1 /\
  pending (ReadFull s n).2 = (take_full (in_err s) (pending s) n).2 /\
  in_err (ReadFull s n).2 = in_err s /\ out (ReadFull s n).2 = out s /\
  room (ReadFull s n).2 = room s.
Proof.
  unfold ReadFull, take_full, pending. pose proof (read_loop_spec (in_chunks s) n []) as Hl.
  destruct (read_loop (in_chunks s) n []) as [data rest]. destruct Hl as [Hd Hr].
  simpl in Hd. subst data. rewrite length_take.
  destruct (Nat.ltb_spec (length (concat (in_chunks s))) n) as [Hlt|Hge].
  - rewrite (proj2 (Nat.ltb_lt _ _)) by lia. simpl. rewrite Hr, take_ge, drop_ge by lia.
    done.
  - rewrite (proj2 (Nat.ltb_ge _ _)) by lia. simpl. done.
Qed.

(** The reader sees the bytes, not their fragmentation into chunks. *)
Lemma ReadFrame_parse s :
  (ReadFrame s).1 = (parse_frame (in_err s) (pending s)).1 /\
  pending (ReadFrame s).2 = (parse_frame (in_err s) (pending s)).2 /\
  in_err (ReadFrame s).2 = in_err s /\ out (ReadFrame s).2 = out s /\
  room (ReadFrame s).2 = room s.
Proof.
  unfold ReadFrame, parse_frame.
  destruct (ReadFull_spec s 4) as (H1 & H2 & H3 & H4 & H5).
  destruct (ReadFull s 4) as [[hdr|e] s1], (take_full _ _ 4) as [[hdr'|e'] d1];
    simpl in *; simplify_eq; [|done].
  case_match; [done|].
  destruct (ReadFull_spec s1 (Z.to_nat (Uint32 hdr'))) as (K1 & K2 & K3 & K4 & K5).
  rewrite H3 in K1, K2.
  destruct (ReadFull s1 _) as [[buf|e] s2], (take_full _ (pending s1) _) as [[buf'|e'] d2];
    simpl in *; simplify_eq; split_and!; congruence.
Qed.

Lemma take_full_ge err data n :
  (n <= length data)%nat -> take_full err data n = (Ok (take n data), drop n data).
Proof. intros. unfold take_full. by rewrite (proj2 (Nat.ltb_ge _ _)). Qed.

Lemma take_full_lt err data n :
  (length data < n)%nat ->
  take_full err data n =
    (Err (short_read data err), []).
Proof. intros. unfold take_full. by rewrite (proj2 (Nat.ltb_lt _ _)). Qed.

(** Parsing inverts [frame_bytes], and leaves what follows the frame. *)
Lemma parse_frame_bytes err ft enc rest :
  fits enc -> parse_frame err (frame_bytes ft enc ++ rest) = (Ok (ft, enc), rest).
Proof.
  intros Hf. pose proof Hf as Hf'. unfold fits, MaxFrameSize in Hf'.
  unfold parse_frame, frame_bytes. rewrite <- !app_assoc.
  set (n := (1 + Z.of_nat (length enc))%Z) in *.
  rewrite take_full_ge by (rewrite length_app; simpl; lia).
  replace (take 4 _) with (PutUint32 n ++ []) by done.
  rewrite Uint32_PutUint32 by lia.
  rewrite (proj2 (Z.eqb_neq _ _)), (proj2 (Z.ltb_ge _ _)) by (unfold MaxFrameSize; lia).
  cbn [orb]. replace (drop 4 _) with ([ft] ++ enc ++ rest) by done.
  assert (Z.to_nat n = length ([ft] ++ enc)) as -> by (simpl; lia).
  rewrite take_full_ge by (rewrite !length_app; simpl; lia).
  rewrite app_assoc, take_app_length, drop_app_length. done.
Qed.

Lemma parse_frame_length err data ft enc rest :
  parse_frame err data = (Ok (ft, enc), rest) -> fits enc /\ data = frame_bytes ft enc ++ rest.
Proof.
  unfold parse_frame, take_full.
  destruct (Nat.ltb_spec (length data) 4) as [|Hlen]; [done|].
  destruct data as [|b0 [|b1 [|b2 [|b3 data]]]]; simpl in Hlen; try lia. clear Hlen.
  change (take 4 _) with [b0; b1; b2; b3]. change (drop 4 _) with data.
  set (n := Uint32 [b0; b1; b2; b3]). cbv zeta iota beta.
  destruct (_ || _)%bool eqn:Hn; [done|].
  apply orb_false_iff in Hn as [Hn0 Hn1].
  apply Z.eqb_neq in Hn0. apply Z.ltb_ge in Hn1.
  pose proof (Uint32_range [b0; b1; b2; b3]). fold n in H.
  destruct (Nat.ltb_spec (length data) (Z.to_nat n)) as [|Hlen]; [done|].
  pose proof (take_drop (Z.to_nat n) data) as Htd.
  pose proof (length_take data (Z.to_nat n)) as Hlt.
  destruct (take (Z.to_nat n) data) as [|x xs]; simpl in Hlt; [lia|].
  intros Heq. simplify_eq/=. unfold fits, frame_bytes.
  replace (1 + Z.of_nat (length enc))%Z with n by lia.
  split; [lia|]. subst n. pose proof (PutUint32_Uint32 b0 b1 b2 b3) as HP.
  unfold PutUint32 in HP |- *. simpl. congruence.
Qed.

(** Successive reads of frames laid end to end. *)
Lemma ReadFrames_pending (frames : list (FrameType * bytes)) (s : stream) rest :
  Forall (fun f => fits f.2) frames ->
  pending s = concat (map (fun f => frame_bytes f.1 f.2) frames) ++ rest ->
  (ReadFrames (length frames) s).1 = frames /\
  pending (ReadFrames (length frames) s).2 = rest.
Proof.
  revert s. induction frames as [|[ft enc] frames IH]; intros s Hall Hs; [done|].
  inversion Hall as [|? ? Hfit Hall']; subst. cbn in Hs, Hfit |- *.
  destruct (ReadFrame_parse s) as (H1 & H2 & _).
  rewrite Hs, <- app_assoc, parse_frame_bytes in H1, H2 by done. simpl in H1, H2.
  destruct (ReadFrame s) as [res s1]. simpl in *. subst res.
  destruct (IH s1 Hall' H2) as [HI1 HI2].
  destruct (ReadFrames (length frames) s1) as [fs s2]. simpl in *. by subst.
Qed.
