(* ===== verification/RefCodec.v ===== *)
(** * A reference codec

    A concrete instance of [Msgpack] (Wire.v) that satisfies [MsgpackLaws]: it
    shows the laws can hold and makes the model executable on concrete
    requests.  It is not MsgPack: a payload is a tag byte and the bits of its
    stdpp encoding, one per byte.  Application values are strings, and the
    value ["chan"] plays the part of one that cannot be marshalled. *)

From S2P Require Import Prelude GoStd Wire.

Local Open Scope string_scope.
Local Open Scope list_scope.

Fixpoint pos_to_bytes (p : positive) : bytes :=
  match p with
  | xH => []
  | xO p => Byte.x00 :: pos_to_bytes p
  | xI p => Byte.x01 :: pos_to_bytes p
  end.

Fixpoint bytes_to_pos (b : bytes) : positive :=
  match b with
  | [] => xH
  | Byte.x00 :: b => xO (bytes_to_pos b)
  | _ :: b => xI (bytes_to_pos b)
  end.

Definition tagged {A : Type} `{Countable A} (tag : byte) (a : A) : bytes :=
  tag :: pos_to_bytes (encode a).

Definition untag {A : Type} `{Countable A} (tag : byte) (b : bytes) : result A :=
  match b with
  | t :: b =>
      if decide (t = tag) then
        match decode (bytes_to_pos b) with
        | Some a => Ok a
        | None => Err (errorString "malformed payload")
        end
      else Err (errorString "unexpected payload")
  | [] => Err EOF
  end.

Definition request_tuple (r : Request) :=
  (req_ID r, req_Method r, req_Path r, req_Headers r, req_Body r, req_Stream r).
Definition response_tuple (r : Response) :=
  (resp_ID r, resp_Status r, resp_Headers r, resp_Body r, resp_Stream r).
Definition chunk_tuple (c : StreamChunk) :=
  (chunk_ID c, chunk_Seq c, chunk_Data c, chunk_Final c).
Definition error_tuple (e : ErrorFrame) := (ef_ID e, ef_Code e, ef_Message e, ef_Data e).

Definition map_result {A B : Type} (f : A -> B) (r : result A) : result B :=
  match r with
  | Ok a => Ok (f a)
  | Err e => Err e
  end.

Definition ref_marshal (p : payload string) : result bytes :=
  match p with
  | PRequest r => Ok (tagged Byte.x01 (request_tuple (norm_request r)))
  | PResponse r => Ok (tagged Byte.x02 (response_tuple (norm_response r)))
  | PChunk c => Ok (tagged Byte.x03 (chunk_tuple c))
  | PError e => Ok (tagged Byte.x05 (error_tuple (norm_error e)))
  | PPing p => Ok (tagged Byte.x06 (ping_Timestamp p))
  | PValue v =>
      if bool_decide (v = Some "chan")
      then Err (errorString "msgpack: Encode(unsupported chan)")
      else Ok (tagged Byte.x08 v)
  end.

#[export] Instance ref_codec : Msgpack string := {|
  Marshal := ref_marshal;
  UnmarshalRequest b :=
    map_result (fun '(i, m, p, h, bd, s) => mkRequest i m p h bd s)
      (untag Byte.x01 b);
  UnmarshalResponse b :=
    map_result (fun '(i, st, h, bd, s) => mkResponse i st h bd s) (untag Byte.x02 b);
  UnmarshalStreamChunk b :=
    map_result (fun '(i, q, d, f) => mkStreamChunk i q d f) (untag Byte.x03 b);
  UnmarshalErrorFrame b :=
    map_result (fun '(i, c, m, d) => mkErrorFrame i c m d) (untag Byte.x05 b);
  UnmarshalInto b v :=
    match untag Byte.x08 b with
    | Ok v' => (default "" v', None)
    | Err e => (v, Some e)
    end;
|}.

(** The encoding of a payload, for concrete examples. *)
Definition encoding (p : payload string) : bytes :=
  match ref_marshal p with
  | Ok b => b
  | Err _ => []
  end.

Definition sample_request : Request :=
  mkRequest "r1" "GET" "/ping" (Some {["x-tenant-id" := "acme"]}) None false.

(** A stream with these chunks to read and a healthy writer. *)
Definition reading (chunks : list bytes) : stream := mkStream chunks EOF [] None EOF.

(** A codec whose encoding of any application value has [2 ^ 32 + 4] bytes. *)
Definition huge_encoding : bytes := replicate (Z.to_nat (2 ^ 32 + 4)) Byte.x00.

Definition huge_codec : Msgpack string := {|
  Marshal p := match p with PValue _ => Ok huge_encoding | p => ref_marshal p end;
  UnmarshalRequest := UnmarshalRequest;
  UnmarshalResponse := UnmarshalResponse;
  UnmarshalStreamChunk := UnmarshalStreamChunk;
  UnmarshalErrorFrame := UnmarshalErrorFrame;
  UnmarshalInto := UnmarshalInto;
|}.

Lemma bytes_to_pos_to_bytes p : bytes_to_pos (pos_to_bytes p) = p.
Proof. induction p as [p IH|p IH|]; simpl; by rewrite ?IH. Qed.

Lemma untag_tagged {A : Type} `{Countable A} tag (a : A) : untag tag (tagged tag a) = Ok a.
Proof.
  unfold untag, tagged. rewrite decide_True by done.
  by rewrite bytes_to_pos_to_bytes, decode_encode.
Qed.

#[export] Instance ref_codec_laws : MsgpackLaws string.
Proof.
  split.
  - intros r b Hb. simpl in Hb. simplify_eq.
    cbn [UnmarshalRequest ref_codec]. by rewrite untag_tagged.
  - intros r b Hb. simpl in Hb. simplify_eq.
    cbn [UnmarshalResponse ref_codec]. by rewrite untag_tagged.
  - intros c b Hb. simpl in Hb. simplify_eq.
    cbn [UnmarshalStreamChunk ref_codec]. rewrite untag_tagged. by destruct c.
  - intros e b Hb. simpl in Hb. simplify_eq.
    cbn [UnmarshalErrorFrame ref_codec]. by rewrite untag_tagged.
Qed.

Lemma length_huge_encoding : Z.of_nat (length huge_encoding) = (2 ^ 32 + 4)%Z.
Proof. unfold huge_encoding. rewrite length_replicate, Z2Nat.id; lia. Qed.

(** ** Interface values

    A value type with dynamic types: strings, byte slices and the values of
    one more type, which do not marshal. *)

Inductive iface (T : Type) :=
  | IString (s : string)
  | IBytes (b : bytes)
  | IOther (t : T).
Arguments IString {T} s.
Arguments IBytes {T} b.
Arguments IOther {T} t.

Section Iface.
Context {T : Type}.

#[export] Instance iface_codec : Msgpack (iface T) | 10 := {|
  Marshal p :=
    match p with
    | PRequest r => ref_marshal (PRequest r)
    | PResponse r => ref_marshal (PResponse r)
    | PChunk c => ref_marshal (PChunk c)
    | PError e => ref_marshal (PError e)
    | PPing p => ref_marshal (PPing p)
    | PValue None => ref_marshal (PValue None)
    | PValue (Some (IString s)) => ref_marshal (PValue (Some s))
    | PValue (Some (IBytes b)) => Ok (tagged Byte.x09 b)
    | PValue (Some (IOther _)) => Err (errorString "msgpack: Encode(unsupported type)")
    end;
  UnmarshalRequest := UnmarshalRequest (Msgpack := ref_codec);
  UnmarshalResponse := UnmarshalResponse (Msgpack := ref_codec);
  UnmarshalStreamChunk := UnmarshalStreamChunk (Msgpack := ref_codec);
  UnmarshalErrorFrame := UnmarshalErrorFrame (Msgpack := ref_codec);
  UnmarshalInto b v :=
    match v with
    | IString s => let '(s, err) := UnmarshalInto (Msgpack := ref_codec) b s in (IString s, err)
    | _ => (v, Some (errorString "msgpack: Decode(unsupported type)"))
    end;
|}.

#[export] Instance iface_codec_laws : MsgpackLaws (iface T) | 10.
Proof.
  split.
  - intros r b. exact (unmarshal_request (V := string) r b).
  - intros r b. exact (unmarshal_response (V := string) r b).
  - intros c b. exact (unmarshal_chunk (V := string) c b).
  - intros e b. exact (unmarshal_error (V := string) e b).
Qed.

Definition as_string (v : iface T) : option string :=
  match v with IString s => Some s | _ => None end.
Definition as_bytes (v : iface T) : option bytes :=
  match v with IBytes b => Some b | _ => None end.
Definition as_other (v : iface T) : option T :=
  match v with IOther t => Some t | _ => None end.

Lemma as_string_inv v s : as_string v = Some s -> v = IString s.
Proof. destruct v; intros; by simplify_eq/=. Qed.
Lemma as_bytes_inv v b : as_bytes v = Some b -> v = IBytes b.
Proof. destruct v; intros; by simplify_eq/=. Qed.
Lemma as_other_inv v t : as_other v = Some t -> v = IOther t.
Proof. destruct v; intros; by simplify_eq/=. Qed.

#[export] Instance boxed_string : Boxed string (iface T) :=
  {| box := IString; unbox := as_string; unbox_box s := eq_refl; box_unbox := as_string_inv |}.
#[export] Instance boxed_bytes : Boxed bytes (iface T) :=
  {| box := IBytes; unbox := as_bytes; unbox_box b := eq_refl; box_unbox := as_bytes_inv |}.
#[export] Instance boxed_other : Boxed T (iface T) | 10 :=
  {| box := IOther; unbox := as_other; unbox_box t := eq_refl; box_unbox := as_other_inv |}.
End Iface.
