(* ===== verification/WireProps.v ===== *)
(** * Properties of the wire codec

    Round trips, fragmentation independence, bounds and errors of the frame
    codec of Wire.v. *)

From S2P Require Import Prelude GoStd Wire RefCodec.

Local Open Scope string_scope.
Local Open Scope list_scope.

Section Props.
Context {V : Type} `{Msgpack V}.

(** Round trip of the frame codec: what [WriteFrame] put on a healthy
    stream, read back with [ReadFrame] under any fragmentation and followed
    by anything, is the frame type and the encoded payload, and exactly the
    following bytes are left. *)
Theorem ReadFrame_WriteFrame (w r : stream) (ft : FrameType) (p : payload V) enc sent rest :
  Marshal p = Ok enc -> fits enc -> room w = None ->
  out (WriteFrame w ft p).2 = out w ++ sent -> pending r = sent ++ rest ->
  (WriteFrame w ft p).1 = None /\
  (ReadFrame r).1 = Ok (ft, enc) /\ pending (ReadFrame r).2 = rest.
Proof.
  intros HM Hf Hr. rewrite (WriteFrame_ok _ _ _ enc) by auto with qf. simpl.
  intros <-%app_inv_head Heq.
  destruct (ReadFrame_parse r) as (H1 & H2 & _).
  rewrite H1, H2, Heq, parse_frame_bytes by done. done.
Qed.

(** C12.  Successive frames: what a series of [WriteFrame] calls put on a
    healthy stream is read back, under any fragmentation, as the same frame
    types and payloads in the same order, and exactly what follows is left. *)
Theorem ReadFrames_WriteFrames (w r : stream) (ps : list (FrameType * payload V)) encs sent rest :
  Forall2 (fun p e => Marshal p.2 = Ok e /\ fits e) ps encs -> room w = None ->
  out (WriteFrames w ps) = out w ++ sent -> pending r = sent ++ rest ->
  (ReadFrames (length ps) r).1 = zip (map fst ps) encs /\
  pending (ReadFrames (length ps) r).2 = rest.
Proof.
  intros Hall Hr. rewrite (WriteFrames_ok _ _ encs); [|eapply Forall2_impl; [done|]|done].
  2:{ intros ? ? []. auto with qf. }
  cbn [out set_out]. intros <-%app_inv_head Hp.
  assert (length ps = length (zip (map fst ps) encs)) as Hl.
  { rewrite length_zip_with, length_map, <- (Forall2_length _ _ _ Hall). lia. }
  rewrite Hl. apply ReadFrames_pending; [|done].
  clear -Hall. induction Hall as [|? ? ? ? []]; by constructor.
Qed.

(** C31.  [ReadFrame] succeeds exactly when the pending bytes start with a
    well-formed frame of at most [MaxFrameSize] bytes, whatever their
    fragmentation into chunks, and then consumes that frame and no more. *)
Theorem ReadFrame_spec (s : stream) :
  match (ReadFrame s).1 with
  | Ok (ft, enc) => fits enc /\ pending s = frame_bytes ft enc ++ pending (ReadFrame s).2
  | Err _ => ~ exists ft enc rest, fits enc /\ pending s = frame_bytes ft enc ++ rest
  end.
Proof.
  destruct (ReadFrame_parse s) as (-> & -> & _).
  destruct (parse_frame (in_err s) (pending s)) as [[[ft enc]|e] rest] eqn:E; cbn.
  - by eapply parse_frame_length.
  - intros (ft & enc & rest' & Hf & Heq). rewrite Heq, parse_frame_bytes in E by done. done.
Qed.

(** Bounds: an encoding below [2 ^ 32 - 1] bytes is accepted by
    [WriteFrame] exactly when it fits a 64 MiB frame, and a refused one
    leaves the stream as it was. *)
Theorem WriteFrame_accepts (w : stream) (ft : FrameType) (p : payload V) enc :
  Marshal p = Ok enc -> (1 + Z.of_nat (length enc) < 2 ^ 32)%Z -> room w = None ->
  ((WriteFrame w ft p).1 = None <-> fits enc) /\
  ((WriteFrame w ft p).1 <> None -> (WriteFrame w ft p).2 = w).
Proof.
  intros HM Hl Hr.
  destruct (decide (1 + Z.of_nat (length enc) <= MaxFrameSize)%Z) as [Hf|Hf].
  - by rewrite (WriteFrame_ok _ _ _ enc) by auto with qf.
  - destruct (WriteFrame_too_large w ft p enc HM Hf Hl) as [msg ->]. by split.
Qed.

(** C40.  The frame length is computed in [uint32]: an encoding of
    [2 ^ 32 + k - 1] bytes passes the size check as a frame of [k] bytes, is
    written in full without an error, and a reader sees a truncated payload
    followed by the rest as the next frame. *)
Theorem WriteFrame_wraps (w r : stream) (ft : FrameType) (p : payload V) enc (k : nat) :
  Marshal p = Ok enc -> (1 <= Z.of_nat k <= MaxFrameSize)%Z ->
  (1 + Z.of_nat (length enc) = 2 ^ 32 + Z.of_nat k)%Z ->
  room w = None -> pending r = drop (length (out w)) (out (WriteFrame w ft p).2) ->
  (WriteFrame w ft p).1 = None /\
  (ReadFrame r).1 = Ok (ft, take (k - 1) enc) /\
  pending (ReadFrame r).2 = drop (k - 1) enc.
Proof.
  intros HM Hk Hl Hr Hp.
  assert (uint32 (1 + Z.of_nat (length enc)) = Z.of_nat k) as Hu.
  { unfold uint32. rewrite Hl. unfold MaxFrameSize in Hk. Z.div_mod_to_equations. lia. }
  assert (WriteFrame w ft p =
    (None, set_out w (out w ++ PutUint32 (Z.of_nat k) ++ [ft] ++ enc) None)) as HW.
  { unfold WriteFrame. rewrite HM, Hu, (proj2 (Z.ltb_ge _ _)) by lia.
    unfold Write. rewrite Hr. simpl. by rewrite !set_out_set_out, <- !app_assoc. }
  rewrite HW in *. simpl in Hp. rewrite drop_app_length in Hp.
  destruct (ReadFrame_parse r) as (H1 & H2 & _). rewrite H1, H2, Hp.
  assert (length (take (k - 1) enc) = (k - 1)%nat) as Hlt by (rewrite length_take; lia).
  pose proof (parse_frame_bytes (in_err r) ft (take (k - 1) enc) (drop (k - 1) enc)) as HP.
  unfold frame_bytes in HP. rewrite Hlt in HP.
  replace (1 + Z.of_nat (k - 1))%Z with (Z.of_nat k) in HP by lia.
  rewrite <- !app_assoc, take_drop in HP. simpl in *. rewrite HP by (unfold fits; lia). done.
Qed.
End Props.

(** ** Witnesses *)

Definition sample_frame : bytes :=
  frame_bytes FrameTypeRequest (encoding (PRequest sample_request)).

(** The sample frame, delivered in three chunks and followed by two bytes. *)
Definition sample_reader : stream :=
  reading [take 3 sample_frame; take 6 (drop 3 sample_frame);
           drop 9 sample_frame ++ [Byte.x09; Byte.x0a]].

Lemma ReadFrame_WriteFrame_witness :
  (ReadFrame sample_reader).1 =
    Ok (FrameTypeRequest, encoding (PRequest sample_request)) /\
  pending (ReadFrame sample_reader).2 = [Byte.x09; Byte.x0a].
Proof.
  apply (ReadFrame_WriteFrame (reading []) sample_reader FrameTypeRequest
    (PRequest sample_request) (encoding (PRequest sample_request)) sample_frame).
  - reflexivity.
  - unfold fits. vm_compute. discriminate.
  - reflexivity.
  - vm_compute. reflexivity.
  - vm_compute. reflexivity.
Defined.

Definition two_frames : list (FrameType * payload string) :=
  [(FrameTypePing, PPing (mkPingFrame 7)); (FrameTypePong, PPing (mkPingFrame 0))].
Definition two_encodings : list bytes := map encoding (map snd two_frames).

Lemma ReadFrames_WriteFrames_witness :
  (ReadFrames 2 (reading [out (WriteFrames (reading []) two_frames) ++ [Byte.xff]])).1 =
    zip [FrameTypePing; FrameTypePong] two_encodings.
Proof.
  apply (ReadFrames_WriteFrames (reading [])
    (reading [out (WriteFrames (reading []) two_frames) ++ [Byte.xff]]) two_frames
    two_encodings (out (WriteFrames (reading []) two_frames)) [Byte.xff]).
  - repeat constructor; unfold fits; vm_compute; discriminate.
  - reflexivity.
  - reflexivity.
  - vm_compute. reflexivity.
Defined.

Lemma WriteFrame_accepts_witness :
  (WriteFrame (reading []) FrameTypeRequest (PRequest sample_request)).1 = None.
Proof.
  apply (WriteFrame_accepts (reading []) FrameTypeRequest (PRequest sample_request)
    (encoding (PRequest sample_request))).
  - reflexivity.
  - vm_compute. reflexivity.
  - reflexivity.
  - unfold fits. vm_compute. discriminate.
Defined.

Abbreviation huge_write :=
  (@WriteFrame string huge_codec (reading []) FrameTypeRequest (PValue (Some "blob"))).

Lemma WriteFrame_wraps_witness :
  huge_write.1 = None /\
  (ReadFrame (reading [out huge_write.2])).1 =
    Ok (FrameTypeRequest, take (5 - 1) huge_encoding).
Proof.
  destruct (@WriteFrame_wraps string huge_codec (reading []) (reading [out huge_write.2])
    FrameTypeRequest (PValue (Some "blob")) huge_encoding 5) as (H1 & H2 & _).
  - reflexivity.
  - unfold MaxFrameSize. lia.
  - rewrite length_huge_encoding. lia.
  - reflexivity.
  - unfold pending. cbn [reading in_chunks concat]. rewrite app_nil_r.
    change (length (out (reading []))) with 0%nat. rewrite drop_0. reflexivity.
  - split; [exact H1 | exact H2].
Defined.
