(* ===== verification/Validation.v ===== *)
(** * Body validation (framework/validation.go)

    The [validator] package is third-party: the class [Validator] gives its
    verdict on a struct.  [Validate] turns that verdict into the program's
    error values. *)

From S2P Require Import Prelude GoStd.

Local Open Scope string_scope.
Local Open Scope list_scope.

(** A [validator.FieldError]. *)
Record LibFieldError := mkLibFieldError {
  lfe_Field : string;
  lfe_Tag : string;
  lfe_Param : string;
}.

(** The dynamic types [errors.As] looks for, in its order. *)
Inductive struct_error :=
  | InvalidValidationError (e : error)
  | ValidationErrors (l : list LibFieldError)
  | OtherStructError (e : error).

Class Validator (V : Type) := { Struct : V -> option struct_error }.

Definition field_error (fe : LibFieldError) : FieldError :=
  mkFieldError (lfe_Field fe) (lfe_Tag fe) (lfe_Param fe).

Definition Validate {V : Type} `{Validator V} (v : option V) : option error :=
  match v with
  | None => None
  | Some v =>
      match Struct v with
      | None => None
      | Some (InvalidValidationError e) => Some (wrapError "quicframe: validate: " e)
      | Some (ValidationErrors verr) =>
          Some (validationError (mkValidationError (map field_error verr)))
      | Some (OtherStructError e) => Some (wrapError "quicframe: validate: " e)
      end
  end.
