(* ===== verification/ValidatorOnce.v ===== *)
(** * The shared validator (framework/validation.go)

    [Validator] makes the struct validator on its first call, under a
    [sync.Once], and returns the package variable.  Requests validate their
    bodies concurrently: here any number of goroutines are in [Validator], with
    [Once.Do] as the standard library has it (a check without the mutex, then
    a second one with it).  An instance is named by the number of the
    [validator.New] call that made it. *)

From S2P Require Import Prelude.

Local Open Scope list_scope.

Inductive once_pc :=
  | OEntering              (* o.done.Load() *)
  | OLocking               (* o.m.Lock() *)
  | OChecking              (* o.done.Load() again *)
  | OMaking                (* the function: validateInst = validator.New(...) *)
  | OMarking               (* o.done.Store(1) *)
  | OUnlocking             (* o.m.Unlock() *)
  | OReading               (* return validateInst *)
  | OReturned (v : option nat).

Record once_state := mkOnce {
  o_done : bool;
  o_mutex : option nat;
  validateInst : option nat;
  made : nat;
}.

(** The next statement of goroutine [i]; [None] where it waits or is through. *)
Definition Validator_step (i : nat) (pc : once_pc) (s : once_state) : option (once_pc * once_state) :=
  match pc with
  | OEntering => Some (if o_done s then OReading else OLocking, s)
  | OLocking =>
      match o_mutex s with
      | Some _ => None
      | None => Some (OChecking, mkOnce (o_done s) (Some i) (validateInst s) (made s))
      end
  | OChecking => Some (if o_done s then OUnlocking else OMaking, s)
  | OMaking => Some (OMarking, mkOnce (o_done s) (o_mutex s) (Some (made s)) (S (made s)))
  | OMarking => Some (OUnlocking, mkOnce true (o_mutex s) (validateInst s) (made s))
  | OUnlocking => Some (OReading, mkOnce (o_done s) None (validateInst s) (made s))
  | OReading => Some (OReturned (validateInst s), s)
  | OReturned _ => None
  end.

Inductive once_step : once_state * list once_pc -> once_state * list once_pc -> Prop :=
  | os_call s ts : once_step (s, ts) (s, ts ++ [OEntering])
  | os_run s s' ts i pc pc' :
      ts !! i = Some pc -> Validator_step i pc s = Some (pc', s') ->
      once_step (s, ts) (s', <[i := pc']> ts).

Definition no_validator : once_state * list once_pc := (mkOnce false None None 0, []).

(** ** At most one instance *)

#[export] Instance once_pc_eq_dec : EqDecision once_pc.
Proof. solve_decision. Defined.

(** With the mutex, before and after the instance is made; and without it. *)
Definition holding (pc : once_pc) : bool :=
  match pc with OChecking | OMaking | OMarking | OUnlocking => true | _ => false end.

Definition once_pc_ok (s : once_state) (i : nat) (pc : once_pc) : Prop :=
  (holding pc = true <-> o_mutex s = Some i) /\
  match pc with
  | OMaking => o_done s = false /\ made s = 0
  | OMarking => o_done s = false /\ made s = 1
  | OUnlocking | OReading => o_done s = true
  | OReturned v => v = Some 0 /\ o_done s = true
  | _ => True
  end.

(** While the mutex is free, or its holder is elsewhere, [done] says whether
    the instance was made. *)
Definition once_inv (c : once_state * list once_pc) : Prop :=
  let '(s, ts) := c in
  (forall i pc, ts !! i = Some pc -> once_pc_ok s i pc) /\
  (forall i, o_mutex s = Some i -> i < length ts) /\
  validateInst s = (if made s =? 0 then None else Some 0) /\
  (o_done s = true -> made s = 1) /\
  (o_done s = false -> made s = 0 \/ exists i, ts !! i = Some OMarking).

(** The other goroutines do not notice a step of [i]. *)
Lemma once_others s s' i j pc pc' q :
  once_pc_ok s i pc -> Validator_step i pc s = Some (pc', s') -> j <> i ->
  once_pc_ok s j q -> once_pc_ok s' j q.
Proof.
  intros [Hm Hpc] Hst Hj [Hm' Hq].
  destruct pc, q; cbn in *; repeat case_match; simplify_eq/=; split; cbn in *;
    intuition (try congruence; try done).
Qed.

(** Nor does [i] itself break what is said of it. *)
Lemma once_self s s' i pc pc' :
  validateInst s = (if made s =? 0 then None else Some 0) -> (o_done s = true -> made s = 1) ->
  (o_done s = false -> made s = 0 \/ exists j, o_mutex s = Some j /\ (j = i -> pc = OMarking)) ->
  once_pc_ok s i pc -> Validator_step i pc s = Some (pc', s') -> once_pc_ok s' i pc'.
Proof.
  intros Hv Hd Hn [Hm Hpc] Hst. destruct (o_done s) eqn:Ed.
  - rewrite Hd in Hv by done.
    destruct pc; cbn in *; rewrite ?Ed in Hst; repeat case_match; simplify_eq/=; split; cbn in *;
      intuition (try congruence; try done).
  - assert (pc = OChecking -> made s = 0) as Hz.
    { intros ->. destruct (Hn eq_refl) as [?|(j & Hj & Hji)]; [done|].
      destruct Hm as [Hm _]. specialize (Hm eq_refl). rewrite Hm in Hj. injection Hj as <-.
      by specialize (Hji eq_refl). }
    destruct pc; cbn in *; rewrite ?Ed in Hst; repeat case_match; simplify_eq/=; split; cbn in *;
      intuition (try congruence; try done).
Qed.

Lemma made_step i pc s pc' s' : Validator_step i pc s = Some (pc', s') ->
  (made s' = made s /\ validateInst s' = validateInst s) \/
  (pc = OMaking /\ made s' = S (made s) /\ validateInst s' = Some (made s)).
Proof. destruct pc; cbn; intros; repeat case_match; simplify_eq/=; auto. Qed.

Lemma once_inv_step c c' : once_inv c -> once_step c c' -> once_inv c'.
Proof.
  intros Hinv Hst. destruct Hst as [s ts|s s' ts i pc pc' Hi Hst].
  - destruct Hinv as (Hpc & Hm & Hv & Hd & Hn). split_and!; [..|done|done|].
    + intros i pc [Hi|[Hi E]]%lookup_app_Some; [by apply Hpc|].
      apply list_lookup_singleton_Some in E as [E <-]. split; [|done]. split; [done|].
      intros Hi'%Hm. lia.
    + intros i Hi%Hm. rewrite length_app. cbn. lia.
    + intros E. destruct (Hn E) as [?|[i Hi]]; [by left|right]. exists i. by apply lookup_app_l_Some.
  - destruct Hinv as (Hpc & Hm & Hv & Hd & Hn). pose proof (Hpc i pc Hi) as Hok.
    pose proof (lookup_lt_Some _ _ _ Hi) as Hlt.
    assert (o_done s = false -> made s = 0 \/ exists j, o_mutex s = Some j /\ (j = i -> pc = OMarking))
      as Hn'.
    { intros E. destruct (Hn E) as [?|[j Hj]]; [by left|right]. exists j.
      destruct (Hpc j _ Hj) as [[Hh _] _]. split; [by apply Hh|]. intros ->. congruence. }
    pose proof (once_self _ _ _ _ _ Hv Hd Hn' Hok Hst) as Hok'.
    split_and!.
    + intros j q [(<- & <- & _)|[Hj Hq]]%list_lookup_insert_Some; [done|].
      eapply once_others; [exact Hok|done|done|by apply Hpc].
    + intros j. rewrite length_insert. destruct pc; cbn in Hst; repeat case_match; simplify_eq/=; auto;
        intros ?; by simplify_eq.
    + destruct (made_step _ _ _ _ _ Hst) as [[-> ->]|(-> & -> & ->)]; [done|].
      destruct Hok as [_ [_ ->]]. done.
    + destruct (made_step _ _ _ _ _ Hst) as [[-> _]|(-> & -> & _)];
        [|by destruct Hok as [_ [_ ->]]].
      destruct (o_done s) eqn:E; [by auto|]. destruct pc; cbn in *; repeat case_match; simplify_eq/=;
        intros ?; first [congruence|by destruct Hok as [_ [_ ?]]].
    + intros E. destruct (decide (pc = OMaking)) as [->|Hne].
      { right. exists i. cbn in Hst. simplify_eq. by apply list_lookup_insert_eq. }
      destruct (made_step _ _ _ _ _ Hst) as [[Em _]|(-> & _)]; [|done]. rewrite Em.
      assert (pc <> OMarking /\ o_done s = false) as [Hnm Ed].
      { destruct pc; cbn in *; repeat case_match; simplify_eq/=;
          (split; [intros ?|]; congruence). }
      destruct (Hn Ed) as [?|[j Hj]]; [by left|right]. exists j.
      rewrite list_lookup_insert_ne; [done|]. intros ->. congruence.
Qed.

Lemma once_inv_reachable c : rtc once_step no_validator c -> once_inv c.
Proof.
  intros Hr. assert (once_inv no_validator) as Hi by (split_and!; try done; by left).
  induction Hr as [c|c1 c2 c3 Hst _ IH]; [done|]. by apply IH, (once_inv_step c1).
Qed.

(** C37. However the first requests race, [validator.New] is called at most once,
    and every call of [Validator] that returns, the first ones included,
    returns that one instance and never nil. *)
Theorem Validator_shared s ts i v :
  rtc once_step no_validator (s, ts) -> ts !! i = Some (OReturned v) ->
  made s = 1 /\ v = Some 0 /\ validateInst s = Some 0.
Proof.
  intros Hr Hi. destruct (once_inv_reachable _ Hr) as (Hpc & _ & Hv & Hd & Hn).
  destruct (Hpc i _ Hi) as [_ [-> Ed]]. rewrite (Hd Ed) in *. done.
Qed.

(** ** Witness: two goroutines, the second one while the first is at work *)

Definition two_calls : once_state * list once_pc :=
  (mkOnce true None (Some 0) 1, [OReturned (Some 0); OReturned (Some 0)]).

Lemma two_calls_reached : rtc once_step no_validator two_calls.
Proof.
  eapply rtc_l; [apply os_call|]. eapply rtc_l; [apply os_call|]. cbn.
  do 2 (eapply rtc_l; [by eapply (os_run _ _ _ 1)|]; cbn).
  eapply rtc_l; [by eapply (os_run _ _ _ 0)|]; cbn.
  do 5 (eapply rtc_l; [by eapply (os_run _ _ _ 1)|]; cbn).
  do 4 (eapply rtc_l; [by eapply (os_run _ _ _ 0)|]; cbn).
  apply rtc_refl.
Qed.

Lemma Validator_shared_witness : made two_calls.1 = 1 /\ Some 0 = Some 0 :> option nat.
Proof.
  destruct (Validator_shared _ _ 0 (Some 0) two_calls_reached eq_refl) as (Hm & Hv & _).
  by split.
Defined.
