(* ===== verification/Reqctx.v ===== *)
(** * The request context (framework/context.go)

    [Ctx] is the program's [Context]; a handler is a computation in the
    monad [M] over the state of one request: the context, the stream writers
    it has opened (a [*StreamWriter] is an index into that list, so copies of
    the pointer alias), and the environment shared with other requests (log,
    clock, and the application state of type [W]).  A [StreamWriter] writes to
    the context's own stream, as in the code. *)

From S2P Require Import Prelude GoStd NetURL Wire Validation.

Local Open Scope string_scope.
Local Open Scope list_scope.

(** ** Peers *)

(** The fields of [x509.Certificate] the program reads; times in ns. *)
Record Certificate := mkCertificate {
  Subject_CommonName : string;
  NotBefore : Z;
  NotAfter : Z;
}.

Record QuicConn := mkQuicConn {
  qc_RemoteAddr : option string;
  qc_PeerCertificates : list Certificate;
}.

(** The implementations of [remoteAddrProvider]: the two wrappers of app.go
    and any other one. An address is its [String()], a nil one [None]. *)
Inductive remoteAddrProvider :=
  | quicConnWrapper (c : QuicConn)
  | wtSessionWrapper (addr : option string)
  | otherPeer (addr : option string) (certs : list Certificate).

Definition peer_RemoteAddr (p : remoteAddrProvider) : option string :=
  match p with
  | quicConnWrapper c => qc_RemoteAddr c
  | wtSessionWrapper addr => addr
  | otherPeer addr _ => addr
  end.

Definition peer_PeerCertificates (p : remoteAddrProvider) : list Certificate :=
  match p with
  | quicConnWrapper c => qc_PeerCertificates c
  | wtSessionWrapper _ => []
  | otherPeer _ certs => certs
  end.

(** The [context.Context] of a request. *)
Inductive GoContext :=
  | Background
  | connContext (id : nat).

(** ** State *)

Record Ctx (V : Type) := mkCtx {
  ctx_Request : Request;
  ctx_conn : remoteAddrProvider;
  ctx_stream : stream;
  ctx_params : gmap string string;
  ctx_queryParams : Values;
  ctx_locals : gmap string (option V);
  ctx_sent : bool;
  ctx_resHeaders : Headers;
  ctx_ctx : option GoContext;
}.
Arguments mkCtx {V}.
Arguments ctx_Request {V}. Arguments ctx_conn {V}. Arguments ctx_stream {V}.
Arguments ctx_params {V}. Arguments ctx_queryParams {V}. Arguments ctx_locals {V}.
Arguments ctx_sent {V}. Arguments ctx_resHeaders {V}. Arguments ctx_ctx {V}.

Record StreamWriter := mkStreamWriter {
  sw_requestID : string;
  sw_seq : Z;
  sw_closed : bool;
}.

(** What a panic carries: a string, or an error such as a runtime error. *)
Inductive panic_value :=
  | PanicString (s : string)
  | PanicError (e : error).

(** The [%v] verb on a recovered panic. *)
Definition panic_string (p : panic_value) : string :=
  match p with
  | PanicString s => s
  | PanicError e => Error_string e
  end.

Inductive Level := LevelDebug | LevelInfo | LevelWarn | LevelError.

Inductive Attr :=
  | AString (s : string)
  | AInt (z : Z)
  | AAddr (a : option string)
  | ADuration (ns : Z)
  | AFrameType (ft : FrameType)
  | AError (e : option error)
  | APanic (p : panic_value).

(** A [*slog.Logger], nil or the number of a logger; number 0 is the one that
    [slog.Default] returns.  A record knows the logger it was given to. *)
Abbreviation slogger := (option nat).
Definition slog_Default : slogger := Some 0%nat.

Record LogRecord := mkRecord {
  log_to : nat;
  log_level : Level;
  log_msg : string;
  log_attrs : list (string * Attr);
}.

(** [slog.Info] and the like. *)
Definition mkLog : Level -> string -> list (string * Attr) -> LogRecord := mkRecord 0.

(** The [n]-th call of [time.Now] returns [clock n]. *)
Record Env (W : Type) := mkEnv {
  logs : list LogRecord;
  clock : nat -> Z;
  ticks : nat;
  world : W;
}.
Arguments mkEnv {W}. Arguments logs {W}. Arguments clock {W}.
Arguments ticks {W}. Arguments world {W}.

Record St (V W : Type) := mkSt {
  st_ctx : Ctx V;
  st_sws : list StreamWriter;
  st_env : Env W;
}.
Arguments mkSt {V W}. Arguments st_ctx {V W}. Arguments st_sws {V W}.
Arguments st_env {V W}.

(** ** The monad *)

Inductive outcome (A : Type) :=
  | Returns (a : A)
  | Panics (p : panic_value).
Arguments Returns {A} a.
Arguments Panics {A} p.

Definition nil_dereference : panic_value :=
  PanicError (errorString
    "runtime error: invalid memory address or nil pointer dereference").

Definition slog_record (log : slogger) (level : Level) (msg : string)
    (attrs : list (string * Attr)) : outcome LogRecord :=
  match log with
  | Some to => Returns (mkRecord to level msg attrs)
  | None => Panics nil_dereference
  end.

Definition M (V W A : Type) : Type := St V W -> outcome A * St V W.

#[export] Instance M_ret {V W} : MRet (M V W) := fun A a st => (Returns a, st).
#[export] Instance M_bind {V W} : MBind (M V W) := fun A B k m st =>
  match m st with
  | (Returns a, st) => k a st
  | (Panics p, st) => (Panics p, st)
  end.

(** [HandlerFunc] and [MiddlewareFunc] of framework/router.go. *)
Definition HandlerFunc (V W : Type) : Type := M V W (option error).
Definition MiddlewareFunc (V W : Type) : Type := HandlerFunc V W -> HandlerFunc V W.

Section Primitives.
Context {V W : Type}.

Definition panic {A} (p : panic_value) : M V W A := fun st => (Panics p, st).

Definition get_ctx : M V W (Ctx V) := fun st => (Returns (st_ctx st), st).
Definition put_ctx (c : Ctx V) : M V W unit := fun st =>
  (Returns tt, mkSt c (st_sws st) (st_env st)).

Definition get_sw (p : nat) : M V W (option StreamWriter) := fun st =>
  (Returns (st_sws st !! p), st).
Definition put_sw (p : nat) (sw : StreamWriter) : M V W unit := fun st =>
  (Returns tt, mkSt (st_ctx st) (<[p := sw]> (st_sws st)) (st_env st)).
Definition new_sw (sw : StreamWriter) : M V W nat := fun st =>
  (Returns (length (st_sws st)), mkSt (st_ctx st) (st_sws st ++ [sw]) (st_env st)).

Definition get_env : M V W (Env W) := fun st => (Returns (st_env st), st).
Definition put_env (e : Env W) : M V W unit := fun st =>
  (Returns tt, mkSt (st_ctx st) (st_sws st) e).

Definition log_record (r : LogRecord) : M V W unit :=
  e ← get_env;
  put_env (mkEnv (logs e ++ [r]) (clock e) (ticks e) (world e)).

(** A method of a logger: a nil one has no handler to ask. *)
Definition slog_Log (log : slogger) (level : Level) (msg : string)
    (attrs : list (string * Attr)) : M V W unit :=
  match slog_record log level msg attrs with
  | Returns r => log_record r
  | Panics p => panic p
  end.

Definition time_Now : M V W Z :=
  e ← get_env;
  _ ← put_env (mkEnv (logs e) (clock e) (S (ticks e)) (world e));
  mret (clock e (ticks e)).

Definition get_world : M V W W := e ← get_env; mret (world e).
Definition put_world (w : W) : M V W unit :=
  e ← get_env; put_env (mkEnv (logs e) (clock e) (ticks e) w).
End Primitives.

(** ** Context fields *)

Section Fields.
Context {V : Type}.
Implicit Types (c : Ctx V).

Definition set_stream c (s : stream) : Ctx V :=
  mkCtx (ctx_Request c) (ctx_conn c) s (ctx_params c) (ctx_queryParams c)
    (ctx_locals c) (ctx_sent c) (ctx_resHeaders c) (ctx_ctx c).
Definition set_sent c (b : bool) : Ctx V :=
  mkCtx (ctx_Request c) (ctx_conn c) (ctx_stream c) (ctx_params c) (ctx_queryParams c)
    (ctx_locals c) b (ctx_resHeaders c) (ctx_ctx c).
Definition set_locals c (l : gmap string (option V)) : Ctx V :=
  mkCtx (ctx_Request c) (ctx_conn c) (ctx_stream c) (ctx_params c) (ctx_queryParams c)
    l (ctx_sent c) (ctx_resHeaders c) (ctx_ctx c).
Definition set_resHeaders c (h : Headers) : Ctx V :=
  mkCtx (ctx_Request c) (ctx_conn c) (ctx_stream c) (ctx_params c) (ctx_queryParams c)
    (ctx_locals c) (ctx_sent c) h (ctx_ctx c).

Definition setParams c (params : gmap string string) : Ctx V :=
  mkCtx (ctx_Request c) (ctx_conn c) (ctx_stream c) params (ctx_queryParams c)
    (ctx_locals c) (ctx_sent c) (ctx_resHeaders c) (ctx_ctx c).
Definition setQueryParams c (params : Values) : Ctx V :=
  mkCtx (ctx_Request c) (ctx_conn c) (ctx_stream c) (ctx_params c) params
    (ctx_locals c) (ctx_sent c) (ctx_resHeaders c) (ctx_ctx c).

Definition newContext (gc : option GoContext) (req : Request) (conn : remoteAddrProvider)
    (s : stream) : Ctx V :=
  mkCtx req conn s ∅ ∅ ∅ false None gc.

(** *** Request accessors *)

Definition Param c (key : string) : string := default "" (ctx_params c !! key).
Definition CtxQuery c (key : string) : string := Values_Get (ctx_queryParams c) key.
Definition QueryParams c : Values := ctx_queryParams c.

Definition GetHeader c (key : string) : string :=
  match req_Headers (ctx_Request c) with
  | None => ""
  | Some h => default "" (h !! key)
  end.

Definition Method c : string := req_Method (ctx_Request c).
Definition CtxPath c : string := req_Path (ctx_Request c).
Definition RequestID c : string := req_ID (ctx_Request c).
Definition Body c : option bytes := req_Body (ctx_Request c).
Definition RemoteAddr c : option string := peer_RemoteAddr (ctx_conn c).
Definition PeerCertificates c : list Certificate := peer_PeerCertificates (ctx_conn c).

(** [Client]: the connection of the returned client, nil for WebTransport. *)
Definition CtxClient c : option QuicConn :=
  match ctx_conn c with
  | quicConnWrapper cw => Some cw
  | _ => None
  end.

Definition GoCtx c : GoContext := default Background (ctx_ctx c).
End Fields.

(** ** Context operations *)

(** The cookie parser and printer of [net/http], for a cookie type [C]. *)
Class Cookies (C : Type) := {
  readCookie : string -> string -> result C;
  CookieString : C -> string;
}.

Section Operations.
Context {V W : Type} `{Unicode} `{Msgpack V} `{Validator V}.

Definition Header (key value : string) : M V W unit :=
  c ← get_ctx;
  put_ctx (set_resHeaders c (Some (<[key := value]> (default ∅ (ctx_resHeaders c))))).

Definition Cookie {C} `{Cookies C} (c : Ctx V) (name : string) : result C :=
  let header := GetHeader c "Cookie" in
  if String.eqb header "" then Err ErrNoCookie
  else readCookie header name.

Definition SetCookie {C} `{Cookies C} (cookie : C) : M V W unit :=
  let v := CookieString cookie in
  if negb (String.eqb v "") then Header "Set-Cookie" v else mret tt.

(** The body decoded over the destination's old content [v]. *)
Definition Bind (c : Ctx V) (v : V) : V * option error :=
  match default [] (req_Body (ctx_Request c)) with
  | [] => (v, None)
  | body =>
      match UnmarshalInto body v with
      | (v, Some e) => (v, Some (wrapError "quicframe: bind: " e))
      | (v, None) => (v, None)
      end
  end.

Definition BindAndValidate (c : Ctx V) (v : V) : V * option error :=
  match Bind c v with
  | (v, Some e) => (v, Some e)
  | (v, None) => (v, Validate (Some v))
  end.

(** *** Locals *)

Definition Set_ (key : string) (value : option V) : M V W unit :=
  c ← get_ctx; put_ctx (set_locals c (<[key := value]> (ctx_locals c))).

Definition Get_ (c : Ctx V) (key : string) : option (option V) := ctx_locals c !! key.

Definition MustGet (key : string) : M V W (option V) :=
  c ← get_ctx;
  match Get_ c key with
  | Some v => mret v
  | None => panic (PanicString
      ("quicframe: MustGet: key " +:+ Quote key +:+ " not found in locals"))
  end.

(** *** Responses *)

(** [sent.CompareAndSwap(false, true)]. *)
Definition cas_sent : M V W bool :=
  c ← get_ctx;
  if ctx_sent c then mret false else _ ← put_ctx (set_sent c true); mret true.

(** [protocol.WriteFrame(c.stream, ft, p)]. *)
Definition write_frame (ft : FrameType) (p : payload V) : M V W (option error) :=
  c ← get_ctx;
  let '(err, s) := WriteFrame (ctx_stream c) ft p in
  _ ← put_ctx (set_stream c s);
  mret err.

Definition writeResponse (status : Z) (headers : Headers) (body : option bytes)
    (streaming : bool) : M V W (option error) :=
  swapped ← cas_sent;
  if negb swapped then mret (Some (errorString "quicframe: response already sent"))
  else
    c ← get_ctx;
    let finalHeaders := default ∅ headers ∪ default ∅ (ctx_resHeaders c) in
    write_frame FrameTypeResponse
      (PResponse (mkResponse (RequestID c) status (Some finalHeaders) body streaming)).

Definition Send (status : Z) (body : option bytes) : M V W (option error) :=
  writeResponse status None body false.

Definition MsgPack (status : Z) (v : option V) : M V W (option error) :=
  match Marshal (PValue v) with
  | Err e => mret (Some (wrapError "quicframe: MsgPack: " e))
  | Ok data =>
      let headers := {["content-type" := "application/x-msgpack"]} in
      writeResponse status (Some headers) (Some data) false
  end.

Definition NoContent : M V W (option error) := writeResponse StatusNoContent None None false.

Definition Error (code : Z) (message : string) (data : list (option V)) : M V W (option error) :=
  swapped ← cas_sent;
  if negb swapped then mret None
  else
    let send (payload : option bytes) :=
      c ← get_ctx;
      write_frame FrameTypeError
        (PError (mkErrorFrame (RequestID c) code message payload)) in
    match data with
    | Some v :: _ =>
        match Marshal (PValue (Some v)) with
        | Err e => mret (Some (wrapError "quicframe: Error: marshal data: " e))
        | Ok payload => send (Some payload)
        end
    | _ => send None
    end.

Definition NewStream (status : Z) (headers : Headers) : M V W (result nat) :=
  swapped ← cas_sent;
  if negb swapped then mret (Err (errorString "quicframe: response already sent"))
  else
    c ← get_ctx;
    err ← write_frame FrameTypeResponse
      (PResponse (mkResponse (RequestID c) status headers None true));
    match err with
    | Some e => mret (Err e)
    | None =>
        c ← get_ctx;
        p ← new_sw (mkStreamWriter (RequestID c) 0 false);
        mret (Ok p)
    end.

(** *** StreamWriter, each call under the writer's mutex *)

Definition SW_Write (sw : nat) (data : option bytes) : M V W (Z * option error) :=
  w ← get_sw sw;
  match w with
  | None => panic nil_dereference
  | Some w =>
      if sw_closed w
      then mret (0%Z, Some (errorString "quicframe: StreamWriter already closed"))
      else
        let chunk := mkStreamChunk (sw_requestID w) (sw_seq w) data false in
        _ ← put_sw sw (mkStreamWriter (sw_requestID w) (uint64 (sw_seq w + 1)) (sw_closed w));
        err ← write_frame FrameTypeStreamData (PChunk chunk);
        match err with
        | Some e => mret (0%Z, Some e)
        | None => mret (Z.of_nat (length (default [] data)), None)
        end
  end.

Definition SW_Close (sw : nat) : M V W (option error) :=
  w ← get_sw sw;
  match w with
  | None => panic nil_dereference
  | Some w =>
      if sw_closed w then mret None
      else
        _ ← put_sw sw (mkStreamWriter (sw_requestID w) (sw_seq w) true);
        write_frame FrameTypeStreamEnd
          (PChunk (mkStreamChunk (sw_requestID w) (sw_seq w) None true))
  end.
End Operations.

(** ** The operations as equations on the state *)

Section Runs.
Context {V W : Type} `{Unicode} `{Msgpack V} `{Validator V}.
Implicit Types (st : St V W).

(** The state after the [sent] flag is taken and a frame was written. *)
Definition after_send st (s : stream) (sws : list StreamWriter) : St V W :=
  mkSt (set_stream (set_sent (st_ctx st) true) s) sws (st_env st).

Lemma bind_run {A B} (m : M V W A) (k : A -> M V W B) st :
  (m ≫= k) st =
  match m st with
  | (Returns a, st') => k a st'
  | (Panics p, st') => (Panics p, st')
  end.
Proof. done. Qed.

Definition set_env_world st (w : W) : St V W :=
  mkSt (st_ctx st) (st_sws st) (mkEnv (logs (st_env st)) (clock (st_env st)) (ticks (st_env st)) w).

Lemma get_world_run st : get_world st = (Returns (world (st_env st)), st).
Proof. done. Qed.

Lemma put_world_run w st : put_world w st = (Returns tt, set_env_world st w).
Proof. done. Qed.

Lemma time_Now_run st :
  time_Now st = (Returns (clock (st_env st) (ticks (st_env st))),
    mkSt (st_ctx st) (st_sws st)
      (mkEnv (logs (st_env st)) (clock (st_env st)) (S (ticks (st_env st))) (world (st_env st)))).
Proof. done. Qed.

Lemma writeResponse_run status headers body streaming st :
  writeResponse status headers body streaming st =
  if ctx_sent (st_ctx st)
  then (Returns (Some (errorString "quicframe: response already sent")), st)
  else
    let '(err, s) := WriteFrame (ctx_stream (st_ctx st)) FrameTypeResponse
      (PResponse (mkResponse (RequestID (st_ctx st)) status
        (Some (default ∅ headers ∪ default ∅ (ctx_resHeaders (st_ctx st))))
        body streaming) : payload V) in
    (Returns err, after_send st s (st_sws st)).
Proof.
  unfold writeResponse. rewrite bind_run. unfold cas_sent, mbind, M_bind. cbn.
  destruct (ctx_sent (st_ctx st)); cbn; [done|].
  unfold write_frame, mbind, M_bind. cbn. by destruct (WriteFrame _ _ _).
Qed.

Lemma Error_run code message data st :
  Error code message data st =
  if ctx_sent (st_ctx st) then (Returns None, st)
  else
    let send (p : option bytes) :=
      let '(err, s) := WriteFrame (ctx_stream (st_ctx st)) FrameTypeError
        (PError (mkErrorFrame (RequestID (st_ctx st)) code message p) : payload V) in
      (Returns err, after_send st s (st_sws st)) in
    match data with
    | Some v :: _ =>
        match Marshal (PValue (Some v)) with
        | Err e => (Returns (Some (wrapError "quicframe: Error: marshal data: " e)),
                    mkSt (set_sent (st_ctx st) true) (st_sws st) (st_env st))
        | Ok b => send (Some b)
        end
    | _ => send None
    end.
Proof.
  unfold Error. rewrite bind_run. unfold cas_sent, mbind, M_bind. cbn.
  destruct (ctx_sent (st_ctx st)); cbn; [done|].
  unfold write_frame, mbind, M_bind. cbn.
  destruct data as [|[v|] data]; [..|]; try by destruct (WriteFrame _ _ _).
  destruct (Marshal (PValue (Some v))) as [b|e]; [|done].
  cbn. by destruct (WriteFrame _ _ _).
Qed.

Lemma NewStream_run status headers st :
  NewStream status headers st =
  if ctx_sent (st_ctx st)
  then (Returns (Err (errorString "quicframe: response already sent")), st)
  else
    match WriteFrame (ctx_stream (st_ctx st)) FrameTypeResponse
      (PResponse (mkResponse (RequestID (st_ctx st)) status headers None true) : payload V)
    with
    | (Some e, s) => (Returns (Err e), after_send st s (st_sws st))
    | (None, s) =>
        (Returns (Ok (length (st_sws st))),
         after_send st s (st_sws st ++ [mkStreamWriter (RequestID (st_ctx st)) 0 false]))
    end.
Proof.
  unfold NewStream. rewrite bind_run. unfold cas_sent, mbind, M_bind. cbn.
  destruct (ctx_sent (st_ctx st)); cbn; [done|].
  unfold write_frame, mbind, M_bind. cbn. by destruct (WriteFrame _ _ _) as [[e|] s].
Qed.

Lemma SW_Write_run p data st :
  SW_Write p data st =
  match st_sws st !! p with
  | None => (Panics nil_dereference, st)
  | Some w =>
      if sw_closed w
      then (Returns (0%Z, Some (errorString "quicframe: StreamWriter already closed")), st)
      else
        let '(err, s) := WriteFrame (ctx_stream (st_ctx st)) FrameTypeStreamData
          (PChunk (mkStreamChunk (sw_requestID w) (sw_seq w) data false) : payload V) in
        (Returns (match err with
                  | Some e => (0%Z, Some e)
                  | None => (Z.of_nat (length (default [] data)), None)
                  end),
         mkSt (set_stream (st_ctx st) s)
           (<[p := mkStreamWriter (sw_requestID w) (uint64 (sw_seq w + 1)) (sw_closed w)]>
              (st_sws st))
           (st_env st))
  end.
Proof.
  unfold SW_Write. rewrite bind_run. unfold get_sw.
  destruct (st_sws st !! p) as [w|]; [|done].
  destruct (sw_closed w) eqn:Hc; [done|].
  unfold write_frame, mbind, M_bind. cbn. by destruct (WriteFrame _ _ _) as [[e|] s].
Qed.

Lemma SW_Close_run p st :
  SW_Close p st =
  match st_sws st !! p with
  | None => (Panics nil_dereference, st)
  | Some w =>
      if sw_closed w then (Returns None, st)
      else
        let '(err, s) := WriteFrame (ctx_stream (st_ctx st)) FrameTypeStreamEnd
          (PChunk (mkStreamChunk (sw_requestID w) (sw_seq w) None true) : payload V) in
        (Returns err,
         mkSt (set_stream (st_ctx st) s)
           (<[p := mkStreamWriter (sw_requestID w) (sw_seq w) true]> (st_sws st))
           (st_env st))
  end.
Proof.
  unfold SW_Close. rewrite bind_run. unfold get_sw.
  destruct (st_sws st !! p) as [w|]; [|done].
  destruct (sw_closed w) eqn:Hc; [done|].
  unfold write_frame, mbind, M_bind. cbn. by destruct (WriteFrame _ _ _) as [err s].
Qed.
End Runs.

(** ** Computations up to pointwise equality *)

Section Equivalence.
Context {V W : Type}.

#[export] Instance M_equiv {A} : Equiv (M V W A) := fun m1 m2 => forall st, m1 st = m2 st.

#[export] Instance M_equivalence {A} : Equivalence (≡@{M V W A}).
Proof.
  split.
  - by intros m st.
  - intros m1 m2 Heq st. by rewrite Heq.
  - intros m1 m2 m3 H12 H23 st. by rewrite H12, H23.
Qed.

#[export] Instance M_bind_proper {A B} :
  Proper (pointwise_relation A (≡) ==> (≡) ==> (≡)) (mbind (M := M V W) (A := A) (B := B)).
Proof.
  intros k1 k2 Hk m1 m2 Hm st. rewrite !bind_run, Hm.
  destruct (m2 st) as [[a|p] st']; [apply Hk|done].
Qed.

Lemma M_bind_assoc {A B C} (m : M V W A) (f : A -> M V W B) (g : B -> M V W C) :
  (m ≫= f) ≫= g ≡ m ≫= (fun a => f a ≫= g).
Proof. intros st. rewrite !bind_run. by destruct (m st) as [[a|p] st']. Qed.

Lemma M_bind_ret {A B} (a : A) (f : A -> M V W B) : mret a ≫= f ≡ f a.
Proof. done. Qed.
End Equivalence.
