(* ===== verification/Reply.v ===== *)
(** * The reply protocol: what a request may put on its stream

    The abstract specification of a reply (docs/protocol.md,
    docs/streaming.md): nothing, one response, one error, or a streaming
    response followed by chunks and a closing chunk.  [Inv] relates it to the
    state of a context, and [Safe] is the interface a computation satisfies
    when it keeps the relation.  Every operation of Reqctx.v is an instance,
    and instances compose, so a handler built from those operations is [Safe]
    by instance search. *)

From S2P Require Import Prelude GoStd NetURL Wire Validation Reqctx.
From Stdlib Require Import Sorting.Sorted.

Local Open Scope string_scope.
Local Open Scope list_scope.

(** ** Frames of a reply *)

Inductive reply_frame :=
  | RResponse (r : Response)
  | RError (e : ErrorFrame)
  | RData (c : StreamChunk)
  | REnd (c : StreamChunk).

Definition reply_type (f : reply_frame) : FrameType :=
  match f with
  | RResponse _ => FrameTypeResponse
  | RError _ => FrameTypeError
  | RData _ => FrameTypeStreamData
  | REnd _ => FrameTypeStreamEnd
  end.

Definition reply_payload {V : Type} (f : reply_frame) : payload V :=
  match f with
  | RResponse r => PResponse r
  | RError e => PError e
  | RData c | REnd c => PChunk c
  end.

(** A frame that starts a reply. *)
Definition is_head (f : reply_frame) : bool :=
  match f with
  | RResponse _ | RError _ => true
  | _ => false
  end.

(** The chunks of a stream: each carries the request's ID, and their sequence
    numbers come from increasing positions below [n] (a position is skipped
    when its frame could not be written). *)
Definition chunk_run (id : string) (n : nat) (idx : list nat) (cs : list StreamChunk) : Prop :=
  StronglySorted lt idx /\ Forall (fun i => (i < n)%nat) idx /\
  Forall2 (fun i c => chunk_ID c = id /\ chunk_Final c = false /\
                      chunk_Seq c = uint64 (Z.of_nat i)) idx cs.

(** The reply for the request [id], by the [sent] flag and the open writers. *)
Inductive reply_state (id : string) : bool -> list StreamWriter -> list reply_frame -> Prop :=
  | rs_unsent : reply_state id false [] []
  | rs_silent : reply_state id true [] []
  | rs_response r :
      resp_ID r = id -> resp_Stream r = false ->
      reply_state id true [] [RResponse r]
  | rs_error e : ef_ID e = id -> reply_state id true [] [RError e]
  | rs_header r :
      resp_ID r = id -> resp_Stream r = true ->
      reply_state id true [] [RResponse r]
  | rs_stream r n idx cs :
      resp_ID r = id -> resp_Stream r = true -> chunk_run id n idx cs ->
      reply_state id true [mkStreamWriter id (uint64 (Z.of_nat n)) false]
        (RResponse r :: map RData cs)
  | rs_closed r n idx cs tail :
      resp_ID r = id -> resp_Stream r = true -> chunk_run id n idx cs ->
      tail = [] \/ tail = [REnd (mkStreamChunk id (uint64 (Z.of_nat n)) None true)] ->
      reply_state id true [mkStreamWriter id (uint64 (Z.of_nat n)) true]
        (RResponse r :: map RData cs ++ tail).

(** The frames a client may see: at most one head frame, first. *)
Definition reply_shape (id : string) (fs : list reply_frame) : Prop :=
  exists sent sws, reply_state id sent sws fs.

Section Invariant.
Context {V W : Type} `{Unicode} `{Msgpack V} `{Validator V}.

Definition encodes (f : reply_frame) (b : bytes) : Prop :=
  exists enc, Marshal (reply_payload f : payload V) = Ok enc /\ accepted enc /\
    b = frame_bytes (reply_type f) enc.

(** [bs] was written after [base]; a part may be lost only when the peer
    stopped the stream. *)
Definition delivered (base : bytes) (s : stream) (bs : list bytes) : Prop :=
  exists lost, base ++ concat bs = out s ++ lost /\
    (lost <> [] -> room s = Some 0%nat).

Definition Inv (base : bytes) (req : Request) (st : St V W) : Prop :=
  ctx_Request (st_ctx st) = req /\
  exists fs bs, Forall2 encodes fs bs /\ delivered base (ctx_stream (st_ctx st)) bs /\
    reply_state (req_ID req) (ctx_sent (st_ctx st)) (st_sws st) fs.

Class Safe {A} (m : M V W A) : Prop :=
  safe base req st : Inv base req st -> Inv base req (m st).2.

Class SafeMW (mw : MiddlewareFunc V W) : Prop :=
  safe_mw h : Safe h -> Safe (mw h).
End Invariant.

#[export] Hint Constructors reply_state : qf.

Lemma reply_unsent id sws fs : reply_state id false sws fs -> sws = [] /\ fs = [].
Proof. by inversion 1. Qed.

(** A reply has at most one head frame, and starts with it. *)
Lemma reply_shape_heads id fs :
  reply_shape id fs ->
  (length (List.filter is_head fs) <= 1)%nat /\
  (forall f fs', fs = f :: fs' -> is_head f = true).
Proof.
  intros (sent & sws & Hrs).
  assert (forall cs : list StreamChunk, List.filter is_head (map RData cs) = []) as Hdata
    by (induction cs; done).
  destruct Hrs; cbn; rewrite ?List.filter_app, ?Hdata; cbn; split; try lia;
    try (intros; simplify_eq; done).
  destruct H2 as [->| ->]; cbn; lia.
Qed.

(** An open writer determines the reply so far. *)
Lemma reply_open id sent sws fs p w :
  reply_state id sent sws fs -> sws !! p = Some w -> sw_closed w = false ->
  sent = true /\ p = 0%nat /\
  exists r n idx cs, resp_ID r = id /\ resp_Stream r = true /\ chunk_run id n idx cs /\
    w = mkStreamWriter id (uint64 (Z.of_nat n)) false /\ sws = [w] /\
    fs = RResponse r :: map RData cs.
Proof.
  intros Hrs Hp Hc. destruct Hrs; try done; destruct p as [|p]; simplify_eq/=.
  eauto 12.
Qed.

(** ** Delivery *)

Lemma delivered_write base s bs p :
  delivered base s bs -> delivered base (Write s p).2 (bs ++ [p]).
Proof.
  intros (lost & Heq & Hroom).
  unfold delivered. rewrite concat_app. simpl. rewrite app_nil_r.
  destruct lost as [|x lost].
  - rewrite app_nil_r in Heq. destruct (Write_out s p) as (lost & Hout & Hr & _).
    exists lost. rewrite app_assoc, Heq. done.
  - exists (x :: lost ++ p). unfold Write. rewrite Hroom by done.
    rewrite (app_assoc base), Heq, <- app_assoc.
    destruct p as [|y p]; cbn; rewrite !app_nil_r; done.
Qed.

Section Facts.
Context {V W : Type} `{Unicode} `{Msgpack V} `{Validator V}.

(** One [WriteFrame]: refused with an error and no effect, or delivered. *)
Lemma delivered_frame base s bs (f : reply_frame) :
  delivered base s bs ->
  (exists e, WriteFrame s (reply_type f) (reply_payload f : payload V) = (Some e, s)) \/
  (exists b, encodes (V := V) f b /\
     delivered base (WriteFrame s (reply_type f) (reply_payload f : payload V)).2 (bs ++ [b])).
Proof.
  intros Hd. destruct (WriteFrame_cases s (reply_type f) (reply_payload f : payload V))
    as [|(enc & HM & Ha & H2 & _)]; [by left|right].
  exists (frame_bytes (reply_type f) enc). split; [by exists enc|].
  rewrite H2. by apply delivered_write.
Qed.

(** *** Closure of [Safe] *)

#[export] Instance safe_ret {A} (a : A) : Safe (mret a : M V W A).
Proof. by intros base req st. Qed.

#[export] Instance safe_panic {A} p : Safe (panic p : M V W A).
Proof. by intros base req st. Qed.

#[export] Instance safe_bind {A B} (m : M V W A) (k : A -> M V W B) :
  Safe m -> (forall a, Safe (k a)) -> Safe (m ≫= k).
Proof.
  intros Hm Hk base req st Hst. unfold mbind, M_bind.
  specialize (Hm base req st Hst). destruct (m st) as [[a|p] st']; [|done].
  by apply Hk.
Qed.

#[export] Instance safe_if {A} (b : bool) (m1 m2 : M V W A) :
  Safe m1 -> Safe m2 -> Safe (if b then m1 else m2).
Proof. by destruct b. Qed.

#[export] Instance safe_option {A B} (o : option A) (m1 : A -> M V W B) (m2 : M V W B) :
  (forall a, Safe (m1 a)) -> Safe m2 ->
  Safe (match o with Some a => m1 a | None => m2 end).
Proof. by destruct o. Qed.

#[export] Instance safe_result {A B} (r : result A) (m1 : A -> M V W B)
    (m2 : error -> M V W B) :
  (forall a, Safe (m1 a)) -> (forall e, Safe (m2 e)) ->
  Safe (match r with Ok a => m1 a | Err e => m2 e end).
Proof. by destruct r. Qed.

#[export] Instance safe_get_ctx : Safe (get_ctx : M V W (Ctx V)).
Proof. by intros base req st. Qed.
#[export] Instance safe_get_env : Safe (get_env : M V W (Env W)).
Proof. by intros base req st. Qed.
#[export] Instance safe_get_sw p : Safe (get_sw p : M V W (option StreamWriter)).
Proof. by intros base req st. Qed.
#[export] Instance safe_put_env e : Safe (put_env e : M V W unit).
Proof. by intros base req st. Qed.

#[export] Instance safe_log r : Safe (log_record r : M V W unit).
Proof. unfold log_record. apply _. Qed.
#[export] Instance safe_slog log level msg attrs : Safe (slog_Log log level msg attrs : M V W unit).
Proof. destruct log; [apply safe_log|apply safe_panic]. Qed.
#[export] Instance safe_now : Safe (time_Now : M V W Z).
Proof. unfold time_Now. apply _. Qed.
#[export] Instance safe_get_world : Safe (get_world : M V W W).
Proof. unfold get_world. apply _. Qed.
#[export] Instance safe_put_world w : Safe (put_world w : M V W unit).
Proof. unfold put_world. apply _. Qed.

#[export] Instance safe_Header key value : Safe (Header key value : M V W unit).
Proof. by intros base req st. Qed.
#[export] Instance safe_SetCookie {C} `{Cookies C} (c : C) : Safe (SetCookie c : M V W unit).
Proof. unfold SetCookie. apply _. Qed.
#[export] Instance safe_Set key value : Safe (Set_ key value : M V W unit).
Proof. by intros base req st. Qed.
#[export] Instance safe_MustGet key : Safe (MustGet key : M V W (option V)).
Proof. unfold MustGet. apply _. Qed.

(** *** Responses *)

(** Sending one head frame from the unsent state. *)
Lemma Inv_head base req (st : St V W) f :
  Inv base req st -> ctx_sent (st_ctx st) = false ->
  reply_state (req_ID req) true [] [f] ->
  let '(err, s) :=
    WriteFrame (ctx_stream (st_ctx st)) (reply_type f) (reply_payload f : payload V) in
  Inv base req (mkSt (set_stream (set_sent (st_ctx st) true) s) (st_sws st) (st_env st)) /\
  (err = None -> exists b, encodes (V := V) f b /\ delivered base s [b]) /\ st_sws st = [].
Proof.
  intros (Hreq & fs & bs & Henc & Hd & Hrs) Hsent Hf.
  rewrite Hsent in Hrs. apply reply_unsent in Hrs as [Hsws ->].
  apply Forall2_nil_inv_l in Henc as ->.
  destruct (delivered_frame base _ [] f Hd) as [[e HW]|(b & Hb & Hdb)].
  - rewrite HW. split_and!; [|done..]. split; [done|]. exists [], [].
    cbn. rewrite Hsws. split_and!; [done|done|constructor].
  - destruct (WriteFrame _ _ _) as [err s]. cbn in Hdb |- *.
    split_and!; [|by exists b|done]. split; [done|]. exists [f], [b].
    cbn. rewrite Hsws. split_and!; [by repeat constructor|done|done].
Qed.

#[export] Instance safe_response status headers body :
  Safe (writeResponse status headers body false : M V W (option error)).
Proof.
  intros base req st Hst. rewrite writeResponse_run.
  destruct (ctx_sent (st_ctx st)) eqn:Hsent; [done|]. pose proof Hst as [Hreq _].
  pose proof (Inv_head base req st (RResponse (mkResponse (RequestID (st_ctx st)) status
    (Some (default ∅ headers ∪ default ∅ (ctx_resHeaders (st_ctx st)))) body false))) as HI.
  cbn in HI. destruct (WriteFrame _ _ _) as [err s].
  apply HI; [done..|]. apply rs_response; [|done]. by rewrite <- Hreq.
Qed.

#[export] Instance safe_Send status body : Safe (Send status body : M V W (option error)).
Proof. unfold Send. apply _. Qed.
#[export] Instance safe_MsgPack status v : Safe (MsgPack status v : M V W (option error)).
Proof. unfold MsgPack. apply _. Qed.
#[export] Instance safe_NoContent : Safe (NoContent : M V W (option error)).
Proof. unfold NoContent. apply _. Qed.

(** Taking the [sent] flag without writing is a silent reply. *)
Lemma Inv_silent base req (st : St V W) :
  Inv base req st -> ctx_sent (st_ctx st) = false ->
  Inv base req (mkSt (set_sent (st_ctx st) true) (st_sws st) (st_env st)).
Proof.
  intros (Hreq & fs & bs & Henc & Hd & Hrs) Hsent. rewrite Hsent in Hrs.
  apply reply_unsent in Hrs as [Hsws ->]. split; [done|].
  exists [], bs. cbn. rewrite Hsws. by split_and!; [| |constructor].
Qed.

#[export] Instance safe_Error code message data :
  Safe (Error code message data : M V W (option error)).
Proof.
  intros base req st Hst. rewrite Error_run.
  destruct (ctx_sent (st_ctx st)) eqn:Hsent; [done|]. pose proof Hst as [Hreq _].
  assert (forall p, Inv base req
    (let '(err, s) := WriteFrame (ctx_stream (st_ctx st)) FrameTypeError
        (PError (mkErrorFrame (RequestID (st_ctx st)) code message p) : payload V) in
     (Returns err, after_send st s (st_sws st))).2) as Hsend.
  { intros p. pose proof (Inv_head base req st
      (RError (mkErrorFrame (RequestID (st_ctx st)) code message p))) as HI.
    cbn in HI. destruct (WriteFrame _ _ _) as [err s].
    apply HI; [done..|]. apply rs_error. by rewrite <- Hreq. }
  cbv zeta. destruct data as [|[v|] data]; [apply Hsend| |apply Hsend].
  destruct (Marshal (PValue (Some v))); [apply Hsend|by apply Inv_silent].
Qed.

#[export] Instance safe_NewStream status headers :
  Safe (NewStream status headers : M V W (result nat)).
Proof.
  intros base req st Hst. rewrite NewStream_run.
  destruct (ctx_sent (st_ctx st)) eqn:Hsent; [done|]. pose proof Hst as [Hreq _].
  set (r := mkResponse (RequestID (st_ctx st)) status headers None true).
  assert (resp_ID r = req_ID req) as Hid by (by rewrite <- Hreq).
  pose proof (Inv_head base req st (RResponse r) Hst Hsent
    ltac:(by apply rs_header)) as HI.
  cbn in HI. destruct (WriteFrame _ _ _) as [[e|] s]; [apply HI|].
  destruct HI as ((_ & _) & Hb & Hsws). destruct (Hb eq_refl) as (b & Henc & Hd).
  split; [done|]. exists [RResponse r], [b]. cbn. rewrite Hsws.
  split_and!; [by repeat constructor|done|].
  unfold RequestID. rewrite Hreq.
  apply (rs_stream _ r 0 [] []); [done..|]. by repeat constructor.
Qed.

(** *** Stream writers *)

Lemma chunk_run_snoc id n idx cs data :
  chunk_run id n idx cs ->
  chunk_run id (S n) (idx ++ [n]) (cs ++ [mkStreamChunk id (uint64 (Z.of_nat n)) data false]).
Proof.
  intros (Hs & Hlt & Hcs). split_and!.
  - clear Hcs. induction Hs as [|i idx Hs IH Hi]; [by repeat constructor|].
    inversion Hlt; subst. cbn. constructor; [by apply IH|].
    apply Forall_app. by repeat constructor.
  - apply Forall_app. split; [|by repeat constructor].
    eapply Forall_impl; [exact Hlt|]. cbn. lia.
  - apply Forall2_app; [done|]. by repeat constructor.
Qed.

Lemma chunk_run_weaken id n idx cs : chunk_run id n idx cs -> chunk_run id (S n) idx cs.
Proof.
  intros (Hs & Hlt & Hcs). split_and!; [done| |done].
  eapply Forall_impl; [exact Hlt|]. cbn. lia.
Qed.

Lemma uint64_succ n : uint64 (uint64 (Z.of_nat n) + 1) = uint64 (Z.of_nat (S n)).
Proof. unfold uint64. rewrite Zplus_mod_idemp_l. f_equal. lia. Qed.

#[export] Instance safe_SW_Write p data :
  Safe (SW_Write p data : M V W (Z * option error)).
Proof.
  intros base req st Hst. rewrite SW_Write_run.
  destruct (st_sws st !! p) as [w|] eqn:Hp; [|done].
  destruct (sw_closed w) eqn:Hc; [done|].
  destruct Hst as (Hreq & fs & bs & Henc & Hd & Hrs).
  destruct (reply_open _ _ _ _ _ _ Hrs Hp Hc)
    as (Hsent & -> & r & n & idx & cs & Hid & Hstr & Hrun & -> & Hsws & ->).
  cbn [sw_requestID sw_seq sw_closed].
  set (c := mkStreamChunk (req_ID req) (uint64 (Z.of_nat n)) data false).
  rewrite uint64_succ.
  destruct (delivered_frame base _ bs (RData c) Hd) as [[e HW]|(b & Hb & Hdb)].
  - cbn in HW. rewrite HW. split; [done|]. exists (RResponse r :: map RData cs), bs.
    cbn. rewrite Hsws, Hsent. split_and!; [done..|].
    eapply rs_stream; [done..|]. by apply chunk_run_weaken.
  - cbn in Hdb. destruct (WriteFrame _ _ _) as [err s]. split; [done|].
    exists (RResponse r :: map RData (cs ++ [c])), (bs ++ [b]). cbn.
    rewrite Hsws, Hsent. split_and!; [|done|].
    + rewrite map_app, app_comm_cons. apply Forall2_app; [done|by repeat constructor].
    + eapply rs_stream; [done..|]. by apply chunk_run_snoc.
Qed.

#[export] Instance safe_SW_Close p : Safe (SW_Close p : M V W (option error)).
Proof.
  intros base req st Hst. rewrite SW_Close_run.
  destruct (st_sws st !! p) as [w|] eqn:Hp; [|done].
  destruct (sw_closed w) eqn:Hc; [done|].
  destruct Hst as (Hreq & fs & bs & Henc & Hd & Hrs).
  destruct (reply_open _ _ _ _ _ _ Hrs Hp Hc)
    as (Hsent & -> & r & n & idx & cs & Hid & Hstr & Hrun & -> & Hsws & ->).
  cbn [sw_requestID sw_seq sw_closed].
  set (c := mkStreamChunk (req_ID req) (uint64 (Z.of_nat n)) None true).
  destruct (delivered_frame base _ bs (REnd c) Hd) as [[e HW]|(b & Hb & Hdb)].
  - cbn in HW. rewrite HW. split; [done|]. exists (RResponse r :: map RData cs), bs.
    cbn. rewrite Hsws, Hsent. split_and!; [done..|].
    rewrite <- (app_nil_r (map RData cs)). eapply rs_closed; [done..|by left].
  - cbn in Hdb. destruct (WriteFrame _ _ _) as [err s]. split; [done|].
    exists (RResponse r :: map RData cs ++ [REnd c]), (bs ++ [b]). cbn.
    rewrite Hsws, Hsent. split_and!; [|done|].
    + rewrite app_comm_cons. apply Forall2_app; [done|by repeat constructor].
    + eapply rs_closed; [done..|by right].
Qed.
End Facts.
