(* ===== verification/Router.v ===== *)
(** * Routing (framework/router.go)

    Patterns, matching, the middleware chain and the routing table.  The loop
    of [matchSegments] advances both of its indices together, so it is a
    recursion on the two lists of segments. *)

From S2P Require Import Prelude GoStd NetURL Wire Validation Reqctx Reply.
From Stdlib Require Import Ascii.

Local Open Scope string_scope.
Local Open Scope list_scope.

(** ** Data *)

Inductive segmentKind := segStatic | segParam | segWildcard.

Record segment := mkSegment { kind : segmentKind; value : string }.

Record route (V W : Type) := mkRoute {
  rt_method : string;
  rt_segments : list segment;
  rt_handler : HandlerFunc V W;
}.
Arguments mkRoute {V W}. Arguments rt_method {V W}.
Arguments rt_segments {V W}. Arguments rt_handler {V W}.

Record Router (V W : Type) := mkRouter {
  routes : list (route V W);
  router_middleware : list (MiddlewareFunc V W);
  NotFound : HandlerFunc V W;
  MethodNotAllowed : HandlerFunc V W;
}.
Arguments mkRouter {V W}. Arguments routes {V W}. Arguments router_middleware {V W}.
Arguments NotFound {V W}. Arguments MethodNotAllowed {V W}.

#[export] Instance segmentKind_eq_dec : EqDecision segmentKind.
Proof. solve_decision. Defined.
#[export] Instance segment_eq_dec : EqDecision segment.
Proof. solve_decision. Defined.

(** ** Paths and patterns *)

Definition splitPath (path : string) : list string :=
  let path := Trim path "/" in
  if String.eqb path "" then [] else Split path "/".

Definition parse_segment (p : string) : segment :=
  if HasPrefix p ":" then mkSegment segParam (drop_str 1 p)
  else if HasPrefix p "*" then
    let name := drop_str 1 p in
    mkSegment segWildcard (if String.eqb name "" then "wildcard" else name)
  else mkSegment segStatic p.

Definition parsePattern (pattern : string) : list segment :=
  map parse_segment (splitPath pattern).

Fixpoint match_loop (routeSegs : list segment) (actualSegs : list string)
    (params : gmap string string) : option (gmap string string) :=
  match routeSegs, actualSegs with
  | rs :: routeSegs', a :: actualSegs' =>
      match kind rs with
      | segStatic =>
          if String.eqb (value rs) a then match_loop routeSegs' actualSegs' params else None
      | segParam => match_loop routeSegs' actualSegs' (<[value rs := a]> params)
      | segWildcard => Some (<[value rs := Join actualSegs "/"]> params)
      end
  | [], [] => Some params
  | _, _ => None
  end.

Definition matchSegments (routeSegs : list segment) (actualSegs : list string)
    : option (gmap string string) :=
  match_loop routeSegs actualSegs ∅.

(** ** Middleware *)

Section Middleware.
Context {V W : Type}.

(** The loop [for i := len(mw) - 1; i >= 0; i--], entered with [i + 1 = n]. *)
Fixpoint apply_loop (mw : list (MiddlewareFunc V W)) (n : nat) (handler : HandlerFunc V W)
    : HandlerFunc V W :=
  match n with
  | O => handler
  | S i =>
      match mw !! i with
      | Some m => apply_loop mw i (m handler)
      | None => handler
      end
  end.

Definition applyMiddleware (handler : HandlerFunc V W) (mw : list (MiddlewareFunc V W))
    : HandlerFunc V W :=
  apply_loop mw (length mw) handler.
End Middleware.

(** ** The routing table *)

Section Table.
Context {V W : Type} `{Unicode} `{Msgpack V} `{Validator V}.

Definition notFound : M V W (option error) :=
  ctx ← get_ctx;
  Error 404 ("no route for " +:+ Method ctx +:+ " " +:+ CtxPath ctx) [].

Definition methodNotAllowed : M V W (option error) :=
  ctx ← get_ctx;
  Error 405 ("method " +:+ Method ctx +:+ " not allowed on " +:+ CtxPath ctx) [].

Definition newRouter : Router V W := mkRouter [] [] notFound methodNotAllowed.

Definition add (r : Router V W) (method pattern : string)
    (middleware : list (MiddlewareFunc V W)) (handler : HandlerFunc V W) : Router V W :=
  mkRouter
    (routes r ++ [mkRoute (ToUpper method) (parsePattern pattern)
                    (applyMiddleware handler middleware)])
    (router_middleware r) (NotFound r) (MethodNotAllowed r).

(** The loop over the routes, carrying [pathMatched]. *)
Fixpoint match_routes (r : Router V W) (rts : list (route V W)) (method : string)
    (pathSegs : list string) (pathMatched : bool)
    : HandlerFunc V W * gmap string string :=
  match rts with
  | [] => if pathMatched then (MethodNotAllowed r, ∅) else (NotFound r, ∅)
  | rt :: rts =>
      match matchSegments (rt_segments rt) pathSegs with
      | None => match_routes r rts method pathSegs pathMatched
      | Some params =>
          if String.eqb (rt_method rt) (ToUpper method)
          then (rt_handler rt, params)
          else match_routes r rts method pathSegs true
      end
  end.

Definition Router_match (r : Router V W) (method path : string)
    : HandlerFunc V W * gmap string string :=
  match_routes r (routes r) method (splitPath path) false.
End Table.

(** ** Specification of matching

    [Matches segs path binds]: the segments match the path, binding these
    names in order; a name bound twice keeps its last value. *)
Inductive Matches : list segment -> list string -> list (string * string) -> Prop :=
  | m_nil : Matches [] [] []
  | m_static s segs path binds :
      Matches segs path binds ->
      Matches (mkSegment segStatic s :: segs) (s :: path) binds
  | m_param n a segs path binds :
      Matches segs path binds ->
      Matches (mkSegment segParam n :: segs) (a :: path) ((n, a) :: binds)
  | m_wildcard n segs a path :
      Matches (mkSegment segWildcard n :: segs) (a :: path) [(n, Join (a :: path) "/")].

Definition bind_all (binds : list (string * string)) (m : gmap string string)
    : gmap string string :=
  foldl (fun m '(n, a) => <[n := a]> m) m binds.

(** A pattern segment as it is written, and filled in with parameters. *)
Definition print_segment (s : segment) : string :=
  match kind s with
  | segStatic => value s
  | segParam => String ":" (value s)
  | segWildcard => String "*" (value s)
  end.

Definition fill_segment (params : gmap string string) (s : segment) : string :=
  match kind s with
  | segStatic => value s
  | _ => default "" (params !! value s)
  end.

Definition print_pattern (segs : list segment) : string :=
  String "/" (Join (map print_segment segs) "/").

(** Segments that print to a pattern which parses back: no empty or slashed
    text, no static text that reads as a parameter. *)
Definition wf_segment (s : segment) : bool :=
  negb (Contains "/" (value s)) && negb (String.eqb (value s) "")
  && match kind s with
     | segStatic => negb (HasPrefix (value s) ":") && negb (HasPrefix (value s) "*")
     | _ => true
     end.

(** A pattern whose wildcard, if any, is its last segment. *)
Fixpoint tail_wildcard (segs : list segment) : Prop :=
  match segs with
  | [] => True
  | s :: segs => (kind s = segWildcard -> segs = []) /\ tail_wildcard segs
  end.

(** The routing decision, declaratively: the first registered route that
    matches path and method, else 405 when some route matches the path, else
    404. *)
Definition route_accepts {V W : Type} `{Unicode} (method : string) (pathSegs : list string)
    (rt : route V W) : Prop :=
  is_Some (matchSegments (rt_segments rt) pathSegs) /\ rt_method rt = ToUpper method.

Inductive Routed {V W : Type} `{Unicode} (r : Router V W) (method path : string) :
    HandlerFunc V W * gmap string string -> Prop :=
  | routed_found pre rt post params :
      routes r = pre ++ rt :: post ->
      Forall (fun rt => ~ route_accepts method (splitPath path) rt) pre ->
      rt_method rt = ToUpper method ->
      matchSegments (rt_segments rt) (splitPath path) = Some params ->
      Routed r method path (rt_handler rt, params)
  | routed_method :
      Forall (fun rt => ~ route_accepts method (splitPath path) rt) (routes r) ->
      Exists (fun rt => is_Some (matchSegments (rt_segments rt) (splitPath path))) (routes r) ->
      Routed r method path (MethodNotAllowed r, ∅)
  | routed_none :
      Forall (fun rt => matchSegments (rt_segments rt) (splitPath path) = None) (routes r) ->
      Routed r method path (NotFound r, ∅).

(** ** Lemmas *)

Lemma match_loop_spec segs path m params :
  match_loop segs path m = Some params <->
  exists binds, Matches segs path binds /\ params = bind_all binds m.
Proof.
  split.
  - revert path m. induction segs as [|[k v] segs IH]; intros [|a path] m; cbn; try done.
    + intros. simplify_eq. exists []. split; [constructor|done].
    + destruct k.
      * destruct (String.eqb_spec v a) as [->|]; [|done].
        intros (binds & Hm & ->)%IH. eexists. split; [by constructor|done].
      * intros (binds & Hm & ->)%IH. eexists. split; [by constructor|done].
      * intros. simplify_eq. eexists. split; [by constructor|done].
  - intros (binds & Hm & ->). revert m.
    induction Hm as [|s segs path binds Hm IH|n a segs path binds Hm IH|]; intros m; cbn;
      [done| |apply IH|done].
    rewrite String.eqb_refl. apply IH.
Qed.

Lemma apply_loop_take {V W : Type} (mw : list (MiddlewareFunc V W)) n h :
  (n <= length mw)%nat -> apply_loop mw n h = foldr (fun m h => m h) h (take n mw).
Proof.
  revert h. induction n as [|n IH]; intros h Hn; [done|]. cbn [apply_loop].
  destruct (lookup_lt_is_Some_2 mw n ltac:(lia)) as [m Hm].
  unfold MiddlewareFunc in *. rewrite Hm, IH by lia. by rewrite (take_S_r _ _ _ Hm), foldr_app.
Qed.

(** The chain is a right fold: the first middleware is the outermost. *)
Lemma applyMiddleware_foldr {V W : Type} (h : HandlerFunc V W) mw :
  applyMiddleware h mw = foldr (fun m h => m h) h mw.
Proof. unfold applyMiddleware. by rewrite apply_loop_take, take_ge. Qed.

Lemma applyMiddleware_app {V W : Type} (h : HandlerFunc V W) mw1 mw2 :
  applyMiddleware h (mw1 ++ mw2) = applyMiddleware (applyMiddleware h mw2) mw1.
Proof. by rewrite !applyMiddleware_foldr, foldr_app. Qed.

#[export] Instance safe_applyMiddleware {V W : Type} `{Msgpack V}
    (h : HandlerFunc V W) mw :
  Safe h -> Forall SafeMW mw -> Safe (applyMiddleware h mw).
Proof.
  intros Hh Hmw. rewrite applyMiddleware_foldr.
  induction Hmw as [|m mw Hm _ IH]; [done|]. by apply Hm.
Qed.

Section TableFacts.
Context {V W : Type} `{Unicode} `{Msgpack V}.
Implicit Types (r : Router V W).

#[export] Instance safe_notFound : Safe (notFound : M V W (option error)).
Proof. unfold notFound. apply _. Qed.
#[export] Instance safe_methodNotAllowed : Safe (methodNotAllowed : M V W (option error)).
Proof. unfold methodNotAllowed. apply _. Qed.

Lemma match_routes_routed r pre rts method path matched :
  routes r = pre ++ rts ->
  Forall (fun rt => ~ route_accepts method (splitPath path) rt) pre ->
  (matched = true ->
     Exists (fun rt => is_Some (matchSegments (rt_segments rt) (splitPath path))) pre) ->
  (matched = false ->
     Forall (fun rt => matchSegments (rt_segments rt) (splitPath path) = None) pre) ->
  Routed r method path (match_routes r rts method (splitPath path) matched).
Proof.
  revert pre matched. induction rts as [|rt rts IH]; intros pre matched Hr Hpre Ht Hf; cbn.
  - rewrite app_nil_r in Hr. subst pre.
    destruct matched; [by apply routed_method; auto|by apply routed_none; auto].
  - assert (routes r = (pre ++ [rt]) ++ rts) as Hr' by (by rewrite Hr, <- app_assoc).
    destruct (matchSegments (rt_segments rt) (splitPath path)) as [params|] eqn:Hm.
    + destruct (String.eqb_spec (rt_method rt) (ToUpper method)) as [He|Hne].
      * by eapply routed_found.
      * apply (IH (pre ++ [rt])); [done| | |done].
        -- apply Forall_app. split; [done|]. constructor; [|done]. by intros [_ ?].
        -- intros _. apply Exists_app. right. constructor. by eexists.
    + apply (IH (pre ++ [rt])); [done| | |].
      * apply Forall_app. split; [done|]. constructor; [|done].
        intros [[? ?] _]. congruence.
      * intros Htt. apply Exists_app. left. auto.
      * intros Hff. apply Forall_app. auto.
Qed.

(** A path that is accepted is not refused, and the first one wins. *)
Lemma Routed_unique r method path res1 res2 :
  Routed r method path res1 -> Routed r method path res2 -> res1 = res2.
Proof.
  assert (forall rt params, rt_method rt = ToUpper method ->
    matchSegments (rt_segments rt) (splitPath path) = Some params ->
    route_accepts (V:=V) (W:=W) method (splitPath path) rt) as Hacc.
  { intros. split; [by eexists|done]. }
  assert (forall l, Exists (fun rt => is_Some (matchSegments (rt_segments rt) (splitPath path))) l ->
    Forall (fun rt : route V W => matchSegments (rt_segments rt) (splitPath path) = None) l -> False)
    as Hex.
  { intros l He Hl. apply Exists_exists in He as (rt & Hin & [? Hs]).
    rewrite Forall_forall in Hl. specialize (Hl _ Hin). congruence. }
  intros [pre rt post params Hr Hpre Hm Hs|Hall He|Hall]
         [pre' rt' post' params' Hr' Hpre' Hm' Hs'|Hall' He'|Hall'];
    try done; try (exfalso; by eapply Hex);
    try (exfalso; rewrite Hr in *; rewrite Forall_app, Forall_cons in *;
         destruct_and!; by eauto || congruence);
    try (exfalso; rewrite Hr' in *; rewrite Forall_app, Forall_cons in *;
         destruct_and!; by eauto || congruence).
  rewrite Hr in Hr'. clear Hr. revert pre' Hr' Hpre'.
  induction pre as [|x pre IH]; intros [|x' pre'] Heq Hpre'; simplify_eq/=; [done| | |].
  - inversion Hpre'; subst. exfalso; eauto.
  - inversion Hpre; subst. exfalso; eauto.
  - inversion Hpre; inversion Hpre'; subst. eapply IH; eauto.
Qed.
End TableFacts.

(** *** Paths *)

Lemma splitPath_slashes i j p :
  splitPath (repeat_char "/" i +:+ p +:+ repeat_char "/" j) = splitPath p.
Proof. unfold splitPath. by rewrite Trim_repeat. Qed.

Abbreviation plain_segment := (plain "/").

Lemma splitPath_Join l :
  Forall plain_segment l -> splitPath (String "/" (Join l "/")) = l.
Proof.
  intros Hl.
  replace (String "/" (Join l "/")) with (repeat_char "/" 1 +:+ Join l "/" +:+ repeat_char "/" 0)
    by (cbn; by rewrite append_nil_r).
  rewrite splitPath_slashes. unfold splitPath. rewrite (Trim_Join "/") by done.
  destruct Hl as [|x l [Hc Hx] Hl]; [done|].
  destruct (String.eqb_spec (Join (x :: l) "/") "") as [He|_].
  - destruct x as [|a x]; [done|]. by destruct l.
  - apply Split_Join; [done|]. constructor; [done|].
    eapply Forall_impl; [exact Hl|]. by intros ? [? _].
Qed.

(** *** Printed segments *)

Lemma wf_segment_iff k v :
  wf_segment (mkSegment k v) = true <->
  Contains "/" v = false /\ v <> "" /\
  (k = segStatic -> HasPrefix v ":" = false /\ HasPrefix v "*" = false).
Proof.
  unfold wf_segment. cbn. rewrite !andb_true_iff, !negb_true_iff, String.eqb_neq.
  destruct k; rewrite ?andb_true_iff, ?negb_true_iff; intuition discriminate.
Qed.

Lemma parse_print_segments segs :
  Forall (fun s => wf_segment s = true) segs -> map parse_segment (map print_segment segs) = segs.
Proof.
  induction 1 as [|[k v] segs Hs _ IH]; [done|]. cbn [map]. rewrite IH. f_equal.
  apply wf_segment_iff in Hs as (_ & Hne & Hk). apply String.eqb_neq in Hne.
  unfold parse_segment, print_segment. cbn [kind value].
  destruct k; [by destruct (Hk eq_refl) as [-> ->]|done|]. cbn. by rewrite Hne.
Qed.

Lemma print_segments_plain segs :
  Forall (fun s => wf_segment s = true) segs -> Forall plain_segment (map print_segment segs).
Proof.
  intros Hall. apply Forall_map. eapply Forall_impl; [exact Hall|]. intros [k v] Hs.
  apply wf_segment_iff in Hs as (Hc & Hne & _). by destruct k.
Qed.

(** A prefix and a path, each with its leading slash, split into both. *)
Lemma splitPath_app l1 l2 :
  Forall plain_segment l1 -> Forall plain_segment l2 ->
  splitPath (String "/" (Join l1 "/") +:+ String "/" (Join l2 "/")) = l1 ++ l2.
Proof.
  intros H1 H2. destruct l1 as [|x l1], l2 as [|y l2].
  - done.
  - change (String "/" (Join [] "/") +:+ String "/" (Join (y :: l2) "/"))
      with (repeat_char "/" 1 +:+ String "/" (Join (y :: l2) "/")).
    rewrite <- (append_nil_r (String "/" _)). rewrite (splitPath_slashes 1 0).
    by rewrite splitPath_Join.
  - change (splitPath (repeat_char "/" 0 +:+ String "/" (Join (x :: l1) "/") +:+
      repeat_char "/" 1) = (x :: l1) ++ []).
    rewrite (splitPath_slashes 0 1), app_nil_r. by rewrite splitPath_Join.
  - rewrite <- (splitPath_Join ((x :: l1) ++ (y :: l2))) by (by apply Forall_app).
    f_equal. rewrite Join_app by done. done.
Qed.
