(* ===== verification/RouterProps.v ===== *)
(** * Properties of routing

    Matching against its declarative specification, the routing decision,
    path normalisation, pattern round trips and the order of middleware. *)

From S2P Require Import Prelude GoStd NetURL Wire RefCodec Validation Reqctx Reply Router.
From Stdlib Require Import Ascii.

Local Open Scope string_scope.
Local Open Scope list_scope.

(** A middleware that runs [before] and [after] around the next handler. *)
Definition around {V W : Type} (before after : M V W unit) : MiddlewareFunc V W :=
  fun next => _ ← before; err ← next; _ ← after; mret err.

Definition run_all {V W : Type} (l : list (M V W unit)) : M V W unit :=
  foldr (fun m k => _ ← m; k) (mret tt) l.

(** ** Matching *)

(** [matchSegments] computes the declarative matching relation: it
    succeeds exactly when the pattern matches the path, and its parameters are
    the bindings in order, the last one for a repeated name. *)
Theorem matchSegments_spec (segs : list segment) (path : list string) params :
  matchSegments segs path = Some params <->
  exists binds, Matches segs path binds /\ params = bind_all binds ∅.
Proof. apply match_loop_spec. Qed.

Lemma bind_all_cons n a binds m :
  bind_all ((n, a) :: binds) m = bind_all binds (<[n := a]> m).
Proof. done. Qed.

Lemma bind_all_notin binds m n :
  ~ In n (map fst binds) -> bind_all binds m !! n = m !! n.
Proof.
  revert m. induction binds as [|[k a] binds IH]; intros m Hn; [done|]. cbn in Hn.
  rewrite bind_all_cons, IH by tauto. apply lookup_insert_ne. tauto.
Qed.

Lemma Matches_nil segs path binds : Matches segs path binds -> path = [] <-> segs = [].
Proof. by destruct 1. Qed.

Lemma Join_congr x l1 l2 sep :
  (l2 = [] <-> l1 = []) -> Join l1 sep = Join l2 sep -> Join (x :: l1) sep = Join (x :: l2) sep.
Proof.
  intros Hnil Heq. destruct l1 as [|y l1], l2 as [|z l2]; [done| | |].
  - discriminate (proj2 Hnil eq_refl).
  - discriminate (proj1 Hnil eq_refl).
  - rewrite (Join_cons x (y :: l1)), (Join_cons x (z :: l2)) by done. by rewrite Heq.
Qed.

(** Filling a pattern in depends on the bindings of its own names only. *)
Lemma Matches_fill segs path binds m :
  Matches segs path binds -> NoDup (map fst binds) -> tail_wildcard segs ->
  Join (map (fill_segment (bind_all binds m)) segs) "/" = Join path "/".
Proof.
  intros Hm. revert m. induction Hm as [|s segs path binds Hm IH|n a segs path binds Hm IH|n segs a path];
    intros m Hnd Ht.
  - done.
  - cbn in Ht. destruct Ht as [_ Ht]. specialize (IH m Hnd Ht). cbn [map].
    change (fill_segment _ (mkSegment segStatic s)) with s.
    apply Join_congr; [|exact IH]. rewrite (Matches_nil _ _ _ Hm). by destruct segs.
  - cbn in Ht. destruct Ht as [_ Ht]. cbn [map fst] in *.
    apply NoDup_cons in Hnd as [Hn Hnd]. rewrite list_elem_of_In in Hn.
    specialize (IH (<[n:=a]> m) Hnd Ht).
    assert (fill_segment (bind_all binds (<[n:=a]> m)) (mkSegment segParam n) = a) as Hfill.
    { unfold fill_segment. cbn. by rewrite bind_all_notin, lookup_insert_eq by done. }
    rewrite bind_all_cons, Hfill.
    apply Join_congr; [|exact IH]. rewrite (Matches_nil _ _ _ Hm). by destruct segs.
  - cbn in Ht. destruct Ht as [Ht _]. rewrite (Ht eq_refl).
    unfold fill_segment. cbn. by rewrite lookup_insert_eq.
Qed.

(** Reverse routing: a path matched by a pattern with distinct names is
    recovered by filling the pattern in with the parameters it bound (the
    wildcard last, as documented). *)
Theorem matchSegments_fill (segs : list segment) (path : list string) binds params :
  Matches segs path binds -> NoDup (map fst binds) -> tail_wildcard segs ->
  matchSegments segs path = Some params ->
  Join (map (fill_segment params) segs) "/" = Join path "/".
Proof.
  intros Hm Hnd Ht Hp.
  assert (Some params = Some (bind_all binds ∅)) as [= ->].
  { rewrite <- Hp. apply match_loop_spec. by exists binds. }
  by apply Matches_fill.
Qed.

(** Parsing inverts printing on well-formed patterns. *)
Theorem parsePattern_print (segs : list segment) :
  Forall (fun s => wf_segment s = true) segs -> parsePattern (print_pattern segs) = segs.
Proof.
  intros Hall. unfold parsePattern, print_pattern.
  rewrite splitPath_Join by (by apply print_segments_plain). by apply parse_print_segments.
Qed.

(** ** The routing table *)

Section Routing.
Context {V W : Type} `{Unicode} `{Msgpack V}.

(** C13.  [match] implements the routing decision: the first registered route
    matching path and method with its parameters; else the 405 handler when
    some route matches the path; else the 404 handler. *)
Theorem Router_match_spec (r : Router V W) (method path : string) res :
  Router_match r method path = res <-> Routed r method path res.
Proof.
  assert (Routed r method path (Router_match r method path)) as HR.
  { apply (match_routes_routed r []); [done|by constructor|done|by constructor]. }
  split; [by intros <-|]. intros. by eapply Routed_unique.
Qed.

(** Leading and trailing slashes, of the pattern as of the path, do
    not matter. *)
Theorem Router_match_slashes (r : Router V W) (method p q : string) mw h (i j k l : nat) :
  let slashes s := repeat_char "/" i +:+ s +:+ repeat_char "/" j in
  Router_match (add r method (slashes q) mw h) method (repeat_char "/" k +:+ p +:+ repeat_char "/" l) =
  Router_match (add r method q mw h) method p.
Proof.
  intros slashes. unfold Router_match, add, parsePattern, slashes.
  by rewrite !splitPath_slashes.
Qed.

(** The first middleware is the outermost: a chain of middlewares runs
    their first halves in order, then the handler, then their second halves
    in reverse order. *)
Theorem applyMiddleware_order (l : list (M V W unit * M V W unit)) (h : HandlerFunc V W) st :
  applyMiddleware h (map (fun '(before, after) => around before after) l) st =
  (_ ← run_all (map fst l); err ← h; _ ← run_all (rev (map snd l)); mret err : M V W (option error)) st.
Proof.
  rewrite applyMiddleware_foldr. revert st. unfold HandlerFunc in h.
  set (m := foldr _ _ _). set (m' := mbind _ _). enough (m ≡ m') as Hm by exact Hm.
  subst m m'. unfold run_all.
  assert (forall l1 l2 : list (M V W unit),
    foldr (fun m k => _ ← m; k) (mret tt) (l1 ++ l2) ≡
    (_ ← foldr (fun m k => _ ← m; k) (mret tt) l1;
     foldr (fun m k => _ ← m; k) (mret tt) l2 : M V W unit)) as Happ.
  { intros l1 l2. induction l1 as [|m l1 IH]; [done|]. cbn. rewrite M_bind_assoc.
    f_equiv. intros ?. apply IH. }
  induction l as [|[before after] l IH].
  { intros st. unfold mbind, M_bind, mret, M_ret. cbn. by destruct (h st) as [[]]. }
  cbn [map foldr fst snd rev]. unfold around at 1. rewrite M_bind_assoc.
  f_equiv. intros []. rewrite IH, M_bind_assoc. f_equiv. intros [].
  rewrite M_bind_assoc. f_equiv. intros e. rewrite M_bind_assoc, Happ, M_bind_assoc.
  f_equiv. intros []. cbn. by rewrite M_bind_assoc.
Qed.
End Routing.

(** ** Witnesses *)

Definition files_pattern : list segment :=
  [mkSegment segStatic "users"; mkSegment segParam "id"; mkSegment segWildcard "path"].

Lemma matchSegments_fill_witness :
  Join (map (fill_segment (<["path" := "a/b.png"]> (<["id" := "42"]> ∅))) files_pattern) "/" =
  "users/42/a/b.png".
Proof.
  apply (matchSegments_fill files_pattern ["users"; "42"; "a"; "b.png"]
    [("id", "42"); ("path", "a/b.png")]).
  - repeat constructor.
  - apply (bool_decide_unpack _). vm_compute. exact I.
  - cbn. split_and!; done.
  - vm_compute. reflexivity.
Defined.

Lemma parsePattern_print_witness : parsePattern "/users/:id/*path" = files_pattern.
Proof. apply (parsePattern_print files_pattern). repeat constructor. Defined.
