(* ===== verification/App.v ===== *)
(** * The application and its dispatcher (framework/app.go)

    [App], its registration methods, and [dispatchStream], the path of every
    accepted stream: read a frame, decode the request, route it, run the
    middleware chain and the handler, fall back to a 500 error frame, run the
    after-middleware.  The application's logger appends to the environment's
    log.  Listeners and goroutines are in Lifecycle.v. *)

From S2P Require Import Prelude GoStd NetURL Wire Validation Reqctx Reply Router.

Local Open Scope string_scope.
Local Open Scope list_scope.

(** ** Data *)

(** The fields of [quic.Config] that [New] sets; durations in ns. *)
Record QuicConfig := mkQuicConfig {
  MaxIncomingStreams : Z;
  MaxIncomingUniStreams : Z;
  KeepAlivePeriod : Z;
  MaxIdleTimeout : Z;
  EnableDatagrams : bool;
}.

Definition Second : Z := 1000000000.
Definition Minute : Z := (60 * Second)%Z.

Record App (V W : Type) := mkApp {
  router : Router V W;
  middleware : list (MiddlewareFunc V W);
  afterMiddleware : list (HandlerFunc V W);
  app_logger : slogger;
  quicCfg : QuicConfig;
}.
Arguments mkApp {V W}. Arguments router {V W}. Arguments middleware {V W}.
Arguments afterMiddleware {V W}. Arguments app_logger {V W}. Arguments quicCfg {V W}.

(** [prepend]: [elem] first, its other occurrences removed. *)
Definition prepend (elem : string) (slice : list string) : list string :=
  foldl (fun out s => if negb (String.eqb s elem) then out ++ [s] else out) [elem] slice.

Section App.
Context {V W : Type} `{Unicode} `{URLAuthority} `{Msgpack V}.

Definition New : App V W :=
  mkApp newRouter [] [] slog_Default (mkQuicConfig 4096 256 (30 * Second) (5 * Minute) true).

Definition Use (a : App V W) (mw : list (MiddlewareFunc V W)) : App V W :=
  mkApp (router a) (middleware a ++ mw) (afterMiddleware a) (app_logger a) (quicCfg a).

Definition After (a : App V W) (mw : list (HandlerFunc V W)) : App V W :=
  mkApp (router a) (middleware a) (afterMiddleware a ++ mw) (app_logger a) (quicCfg a).

Definition addRoute (a : App V W) (method pattern : string)
    (groupMW : list (MiddlewareFunc V W)) (h : HandlerFunc V W) : App V W :=
  mkApp (add (router a) method pattern groupMW h) (middleware a) (afterMiddleware a)
    (app_logger a) (quicCfg a).

Definition GET (a : App V W) (pattern : string) (h : HandlerFunc V W) : App V W :=
  addRoute a "GET" pattern [] h.
Definition POST (a : App V W) (pattern : string) (h : HandlerFunc V W) : App V W :=
  addRoute a "POST" pattern [] h.
Definition PUT (a : App V W) (pattern : string) (h : HandlerFunc V W) : App V W :=
  addRoute a "PUT" pattern [] h.
Definition DELETE (a : App V W) (pattern : string) (h : HandlerFunc V W) : App V W :=
  addRoute a "DELETE" pattern [] h.
Definition PATCH (a : App V W) (pattern : string) (h : HandlerFunc V W) : App V W :=
  addRoute a "PATCH" pattern [] h.

Definition SetQUICConfig (a : App V W) (cfg : QuicConfig) : App V W :=
  mkApp (router a) (middleware a) (afterMiddleware a) (app_logger a) cfg.

(** [App.Logger]; nothing stops [SetLogger] from taking a nil pointer. *)
Definition App_Logger (a : App V W) : slogger := app_logger a.

Definition SetLogger (a : App V W) (l : slogger) : App V W :=
  mkApp (router a) (middleware a) (afterMiddleware a) l (quicCfg a).

(** *** [dispatchStream] *)

(** [url.Parse(req.Path)], falling back to the raw path. *)
Definition request_url (req : Request) : URL :=
  match Parse (req_Path req) with
  | Some u => u
  | None => mkURL (req_Path req) ""
  end.

(** The route handler and the parameters of a request. *)
Definition resolve (a : App V W) (req : Request) : HandlerFunc V W * gmap string string :=
  Router_match (router a) (req_Method req) (Path (request_url req)).

(** The context the chain runs on. *)
Definition request_ctx (a : App V W) (gc : GoContext) (peer : remoteAddrProvider)
    (req : Request) (s : stream) : Ctx V :=
  setQueryParams (setParams (newContext (Some gc) req peer s) (resolve a req).2)
    (Query (request_url req)).

(** What follows an error of the chain: a 500 frame if nothing was sent, and
    a record of the application's logger. *)
Definition report_error (log : slogger) (req : Request) (err : option error) : M V W unit :=
  match err with
  | None => mret tt
  | Some e =>
      c ← get_ctx;
      _ ← (if negb (ctx_sent c)
           then write_frame FrameTypeError
             (PError (mkErrorFrame (req_ID req) StatusInternalServerError (Error_string e) None))
           else mret None);
      slog_Log log LevelError "quicframe: handler returned error"
        [("method", AString (req_Method req)); ("path", AString (req_Path req));
         ("err", AError (Some e))]
  end.

Fixpoint run_after (l : list (HandlerFunc V W)) : M V W unit :=
  match l with
  | [] => mret tt
  | after :: l => _ ← (after : M V W (option error)); run_after l
  end.

Definition serve (a : App V W) (req : Request) : M V W unit :=
  err ← (applyMiddleware (resolve a req).1 (middleware a) : M V W (option error));
  _ ← report_error (app_logger a) req err;
  run_after (afterMiddleware a).

Definition log_env (e : Env W) (r : LogRecord) : Env W :=
  mkEnv (logs e ++ [r]) (clock e) (ticks e) (world e).

(** A record of the dispatcher's own, and what follows. *)
Definition app_log (a : App V W) (s : stream) (e : Env W) (level : Level) (msg : string)
    (attrs : list (string * Attr)) (k : stream) : outcome unit * stream * Env W :=
  match slog_record (app_logger a) level msg attrs with
  | Returns r => (Returns tt, k, log_env e r)
  | Panics p => (Panics p, s, e)
  end.

(** The dispatcher's outcome, and the stream and environment it leaves. *)
Definition dispatchStream (a : App V W) (gc : GoContext) (peer : remoteAddrProvider)
    (s : stream) (e : Env W) : outcome unit * stream * Env W :=
  match ReadFrame s with
  | (Err err, s) =>
      app_log a s e LevelDebug "quicframe: read frame error" [("err", AError (Some err))] s
  | (Ok (ft, data), s) =>
      if decide (ft = FrameTypePing) then
        (Returns tt, (WriteFrame s FrameTypePong (PPing (mkPingFrame 0) : payload V)).2, e)
      else if negb (bool_decide (ft = FrameTypeRequest)) then
        app_log a s e LevelWarn "quicframe: unexpected frame type from client"
          [("type", AFrameType ft)] s
      else
        match DecodeRequest data with
        | Err err =>
            app_log a s e LevelError "quicframe: decode request" [("err", AError (Some err))]
              (WriteError (V := V) s "" StatusBadRequest "malformed request frame" None).2
        | Ok req =>
            let '(res, st) := serve a req (mkSt (request_ctx a gc peer req s) [] e) in
            (res, ctx_stream (st_ctx st), st_env st)
        end
  end.
End App.

(** ** Specifications *)

(** A computation that leaves the stream alone. *)
Class Quiet {V W A : Type} (m : M V W A) : Prop :=
  quiet st : ctx_stream (st_ctx (m st).2) = ctx_stream (st_ctx st).

Record SafeApp {V W : Type} `{Msgpack V} (a : App V W) : Prop := mkSafeApp {
  safe_routes : Forall (fun rt => Safe (rt_handler rt)) (routes (router a));
  safe_NotFound : Safe (NotFound (router a));
  safe_MethodNotAllowed : Safe (MethodNotAllowed (router a));
  safe_middleware : Forall SafeMW (middleware a);
  quiet_after : Forall Quiet (afterMiddleware a);
}.

(** ** Lemmas *)

Lemma prepend_filter elem slice :
  prepend elem slice = elem :: filter (fun s => s <> elem) slice.
Proof.
  unfold prepend. change (elem :: filter _ slice) with ([elem] ++ filter (fun s => s <> elem) slice).
  generalize [elem] as acc. induction slice as [|s slice IH]; intros acc; cbn [foldl].
  - by rewrite app_nil_r.
  - rewrite IH, filter_cons. destruct (String.eqb_spec s elem) as [->|Hne]; cbn [negb].
    + by rewrite decide_False by auto.
    + rewrite decide_True by done. by rewrite <- app_assoc.
Qed.

Section AppFacts.
Context {V W : Type} `{Unicode} `{URLAuthority} `{Msgpack V}.
Implicit Types (a : App V W) (e : Env W) (s : stream).

#[export] Instance quiet_ret {A} (x : A) : Quiet (mret x : M V W A).
Proof. by intros st. Qed.
#[export] Instance quiet_panic {A} p : Quiet (panic p : M V W A).
Proof. by intros st. Qed.
#[export] Instance quiet_bind {A B} (m : M V W A) (k : A -> M V W B) :
  Quiet m -> (forall x, Quiet (k x)) -> Quiet (m ≫= k).
Proof.
  intros Hm Hk st. rewrite bind_run. specialize (Hm st).
  destruct (m st) as [[x|p] st']; [|done]. by rewrite (Hk x st').
Qed.
#[export] Instance quiet_log r : Quiet (log_record r : M V W unit).
Proof. by intros st. Qed.
#[export] Instance quiet_slog log level msg attrs : Quiet (slog_Log log level msg attrs : M V W unit).
Proof. by destruct log. Qed.
#[export] Instance quiet_get_ctx : Quiet (get_ctx : M V W (Ctx V)).
Proof. by intros st. Qed.
#[export] Instance quiet_Set key v : Quiet (Set_ key v : M V W unit).
Proof. by intros st. Qed.
#[export] Instance quiet_Header key v : Quiet (Header key v : M V W unit).
Proof. by intros st. Qed.

Lemma quiet_run_after (l : list (HandlerFunc V W)) : Forall Quiet l -> Quiet (run_after l).
Proof. induction 1 as [|h l Hh _ IH]; cbn; apply _. Qed.

Lemma Router_match_safe (r : Router V W) method path :
  Forall (fun rt => Safe (rt_handler rt)) (routes r) ->
  Safe (NotFound r) -> Safe (MethodNotAllowed r) -> Safe (Router_match r method path).1.
Proof.
  intros Hr Hn Hm. unfold Router_match. generalize false as b.
  induction Hr as [|rt rts Hrt _ IH]; intros b; cbn; [by destruct b|].
  destruct (matchSegments _ _); [|apply IH].
  destruct (String.eqb _ _); [done|apply IH].
Qed.

(** The registration methods keep an application safe. *)
Lemma SafeApp_New : SafeApp (New : App V W).
Proof. split; cbn; [constructor|apply _|apply _|constructor|constructor]. Qed.

Lemma SafeApp_Use a mw : SafeApp a -> Forall SafeMW mw -> SafeApp (Use a mw).
Proof. intros [] Hmw. split; try done. cbn. by apply Forall_app. Qed.

Lemma SafeApp_After a l : SafeApp a -> Forall Quiet l -> SafeApp (After a l).
Proof. intros [] Hl. split; try done. cbn. by apply Forall_app. Qed.

Lemma SafeApp_SetLogger a l : SafeApp a -> SafeApp (SetLogger a l).
Proof. by intros []. Qed.

Lemma SafeApp_addRoute a method pattern mw h :
  SafeApp a -> Forall SafeMW mw -> Safe h -> SafeApp (addRoute a method pattern mw h).
Proof.
  intros [] Hmw Hh. split; try done. cbn. apply Forall_app. split; [done|].
  constructor; [|done]. by apply safe_applyMiddleware.
Qed.

Lemma SafeApp_chain a req :
  SafeApp a -> Safe (applyMiddleware (resolve a req).1 (middleware a)).
Proof. intros []. apply safe_applyMiddleware; [by apply Router_match_safe|done]. Qed.

(** The log record of a failed chain. *)
Definition handler_error_record (log : nat) (req : Request) (err : error) : LogRecord :=
  mkRecord log LevelError "quicframe: handler returned error"
    [("method", AString (req_Method req)); ("path", AString (req_Path req));
     ("err", AError (Some err))].

Lemma report_error_run log req err (st : St V W) :
  report_error log req (Some err) st =
  (match log with Some _ => Returns tt | None => Panics nil_dereference end,
   mkSt (if ctx_sent (st_ctx st) then st_ctx st
         else set_stream (st_ctx st)
           (WriteFrame (ctx_stream (st_ctx st)) FrameTypeError
              (PError (mkErrorFrame (req_ID req) 500 (Error_string err) None) : payload V)).2)
     (st_sws st)
     (match log with
      | Some log => log_env (st_env st) (handler_error_record log req err)
      | None => st_env st
      end)).
Proof.
  destruct st as [c sws e]. unfold report_error. rewrite bind_run. cbn.
  destruct (ctx_sent c); [by destruct log|]. unfold write_frame, mbind, M_bind. cbn.
  destruct (WriteFrame _ _ _). by destruct log.
Qed.

(** The frame that was read leaves the writer as it was. *)
Lemma ReadFrame_out s res s' : ReadFrame s = (res, s') -> out s' = out s /\ room s' = room s.
Proof.
  intros Hr. destruct (ReadFrame_parse s) as (_ & _ & _ & Ho & Hro). by rewrite Hr in *.
Qed.

(** Dispatch of a well-formed request is [serve] on the fresh context. *)
Lemma dispatch_request a gc peer s e data req s' :
  ReadFrame s = (Ok (FrameTypeRequest, data), s') -> DecodeRequest data = Ok req ->
  dispatchStream a gc peer s e =
  let '(res, st) := serve a req (mkSt (request_ctx a gc peer req s') [] e) in
  (res, ctx_stream (st_ctx st), st_env st).
Proof. intros Hr Hd. unfold dispatchStream. rewrite Hr. cbn. by rewrite Hd. Qed.

(** A chain that returns no error is followed by the after-middleware only. *)
Lemma serve_no_error a req (st st' : St V W) :
  Forall Quiet (afterMiddleware a) ->
  applyMiddleware (resolve a req).1 (middleware a) st = (Returns None, st') ->
  ctx_stream (st_ctx (serve a req st).2) = ctx_stream (st_ctx st').
Proof.
  intros Hq Hchain. unfold serve. rewrite bind_run, Hchain. cbn [report_error].
  rewrite bind_run. unfold mret, M_ret. by apply quiet_run_after.
Qed.

(** The fresh context of a request satisfies the reply invariant. *)
Lemma Inv_fresh (c : Ctx V) (e : Env W) :
  ctx_sent c = false -> Inv (out (ctx_stream c)) (ctx_Request c) (mkSt c [] e).
Proof.
  intros Hs. split; [done|]. exists [], []. cbn. rewrite Hs.
  split_and!; [done| |constructor]. exists []. by rewrite !app_nil_r.
Qed.
End AppFacts.

#[export] Hint Resolve SafeApp_New SafeApp_Use SafeApp_After SafeApp_SetLogger SafeApp_addRoute : qf.
