(* ===== verification/AppProps.v ===== *)
(** * Properties of the dispatcher

    The reply protocol end to end, the error fallback, the after-middleware,
    and how the request target selects a route. *)

From S2P Require Import Prelude GoStd NetURL Wire RefCodec Validation Reqctx Reply Router App.
From Stdlib Require Import Ascii.

Local Open Scope string_scope.
Local Open Scope list_scope.

(** A request with another target. *)
Definition with_path (req : Request) (p : string) : Request :=
  mkRequest (req_ID req) (req_Method req) p (req_Headers req) (req_Body req) (req_Stream req).

(** A handler that returns in every state. *)
Definition returning {V W : Type} (h : HandlerFunc V W) : Prop :=
  forall st, exists err, (h st).1 = Returns err.

(** [prepend] puts its element first, keeps the others in order and
    leaves a single occurrence of it. *)
Theorem prepend_spec (elem : string) (slice : list string) :
  prepend elem slice = elem :: filter (fun s => s <> elem) slice /\
  (forall i, prepend elem slice !! i = Some elem -> i = 0%nat).
Proof.
  rewrite prepend_filter. split; [done|]. intros [|i] Hi; [done|]. cbn in Hi.
  apply list_elem_of_lookup_2, list_elem_of_filter in Hi as [Hne _]. done.
Qed.

Section Dispatch.
Context {V W : Type} `{Unicode} `{URLAuthority} `{Msgpack V}.
Implicit Types (a : App V W) (e : Env W) (s : stream).

Lemma report_error_reply a base log req err (st : St V W) :
  Inv base req st ->
  exists fs bs, Forall2 (encodes (V := V)) fs bs /\
    delivered base (ctx_stream (st_ctx (report_error log req err st).2)) bs /\
    reply_shape (req_ID req) fs.
Proof.
  intros Hinv. pose proof Hinv as (Hreq & fs & bs & Henc & Hd & Hrs).
  destruct err as [err|]; [|exists fs, bs; split_and!; [done..|by do 2 eexists]].
  rewrite report_error_run.
  destruct (ctx_sent (st_ctx st)) eqn:Hsent; cbn.
  { exists fs, bs. split_and!; [done..|by do 2 eexists]. }
  apply reply_unsent in Hrs as [_ ->]. apply Forall2_nil_inv_l in Henc as ->.
  set (ef := mkErrorFrame (req_ID req) 500 (Error_string err) None).
  destruct (delivered_frame base _ [] (RError ef) Hd) as [[e' HW]|(b & Hb & Hdb)]; cbn in *.
  - rewrite HW. exists [], []. split_and!; [done..|by do 2 eexists; constructor].
  - exists [RError ef], [b].
    split_and!; [by repeat constructor|done|]. do 2 eexists. by apply rs_error.
Qed.

(** What a safe application puts on a stream with a request. *)
Lemma request_reply a gc peer s e data req :
  SafeApp a ->
  (ReadFrame s).1 = Ok (FrameTypeRequest, data) -> DecodeRequest data = Ok req ->
  exists fs bs, Forall2 (encodes (V := V)) fs bs /\
    delivered (out s) (dispatchStream a gc peer s e).1.2 bs /\
    reply_shape (req_ID req) fs /\ (length (List.filter is_head fs) <= 1)%nat.
Proof.
  intros Ha Hr Hd. destruct (ReadFrame s) as [res s'] eqn:Hrf. cbn in Hr. subst res.
  rewrite (dispatch_request _ _ _ _ _ _ _ _ Hrf Hd).
  apply ReadFrame_out in Hrf as [Hout _].
  set (st := mkSt (request_ctx a gc peer req s') [] e).
  assert (Inv (out s) req st) as Hinv by (rewrite <- Hout; by apply Inv_fresh).
  enough (exists fs bs, Forall2 (encodes (V := V)) fs bs /\
    delivered (out s) (ctx_stream (st_ctx (serve a req st).2)) bs /\
    reply_shape (req_ID req) fs) as (fs & bs & ? & ? & Hs).
  { exists fs, bs. destruct (serve a req st) as [r st']. cbn in *. split_and!; [done..|].
    by apply reply_shape_heads in Hs as [? _]. }
  unfold serve. rewrite bind_run.
  pose proof (SafeApp_chain a req Ha (out s) req st Hinv) as Hchain.
  destruct (applyMiddleware _ _ st) as [[err|p] st1]; cbn in Hchain.
  - rewrite bind_run.
    pose proof (report_error_reply a (out s) (app_logger a) req err st1 Hchain) as Hrep.
    destruct (report_error (app_logger a) req err st1) as [[[]|p] st2]; [|exact Hrep].
    by rewrite (quiet_run_after _ (quiet_after _ Ha) st2).
  - destruct Hchain as (_ & fs & bs & ? & ? & ?). exists fs, bs.
    split_and!; [done..|by do 2 eexists].
Qed.

(** C2.  The reply protocol: whatever request arrives and whatever the peer
    does to the stream, a safe application (handlers and middleware built
    from the Context API, after-middleware that does not send) puts on the
    wire a prefix of a well-shaped reply to that request: at most one
    response or error frame, first; chunks only after a streaming response,
    with the request's ID and increasing sequence numbers; at most one
    closing chunk, last. *)
Theorem dispatch_reply a gc peer s e data req :
  SafeApp a ->
  (ReadFrame s).1 = Ok (FrameTypeRequest, data) -> DecodeRequest data = Ok req ->
  exists fs bs, Forall2 (encodes (V := V)) fs bs /\
    delivered (out s) (dispatchStream a gc peer s e).1.2 bs /\
    reply_shape (req_ID req) fs /\ (length (List.filter is_head fs) <= 1)%nat.
Proof. apply request_reply. Qed.

(** The frames that are not requests: a read error and an unexpected
    frame type write nothing, a ping is answered by one pong, a request that
    does not decode by one 400 error frame with an empty ID; no handler
    runs, and the dispatcher returns. *)
Theorem dispatch_other_frames a gc peer s e :
  is_Some (app_logger a) ->
  let '(res, s', e') := dispatchStream a gc peer s e in
  match ReadFrame s with
  | (Err _, r) => res = Returns tt /\ s' = r
  | (Ok (ft, data), r) =>
      (ft = FrameTypePing ->
         res = Returns tt /\ e' = e /\
         s' = (WriteFrame r FrameTypePong (PPing (mkPingFrame 0) : payload V)).2) /\
      (ft <> FrameTypePing -> ft <> FrameTypeRequest -> res = Returns tt /\ s' = r) /\
      (ft = FrameTypeRequest -> forall err, DecodeRequest data = Err err ->
         res = Returns tt /\
         s' = (WriteFrame r FrameTypeError
           (PError (mkErrorFrame "" 400 "malformed request frame" None) : payload V)).2)
  end.
Proof.
  intros [log Hlog]. destruct (dispatchStream a gc peer s e) as [[res s'] e'] eqn:Hdisp.
  unfold dispatchStream, app_log in Hdisp. rewrite Hlog in Hdisp. cbn in Hdisp.
  destruct (ReadFrame s) as [[[ft data]|err] r]; [|by simplify_eq].
  destruct (decide (ft = FrameTypePing)) as [->|Hping]; [by simplify_eq|].
  destruct (bool_decide_reflect (ft = FrameTypeRequest)) as [->|Hreq]; cbn in Hdisp.
  - split_and!; [done..|]. intros _ err Hdec. rewrite Hdec in Hdisp. by simplify_eq.
  - by simplify_eq.
Qed.

(** The error fallback: an error of the chain with nothing sent puts
    exactly one 500 error frame with the request's ID and the error's text
    on a healthy stream; an error after a response was sent writes nothing. *)
Theorem report_error_spec (log : nat) (req : Request) (err : error) (st : St V W) enc :
  Marshal (PError (mkErrorFrame (req_ID req) 500 (Error_string err) None) : payload V) = Ok enc ->
  accepted enc -> room (ctx_stream (st_ctx st)) = None ->
  (report_error (Some log) req (Some err) st).1 = Returns tt /\
  out (ctx_stream (st_ctx (report_error (Some log) req (Some err) st).2)) =
    out (ctx_stream (st_ctx st)) ++
    (if ctx_sent (st_ctx st) then [] else frame_bytes FrameTypeError enc).
Proof.
  intros HM Ha Hr. rewrite report_error_run.
  destruct (ctx_sent (st_ctx st)); cbn; [by rewrite app_nil_r|].
  by rewrite (WriteFrame_ok _ _ _ _ HM Ha Hr).
Qed.

(** After a chain that returned, with or without an error, every
    after-middleware runs, in registration order, on the state the others
    left, and its error is dropped; after a panic none runs. *)
Theorem serve_after a req st :
  is_Some (app_logger a) -> Forall returning (afterMiddleware a) ->
  serve a req st =
  match applyMiddleware (resolve a req).1 (middleware a) st with
  | (Panics p, st1) => (Panics p, st1)
  | (Returns err, st1) =>
      (Returns tt, foldl (fun st after => (after st).2) (report_error (app_logger a) req err st1).2
                     (afterMiddleware a))
  end.
Proof.
  intros [log Hlog] Hall. unfold serve. rewrite bind_run, Hlog.
  destruct (applyMiddleware _ _ st) as [[err|p] st1]; [|done]. rewrite bind_run.
  assert ((report_error (Some log) req err st1).1 = Returns tt) as Hrep.
  { destruct err as [err|]; [|done]. by rewrite report_error_run. }
  destruct (report_error (Some log) req err st1) as [r st2]. cbn in Hrep |- *. subst r.
  revert st2. induction Hall as [|h l Hh _ IH]; intros st2; [done|].
  cbn [run_after foldl]. rewrite bind_run. destruct (Hh st2) as [err' Hret].
  destruct (h st2) as [res st3]. cbn in *. subst res. apply IH.
Qed.

(** Routing ignores the query: a request target with a query resolves
    to the same handler and path parameters as without it, and the query's
    pairs are what the handler sees. *)
Theorem resolve_ignores_query a req (q : string) :
  let p := req_Path req in
  Contains "?" p = false -> Contains "#" p = false ->
  Contains "#" q = false -> has_ctl q = false -> is_Some (Parse p) ->
  let req' := with_path req (p +:+ String "?" q) in
  resolve a req' = resolve a req /\ Query (request_url req') = ParseQuery q.
Proof.
  intros p Hp Hf Hq Hc [u Hu] req'. unfold resolve, request_url. cbn.
  fold p. by rewrite Parse_with_query, Hu.
Qed.

(** A target that starts with two slashes is read as an authority: the
    first segment is dropped before routing. *)
Theorem resolve_double_slash a req (host rest : string) :
  host <> "" -> Contains "/" host = false -> authority_ok host = true ->
  has_ctl host = false -> Contains "?" host = false -> Contains "#" host = false ->
  plain_path rest = true ->
  resolve a (with_path req ("//" +:+ host +:+ rest)) = resolve a (with_path req rest).
Proof.
  intros Hne Hsl Hok Hctl Hq Hf Hrest. unfold resolve, request_url. cbn [with_path req_Path req_Method].
  rewrite (Parse_plain rest Hrest). unfold plain_path in Hrest.
  rewrite !andb_true_iff, !negb_true_iff in Hrest.
  destruct Hrest as [[[[[Hr1 Hr2] Hrctl] Hpct] Hrq] Hrf].
  assert (Parse ("//" +:+ host +:+ rest) = Some (mkURL rest "")) as ->; [|done].
  unfold Parse. rewrite Cut_no_sep by (cbn; by rewrite Contains_app, Hf, Hrf). cbn.
  unfold parse. cbn. rewrite has_ctl_app, Hctl, Hrctl.
  change (is_ctl "/") with false. change (scheme_letter "/") with false. cbn.
  rewrite Cut_no_sep by (by rewrite Contains_app, Hq, Hrq). cbn.
  destruct host as [|c host]; [done|]. cbn in Hsl. apply orb_false_iff in Hsl as [Hc Hsl].
  unfold parse_path. cbn. rewrite Hc. cbn.
  destruct rest as [|c' rest]; [done|]. cbn in Hr1. rewrite andb_true_r in Hr1.
  apply ascii_eqb_true in Hr1. subst c'.
  rewrite Cut_app_sep by done. rewrite Hok, unescape_plain by done. done.
Qed.

(** The fallback does not take the [sent] flag: when a handler fails
    without a reply and an after-middleware sends one, the client receives
    two head frames for one request, the 500 error and then the response. *)
Theorem serve_double_reply a req st (err : error) status body enc1 enc2 :
  is_Some (app_logger a) ->
  applyMiddleware (resolve a req).1 (middleware a) st = (Returns (Some err), st) ->
  afterMiddleware a = [Send status body] ->
  ctx_sent (st_ctx st) = false -> room (ctx_stream (st_ctx st)) = None ->
  Marshal (PError (mkErrorFrame (req_ID req) 500 (Error_string err) None) : payload V) = Ok enc1 ->
  Marshal (PResponse (mkResponse (RequestID (st_ctx st)) status
    (Some (∅ ∪ default ∅ (ctx_resHeaders (st_ctx st)))) body false) : payload V) = Ok enc2 ->
  accepted enc1 -> accepted enc2 ->
  out (ctx_stream (st_ctx (serve a req st).2)) =
    out (ctx_stream (st_ctx st)) ++ frame_bytes FrameTypeError enc1 ++
    frame_bytes FrameTypeResponse enc2.
Proof.
  intros [log Hlog] Hchain Hafter Hsent Hroom HM1 HM2 Ha1 Ha2. unfold serve.
  rewrite bind_run, Hlog, Hchain, bind_run, Hafter, report_error_run, Hsent.
  rewrite (WriteFrame_ok _ _ _ _ HM1 Ha1 Hroom). cbn [run_after]. rewrite bind_run.
  unfold Send. rewrite writeResponse_run. cbn [st_ctx ctx_sent set_stream ctx_stream].
  rewrite Hsent, (WriteFrame_ok _ _ _ enc2); [|done..]. cbn. by rewrite <- app_assoc.
Qed.

(** A reply that cannot be encoded is lost without a trace on the
    wire: error data that does not marshal, or a response over the frame
    limit, takes the [sent] flag, makes the handler return an error, and
    the fallback then writes nothing, so the client gets no frame at all. *)
Theorem serve_unsendable a req st :
  afterMiddleware a = [] -> ctx_sent (st_ctx st) = false ->
  (exists code message v err,
     applyMiddleware (resolve a req).1 (middleware a) st = Error code message [Some v] st /\
     Marshal (PValue (Some v)) = Err err) \/
  (exists status body enc,
     applyMiddleware (resolve a req).1 (middleware a) st = Send status body st /\
     Marshal (PResponse (mkResponse (RequestID (st_ctx st)) status
       (Some (∅ ∪ default ∅ (ctx_resHeaders (st_ctx st)))) body false) : payload V) = Ok enc /\
     ~ accepted enc) ->
  (exists err, (applyMiddleware (resolve a req).1 (middleware a) st).1 = Returns (Some err)) /\
  ctx_stream (st_ctx (serve a req st).2) = ctx_stream (st_ctx st).
Proof.
  intros Hafter Hsent Hcase. unfold serve. rewrite bind_run, Hafter.
  assert (exists err, applyMiddleware (resolve a req).1 (middleware a) st =
    (Returns (Some err), after_send st (ctx_stream (st_ctx st)) (st_sws st))) as [err ->].
  { destruct Hcase as [(code & msg & v & err & -> & HM)|(status & body & enc & -> & HM & Ha)].
    - rewrite Error_run, Hsent, HM. by eexists.
    - unfold Send. rewrite writeResponse_run, Hsent. unfold WriteFrame. cbn. rewrite HM.
      rewrite (proj2 (Z.ltb_lt _ _)) by (unfold accepted in Ha; lia). by eexists. }
  split; [by eexists|]. rewrite bind_run, report_error_run. by destruct (app_logger a).
Qed.
End Dispatch.

(** ** Witnesses *)

Definition any_authority : URLAuthority := {| authority_ok := fun _ => true |}.

Section Witnesses.
#[local] Existing Instance ascii_tables.
#[local] Existing Instance any_authority.

Definition demo_peer : remoteAddrProvider := otherPeer (Some "127.0.0.1:1234") [].
Definition demo_env : Env unit := mkEnv [] (fun n => Z.of_nat n) 0 tt.

Definition answer : HandlerFunc string unit := Send 200 (Some [Byte.x2a]).
Definition boom : HandlerFunc string unit := mret (Some (errorString "boom")).
Definition record_after : HandlerFunc string unit :=
  (_ ← Set_ "after" (Some "ok"); mret None : M string unit (option error)).

(** Two routes, a failing one, and an after-middleware that sets a local. *)
Definition demo_app : App string unit :=
  After
    (GET (GET New "/ping" answer)
       "/fail/:id" boom)
    [record_after].

Definition request_stream (req : Request) : stream :=
  reading [frame_bytes FrameTypeRequest (encoding (PRequest req))].

Definition reading_state (req : Request) : St string unit :=
  mkSt (request_ctx demo_app Background demo_peer req (reading [])) [] demo_env.

Lemma demo_app_safe : SafeApp demo_app.
Proof.
  unfold demo_app, GET, answer, boom, record_after.
  apply SafeApp_After; [|repeat constructor; apply _].
  apply SafeApp_addRoute; [|constructor|apply _].
  apply SafeApp_addRoute; [apply SafeApp_New|constructor|apply _].
Qed.

Lemma dispatch_reply_witness :
  exists fs bs, Forall2 (encodes (V := string)) fs bs /\
    delivered [] (dispatchStream demo_app Background demo_peer
                    (request_stream sample_request) demo_env).1.2 bs /\
    reply_shape "r1" fs /\ (length (List.filter is_head fs) <= 1)%nat.
Proof.
  apply (dispatch_reply demo_app Background demo_peer (request_stream sample_request)
    demo_env (encoding (PRequest sample_request)) sample_request).
  - apply demo_app_safe.
  - vm_compute. reflexivity.
  - vm_compute. reflexivity.
Defined.

Definition fail_request : Request := mkRequest "r2" "get" "/fail/7?x=1" None None false.

Lemma report_error_spec_witness :
  out (ctx_stream (st_ctx
    (report_error (V := string) (Some 0%nat) fail_request (Some (errorString "boom"))
       (reading_state fail_request)).2)) =
  frame_bytes FrameTypeError
    (encoding (PError (mkErrorFrame "r2" 500 "boom" None))).
Proof.
  apply (report_error_spec 0 fail_request (errorString "boom") (reading_state fail_request)
    (encoding (PError (mkErrorFrame "r2" 500 "boom" None)))).
  - vm_compute. reflexivity.
  - unfold accepted. vm_compute. discriminate.
  - reflexivity.
Defined.

Lemma serve_after_witness :
  (serve demo_app fail_request (reading_state fail_request)).1 = Returns tt.
Proof.
  rewrite (serve_after demo_app fail_request (reading_state fail_request)).
  - vm_compute. reflexivity.
  - eexists. reflexivity.
  - repeat constructor. intros st. eexists. reflexivity.
Defined.

Lemma resolve_ignores_query_witness :
  resolve demo_app (with_path sample_request "/ping?limit=10&x=a%20b") =
    resolve demo_app sample_request /\
  Query (request_url (with_path sample_request "/ping?limit=10&x=a%20b")) =
    ParseQuery "limit=10&x=a%20b".
Proof.
  apply (resolve_ignores_query demo_app sample_request "limit=10&x=a%20b").
  - reflexivity.
  - reflexivity.
  - reflexivity.
  - reflexivity.
  - exists (mkURL "/ping" ""). reflexivity.
Defined.

Lemma resolve_double_slash_witness :
  resolve demo_app (with_path sample_request "//users/ping") = resolve demo_app sample_request.
Proof.
  apply (resolve_double_slash demo_app sample_request "users" "/ping");
    try reflexivity. discriminate.
Defined.

Definition double_app : App string unit := After (GET New "/" boom) [answer].
Definition root_request : Request := mkRequest "r3" "GET" "/" None None false.

Definition root_state (a : App string unit) : St string unit :=
  mkSt (request_ctx a Background demo_peer root_request (reading [])) [] demo_env.
Definition boom_encoding : bytes :=
  encoding (PError (mkErrorFrame "r3" 500 "boom" None)).
Definition answer_encoding : bytes :=
  encoding (PResponse (mkResponse "r3" 200 (Some ∅) (Some [Byte.x2a]) false)).

Lemma serve_double_reply_witness :
  out (ctx_stream (st_ctx (serve double_app root_request (root_state double_app)).2)) =
  out (ctx_stream (st_ctx (root_state double_app))) ++
  frame_bytes FrameTypeError boom_encoding ++
  frame_bytes FrameTypeResponse answer_encoding.
Proof.
  apply (serve_double_reply double_app root_request (root_state double_app)
    (errorString "boom") 200 (Some [Byte.x2a]) boom_encoding answer_encoding).
  - eexists. reflexivity.
  - reflexivity.
  - reflexivity.
  - reflexivity.
  - reflexivity.
  - vm_compute. reflexivity.
  - vm_compute. reflexivity.
  - unfold accepted. vm_compute. discriminate.
  - unfold accepted. vm_compute. discriminate.
Defined.

Definition bad_data : HandlerFunc string unit := Error 400 "bad" [Some "chan"].
Definition chan_app : App string unit := GET New "/" bad_data.

Lemma serve_unsendable_witness :
  ctx_stream (st_ctx (serve chan_app root_request (root_state chan_app)).2) = reading [].
Proof.
  apply (serve_unsendable chan_app root_request (root_state chan_app)).
  - reflexivity.
  - reflexivity.
  - left. exists 400%Z, "bad", "chan", (errorString "msgpack: Encode(unsupported chan)").
    split; vm_compute; reflexivity.
Defined.
End Witnesses.
