(* ===== verification/Streaming.v ===== *)
(** * Streaming replies (framework/context.go, docs/streaming.md)

    Two uses of a [StreamWriter].  [stream_all] is the documented handler that
    opens a stream, writes its chunks and closes it.  The transition system
    [cstep] is the documented concurrent use, "may be called from multiple
    goroutines": every call takes the writer's mutex, updates the writer,
    writes the frame in the three [Write] calls of [WriteFrame], and unlocks;
    a step of any goroutine may come between two of these. *)

From S2P Require Import Prelude GoStd NetURL Wire Validation Reqctx Reply.

Local Open Scope string_scope.
Local Open Scope list_scope.

(** ** The sequential handler *)

Section Sequential.
Context {V W : Type} `{Unicode} `{Msgpack V} `{Validator V}.

(** Write the chunks, stopping at the first error. *)
Fixpoint write_chunks (sw : nat) (ds : list bytes) : M V W unit :=
  match ds with
  | [] => mret tt
  | d :: ds =>
      r ← SW_Write sw (Some d);
      match r.2 with
      | Some _ => mret tt
      | None => write_chunks sw ds
      end
  end.

Definition stream_all (status : Z) (headers : Headers) (ds : list bytes)
    : M V W (option error) :=
  r ← NewStream status headers;
  match r with
  | Err e => mret (Some e)
  | Ok sw =>
      _ ← write_chunks sw ds;
      _ ← SW_Close sw;
      mret None
  end.
End Sequential.

(** The chunks of [ds] from the sequence number [n] on. *)
Fixpoint numbered (id : string) (n : nat) (ds : list bytes) : list StreamChunk :=
  match ds with
  | [] => []
  | d :: ds => mkStreamChunk id (uint64 (Z.of_nat n)) (Some d) false :: numbered id (S n) ds
  end.

(** A payload that marshals to a frame of at most 64 MiB. *)
Definition sendable {V : Type} `{Msgpack V} (p : payload V) : Prop :=
  exists enc, Marshal p = Ok enc /\ fits enc.

(** ** Concurrent calls *)

Inductive call :=
  | CWrite (data : option bytes)
  | CClose.

(** What a call returns; [Close] has no count. *)
Abbreviation call_result := (Z * option error)%type.

Section Concurrent.
Context {V W : Type} `{Unicode} `{Msgpack V} `{Validator V}.

(** A call as one step. *)
Definition atomic (p : nat) (c : call) : M V W call_result :=
  match c with
  | CWrite data => SW_Write p data
  | CClose => r ← SW_Close p; mret (0%Z, r)
  end.

Fixpoint run_calls (p : nat) (cs : list call) : M V W (list call_result) :=
  match cs with
  | [] => mret []
  | c :: cs => r ← atomic p c; rs ← run_calls p cs; mret (r :: rs)
  end.

(** Where a goroutine is inside its current call: holding the lock with the
    body to run, between the [Write]s of a frame, or about to unlock. *)
Inductive pc :=
  | Outside
  | Locked (c : call)
  | Framing (c : call) (parts : list (string * bytes)) (n : Z)
  | Unlocking (c : call) (r : call_result).

Record thread := mkThread { at_pc : pc; todo : list call }.

(** The three writes of [WriteFrame], with the context of their errors; or the
    error that precedes them. *)
Definition frame_parts (ft : FrameType) (pl : payload V) : result (list (string * bytes)) :=
  match Marshal pl with
  | Err e => Err (wrapError "quicframe/protocol: marshal: " e)
  | Ok enc =>
      let frameLen := uint32 (1 + Z.of_nat (length enc)) in
      if (MaxFrameSize <? frameLen)%Z
      then Err (errorString ("quicframe/protocol: payload too large (" +:+
             fmt_d frameLen +:+ " bytes)"))
      else Ok [("quicframe/protocol: write header: ", PutUint32 frameLen);
               ("quicframe/protocol: write type: ", [ft]);
               ("quicframe/protocol: write payload: ", enc)]
  end.

Definition start_frame (c : call) (ft : FrameType) (pl : payload V) (n : Z) : pc :=
  match frame_parts ft pl with
  | Err e => Unlocking c (0%Z, Some e)
  | Ok parts => Framing c parts n
  end.

(** The body of a call up to its first write, under the lock. *)
Definition enter (p : nat) (c : call) (w : StreamWriter) (st : St V W) : pc * St V W :=
  match c with
  | CWrite data =>
      if sw_closed w
      then (Unlocking c (0%Z, Some (errorString "quicframe: StreamWriter already closed")), st)
      else
        (start_frame c FrameTypeStreamData
           (PChunk (mkStreamChunk (sw_requestID w) (sw_seq w) data false))
           (Z.of_nat (length (default [] data))),
         mkSt (st_ctx st)
           (<[p := mkStreamWriter (sw_requestID w) (uint64 (sw_seq w + 1)) (sw_closed w)]>
              (st_sws st)) (st_env st))
  | CClose =>
      if sw_closed w then (Unlocking c (0%Z, None), st)
      else
        (start_frame c FrameTypeStreamEnd
           (PChunk (mkStreamChunk (sw_requestID w) (sw_seq w) None true)) 0,
         mkSt (st_ctx st)
           (<[p := mkStreamWriter (sw_requestID w) (sw_seq w) true]> (st_sws st)) (st_env st))
  end.

Definition put_stream (st : St V W) (s : stream) : St V W :=
  mkSt (set_stream (st_ctx st) s) (st_sws st) (st_env st).

(** One [Write] of a frame. *)
Definition write_part (c : call) (lbl : string) (b : bytes) (parts : list (string * bytes))
    (n : Z) (st : St V W) : pc * St V W :=
  match Write (ctx_stream (st_ctx st)) b with
  | (Some e, s) => (Unlocking c (0%Z, Some (wrapError lbl e)), put_stream st s)
  | (None, s) =>
      (match parts with
       | [] => Unlocking c (n, None)
       | _ => Framing c parts n
       end, put_stream st s)
  end.

(** A completed call: its goroutine, what it was and what it returned. *)
Abbreviation event := (nat * call * call_result)%type.

Record config := mkConfig {
  shared : St V W;
  holder : option nat;
  threads : list thread;
  history : list event;
}.

(** The step of one goroutine that uses the writer [p]. *)
Inductive cstep (p : nat) : config -> config -> Prop :=
  | cs_lock st ts h i c cs :
      ts !! i = Some (mkThread Outside (c :: cs)) ->
      cstep p (mkConfig st None ts h)
              (mkConfig st (Some i) (<[i := mkThread (Locked c) cs]> ts) h)
  | cs_enter st ts h i c cs w pc' st' :
      ts !! i = Some (mkThread (Locked c) cs) ->
      st_sws st !! p = Some w ->
      enter p c w st = (pc', st') ->
      cstep p (mkConfig st (Some i) ts h)
              (mkConfig st' (Some i) (<[i := mkThread pc' cs]> ts) h)
  | cs_write st ts h i c lbl b parts n cs pc' st' :
      ts !! i = Some (mkThread (Framing c ((lbl, b) :: parts) n) cs) ->
      write_part c lbl b parts n st = (pc', st') ->
      cstep p (mkConfig st (Some i) ts h)
              (mkConfig st' (Some i) (<[i := mkThread pc' cs]> ts) h)
  | cs_unlock st ts h i c r cs :
      ts !! i = Some (mkThread (Unlocking c r) cs) ->
      cstep p (mkConfig st (Some i) ts h)
              (mkConfig st None (<[i := mkThread Outside cs]> ts) (h ++ [(i, c, r)])).

(** Goroutines that have not started yet. *)
Definition start (st : St V W) (progs : list (list call)) : config :=
  mkConfig st None (map (mkThread Outside) progs) [].

(** *** The invariant *)

Fixpoint run_parts (parts : list (string * bytes)) (n : Z) (st : St V W)
    : outcome call_result * St V W :=
  match parts with
  | [] => (Returns (n, None), st)
  | (lbl, b) :: parts =>
      match Write (ctx_stream (st_ctx st)) b with
      | (Some e, s) => (Returns (0%Z, Some (wrapError lbl e)), put_stream st s)
      | (None, s) => run_parts parts n (put_stream st s)
      end
  end.

(** The outcome of the current call if no other goroutine interferes. *)
Definition rest (p : nat) (q : pc) (st : St V W) : outcome call_result * St V W :=
  match q with
  | Outside => (Panics nil_dereference, st)
  | Locked c => atomic p c st
  | Framing _ parts n => run_parts parts n st
  | Unlocking _ r => (Returns r, st)
  end.

Definition current (q : pc) : list call :=
  match q with
  | Outside => []
  | Locked c | Framing c _ _ | Unlocking c _ => [c]
  end.

Definition calls_of (i : nat) (h : list event) : list call :=
  map (fun e => e.1.2) (filter (fun e => e.1.1 = i) h).

Definition replays (p : nat) (st0 : St V W) (h : list event) (st : St V W) : Prop :=
  run_calls p (map (fun e => e.1.2) h) st0 = (Returns (map snd h), st) /\
  is_Some (st_sws st !! p).

Definition lock_inv (p : nat) (st0 : St V W) (c : config) : Prop :=
  match holder c with
  | None => replays p st0 (history c) (shared c) /\
      Forall (fun t => at_pc t = Outside) (threads c)
  | Some i =>
      exists t cl st1, threads c !! i = Some t /\ current (at_pc t) = [cl] /\
        replays p st0 (history c) st1 /\ rest p (at_pc t) (shared c) = atomic p cl st1 /\
        is_Some (st_sws (shared c) !! p) /\
        (forall cl' n, at_pc t <> Framing cl' [] n) /\
        (forall j t', j <> i -> threads c !! j = Some t' -> at_pc t' = Outside)
  end.

Definition program_inv (progs : list (list call)) (c : config) : Prop :=
  length (threads c) = length progs /\
  forall i t prog, threads c !! i = Some t -> progs !! i = Some prog ->
    calls_of i (history c) ++ current (at_pc t) ++ todo t = prog.
End Concurrent.

(** ** Lemmas *)

Section Facts.
Context {V W : Type} `{Unicode} `{Msgpack V} `{Validator V}.
Implicit Types (st : St V W).

#[export] Instance safe_atomic p c : Safe (atomic p c : M V W call_result).
Proof. destruct c; cbn; apply _. Qed.

#[export] Instance safe_run_calls p cs : Safe (run_calls p cs : M V W (list call_result)).
Proof. induction cs; cbn; apply _. Qed.

#[export] Instance safe_write_chunks p ds : Safe (write_chunks p ds : M V W unit).
Proof. induction ds; cbn; apply _. Qed.

#[export] Instance safe_stream_all status headers ds :
  Safe (stream_all status headers ds : M V W (option error)).
Proof. unfold stream_all. apply _. Qed.

Lemma run_calls_snoc p cs c st rs st1 :
  run_calls p cs st = (Returns rs, st1) ->
  run_calls p (cs ++ [c]) st =
    match atomic p c st1 with
    | (Returns r, st2) => (Returns (rs ++ [r]), st2)
    | (Panics v, st2) => (Panics v, st2)
    end.
Proof.
  revert st rs. induction cs as [|c' cs IH]; intros st rs; cbn [run_calls app].
  - intros. unfold mret, M_ret in *. simplify_eq. rewrite bind_run.
    by destruct (atomic p c st1) as [[r|v] st2].
  - rewrite !bind_run. destruct (atomic p c' st) as [[r|v] st'] eqn:Hc; [|done].
    rewrite !bind_run. destruct (run_calls p cs st') as [[rs'|v] st''] eqn:Hcs; [|done].
    unfold mret, M_ret. intros. simplify_eq. rewrite (IH _ _ Hcs).
    by destruct (atomic p c st1) as [[r'|v] st2].
Qed.

Fixpoint write_parts (parts : list (string * bytes)) (s : stream) : option error * stream :=
  match parts with
  | [] => (None, s)
  | (lbl, b) :: parts =>
      match Write s b with
      | (Some e, s) => (Some (wrapError lbl e), s)
      | (None, s) => write_parts parts s
      end
  end.

(** Writing the chunks from the sequence number [n] on. *)
Lemma write_chunks_ok p n id ds encs st :
  Forall2 (fun c e => Marshal (PChunk c : payload V) = Ok e /\ fits e) (numbered id n ds) encs ->
  st_sws st !! p = Some (mkStreamWriter id (uint64 (Z.of_nat n)) false) ->
  room (ctx_stream (st_ctx st)) = None ->
  write_chunks p ds st =
    (Returns tt,
     mkSt (set_stream (st_ctx st) (set_out (ctx_stream (st_ctx st))
             (out (ctx_stream (st_ctx st)) ++
                concat (map (frame_bytes FrameTypeStreamData) encs)) None))
       (<[p := mkStreamWriter id (uint64 (Z.of_nat (n + length ds))) false]> (st_sws st))
       (st_env st)).
Proof.
  revert n encs st. induction ds as [|d ds IH]; intros n encs st Hall Hp Hroom;
    cbn [write_chunks numbered] in *.
  - apply Forall2_nil_inv_l in Hall as ->. cbn [map concat length].
    rewrite app_nil_r, Nat.add_0_r, list_insert_id by done. cbn in Hroom.
    destruct st as [[? ? [] ? ? ? ? ? ?] ? ?]. cbn in *. by subst.
  - apply Forall2_cons_inv_l in Hall as (e & encs' & [HM Hf] & Hall & ->).
    rewrite bind_run, SW_Write_run, Hp. cbn [sw_closed sw_requestID sw_seq].
    rewrite (WriteFrame_ok _ _ _ e HM) by auto with qf. cbn [snd].
    rewrite uint64_succ, (IH (S n) encs'); [|done| |done].
    + cbn. rewrite list_insert_insert_eq, Nat.add_succ_r, <- app_assoc. done.
    + cbn. by rewrite list_lookup_insert_eq by (by eapply lookup_lt_Some).
Qed.

(** The chunks of a stream, marshalled. *)
Lemma sendable_encodings (cs : list StreamChunk) :
  Forall (fun c => sendable (PChunk c : payload V)) cs ->
  exists encs, Forall2 (fun c e => Marshal (PChunk c : payload V) = Ok e /\ fits e) cs encs.
Proof. intros Hall. by apply Forall_exists_Forall2_l. Qed.

(** [WriteFrame] is its parts. *)
Lemma WriteFrame_parts s ft (pl : payload V) :
  WriteFrame s ft pl =
  match frame_parts ft pl with
  | Err e => (Some e, s)
  | Ok parts => write_parts parts s
  end.
Proof.
  unfold WriteFrame, frame_parts. destruct (Marshal pl) as [enc|e]; [|done].
  cbv zeta. destruct (_ <? _)%Z; [done|]. cbn [write_parts].
  destruct (Write s _) as [[e|] s1]; [done|].
  destruct (Write s1 _) as [[e|] s2]; [done|]. by destruct (Write s2 _) as [[e|] s3].
Qed.

(** Running a frame's parts on the state is [WriteFrame] on its stream. *)
Lemma rest_start_frame p c ft (pl : payload V) n st :
  rest p (start_frame c ft pl n) st =
  let '(err, s) := WriteFrame (ctx_stream (st_ctx st)) ft pl in
  (Returns (match err with Some e => (0%Z, Some e) | None => (n, None) end),
   put_stream st s).
Proof.
  rewrite WriteFrame_parts. unfold start_frame.
  destruct (frame_parts ft pl) as [parts|e]; cbn [rest];
    [|unfold put_stream; by destruct st as [[] ? ?]].
  revert st. induction parts as [|[lbl b] parts IH]; intros st; cbn [run_parts write_parts].
  - unfold put_stream. by destruct st as [[] ? ?].
  - destruct (Write (ctx_stream (st_ctx st)) b) as [[e|] s]; [done|].
    rewrite IH. cbn. by destruct (write_parts parts s) as [[e|] s'].
Qed.

Lemma start_frame_current c ft (pl : payload V) n : current (start_frame c ft pl n) = [c].
Proof. unfold start_frame. by destruct (frame_parts ft pl). Qed.

Lemma start_frame_parts c ft (pl : payload V) n cl m : start_frame c ft pl n <> Framing cl [] m.
Proof.
  unfold start_frame, frame_parts. destruct (Marshal pl); [|done].
  cbv zeta. by destruct (_ <? _)%Z.
Qed.

(** The body of a call under the lock is the atomic call. *)
Lemma enter_spec p c w st pc' st' :
  st_sws st !! p = Some w -> enter p c w st = (pc', st') ->
  rest p pc' st' = atomic p c st /\ current pc' = [c] /\
  is_Some (st_sws st' !! p) /\ (forall cl n, pc' <> Framing cl [] n).
Proof.
  intros Hw He. destruct c as [data|]; cbn [enter atomic] in *.
  - rewrite SW_Write_run, Hw. destruct (sw_closed w); simplify_eq; [by eauto|].
    rewrite rest_start_frame, start_frame_current. cbn.
    split_and!; [by destruct (WriteFrame _ _ _)|done| |by apply start_frame_parts].
    rewrite list_lookup_insert_eq; [by eexists|by eapply lookup_lt_Some].
  - rewrite bind_run, SW_Close_run, Hw. destruct (sw_closed w); simplify_eq; [by eauto|].
    rewrite rest_start_frame, start_frame_current. cbn.
    split_and!; [by destruct (WriteFrame _ _ _) as [[]]|done| |by apply start_frame_parts].
    rewrite list_lookup_insert_eq; [by eexists|by eapply lookup_lt_Some].
Qed.

Lemma write_part_spec p c lbl b parts n st pc' st' :
  write_part c lbl b parts n st = (pc', st') ->
  rest p pc' st' = run_parts ((lbl, b) :: parts) n st /\ current pc' = [c] /\
  st_sws st' = st_sws st /\ (forall cl m, pc' <> Framing cl [] m).
Proof.
  unfold write_part. cbn [run_parts].
  destruct (Write _ b) as [[e|] s]; [|destruct parts]; intros; by simplify_eq.
Qed.

(** The writer survives its calls. *)
Lemma atomic_writer p c st :
  is_Some (st_sws st !! p) ->
  (exists r, (atomic p c st).1 = Returns r) /\ is_Some (st_sws (atomic p c st).2 !! p).
Proof.
  intros [w Hw]. destruct (enter p c w st) as [pc' st'] eqn:He.
  destruct c as [data|]; cbn [atomic].
  - rewrite SW_Write_run, Hw. destruct (sw_closed w); [cbn; rewrite Hw; by eauto|].
    destruct (WriteFrame _ _ _) as [err s]. cbn.
    rewrite list_lookup_insert_eq by (by eapply lookup_lt_Some). by eauto.
  - rewrite bind_run, SW_Close_run, Hw. destruct (sw_closed w); [cbn; rewrite Hw; by eauto|].
    destruct (WriteFrame _ _ _) as [err s]. cbn.
    rewrite list_lookup_insert_eq by (by eapply lookup_lt_Some). by eauto.
Qed.

Lemma replays_snoc p st0 h st1 i c r st :
  replays p st0 h st1 -> atomic p c st1 = (Returns r, st) ->
  replays p st0 (h ++ [(i, c, r)]) st.
Proof.
  intros [Hr Hw] Ha. pose proof (atomic_writer p c st1 Hw) as [_ Hw']. rewrite Ha in Hw'.
  split; [|done]. rewrite !map_app. cbn. by rewrite (run_calls_snoc _ _ _ _ _ _ Hr), Ha.
Qed.

Lemma calls_of_snoc i h j c r :
  calls_of i (h ++ [(j, c, r)]) = calls_of i h ++ (if decide (j = i) then [c] else []).
Proof.
  unfold calls_of. rewrite filter_app, map_app. f_equal. rewrite filter_cons. cbn.
  by case_decide.
Qed.
End Facts.

(** Replacing the state of thread [i]. *)
Lemma insert_cases {A} (l : list A) i j x y :
  <[i := x]> l !! j = Some y -> (i = j /\ y = x) \/ (i <> j /\ l !! j = Some y).
Proof.
  intros Hl. destruct (decide (i = j)) as [->|Hne].
  - left. by apply list_lookup_insert_Some in Hl as [(_ & -> & _)|(? & _)].
  - right. by rewrite list_lookup_insert_ne in Hl.
Qed.
