(* ===== verification/StreamProps.v ===== *)
(** * Properties of streaming replies

    The documented sequential handler reaches a client that reads the frames
    back, whole and in order; concurrent calls on one writer are linearizable
    in the order they took its mutex, and cannot deadlock. *)

From S2P Require Import Prelude GoStd NetURL Wire RefCodec Validation Reqctx Reply Streaming.
From stdpp Require Import relations.

Local Open Scope string_scope.
Local Open Scope list_scope.

(** ** Concurrent writers *)

Section Linearizability.
Context {V W : Type} `{Unicode} `{Msgpack V} `{Validator V}.
Implicit Types (st : St V W) (c : config (V := V) (W := W)).

Lemma lock_inv_start p st progs :
  is_Some (st_sws st !! p) -> lock_inv p st (start st progs).
Proof.
  intros Hp. split; [by split|]. unfold start. cbn. apply Forall_fmap, Forall_forall. done.
Qed.

Lemma lock_inv_step p st0 c c' : lock_inv p st0 c -> cstep p c c' -> lock_inv p st0 c'.
Proof.
  intros Hinv Hstep.
  destruct Hstep as [st ts h i cl cs Hi|st ts h i cl cs w pc' st' Hi Hw He
    |st ts h i cl lbl b parts n cs pc' st' Hi Hwr|st ts h i cl r cs Hi]; unfold lock_inv in *; cbn in *.
  - destruct Hinv as [Hr Hout]. exists (mkThread (Locked cl) cs), cl, st.
    rewrite list_lookup_insert_eq by (by eapply lookup_lt_Some).
    split_and!; [done..|apply Hr|done|].
    intros j t' Hj Ht'. rewrite list_lookup_insert_ne in Ht' by done.
    rewrite Forall_lookup in Hout. by eapply Hout.
  - destruct Hinv as (t & cl' & st1 & Ht & Hcur & Hrep & Hrest & Hsw & _ & Hoth).
    assert (t = mkThread (Locked cl) cs) as -> by congruence.
    cbn [at_pc current rest] in *. simplify_eq.
    destruct (enter_spec _ _ _ _ _ _ Hw He) as (Hr' & Hc' & Hs' & Hf').
    eexists _, cl', st1. rewrite list_lookup_insert_eq by (by eapply lookup_lt_Some).
    cbn [at_pc].
    split_and!; [done..|exact (eq_trans Hr' Hrest)|done|done|].
    intros j t' Hj Ht'. rewrite list_lookup_insert_ne in Ht' by done. by eapply Hoth.
  - destruct Hinv as (t & cl' & st1 & Ht & Hcur & Hrep & Hrest & Hsw & _ & Hoth).
    assert (t = mkThread (Framing cl ((lbl, b) :: parts) n) cs) as -> by congruence.
    cbn [at_pc current rest] in *. simplify_eq.
    destruct (write_part_spec p _ _ _ _ _ _ _ _ Hwr) as (Hr' & Hc' & Hs' & Hf').
    eexists _, cl', st1. rewrite list_lookup_insert_eq by (by eapply lookup_lt_Some).
    cbn [at_pc].
    rewrite <- Hs' in Hsw. split_and!; [done..|exact (eq_trans Hr' Hrest)|done|done|].
    intros j t' Hj Ht'. rewrite list_lookup_insert_ne in Ht' by done. by eapply Hoth.
  - destruct Hinv as (t & cl' & st1 & Ht & Hcur & Hrep & Hrest & Hsw & _ & Hoth).
    assert (t = mkThread (Unlocking cl r) cs) as -> by congruence.
    cbn [at_pc current rest] in *. simplify_eq.
    split; [by eapply replays_snoc|]. apply Forall_lookup. intros j t' Ht'.
    apply insert_cases in Ht' as [[-> ->]|[Hne Ht']]; [done|]. by eapply Hoth.
Qed.

(** A step moves a call along: taken from the program, running, recorded. *)
Lemma program_inv_step p progs c c' :
  program_inv progs c -> cstep p c c' -> program_inv progs c'.
Proof.
  intros [Hlen Hprog] Hstep.
  destruct Hstep as [st ts h i cl cs Hi|st ts h i cl cs w pc' st' Hi Hw He
    |st ts h i cl lbl b parts n cs pc' st' Hi Hwr|st ts h i cl r cs Hi];
    unfold program_inv; cbn [holder threads history shared at_pc current todo] in *; (split; [by rewrite length_insert|]);
    intros j t prog Hj Hp; apply insert_cases in Hj as [[<- ->]|[Hne Hj]];
    cbn [at_pc todo current].
  - apply (Hprog _ _ _ Hi Hp).
  - by eapply Hprog.
  - rewrite <- (Hprog _ _ _ Hi Hp).
    destruct (enter_spec _ _ _ _ _ _ Hw He) as (_ & -> & _). done.
  - by eapply Hprog.
  - rewrite <- (Hprog _ _ _ Hi Hp).
    destruct (write_part_spec p _ _ _ _ _ _ _ _ Hwr) as (_ & -> & _). done.
  - by eapply Hprog.
  - rewrite <- (Hprog _ _ _ Hi Hp), calls_of_snoc, decide_True by done. by rewrite <- app_assoc.
  - rewrite calls_of_snoc, decide_False, app_nil_r by done. by eapply Hprog.
Qed.

Lemma program_inv_start st progs : program_inv progs (start st progs).
Proof.
  split; [apply length_map|]. unfold start. cbn. intros i t prog Ht Hp.
  rewrite list_lookup_fmap, Hp in Ht. by simplify_eq/=.
Qed.

Lemma reachable_invs p st progs c :
  is_Some (st_sws st !! p) -> rtc (cstep p) (start st progs) c ->
  lock_inv p st c /\ program_inv progs c.
Proof.
  intros Hp Hreach.
  assert (lock_inv p st (start st progs) /\ program_inv progs (start st progs)) as Hinv
    by (split; [by apply lock_inv_start|apply program_inv_start]).
  revert Hinv. induction Hreach as [|c1 c2 c3 Hstep _ IH]; [done|]. intros [Hl Hpr]. apply IH.
  split; [by eapply lock_inv_step|by eapply program_inv_step].
Qed.

(** C8.  Concurrent use of one StreamWriter is linearizable: whatever the
    interleaving of the goroutines' steps (lock, the three writes of a frame,
    unlock), whenever the mutex is free the shared state and every call's
    result are those of the completed calls run one after another in the order
    they took the mutex, each goroutine's calls in its program order; so the
    bytes written are still a well-formed reply. *)
Theorem writer_linearizable p st progs c :
  is_Some (st_sws st !! p) ->
  rtc (cstep p) (start st progs) c -> holder c = None ->
  run_calls p (map (fun e => e.1.2) (history c)) st =
    (Returns (map snd (history c)), shared c) /\
  (forall i t prog, threads c !! i = Some t -> progs !! i = Some prog ->
     calls_of i (history c) ++ todo t = prog) /\
  (forall base req, Inv base req st -> Inv base req (shared c)).
Proof.
  intros Hp Hreach Hfree. destruct (reachable_invs _ _ _ _ Hp Hreach) as [Hl [_ Hpr]].
  unfold lock_inv in Hl. rewrite Hfree in Hl. destruct Hl as [[Hrun _] Hout].
  split_and!; [done| |].
  - intros i t prog Ht Hprog. rewrite <- (Hpr i t prog Ht Hprog).
    rewrite Forall_lookup in Hout. by rewrite (Hout _ _ Ht).
  - intros base req Hinv. pose proof (safe_run_calls p (map (fun e => e.1.2) (history c))
      base req st Hinv) as Hs.
    by rewrite Hrun in Hs.
Qed.

(** No deadlock: from every reachable state some goroutine can step,
    unless every goroutine has finished all its calls. *)
Theorem writer_progress p st progs c :
  is_Some (st_sws st !! p) -> rtc (cstep p) (start st progs) c ->
  (exists c', cstep p c c') \/
  (holder c = None /\ Forall (fun t => t = mkThread Outside []) (threads c)).
Proof.
  intros Hp Hreach. destruct (reachable_invs _ _ _ _ Hp Hreach) as [Hl _].
  destruct c as [sh [i|] ts h]; unfold lock_inv in Hl; cbn in *.
  - left. destruct Hl as ([q cs] & cl & st1 & Ht & Hcur & _ & _ & [w Hw] & Hf & _).
    destruct q as [|cl'|cl' [|[lbl b] parts] n|cl' r]; cbn in *; [done| |by edestruct Hf| |].
    + destruct (enter p cl' w sh) as [pc' st'] eqn:He. eexists. by eapply cs_enter.
    + destruct (write_part cl' lbl b parts n sh) as [pc' st'] eqn:He.
      eexists. by eapply cs_write.
    + eexists. by eapply cs_unlock.
  - destruct Hl as [_ Hout].
    destruct (decide (Exists (fun t => todo t <> []) ts)) as [He|Hn].
    + left. apply Exists_exists in He as ([q [|cl cs]] & Hin & Hne); [done|].
      apply list_elem_of_lookup in Hin as [i Hi]. rewrite Forall_lookup in Hout.
      specialize (Hout _ _ Hi) as Hq. cbn in Hq. subst q. eexists. by eapply cs_lock.
    + right. split; [done|]. apply Forall_forall. intros [q cs] Hin.
      rewrite Forall_forall in Hout. specialize (Hout _ Hin) as Hq. cbn in Hq. subst q.
      destruct cs; [done|]. destruct Hn. apply Exists_exists. by eexists.
Qed.
End Linearizability.

(** ** The documented handler *)

Section Sequential.
Context {V W : Type} `{Unicode} `{MsgpackLaws V} `{Validator V}.

(** C16.  A streaming reply arrives: the documented handler (open, write the
    chunks, close) on a healthy stream returns no error, and a client that
    reads the bytes it wrote, fragmented in any way, gets the response header
    with [stream] set, the chunks with their data in order and sequence
    numbers counting from 0, the end frame with the next number, and nothing
    else. *)
Theorem stream_roundtrip status headers ds (st : St V W) :
  let id := RequestID (st_ctx st) in
  let header := mkResponse id status headers None true in
  let last := mkStreamChunk id (uint64 (Z.of_nat (length ds))) None true in
  ctx_sent (st_ctx st) = false -> room (ctx_stream (st_ctx st)) = None ->
  sendable (PResponse header : payload V) ->
  Forall (fun c => sendable (PChunk c : payload V)) (numbered id 0 ds) ->
  sendable (PChunk last : payload V) ->
  exists w st',
    stream_all status headers ds st = (Returns None, st') /\
    out (ctx_stream (st_ctx st')) = out (ctx_stream (st_ctx st)) ++ w /\
    forall r, pending r = w -> exists h cs e,
      (ReadFrames (2 + length ds) r).1 =
        (FrameTypeResponse, h) :: map (pair FrameTypeStreamData) cs ++
          [(FrameTypeStreamEnd, e)] /\
      pending (ReadFrames (2 + length ds) r).2 = [] /\
      DecodeResponse (V := V) h = Ok (norm_response header) /\
      map (DecodeStreamChunk (V := V)) cs = map Ok (numbered id 0 ds) /\
      DecodeStreamChunk (V := V) e = Ok last.
Proof.
  intros id header last Hsent Hroom (h & HMh & Hfh) (cs & Hcs)%sendable_encodings (e & HMe & Hfe).
  assert (length cs = length ds) as Hlen.
  { rewrite <- (Forall2_length _ _ _ Hcs). clear. generalize 0%nat.
    induction ds as [|d ds IH]; intros n; [done|]. cbn. by rewrite IH. }
  set (frames := (FrameTypeResponse, h) :: map (pair FrameTypeStreamData) cs ++
         [(FrameTypeStreamEnd, e)]).
  exists (concat (map (fun f => frame_bytes f.1 f.2) frames)).
  unfold stream_all. rewrite bind_run, NewStream_run, Hsent. fold id header.
  rewrite (WriteFrame_ok _ _ _ h HMh) by auto with qf.
  rewrite bind_run, (write_chunks_ok (length (st_sws st)) 0 id ds cs);
    [|done|cbn; by rewrite lookup_app_r, Nat.sub_diag by done|done].
  rewrite bind_run, SW_Close_run. cbn [st_sws st_ctx ctx_stream set_stream after_send].
  rewrite list_lookup_insert_eq by (rewrite length_app; cbn; lia).
  cbn [sw_closed sw_requestID sw_seq Nat.add]. fold last.
  rewrite (WriteFrame_ok _ _ _ e HMe) by auto with qf. eexists.
  split_and!; [done| |].
  - cbn. rewrite map_app, concat_app, map_map. cbn. by rewrite app_nil_r, <- !app_assoc.
  - intros r Hr. exists h, cs, e.
    assert (S (S (length ds)) = length frames) as ->
      by (cbn; rewrite length_app, length_map, Hlen; cbn; lia).
    destruct (ReadFrames_pending frames r []) as [-> ->]; [|by rewrite app_nil_r|].
    { constructor; [done|]. apply Forall_app. split; [|by repeat constructor].
      clear -Hcs. apply Forall_fmap. induction Hcs as [|? ? ? ? []]; by constructor. }
    unfold DecodeResponse, DecodeStreamChunk.
    rewrite (unmarshal_response _ _ HMh), (unmarshal_chunk _ _ HMe). split_and!; [done..| |done].
    clear -Hcs H1. induction Hcs as [|c b cks bs [HM _] _ IH]; [done|]. cbn.
    by rewrite (unmarshal_chunk _ _ HM), IH.
Qed.
End Sequential.

(** ** Witnesses *)

Section Witnesses.
#[local] Existing Instance ascii_tables.

(** A state whose context has an open stream writer for request ["s1"]. *)
Definition open_state : St string unit :=
  mkSt (set_sent (newContext None (mkRequest "s1" "GET" "/events" None None true)
                    (otherPeer None []) (reading [])) true)
    [mkStreamWriter "s1" 0 false] (mkEnv [] (fun n => Z.of_nat n) 0 tt).

(** Two goroutines: one writes, the other closes. *)
Definition two_goroutines : list (list call) := [[CWrite (Some [Byte.x01])]; [CClose]].

(** The first goroutine takes the lock. *)
Definition one_locked : config (V := string) (W := unit) :=
  mkConfig open_state (Some 0%nat)
    [mkThread (Locked (CWrite (Some [Byte.x01]))) []; mkThread Outside [CClose]] [].

Lemma one_locked_reachable : rtc (cstep 0) (start open_state two_goroutines) one_locked.
Proof.
  apply rtc_once. by apply (cs_lock 0 open_state (threads (start open_state two_goroutines)) [] 0%nat
  (CWrite (Some [Byte.x01])) []).
Qed.

Lemma writer_progress_witness : exists c', cstep 0 one_locked c'.
Proof.
  destruct (writer_progress 0 open_state two_goroutines one_locked
    ltac:(by eexists) one_locked_reachable) as [Hstep|[Hfree _]]; [exact Hstep|].
  discriminate Hfree.
Defined.

(** The close alone, run to the end. *)
Definition close_parts : list (string * bytes) :=
  match frame_parts (V := string) FrameTypeStreamEnd
    (PChunk (mkStreamChunk "s1" 0 None true)) with
  | Ok parts => parts
  | Err _ => []
  end.

Definition closed_state : St string unit := (atomic 0 CClose open_state).2.

Definition all_closed : config (V := string) (W := unit) :=
  mkConfig closed_state None [mkThread Outside []] [(0%nat, CClose, (0%Z, None))].

Lemma all_closed_reachable : rtc (cstep 0) (start open_state [[CClose]]) all_closed.
Proof.
  eapply rtc_l; [by apply (cs_lock 0 open_state [mkThread Outside [CClose]] [] 0%nat CClose [])|].
  eapply rtc_l; [by eapply (cs_enter 0 _ _ _ 0%nat CClose [])|].
  do 3 (eapply rtc_l; [by eapply (cs_write 0 _ _ _ 0%nat CClose)|]).
  eapply rtc_l; [by eapply (cs_unlock 0 _ _ _ 0%nat CClose)|]. reflexivity.
Qed.

Lemma writer_linearizable_witness :
  run_calls 0 [CClose] open_state = (Returns [(0%Z, None)], shared all_closed).
Proof.
  apply (writer_linearizable 0 open_state [[CClose]] all_closed).
  - by eexists.
  - exact all_closed_reachable.
  - reflexivity.
Defined.

Definition fresh_state : St string unit :=
  mkSt (newContext None (mkRequest "s1" "GET" "/events" None None true)
          (otherPeer None []) (reading [])) [] (mkEnv [] (fun n => Z.of_nat n) 0 tt).

Lemma stream_roundtrip_witness :
  exists w st',
    stream_all 200 None [[Byte.x01]; [Byte.x02]] fresh_state = (Returns None, st') /\
    out (ctx_stream (st_ctx st')) = out (ctx_stream (st_ctx fresh_state)) ++ w.
Proof.
  destruct (stream_roundtrip 200 None [[Byte.x01]; [Byte.x02]] fresh_state)
    as (w & st' & Hrun & Hout & _).
  - reflexivity.
  - reflexivity.
  - eexists. split; [reflexivity|]. unfold fits. vm_compute. discriminate.
  - repeat constructor; (eexists; split; [reflexivity|]; unfold fits; vm_compute; discriminate).
  - eexists. split; [reflexivity|]. unfold fits. vm_compute. discriminate.
  - exists w, st'. split; [exact Hrun|exact Hout].
Defined.
End Witnesses.
