(* ===== verification/Group.v ===== *)
(** * Route groups (framework/router.go, framework/app.go)

    A [Group] holds its middleware in a Go slice, and Go slices alias:
    [append] writes into the spare capacity of the array it was given.  So the
    store of this model has a heap of arrays, and a group, like a variable of
    the program that registers routes, holds a slice descriptor into it.
    Registration is a list of commands, run on the store ([exec]) and on an
    alias-free specification where every slice is its own list ([aexec]). *)

From S2P Require Import Prelude GoStd NetURL Wire Validation Reqctx Reply Router App.

Local Open Scope string_scope.
Local Open Scope list_scope.

(** ** Slices *)

Record slice := mkSlice {
  sl_arr : nat;
  sl_off : nat;
  sl_len : nat;
  sl_cap : nat;
}.

Definition nil_slice : slice := mkSlice 0 0 0 0.

(** The runtime's choice of a new capacity, "sufficiently large". *)
Class Growslice := {
  growslice : nat -> nat -> nat;
  growslice_ge cap n : (n <= growslice cap n)%nat;
}.

Section Slices.
Context {A : Type} `{Growslice}.

(** Arrays; a cell no slice has written holds nil, which is [None]. *)
Abbreviation heap := (list (list (option A))).

Definition array (h : heap) (s : slice) : list (option A) := default [] (h !! sl_arr s).

Definition cells (h : heap) (s : slice) : list (option A) :=
  take (sl_len s) (drop (sl_off s) (array h s)).

Definition contents (h : heap) (s : slice) : list A := omap id (cells h s).

(** A composite literal, or the arguments of a variadic call. *)
Definition literal (h : heap) (xs : list A) : slice * heap :=
  match xs with
  | [] => (nil_slice, h)
  | _ => (mkSlice (length h) 0 (length xs) (length xs), h ++ [map Some xs])
  end.

(** [append(s, xs...)]. *)
Definition append_slice (h : heap) (s : slice) (xs : list A) : slice * heap :=
  let n := (sl_len s + length xs)%nat in
  if (n <=? sl_cap s)%nat
  then (mkSlice (sl_arr s) (sl_off s) n (sl_cap s),
        <[sl_arr s := list_inserts (sl_off s + sl_len s) (map Some xs) (array h s)]> h)
  else
    let cap := growslice (sl_cap s) n in
    (mkSlice (length h) 0 n cap,
     h ++ [cells h s ++ map Some xs ++ replicate (cap - n) None]).
End Slices.

(** ** Groups *)

Record Group := mkGroup {
  g_prefix : string;
  g_middleware : slice;
}.

(** The application (which every group points to), the heap, the slice
    variables of the registering program, and the groups by pointer. *)
Record store (V W : Type) := mkStore {
  s_app : App V W;
  s_heap : list (list (option (MiddlewareFunc V W)));
  s_vars : list slice;
  s_groups : list Group;
}.
Arguments mkStore {V W}. Arguments s_app {V W}. Arguments s_heap {V W}.
Arguments s_vars {V W}. Arguments s_groups {V W}.

Section Groups.
Context {V W : Type} `{Unicode} `{Growslice}.
Abbreviation MW := (MiddlewareFunc V W).
Abbreviation gstore := (store V W).

(** [app.Group(prefix, mw...)] on a slice. *)
Definition App_Group (st : gstore) (prefix : string) (mw : slice) : gstore :=
  mkStore (s_app st) (s_heap st) (s_vars st) (s_groups st ++ [mkGroup prefix mw]).

(** [g.Use(mw...)]. *)
Definition Group_Use (st : gstore) (g : nat) (mw : list MW) : gstore :=
  match s_groups st !! g with
  | Some gr =>
      let '(s, h) := append_slice (s_heap st) (g_middleware gr) mw in
      mkStore (s_app st) h (s_vars st) (<[g := mkGroup (g_prefix gr) s]> (s_groups st))
  | None => st
  end.

Definition handle (st : gstore) (g : nat) (method path : string) (handler : HandlerFunc V W)
    : gstore :=
  match s_groups st !! g with
  | Some gr =>
      mkStore
        (addRoute (s_app st) method (g_prefix gr +:+ path)
           (contents (s_heap st) (g_middleware gr)) handler)
        (s_heap st) (s_vars st) (s_groups st)
  | None => st
  end.

Definition Group_GET (st : gstore) (g : nat) (path : string) (h : HandlerFunc V W) : gstore :=
  handle st g "GET" path h.
Definition Group_POST (st : gstore) (g : nat) (path : string) (h : HandlerFunc V W) : gstore :=
  handle st g "POST" path h.
Definition Group_PUT (st : gstore) (g : nat) (path : string) (h : HandlerFunc V W) : gstore :=
  handle st g "PUT" path h.
Definition Group_DELETE (st : gstore) (g : nat) (path : string) (h : HandlerFunc V W) : gstore :=
  handle st g "DELETE" path h.
Definition Group_PATCH (st : gstore) (g : nat) (path : string) (h : HandlerFunc V W) : gstore :=
  handle st g "PATCH" path h.

(** ** Registering programs *)

Inductive cmd :=
  | CVar (mw : list MW)                         (* v := []MiddlewareFunc{mw...} *)
  | CAppend (v : nat) (mw : list MW)            (* v = append(v, mw...) *)
  | CGroup (prefix : string) (mw : list MW)     (* app.Group(prefix, mw...) *)
  | CGroupVar (prefix : string) (v : nat)       (* app.Group(prefix, v...) *)
  | CUse (g : nat) (mw : list MW)               (* g.Use(mw...) *)
  | CHandle (g : nat) (method path : string) (h : HandlerFunc V W)
  | CAppUse (mw : list MW).                     (* app.Use(mw...) *)

Definition exec (st : gstore) (c : cmd) : gstore :=
  match c with
  | CVar mw =>
      let '(s, h) := literal (s_heap st) mw in
      mkStore (s_app st) h (s_vars st ++ [s]) (s_groups st)
  | CAppend v mw =>
      match s_vars st !! v with
      | Some s =>
          let '(s, h) := append_slice (s_heap st) s mw in
          mkStore (s_app st) h (<[v := s]> (s_vars st)) (s_groups st)
      | None => st
      end
  | CGroup prefix mw =>
      let '(s, h) := literal (s_heap st) mw in
      App_Group (mkStore (s_app st) h (s_vars st) (s_groups st)) prefix s
  | CGroupVar prefix v =>
      match s_vars st !! v with
      | Some s => App_Group st prefix s
      | None => st
      end
  | CUse g mw => Group_Use st g mw
  | CHandle g method path h => handle st g method path h
  | CAppUse mw => mkStore (App.Use (s_app st) mw) (s_heap st) (s_vars st) (s_groups st)
  end.

(** *** The alias-free specification *)

Record astore := mkAStore {
  a_app : App V W;
  a_vars : list (list MW);
  a_groups : list (string * list MW);
}.

Definition aexec (a : astore) (c : cmd) : astore :=
  match c with
  | CVar mw => mkAStore (a_app a) (a_vars a ++ [mw]) (a_groups a)
  | CAppend v mw =>
      match a_vars a !! v with
      | Some l => mkAStore (a_app a) (<[v := l ++ mw]> (a_vars a)) (a_groups a)
      | None => a
      end
  | CGroup prefix mw => mkAStore (a_app a) (a_vars a) (a_groups a ++ [(prefix, mw)])
  | CGroupVar prefix v =>
      match a_vars a !! v with
      | Some l => mkAStore (a_app a) (a_vars a) (a_groups a ++ [(prefix, l)])
      | None => a
      end
  | CUse g mw =>
      match a_groups a !! g with
      | Some (prefix, l) =>
          mkAStore (a_app a) (a_vars a) (<[g := (prefix, l ++ mw)]> (a_groups a))
      | None => a
      end
  | CHandle g method path h =>
      match a_groups a !! g with
      | Some (prefix, l) =>
          mkAStore (addRoute (a_app a) method (prefix +:+ path) l h) (a_vars a) (a_groups a)
      | None => a
      end
  | CAppUse mw => mkAStore (App.Use (a_app a) mw) (a_vars a) (a_groups a)
  end.

Definition abstract_group (h : list (list (option MW))) (g : Group) : string * list MW :=
  (g_prefix g, contents h (g_middleware g)).

Definition abstract (st : gstore) : astore :=
  mkAStore (s_app st) (contents (s_heap st) <$> s_vars st)
    (abstract_group (s_heap st) <$> s_groups st).

(** A variable is handed to [app.Group] only when it has no spare capacity. *)
Definition guard (st : gstore) (c : cmd) : Prop :=
  match c with
  | CGroupVar _ v => forall s, s_vars st !! v = Some s -> sl_len s = sl_cap s
  | _ => True
  end.

Fixpoint guarded (st : gstore) (cs : list cmd) : Prop :=
  match cs with
  | [] => True
  | c :: cs => guard st c /\ guarded (exec st c) cs
  end.

Definition slices (st : gstore) : list slice := s_vars st ++ map g_middleware (s_groups st).

Definition empty_store (a : App V W) : gstore := mkStore a [] [] [].
End Groups.

(** ** Separation

    Every slice is inside its array with its cells set, and the spare cells of
    one slice are outside every other slice. *)

Definition slice_wf {A} (h : list (list (option A))) (s : slice) : Prop :=
  (sl_len s <= sl_cap s)%nat /\
  (sl_cap s = 0%nat \/
   ((sl_arr s < length h)%nat /\ (sl_off s + sl_cap s <= length (array h s))%nat /\
    Forall is_Some (cells h s))).

(** [s] may grow in place without touching [t]. *)
Definition apart (s t : slice) : Prop :=
  forall k, sl_arr s = sl_arr t -> (sl_off s + sl_len s <= k < sl_off s + sl_cap s)%nat ->
    ~ (sl_off t <= k < sl_off t + sl_cap t)%nat.

Definition separate {A} (h : list (list (option A))) (ss : list slice) : Prop :=
  Forall (slice_wf h) ss /\
  forall i j s t, i <> j -> ss !! i = Some s -> ss !! j = Some t -> apart s t.

Section SliceFacts.
Context {A : Type} `{Growslice}.
Implicit Types (h : list (list (option A))).

Lemma omap_some (xs : list A) : omap id (map Some xs) = xs.
Proof. induction xs as [|x xs IH]; [done|]. cbn. by rewrite IH. Qed.

Lemma contents_empty h s : sl_len s = 0%nat -> contents h s = [].
Proof. unfold contents, cells. by intros ->. Qed.

(** Appending an array to the heap is invisible to well-formed slices. *)
Lemma array_app h a s : (sl_arr s < length h)%nat -> array (h ++ [a]) s = array h s.
Proof. intros Hl. unfold array. by rewrite lookup_app_l. Qed.

Lemma slice_wf_app h a s :
  slice_wf h s -> slice_wf (h ++ [a]) s /\ cells (h ++ [a]) s = cells h s.
Proof.
  intros [Hl [Hc|(Ha & Hb & Hs)]].
  - split; [by split; [|left]|]. unfold cells. by replace (sl_len s) with 0%nat by lia.
  - unfold slice_wf, cells. rewrite array_app, length_app by done.
    split; [|done]. split; [done|]. right. split_and!; [lia|done|done].
Qed.

Lemma separate_app h a ss : separate h ss -> separate (h ++ [a]) ss.
Proof.
  intros [Hw Ha]. split; [|done]. eapply Forall_impl; [exact Hw|].
  intros s Hs. by apply slice_wf_app.
Qed.

Lemma contents_app h a s : slice_wf h s -> contents (h ++ [a]) s = contents h s.
Proof. intros Hs. unfold contents. by destruct (slice_wf_app h a s Hs) as [_ ->]. Qed.

(** A slice on an array of its own, or with no spare cells, is apart. *)
Lemma apart_arr s t : sl_arr s <> sl_arr t -> apart s t.
Proof. by intros Hne k. Qed.

Lemma apart_full s t : sl_len s = sl_cap s -> apart s t.
Proof. intros Hf k _. lia. Qed.

Lemma apart_empty s t : sl_cap t = 0%nat -> apart s t.
Proof. intros Hf k _. lia. Qed.

(** Replacing a slice by one apart from the others. *)
Lemma separate_insert h ss i s :
  (forall j t, j <> i -> ss !! j = Some t -> slice_wf h t) -> slice_wf h s ->
  (forall j k t u, j <> k -> j <> i -> k <> i -> ss !! j = Some t -> ss !! k = Some u -> apart t u) ->
  (forall j t, j <> i -> ss !! j = Some t -> apart s t /\ apart t s) ->
  separate h (<[i := s]> ss).
Proof.
  intros Hw Hs Hold Hnew. split.
  { apply Forall_lookup. intros j t Hj.
    apply list_lookup_insert_Some in Hj as [(_ & <- & _)|[Hne Hj]]; [done|]. eapply (Hw j); by auto. }
  intros j k t u Hjk Hj Hk.
  apply list_lookup_insert_Some in Hj as [(<- & <- & _)|[Hj1 Hj2]];
    apply list_lookup_insert_Some in Hk as [(<- & <- & _)|[Hk1 Hk2]]; [done| | |].
  - eapply (Hnew k); by auto.
  - eapply (Hnew j); by auto.
  - eapply (Hold j k); by auto.
Qed.

(** The elements of a list with one put in the middle. *)
Lemma lookup_middle (l1 l2 : list slice) s i t :
  (l1 ++ s :: l2) !! i = Some t ->
  (i = length l1 /\ t = s) \/
  (i <> length l1 /\ (l1 ++ l2) !! (if decide (i < length l1) then i else i - 1)%nat = Some t).
Proof.
  intros [Hi|[Hge Hi]]%lookup_app_Some.
  - right. pose proof (lookup_lt_Some _ _ _ Hi). rewrite decide_True by done.
    rewrite lookup_app_l by done. split; [lia|done].
  - apply lookup_cons_Some in Hi as [[? ->]|[? Hi]]; [left; split; [lia|done]|right].
    rewrite decide_False, lookup_app_r by lia. split; [lia|].
    by replace (i - 1 - length l1)%nat with (i - length l1 - 1)%nat by lia.
Qed.

Lemma separate_middle h l1 l2 s :
  separate h (l1 ++ l2) -> slice_wf h s ->
  (forall t, t ∈ l1 ++ l2 -> apart s t /\ apart t s) -> separate h (l1 ++ s :: l2).
Proof.
  intros [Hw Ha] Hs Hnew. split.
  { rewrite Forall_app, Forall_cons. rewrite Forall_app in Hw. by destruct Hw. }
  intros i j t u Hij [[-> ->]|[Hi Ht]]%lookup_middle [[-> ->]|[Hj Hu]]%lookup_middle.
  - done.
  - apply Hnew. by eapply list_elem_of_lookup_2.
  - apply Hnew. by eapply list_elem_of_lookup_2.
  - eapply Ha; [|exact Ht|exact Hu]. repeat case_decide; lia.
Qed.

(** Writing into the cells of one array. *)
Lemma array_insert h (a : nat) l s :
  array (<[a := l]> h) s =
  if decide (a = sl_arr s /\ (a < length h)%nat) then l else array h s.
Proof.
  unfold array. destruct (decide (a = sl_arr s /\ (a < length h)%nat)) as [[-> Hl]|Hn].
  - by rewrite list_lookup_insert_eq.
  - destruct (decide (a = sl_arr s)) as [->|Hne]; [|by rewrite list_lookup_insert_ne].
    by rewrite list_insert_ge by lia.
Qed.

(** An in-place append leaves the cells of a slice it is apart from. *)
Lemma cells_inserts h s t ys :
  slice_wf h s -> slice_wf h t -> apart s t -> (sl_len s + length ys <= sl_cap s)%nat ->
  cells (<[sl_arr s := list_inserts (sl_off s + sl_len s) ys (array h s)]> h) t = cells h t.
Proof.
  intros Hs Ht Hap Hle. unfold cells. rewrite array_insert.
  destruct (decide _) as [[He Hl]|Hn]; [|done].
  assert (array h s = array h t) as -> by (unfold array; by rewrite He).
  destruct Ht as [Htl _]. apply list_eq. intros k.
  destruct (decide (k < sl_len t)%nat) as [Hk|Hk].
  - rewrite !lookup_take_lt, !lookup_drop by done.
    destruct (decide (sl_off s + sl_len s <= sl_off t + k < sl_off s + sl_len s + length ys)%nat)
      as [Hin|Hout].
    + exfalso. eapply (Hap (sl_off t + k)%nat); [done|lia|lia].
    + destruct (decide (sl_off t + k < sl_off s + sl_len s)%nat).
      * by rewrite list_lookup_inserts_lt by lia.
      * by rewrite list_lookup_inserts_ge by lia.
  - by rewrite !lookup_take_ge by lia.
Qed.

Lemma cells_inserts_self h s ys :
  slice_wf h s -> (sl_len s + length ys <= sl_cap s)%nat -> (0 < length ys)%nat ->
  let l := list_inserts (sl_off s + sl_len s) ys (array h s) in
  cells (<[sl_arr s := l]> h)
    (mkSlice (sl_arr s) (sl_off s) (sl_len s + length ys) (sl_cap s)) = cells h s ++ ys.
Proof.
  intros [Hl [Hc|(Ha & Hb & Hs)]] Hle Hpos l; [lia|]. unfold cells. rewrite array_insert.
  cbn [sl_arr sl_off sl_len]. rewrite decide_True by done. apply list_eq. intros k.
  assert (length (take (sl_len s) (drop (sl_off s) (array h s))) = sl_len s) as Hlen
    by (rewrite length_take, length_drop; lia).
  destruct (decide (k < sl_len s)%nat) as [Hk|Hk]; [|destruct (decide (k < sl_len s + length ys)%nat)].
  - rewrite lookup_app_l, !lookup_take_lt, !lookup_drop by lia. subst l.
    by rewrite list_lookup_inserts_lt by lia.
  - rewrite lookup_app_r, lookup_take_lt, lookup_drop by lia. subst l.
    rewrite list_lookup_inserts by lia. f_equal. lia.
  - rewrite lookup_take_ge, lookup_app_r by lia. symmetry. apply lookup_ge_None. lia.
Qed.
Lemma length_array_inserts h s n ys t :
  length (array (<[sl_arr s := list_inserts n ys (array h s)]> h) t) = length (array h t).
Proof.
  rewrite array_insert. destruct (decide _) as [[He _]|]; [|done].
  rewrite length_inserts. unfold array. by rewrite He.
Qed.

Lemma wf_inserts h s t ys :
  slice_wf h s -> slice_wf h t -> apart s t -> (sl_len s + length ys <= sl_cap s)%nat ->
  slice_wf (<[sl_arr s := list_inserts (sl_off s + sl_len s) ys (array h s)]> h) t.
Proof.
  intros Hs Ht Hap Hle. pose proof (cells_inserts h s t ys Hs Ht Hap Hle) as Hc.
  unfold slice_wf. rewrite Hc, length_array_inserts, length_insert. exact Ht.
Qed.

Lemma contents_inserts h s t ys :
  slice_wf h s -> slice_wf h t -> apart s t -> (sl_len s + length ys <= sl_cap s)%nat ->
  contents (<[sl_arr s := list_inserts (sl_off s + sl_len s) ys (array h s)]> h) t = contents h t.
Proof. intros. unfold contents. by rewrite cells_inserts. Qed.

Lemma all_some (xs : list A) : Forall is_Some (map Some xs).
Proof. apply Forall_fmap, Forall_forall. by eexists. Qed.

Lemma append_nil_heap h s : <[sl_arr s := array h s]> h = h.
Proof.
  unfold array. destruct (h !! sl_arr s) as [l|] eqn:Hl; cbn.
  - by apply list_insert_id.
  - apply list_insert_ge. by apply lookup_ge_None.
Qed.

(** [append] is the list append on its slice and invisible to the others. *)
Definition appended h ss i s xs : Prop :=
  separate (append_slice h s xs).2 (<[i := (append_slice h s xs).1]> ss) /\
  contents (append_slice h s xs).2 (append_slice h s xs).1 = contents h s ++ xs /\
  forall j t, j <> i -> ss !! j = Some t ->
    contents (append_slice h s xs).2 t = contents h t.

Lemma append_in_place h ss i s xs :
  separate h ss -> ss !! i = Some s -> (sl_len s + length xs <= sl_cap s)%nat ->
  appended h ss i s xs.
Proof.
  intros [Hw Ha] Hi Hle. pose proof (Forall_lookup_1 _ _ _ _ Hw Hi) as Hs.
  unfold appended, append_slice. rewrite (proj2 (Nat.leb_le _ _) Hle).
  destruct xs as [|x xs].
  { cbn [map length fst snd list_inserts]. rewrite append_nil_heap, Nat.add_0_r, app_nil_r.
    destruct s. cbn [sl_arr sl_off sl_len sl_cap]. rewrite list_insert_id by done. by split. }
  assert (sl_len s + length (map Some (x :: xs)) <= sl_cap s)%nat as Hle'
    by (by rewrite length_map).
  cbn [fst snd]. pose proof (cells_inserts_self h s _ Hs Hle' ltac:(cbn; lia)) as Hself.
  rewrite length_map in Hself. split_and!.
  - apply separate_insert.
    + intros j t Hne Hj. apply wf_inserts; [done|by eapply Forall_lookup_1| |done].
      by eapply (Ha i j).
    + destruct Hs as [Hl [Hc|(Harr & Hb & Hsome)]]; [cbn in Hle; lia|].
      split; cbn [sl_len sl_cap]; [done|]. right.
      rewrite Hself, length_insert. cbn [sl_arr sl_off sl_cap].
      split_and!; [done| |by apply Forall_app; split; [|apply all_some]].
      rewrite (length_array_inserts h s _ _ (mkSlice _ _ _ _)). done.
    + intros j k t u Hjk _ _ Hj Hk. by apply (Ha j k).
    + intros j t Hj Ht. split.
      * intros k. cbn [sl_arr sl_off sl_len sl_cap]. intros He Hk.
         apply (Ha i j s t); [done..|lia].
      * intros k. cbn [sl_arr sl_off sl_len sl_cap]. by apply (Ha j i t s).
  - unfold contents. rewrite Hself. by rewrite omap_app, omap_some.
  - intros j t Hj Ht. apply contents_inserts; [done|by eapply Forall_lookup_1| |done].
    by eapply (Ha i j).
Qed.

Lemma append_grown h ss i s xs :
  separate h ss -> ss !! i = Some s -> (sl_cap s < sl_len s + length xs)%nat ->
  appended h ss i s xs.
Proof.
  intros [Hw Ha] Hi Hgt. pose proof (Forall_lookup_1 _ _ _ _ Hw Hi) as Hs.
  unfold appended, append_slice. rewrite (proj2 (Nat.leb_gt _ _) Hgt).
  cbn [fst snd]. set (cap := growslice _ _).
  pose proof (growslice_ge (sl_cap s) (sl_len s + length xs)) as Hcap. fold cap in Hcap.
  assert (length (cells h s) = sl_len s) as Hlen.
  { unfold cells. destruct Hs as [Hl [Hc|(Harr & Hb & _)]];
      rewrite length_take, length_drop; lia. }
  set (l := cells h s ++ map Some xs ++ _).
  assert (cells (h ++ [l]) (mkSlice (length h) 0 (sl_len s + length xs) cap) =
    cells h s ++ map Some xs) as Hcells.
  { unfold cells at 1, array. cbn [sl_arr sl_off sl_len].
    rewrite lookup_app_r, Nat.sub_diag by done. cbn [lookup list_lookup default from_option id].
    subst l. rewrite drop_0, app_assoc. apply take_app_length'.
    rewrite length_app, length_map. lia. }
  split_and!.
  - apply separate_insert.
    + intros j t _ Hj. apply slice_wf_app. by eapply Forall_lookup_1.
    + split; [done|right]. rewrite Hcells, length_app. unfold array. cbn.
      rewrite lookup_app_r, Nat.sub_diag by done. cbn. split_and!; [lia| |].
      * subst l. rewrite !length_app, length_map, length_replicate. lia.
      * apply Forall_app. split; [|apply all_some]. destruct Hs as [? [?|(_ & _ & ?)]]; [|done].
         destruct (cells h s); [done|]. cbn in Hlen. lia.
    + intros j k t u Hjk _ _ Hj Hk. by apply (Ha j k).
    + intros j t Hj Ht. destruct (Forall_lookup_1 _ _ _ _ Hw Ht) as [Hl [Hc|(Harr & _)]].
      * split; [by apply apart_empty|]. apply apart_full. lia.
      * split; apply apart_arr; cbn; lia.
  - unfold contents. by rewrite Hcells, omap_app, omap_some.
  - intros j t Hj Ht. apply contents_app. by eapply Forall_lookup_1.
Qed.

Lemma append_separate h ss i s xs :
  separate h ss -> ss !! i = Some s -> appended h ss i s xs.
Proof.
  intros Hsep Hi. destruct (Nat.le_gt_cases (sl_len s + length xs) (sl_cap s)).
  - by apply append_in_place.
  - by apply append_grown.
Qed.

(** A literal is a new slice, full, with its own array. *)
Lemma literal_separate h l1 l2 xs :
  separate h (l1 ++ l2) ->
  separate (literal h xs).2 (l1 ++ (literal h xs).1 :: l2) /\
  contents (literal h xs).2 (literal h xs).1 = xs /\
  forall t, t ∈ l1 ++ l2 -> contents (literal h xs).2 t = contents h t.
Proof.
  intros Hsep. pose proof Hsep as [Hw _]. rewrite Forall_forall in Hw.
  destruct xs as [|x xs]; unfold literal; cbn [fst snd].
  - split_and!; [|done..]. apply separate_middle; [done|split; [done|by left]|].
    intros t Ht. split; [by apply apart_full|by apply apart_empty].
  - set (s := mkSlice _ _ _ _). set (h' := h ++ _).
    assert (array h' s = map Some (x :: xs)) as Harr.
    { unfold array. cbn. subst h'. by rewrite lookup_app_r, Nat.sub_diag. }
    assert (cells h' s = map Some (x :: xs)) as Hc.
    { unfold cells. rewrite Harr. subst s. cbn [sl_off sl_len]. rewrite drop_0.
      apply take_ge. by rewrite length_map. }
    split_and!.
    + apply separate_middle; [by apply separate_app| |].
      * split; [done|]. right. rewrite Hc, Harr. subst h' s. rewrite length_app, length_map. cbn.
        split_and!; [lia|lia|]. constructor; [by eexists|apply all_some].
      * intros t Ht. destruct (Hw t Ht) as [Hl [Ht0|(Hlt & _)]].
        -- split; [by apply apart_empty|]. apply apart_full. lia.
        -- split; apply apart_arr; cbn; lia.
    + unfold contents. by rewrite Hc, omap_some.
    + intros t Ht. apply contents_app. by apply Hw.
Qed.
End SliceFacts.
