(* ===== verification/GroupProps.v ===== *)
(** * Properties of route groups

    Registration through slices implements the alias-free specification as
    long as no variable with spare capacity is shared between groups, and does
    not otherwise; and a group's routes match under its prefix with its
    middleware between the application's and the handler. *)

From S2P Require Import Prelude GoStd NetURL Wire Validation RefCodec Reqctx Reply Router App Group.

Local Open Scope string_scope.
Local Open Scope list_scope.

Section Refinement.
Context {V W : Type} `{Unicode} `{Growslice}.
Implicit Types (st : store V W).

Definition well_separated st : Prop := separate (s_heap st) (slices st).

(** Replacing one element and leaving the others' images. *)
Lemma fmap_insert_image {A B} (f f' : A -> B) (l : list A) i x y :
  is_Some (l !! i) -> f' x = y ->
  (forall j t, j <> i -> l !! j = Some t -> f' t = f t) ->
  f' <$> <[i := x]> l = <[i := y]> (f <$> l).
Proof.
  intros [z Hz] Hx Hoth. apply list_eq. intros j. rewrite list_lookup_fmap.
  pose proof (lookup_lt_Some _ _ _ Hz) as Hlt.
  destruct (decide (i = j)) as [<-|Hne].
  - rewrite !list_lookup_insert_eq by (by rewrite ?length_fmap). cbn. by rewrite Hx.
  - rewrite !list_lookup_insert_ne, list_lookup_fmap by done.
    destruct (l !! j) as [t|] eqn:Ht; [|done]. cbn. by rewrite (Hoth j t) by auto.
Qed.

Lemma fmap_image {A B} (f f' : A -> B) (l : list A) :
  (forall j t, l !! j = Some t -> f' t = f t) -> f' <$> l = f <$> l.
Proof.
  intros Heq. apply list_eq. intros j. rewrite !list_lookup_fmap.
  destruct (l !! j) as [t|] eqn:Ht; [|done]. cbn. by rewrite (Heq j t).
Qed.

(** A fresh literal leaves every other slice as it was. *)
Lemma exec_literal st mw :
  well_separated st ->
  let '(s, h) := literal (s_heap st) mw in
  (separate h (s_vars st ++ s :: map g_middleware (s_groups st)) /\
   separate h (slices st ++ [s])) /\
  contents h s = mw /\
  contents h <$> s_vars st = contents (s_heap st) <$> s_vars st /\
  abstract_group h <$> s_groups st = abstract_group (s_heap st) <$> s_groups st.
Proof.
  unfold well_separated, slices. intros Hsep.
  destruct (literal_separate (s_heap st) (s_vars st) (map g_middleware (s_groups st)) mw Hsep)
    as (Hs & Hc & Hoth).
  rewrite <- (app_nil_r (_ ++ _)) in Hsep.
  destruct (literal_separate (s_heap st) (s_vars st ++ map g_middleware (s_groups st)) [] mw Hsep)
    as (Hs' & _ & _).
  destruct (literal (s_heap st) mw) as [s h]. cbn in *. split_and!; [done..| |].
  - apply fmap_image. intros j t Hj. apply Hoth, elem_of_app. left. by eapply list_elem_of_lookup_2.
  - apply fmap_image. intros j t Hj. unfold abstract_group. f_equal. apply Hoth, elem_of_app.
    right. apply list_elem_of_fmap. exists t. split; [done|]. by eapply list_elem_of_lookup_2.
Qed.

Lemma exec_append st v mw :
  well_separated st ->
  well_separated (exec st (CAppend v mw)) /\
  abstract (exec st (CAppend v mw)) = aexec (abstract st) (CAppend v mw).
Proof.
  unfold well_separated. intros Hsep. cbn [exec].
  unfold abstract at 2. cbn [aexec a_vars]. rewrite list_lookup_fmap.
  destruct (s_vars st !! v) as [s|] eqn:Hv; cbn [fmap option_fmap option_map]; [|done].
  pose proof (lookup_lt_Some _ _ _ Hv) as Hlt.
  destruct (append_separate (s_heap st) (slices st) v s mw Hsep) as (Hs & Hc & Hoth).
  { unfold slices. by rewrite lookup_app_l. }
  destruct (append_slice (s_heap st) s mw) as [s' h]. cbn [fst snd] in *.
  unfold slices, abstract. cbn. rewrite <- insert_app_l by done. split; [done|]. f_equal.
  + apply fmap_insert_image; [by eexists|done|]. intros j t Hne Hj. apply (Hoth j); [done|].
    unfold slices. rewrite lookup_app_l; [done|by eapply lookup_lt_Some].
  + apply fmap_image. intros j t Hj. unfold abstract_group. f_equal.
    apply (Hoth (length (s_vars st) + j)%nat); [lia|]. unfold slices.
    rewrite lookup_app_r, list_lookup_fmap by lia.
    by replace (length (s_vars st) + j - length (s_vars st))%nat with j by lia; rewrite Hj.
Qed.

Lemma exec_group_var st p v :
  well_separated st -> guard st (CGroupVar p v) ->
  well_separated (exec st (CGroupVar p v)) /\
  abstract (exec st (CGroupVar p v)) = aexec (abstract st) (CGroupVar p v).
Proof.
  unfold well_separated. intros Hsep Hg. cbn [exec].
  unfold abstract at 2. cbn [aexec a_vars]. rewrite list_lookup_fmap. cbn in Hg.
  destruct (s_vars st !! v) as [s|] eqn:Hv; cbn [fmap option_fmap option_map]; [|done].
  unfold App_Group, slices, abstract. cbn. rewrite map_app, app_assoc, fmap_app.
  split; [|done]. specialize (Hg _ eq_refl). pose proof Hsep as [Hw Ha].
  assert (slices st !! v = Some s) as Hi
    by (unfold slices; rewrite lookup_app_l; [done|by eapply lookup_lt_Some]).
  apply (separate_middle _ (slices st) [] s); rewrite ?app_nil_r; [done|..].
  + by eapply Forall_lookup_1.
  + intros t [j Hj]%list_elem_of_lookup_1.
    split; [by apply apart_full|]. destruct (decide (j = v)) as [->|Hne].
    * assert (t = s) as -> by congruence. by apply apart_full.
    * by apply (Ha j v).
Qed.

Lemma exec_use st g mw :
  well_separated st ->
  well_separated (exec st (CUse g mw)) /\
  abstract (exec st (CUse g mw)) = aexec (abstract st) (CUse g mw).
Proof.
  unfold well_separated. intros Hsep. cbn [exec].
  unfold Group_Use, abstract at 2. cbn [aexec a_groups]. rewrite list_lookup_fmap.
  destruct (s_groups st !! g) as [gr|] eqn:Hgr; cbn [fmap option_fmap option_map]; [|done].
  unfold abstract_group at 1. pose proof (lookup_lt_Some _ _ _ Hgr) as Hlt.
  destruct (append_separate (s_heap st) (slices st) (length (s_vars st) + g)%nat
    (g_middleware gr) mw Hsep) as (Hs & Hc & Hoth).
  { unfold slices. rewrite lookup_app_r, list_lookup_fmap by lia.
    by replace (length (s_vars st) + g - length (s_vars st))%nat with g by lia; rewrite Hgr. }
  destruct (append_slice (s_heap st) (g_middleware gr) mw) as [s' h]. cbn [fst snd] in *.
  unfold slices, abstract in *. cbn. rewrite insert_app_r in Hs.
  assert (map g_middleware (<[g:=mkGroup (g_prefix gr) s']> (s_groups st)) =
    <[g:=s']> (map g_middleware (s_groups st))) as -> by apply (list_fmap_insert g_middleware).
  split; [done|]. f_equal.
  + apply fmap_image. intros j t Hj. pose proof (lookup_lt_Some _ _ _ Hj).
    apply (Hoth j); [lia|]. by rewrite lookup_app_l.
  + apply fmap_insert_image; [by eexists|unfold abstract_group; cbn; by rewrite Hc|].
    intros j t Hne Hj. unfold abstract_group. f_equal.
    apply (Hoth (length (s_vars st) + j)%nat); [lia|].
    rewrite lookup_app_r, list_lookup_fmap by lia.
    by replace (length (s_vars st) + j - length (s_vars st))%nat with j by lia; rewrite Hj.
Qed.

(** One command keeps the slices apart and acts as its specification. *)
Lemma exec_step st c :
  well_separated st -> guard st c ->
  well_separated (exec st c) /\ abstract (exec st c) = aexec (abstract st) c.
Proof.
  intros Hsep Hg.
  destruct c as [mw|v mw|p mw|p v|g mw|g method path h|mw].
  - cbn [exec]. pose proof (exec_literal st mw Hsep) as Hl.
    destruct (literal (s_heap st) mw) as [s h]. destruct Hl as ([Hs _] & Hc & Hv & Hgs).
    unfold well_separated, slices, abstract. cbn. rewrite <- app_assoc.
    split; [done|]. f_equal; [|done].
    by rewrite fmap_app, Hv, <- Hc.
  - by apply exec_append.
  - cbn [exec]. pose proof (exec_literal st mw Hsep) as Hl.
    destruct (literal (s_heap st) mw) as [s h]. destruct Hl as ([_ Hs] & Hc & Hv & Hgs).
    unfold well_separated, App_Group, slices, abstract in *. cbn in *.
    rewrite map_app, app_assoc. split; [done|]. rewrite Hv, fmap_app, Hgs. cbn. unfold abstract_group at 2. cbn. by rewrite Hc.
  - by apply exec_group_var.
  - by apply exec_use.
  - cbn [exec]. unfold handle, abstract at 2. cbn [aexec a_groups]. rewrite list_lookup_fmap.
    by destruct (s_groups st !! g) as [gr|].
  - done.
Qed.

(** C26.  Group registration implements its specification: a registering
    program that never hands a slice with spare capacity to [app.Group] builds
    the same routes, middleware lists and groups as the specification in which
    every slice is a list of its own, so the middleware added to one group is
    applied to that group's later routes only. *)
Theorem registration_refines (a : App V W) (cs : list cmd) :
  guarded (empty_store a) cs ->
  abstract (foldl exec (empty_store a) cs) = foldl aexec (abstract (empty_store a)) cs.
Proof.
  assert (well_separated (empty_store a)) as Hsep.
  { unfold well_separated, slices. cbn. split; [by constructor|]. intros i j s t _ Hi. done. }
  revert Hsep. generalize (empty_store a) as st.
  induction cs as [|c cs IH]; intros st Hsep Hg; [done|]. destruct Hg as [Hc Hg].
  cbn [foldl]. destruct (exec_step st c Hsep Hc) as [Hsep' <-]. by apply IH.
Qed.

(** Two in-place appends to one slice: the second replaces the first. *)
Lemma overwrite_cells {A} (h : list (list (option A))) s x y :
  slice_wf h s -> (sl_len s < sl_cap s)%nat ->
  let n := (sl_off s + sl_len s)%nat in
  let h1 := <[sl_arr s := list_inserts n [x] (array h s)]> h in
  let s1 := mkSlice (sl_arr s) (sl_off s) (sl_len s + 1) (sl_cap s) in
  cells (<[sl_arr s := list_inserts n [y] (array h1 s)]> h1) s1 = cells h s ++ [y].
Proof.
  intros Hs Hlt n h1 s1. pose proof Hs as [_ [?|(Ha & Hb & _)]]; [lia|].
  assert (array h1 s = list_inserts n [x] (array h s)) as ->
    by (unfold h1; rewrite array_insert, decide_True by done; done).
  unfold h1. rewrite list_insert_insert_eq. cbn [list_inserts].
  rewrite list_insert_insert_eq.
  pose proof (cells_inserts_self h s [y] Hs) as Hself. cbn in Hself. apply Hself; lia.
Qed.

(** Groups made from one slice with spare capacity share it: after
    [g1 := app.Group(p1, v...)], [g2 := app.Group(p2, v...)], [g1.Use(m1)],
    [g2.Use(m2)], a route registered on [g1] runs [m2] and not [m1]. *)
Theorem shared_slice_overwrites (st : store V W) v s m1 m2 p1 p2 method path h :
  well_separated st -> s_vars st !! v = Some s -> (sl_len s < sl_cap s)%nat ->
  let g1 := length (s_groups st) in
  let g2 := S (length (s_groups st)) in
  s_app (foldl exec st [CGroupVar p1 v; CGroupVar p2 v; CUse g1 [m1]; CUse g2 [m2];
                        CHandle g1 method path h]) =
  addRoute (s_app st) method (p1 +:+ path) (contents (s_heap st) s ++ [m2]) h.
Proof.
  intros [Hw _] Hv Hspare g1 g2.
  assert (slice_wf (s_heap st) s) as Hs.
  { eapply Forall_lookup_1; [exact Hw|]. unfold slices.
    rewrite lookup_app_l; [exact Hv|by eapply lookup_lt_Some]. }
  cbn [foldl exec]. rewrite Hv. unfold App_Group. cbn [s_vars s_groups s_app s_heap]. rewrite Hv.
  cbn [s_vars s_groups s_app s_heap]. unfold Group_Use at 2. cbn [s_groups].
  rewrite <- app_assoc. cbn [app]. unfold g1, g2. clear g1 g2.
  rewrite lookup_app_r, Nat.sub_diag by done. cbn [lookup list_lookup g_middleware s_heap].
  unfold append_slice. cbn [length sl_len sl_cap sl_arr sl_off].
  rewrite (proj2 (Nat.leb_le _ _)) by lia. cbn [s_vars s_app g_prefix].
  unfold Group_Use. cbn [s_groups].
  rewrite list_lookup_insert_ne by lia. rewrite lookup_app_r by lia.
  replace (S (length (s_groups st)) - length (s_groups st))%nat with 1%nat by lia.
  cbn [lookup list_lookup g_middleware s_heap]. unfold append_slice.
  cbn [length sl_len sl_cap sl_arr sl_off g_prefix].
  rewrite (proj2 (Nat.leb_le _ _)) by lia. cbn [s_vars s_app].
  unfold handle. cbn [s_groups s_heap s_app].
  rewrite list_lookup_insert_ne by lia.
  rewrite list_lookup_insert_eq by (rewrite length_app; cbn; lia). cbn [g_prefix g_middleware].
  f_equal. unfold contents at 1. cbn [map]. rewrite overwrite_cells by done.
  by rewrite omap_app.
Qed.
End Refinement.

Section Routes.
Context {V W : Type} `{Unicode} `{URLAuthority} `{Msgpack V}.
Implicit Types (st : store V W).

(** A route registered through a group: a request that no earlier route
    accepts, and whose path matches the prefix's segments followed by the
    pattern's, is served with exactly the bound parameters by the application's
    middleware, then the group's, then the handler. *)
Theorem group_route st g gr segs1 segs2 method (h : HandlerFunc V W) req params :
  s_groups st !! g = Some gr -> g_prefix gr = print_pattern segs1 ->
  Forall (fun s => wf_segment s = true) (segs1 ++ segs2) ->
  let a := s_app (handle st g method (print_pattern segs2) h) in
  let path := Path (request_url req) in
  Forall (fun rt => ~ route_accepts (req_Method req) (splitPath path) rt)
    (routes (router (s_app st))) ->
  ToUpper method = ToUpper (req_Method req) ->
  matchSegments (segs1 ++ segs2) (splitPath path) = Some params ->
  applyMiddleware (resolve a req).1 (middleware a) =
    applyMiddleware h (middleware (s_app st) ++ contents (s_heap st) (g_middleware gr)) /\
  (resolve a req).2 = params.
Proof.
  intros Hg Hp Hwf a path Hpre Hmeth Hm.
  assert (resolve a req =
    (applyMiddleware h (contents (s_heap st) (g_middleware gr)), params)) as ->.
  { unfold resolve. fold path. unfold a, handle. rewrite Hg. cbn [s_app].
    eapply Routed_unique.
    { apply (match_routes_routed _ []); [done|by constructor|done|by constructor]. }
    set (rt := mkRoute (ToUpper method) (segs1 ++ segs2)
      (applyMiddleware h (contents (s_heap st) (g_middleware gr)))).
    apply (routed_found _ _ _ (routes (router (s_app st))) rt []); [|done..].
    unfold addRoute, add. cbn [router routes]. do 3 f_equal.
    rewrite Hp. unfold parsePattern, print_pattern. apply Forall_app in Hwf as [Hw1 Hw2].
    rewrite splitPath_app by (by apply print_segments_plain).
    by rewrite map_app, !parse_print_segments. }
  split; [|done]. cbn [fst]. rewrite applyMiddleware_app.
  unfold a, handle. by rewrite Hg.
Qed.
End Routes.

(** ** Witnesses *)

Section Witnesses.
#[local] Existing Instance ascii_tables.

(** A growth policy: double the requested length. *)
Lemma doubling_ge (cap n : nat) : (n <= 2 * n)%nat.
Proof. lia. Qed.

#[local] Instance doubling : Growslice :=
  {| growslice _ n := (2 * n)%nat; growslice_ge := doubling_ge |}.

Definition tag (key : string) : MiddlewareFunc string unit := fun next =>
  (_ ← Set_ key None; next : M string unit (option error)).

Definition done_handler : HandlerFunc string unit := mret None.

(** [common := {...}; g1, g2 := app.Group(..., common...); g1.Use(...)]. *)
Definition registering : list (cmd (V := string) (W := unit)) :=
  [CVar [tag "common"]; CGroupVar "/a" 0; CGroupVar "/b" 0; CUse 0 [tag "one"];
   CUse 1 [tag "two"]; CHandle 0 "GET" "/x" done_handler].

Lemma registration_refines_witness :
  a_groups (abstract (foldl exec (empty_store New) registering)) =
  [("/a", [tag "common"; tag "one"]); ("/b", [tag "common"; tag "two"])].
Proof.
  rewrite (registration_refines New registering).
  - reflexivity.
  - cbn. split_and!; try done; intros s [= <-]; reflexivity.
Defined.

(** [common := {...}; common = append(common, ...)]: two of four cells used. *)
Definition spare_store : store string unit :=
  foldl exec (empty_store New) [CVar [tag "common"]; CAppend 0 [tag "extra"]].

Lemma spare_store_separated : well_separated spare_store.
Proof.
  unfold spare_store. cbn [foldl]. apply exec_step; [|done]. apply exec_step; [|done].
  unfold well_separated, slices. cbn. split; [by constructor|]. intros i j s t _ Hi. done.
Qed.

Lemma shared_slice_overwrites_witness :
  s_app (foldl exec spare_store
    [CGroupVar "/a" 0; CGroupVar "/b" 0; CUse 0 [tag "one"]; CUse 1 [tag "two"];
     CHandle 0 "GET" "/x" done_handler]) =
  addRoute New "GET" "/a/x" [tag "common"; tag "extra"; tag "two"] done_handler.
Proof.
  apply (shared_slice_overwrites spare_store 0 (mkSlice 1 0 2 4) (tag "one") (tag "two")
    "/a" "/b" "GET" "/x" done_handler).
  - exact spare_store_separated.
  - reflexivity.
  - cbn. lia.
Defined.

#[local] Instance no_authority : URLAuthority := {| authority_ok := fun _ => false |}.

Definition api_store : store string unit :=
  foldl exec (empty_store New) [CGroup "/api/v1" [tag "auth"]; CAppUse [tag "log"]].

Lemma group_route_witness :
  (resolve (s_app (handle api_store 0 "get" "/users/:id" done_handler))
     (mkRequest "r1" "GET" "/api/v1/users/7?full=1" None None false)).2 =
  <["id" := "7"]> ∅.
Proof.
  apply (group_route api_store 0 (mkGroup "/api/v1" (mkSlice 0 0 1 1))
    [mkSegment segStatic "api"; mkSegment segStatic "v1"]
    [mkSegment segStatic "users"; mkSegment segParam "id"] "get" done_handler
    (mkRequest "r1" "GET" "/api/v1/users/7?full=1" None None false)).
  - reflexivity.
  - reflexivity.
  - repeat constructor.
  - constructor.
  - reflexivity.
  - reflexivity.
Defined.
End Witnesses.
