(* ===== verification/Middleware.v ===== *)
(** * The middleware package, less its rate limiter (middleware/*.go)

    [Recovery], [Logger], [RequireHeaders], [ValidateHeaders], [JWT],
    [JWTSimple], [MTLSAuth] and [GetClaims].  A logger argument
    that is missing or nil stands for the default logger.  The
    JWT library is the class [JWTLib]; a value kept in the locals is boxed in
    an interface, and a type assertion unboxes it: the class [Boxed] of GoStd.v. *)

From S2P Require Import Prelude GoStd NetURL Wire Validation Reqctx Reply Router.

Local Open Scope string_scope.
Local Open Scope list_scope.

(** ** Recovery and logging *)

Section Plain.
Context {V W : Type} `{Unicode} `{Msgpack V}.

(** [debug.Stack()], the text of the panicking goroutine's stack. *)
Variable debug_Stack : panic_value -> string.

(** The optional argument of [Recovery] and [Logger]. *)
Definition logger_or_default (logger : list slogger) : slogger :=
  match logger with
  | Some l :: _ => Some l
  | _ => slog_Default
  end.

Definition recovered (log : slogger) (r : panic_value) : M V W (option error) :=
  ctx ← get_ctx;
  _ ← slog_Log log LevelError "quicframe: panic recovered"
        [("panic", APanic r); ("stack", AString (debug_Stack r));
         ("path", AString (CtxPath ctx)); ("id", AString (RequestID ctx))];
  Error StatusInternalServerError ("internal server error: " +:+ panic_string r) [].

Definition Recovery (logger : list slogger) : MiddlewareFunc V W := fun next st =>
  match next st with
  | (Returns err, st) => (Returns err, st)
  | (Panics r, st) => recovered (logger_or_default logger) r st
  end.

Definition Logger (logger : list slogger) : MiddlewareFunc V W := fun next =>
  (start ← time_Now;
   err ← (next : M V W (option error));
   ctx ← get_ctx;
   now ← time_Now;
   _ ← slog_Log (logger_or_default logger)
         (match err with Some _ => LevelError | None => LevelInfo end) "request"
         [("id", AString (RequestID ctx)); ("method", AString (Method ctx));
          ("path", AString (CtxPath ctx)); ("remote", AAddr (RemoteAddr ctx));
          ("latency", ADuration (now - start)); ("err", AError err)];
   mret err : M V W (option error)).

(** ** Header checks *)

Definition HeaderRule : Type := string -> option error.

Fixpoint RequireHeaders (names : list string) : MiddlewareFunc V W := fun next =>
  match names with
  | [] => next
  | name :: names =>
      c ← get_ctx;
      if String.eqb (TrimSpace (GetHeader c name)) ""
      then Error StatusBadRequest ("missing required header: " +:+ name) []
      else (RequireHeaders names next : M V W (option error))
  end.

(** The loop over the rules, in the order the iteration happens to take. *)
Fixpoint check_rules (rules : list (string * HeaderRule)) : MiddlewareFunc V W := fun next =>
  match rules with
  | [] => next
  | (name, rule) :: rules =>
      c ← get_ctx;
      match rule (GetHeader c name) with
      | Some err => Error StatusBadRequest (Error_string err) []
      | None => (check_rules rules next : M V W (option error))
      end
  end.

(** Go leaves the iteration order of a map open, at each request. *)
Definition ValidateHeaders (rules : gmap string HeaderRule) (next : HandlerFunc V W)
    (h : HandlerFunc V W) : Prop :=
  exists order, Permutation order (map_to_list rules) /\ h = check_rules order next.
End Plain.

(** ** JSON web tokens *)

(** The claims of a token: a [jwt.MapClaims], or another implementation. *)
Inductive Claims (C : Type) :=
  | MapClaims (m : gmap string C)
  | CustomClaims (c : C).
Arguments MapClaims {C} m.
Arguments CustomClaims {C} c.

(** The fields and methods of [*jwt.Token] the program reads: [Method.Alg()],
    the printed [Header] entry, the claims, [Valid]. *)
Record Token (C : Type) := mkToken {
  tok_Alg : string;
  tok_header_alg : string;
  tok_Claims : Claims C;
  tok_Valid : bool;
}.
Arguments mkToken {C}. Arguments tok_Alg {C}. Arguments tok_header_alg {C}.
Arguments tok_Claims {C}. Arguments tok_Valid {C}.

Definition set_valid {C} (t : Token C) (b : bool) : Token C :=
  mkToken (tok_Alg t) (tok_header_alg t) (tok_Claims t) b.

(** [jwt.ParseWithClaims], filling the given claims and asking the given
    function for the key; and what it verifies.  Its documentation: the key
    function receives the parsed, unverified token, and a token is returned
    without an error only when it verifies under the key. *)
Class JWTLib (C K : Type) := {
  ParseWithClaims : string -> Claims C -> (Token C -> result K) -> result (Token C);
  verifies : string -> Token C -> K -> Prop;
  ParseWithClaims_verified s claims keyfunc t :
    ParseWithClaims s claims keyfunc = Ok t ->
    exists key, keyfunc (set_valid t false) = Ok key /\ verifies s t key;
}.

Definition jwtLocalsKey : string := "jwt_claims".

(** A nil [SigningMethod] or [NewClaims] is [None]; a method is its [Alg()]. *)
Record JWTConfig (C K : Type) := mkJWTConfig {
  SigningKey : K;
  SigningMethod : option string;
  TokenHeader : string;
  ContextKey : string;
  NewClaims : option (Claims C);
}.
Arguments mkJWTConfig {C K}. Arguments SigningKey {C K}. Arguments SigningMethod {C K}.
Arguments TokenHeader {C K}. Arguments ContextKey {C K}. Arguments NewClaims {C K}.

Section JWT.
Context {V W C K : Type} `{Unicode} `{Msgpack V} `{JWTLib C K} `{Boxed (Token C) V}.
Implicit Types (cfg : JWTConfig C K).

(** [jwt.SigningMethodHS256.Alg()]. *)
Definition SigningMethodHS256 : string := "HS256".

Definition JWTConfig_setDefaults cfg : JWTConfig C K :=
  mkJWTConfig (SigningKey cfg)
    (Some (default SigningMethodHS256 (SigningMethod cfg)))
    (if String.eqb (TokenHeader cfg) "" then "authorization" else TokenHeader cfg)
    (if String.eqb (ContextKey cfg) "" then jwtLocalsKey else ContextKey cfg)
    (Some (default (MapClaims ∅) (NewClaims cfg))).

(** The key function; it runs after [setDefaults], on a non-nil method. *)
Definition jwt_keyfunc cfg (t : Token C) : result K :=
  if negb (String.eqb (tok_Alg t) (default SigningMethodHS256 (SigningMethod cfg)))
  then Err (errorString ("unexpected signing method: " +:+ tok_header_alg t))
  else Ok (SigningKey cfg).

Definition JWT_prefix : string := "Bearer ".

Definition JWT cfg : MiddlewareFunc V W := fun next =>
  let cfg := JWTConfig_setDefaults cfg in
  (ctx ← get_ctx;
   let raw := GetHeader ctx (TokenHeader cfg) in
   if String.eqb raw "" then Error StatusUnauthorized "missing authorization header" []
   else if negb (HasPrefix raw JWT_prefix) then
     Error StatusUnauthorized "authorization header must be Bearer token" []
   else
     let tokenStr := drop_str (String.length JWT_prefix) raw in
     let claims := default (MapClaims ∅) (NewClaims cfg) in
     match ParseWithClaims tokenStr claims (jwt_keyfunc cfg) with
     | Err _ => Error StatusUnauthorized "invalid or expired token" []
     | Ok token =>
         if negb (tok_Valid token)
         then Error StatusUnauthorized "invalid or expired token" []
         else _ ← Set_ (ContextKey cfg) (Some (box token)); (next : M V W (option error))
     end : M V W (option error)).

Definition JWTSimple (secret : K) : MiddlewareFunc V W :=
  JWT (mkJWTConfig secret (Some SigningMethodHS256) "" "" None).

Definition GetClaims (ctx : Ctx V) : option (gmap string C) :=
  match Get_ ctx jwtLocalsKey with
  | None => None
  | Some None => None
  | Some (Some v) =>
      match unbox v with
      | None => None
      | Some token =>
          match tok_Claims token with
          | MapClaims m => Some m
          | CustomClaims _ => None
          end
      end
  end.
End JWT.

(** ** Client certificates *)

Section MTLS.
Context {V W : Type} `{Unicode} `{Msgpack V} `{Boxed string V}.

Definition MTLSAuth : MiddlewareFunc V W := fun next =>
  (ctx ← get_ctx;
   match PeerCertificates ctx with
   | [] => Error StatusUnauthorized "mTLS: missing peer certificates" []
   | cert :: _ =>
       let nodeID := Subject_CommonName cert in
       if String.eqb nodeID ""
       then Error StatusUnauthorized "mTLS: identity missing in certificate" []
       else _ ← Set_ "node_id" (Some (box nodeID)); (next : M V W (option error))
   end : M V W (option error)).
End MTLS.

(** ** The middlewares keep the reply protocol *)

Section Safety.
Context {V W : Type} `{Unicode} `{Msgpack V} `{Validator V}.

#[export] Instance safe_mw_Recovery stack lg : SafeMW (Recovery stack lg : MiddlewareFunc V W).
Proof.
  intros h Hh base req st Hst. unfold Recovery. specialize (Hh base req st Hst).
  destruct (h st) as [[e|r] st']; [done|].
  assert (Safe (recovered stack (logger_or_default lg) r : M V W (option error))) as Hr
    by (unfold recovered; apply _). by apply Hr.
Qed.

#[export] Instance safe_mw_Logger lg : SafeMW (Logger lg : MiddlewareFunc V W).
Proof. intros h Hh. unfold Logger. apply _. Qed.

#[export] Instance safe_mw_RequireHeaders names :
  SafeMW (RequireHeaders names : MiddlewareFunc V W).
Proof. intros h Hh. induction names; cbn; apply _. Qed.

#[export] Instance safe_mw_check_rules rules : SafeMW (check_rules rules : MiddlewareFunc V W).
Proof. intros h Hh. induction rules as [|[name rule] rules IH]; cbn; apply _. Qed.

#[export] Instance safe_mw_JWT {C K} `{JWTLib C K} `{Boxed (Token C) V} cfg :
  SafeMW (JWT cfg : MiddlewareFunc V W).
Proof. intros h Hh. unfold JWT. apply _. Qed.

#[export] Instance safe_mw_MTLSAuth `{Boxed string V} : SafeMW (MTLSAuth : MiddlewareFunc V W).
Proof.
  intros h Hh. unfold MTLSAuth. apply safe_bind; [apply _|]. intros ctx.
  destruct (PeerCertificates ctx); apply _.
Qed.
End Safety.
