(* ===== verification/MiddlewareProps.v ===== *)
(** * Properties of the middleware package

    Recovery at the dispatcher, what is logged of a panicking request, the
    header checks under any map iteration order, and what a request must carry
    to pass the two authentication middlewares. *)

From S2P Require Import Prelude GoStd NetURL Wire RefCodec Validation Reqctx Reply Router App Middleware.

Local Open Scope string_scope.
Local Open Scope list_scope.

Section Props.
Context {V W : Type} `{Unicode} `{URLAuthority} `{Msgpack V}.
Implicit Types (st : St V W) (next : HandlerFunc V W).

(** The message of the frame that reports a panic. *)
Definition panic_frame (id : string) (r : panic_value) : payload V :=
  PError (mkErrorFrame id 500 ("internal server error: " +:+ panic_string r) None).

(** The state after one more log record. *)
Definition log_st st (r : LogRecord) : St V W :=
  mkSt (st_ctx st) (st_sws st) (log_env (st_env st) r).

Definition panic_record (log : nat) (stack : panic_value -> string) st (r : panic_value) :
    LogRecord :=
  mkRecord log LevelError "quicframe: panic recovered"
    [("panic", APanic r); ("stack", AString (stack r));
     ("path", AString (CtxPath (st_ctx st))); ("id", AString (RequestID (st_ctx st)))].

Lemma recovered_run stack log r st :
  recovered stack (Some log) r st =
  Error StatusInternalServerError ("internal server error: " +:+ panic_string r) []
    (log_st st (panic_record log stack st r)).
Proof. done. Qed.

(** A recovered panic with nothing sent: one 500 frame. *)
Lemma recovered_unsent stack log r st enc :
  ctx_sent (st_ctx st) = false -> room (ctx_stream (st_ctx st)) = None ->
  Marshal (panic_frame (RequestID (st_ctx st)) r) = Ok enc -> accepted enc ->
  exists st', recovered stack (Some log) r st = (Returns None, st') /\
    out (ctx_stream (st_ctx st')) =
      out (ctx_stream (st_ctx st)) ++ frame_bytes FrameTypeError enc /\
    logs (st_env st') = logs (st_env st) ++ [panic_record log stack st r] /\
    st_ctx st' = set_stream (set_sent (st_ctx st) true) (ctx_stream (st_ctx st')) /\
    clock (st_env st') = clock (st_env st) /\ ticks (st_env st') = ticks (st_env st).
Proof.
  intros Hs Hroom HM Ha. rewrite recovered_run, Error_run. cbn [log_st st_ctx]. rewrite Hs.
  cbv zeta. unfold panic_frame in HM.
  rewrite (WriteFrame_ok _ _ _ enc) by done. eexists. split; [reflexivity|]. done.
Qed.

Lemma logger_or_default_Some (logger : list slogger) :
  exists log, logger_or_default logger = Some log.
Proof. destruct logger as [|[l|] logger]; cbn; eauto. Qed.

(** Recovery at the dispatcher: when the rest of the chain panics before
    a reply, an application whose first middleware is [Recovery] reports it to
    the client as one 500 error frame carrying the panic's text and goes on to
    return; the same application without [Recovery] panics in the stream's
    goroutine. *)
Theorem recovery_serves stack lg (a : App V W) mws req st r st' enc :
  applyMiddleware (resolve a req).1 mws st = (Panics r, st') ->
  ctx_sent (st_ctx st') = false -> room (ctx_stream (st_ctx st')) = None ->
  Marshal (panic_frame (RequestID (st_ctx st')) r) = Ok enc -> accepted enc ->
  let with_mw l := mkApp (router a) l [] (app_logger a) (quicCfg a) in
  (serve (with_mw (Recovery stack lg :: mws)) req st).1 = Returns tt /\
  out (ctx_stream (st_ctx (serve (with_mw (Recovery stack lg :: mws)) req st).2)) =
    out (ctx_stream (st_ctx st')) ++ frame_bytes FrameTypeError enc /\
  (serve (with_mw mws) req st).1 = Panics r.
Proof.
  intros Hpanic Hs Hroom HM Ha with_mw.
  destruct (logger_or_default_Some lg) as [log Hlog].
  destruct (recovered_unsent stack log r st' enc Hs Hroom HM Ha) as (st2 & Hrun & Hout & _).
  unfold serve. change (resolve (with_mw _) req) with (resolve a req).
  cbn [with_mw middleware afterMiddleware].
  change (Recovery stack lg :: mws) with ([Recovery stack lg] ++ mws).
  rewrite !bind_run, applyMiddleware_app. rewrite applyMiddleware_foldr.
  cbn [foldr]. unfold Recovery. rewrite Hpanic, Hlog, Hrun. done.
Qed.

(** One call of [time.Now]. *)
Definition tick st : St V W :=
  mkSt (st_ctx st) (st_sws st) (mkEnv (logs (st_env st)) (clock (st_env st))
    (S (ticks (st_env st))) (world (st_env st))).

Definition now st : Z := clock (st_env st) (ticks (st_env st)).

Definition request_record (log : nat) st (latency : Z) (err : option error) : LogRecord :=
  mkRecord log (match err with Some _ => LevelError | None => LevelInfo end) "request"
    [("id", AString (RequestID (st_ctx st))); ("method", AString (Method (st_ctx st)));
     ("path", AString (CtxPath (st_ctx st))); ("remote", AAddr (RemoteAddr (st_ctx st)));
     ("latency", ADuration latency); ("err", AError err)].

Lemma Logger_run logger log next st :
  logger_or_default logger = Some log ->
  Logger logger next st =
  match next (tick st) with
  | (Returns err, st') => (Returns err, log_st (tick st') (request_record log st' (now st' - now st) err))
  | (Panics r, st') => (Panics r, st')
  end.
Proof.
  intros Hlog. unfold Logger. rewrite bind_run, Hlog.
  change (time_Now st) with (Returns (now st), tick st). cbv iota. rewrite bind_run.
  by destruct (next (tick st)) as [[err|r] st'].
Qed.

(** Logging and recovery do not commute.  In the documented order,
    [Recovery] before [Logger], a request whose handler panics leaves the panic
    record and no request record; in the other order it leaves both, and the
    request record says the request succeeded. *)
Theorem panic_logging stack (log1 log2 : nat) r next st enc :
  (forall st, next st = (Panics r, st)) ->
  ctx_sent (st_ctx st) = false -> room (ctx_stream (st_ctx st)) = None ->
  Marshal (panic_frame (RequestID (st_ctx st)) r) = Ok enc -> accepted enc ->
  logs (st_env (applyMiddleware next [Recovery stack [Some log1]; Logger [Some log2]] st).2) =
    logs (st_env st) ++ [panic_record log1 stack st r] /\
  exists attrs,
    logs (st_env (applyMiddleware next [Logger [Some log2]; Recovery stack [Some log1]] st).2) =
      logs (st_env st) ++ [panic_record log1 stack st r; mkRecord log2 LevelInfo "request" attrs] /\
    In ("err", AError None) attrs.
Proof.
  intros Hn Hs Hroom HM Ha. rewrite !applyMiddleware_foldr. cbn [foldr].
  destruct (recovered_unsent stack log1 r (tick st) enc Hs Hroom HM Ha)
    as (st2 & Hrun & _ & Hlog & _).
  split.
  - unfold Recovery. rewrite (Logger_run _ log2), Hn by done. cbn [logger_or_default].
    rewrite Hrun. exact Hlog.
  - rewrite (Logger_run _ log2) by done. unfold Recovery. rewrite Hn. cbn [logger_or_default].
    rewrite Hrun.
    eexists. cbn [log_st st_env snd log_env logs]. unfold tick. cbn [st_env logs].
    rewrite Hlog, <- app_assoc. split; [reflexivity|]. cbn. tauto.
Qed.

(** ** Header checks *)

(** [RequireHeaders] lets a request through exactly when every named
    header is present and not blank, and otherwise replies 400 naming the
    first one missing, without running the handler. *)
Theorem RequireHeaders_spec names next st :
  (Forall (fun n => TrimSpace (GetHeader (st_ctx st) n) <> "") names /\
   RequireHeaders names next st = next st) \/
  (exists pre n post, names = pre ++ n :: post /\
     Forall (fun n => TrimSpace (GetHeader (st_ctx st) n) <> "") pre /\
     TrimSpace (GetHeader (st_ctx st) n) = "" /\
     RequireHeaders names next st =
       Error StatusBadRequest ("missing required header: " +:+ n) [] st).
Proof.
  induction names as [|n names IH]; [by left|]. cbn [RequireHeaders]. rewrite bind_run.
  cbn [get_ctx]. destruct (String.eqb_spec (TrimSpace (GetHeader (st_ctx st) n)) "") as [He|Hne].
  - right. exists [], n, names. by split_and!.
  - destruct IH as [[Hall Hrun]|(pre & m & post & -> & Hpre & Hm & Hrun)].
    + left. split; [by constructor|exact Hrun].
    + right. exists (n :: pre), m, post. split_and!; [done|by constructor|done|exact Hrun].
Qed.

Lemma check_rules_spec rules next st :
  (Forall (fun '(n, rule) => rule (GetHeader (st_ctx st) n) = None) rules /\
   check_rules rules next st = next st) \/
  (exists n (rule : HeaderRule) err, In (n, rule) rules /\
     rule (GetHeader (st_ctx st) n) = Some err /\
     check_rules rules next st = Error StatusBadRequest (Error_string err) [] st).
Proof.
  induction rules as [|[n rule] rules IH]; [by left|]. cbn [check_rules]. rewrite bind_run.
  cbn [get_ctx]. destruct (rule (GetHeader (st_ctx st) n)) as [err|] eqn:Hr.
  - right. exists n, rule, err. split_and!; [by left|done|done].
  - destruct IH as [[Hall Hrun]|(m & rule' & err & Hin & Hr' & Hrun)].
    + left. split; [by constructor|exact Hrun].
    + right. exists m, rule', err. split_and!; [by right|done|exact Hrun].
Qed.

(** [ValidateHeaders], whatever order the map is iterated in: the request
    goes through exactly when every rule accepts its header; otherwise the
    reply is a 400 with the message of one of the failing rules, and the
    handler does not run; a request with one failing rule gets the same reply
    under every order. *)
Theorem ValidateHeaders_spec rules next h st :
  ValidateHeaders rules next h ->
  ((forall n rule, rules !! n = Some rule -> rule (GetHeader (st_ctx st) n) = None) /\
   h st = next st) \/
  (exists n rule err, rules !! n = Some rule /\
     rule (GetHeader (st_ctx st) n) = Some err /\
     h st = Error StatusBadRequest (Error_string err) [] st /\
     forall h', ValidateHeaders rules next h' ->
       (forall m rule', m <> n -> rules !! m = Some rule' ->
          rule' (GetHeader (st_ctx st) m) = None) -> h' st = h st).
Proof.
  assert (forall order n rule, Permutation order (map_to_list rules) ->
    In (n, rule) order <-> rules !! n = Some rule) as Hin.
  { intros order n rule Hp. rewrite <- elem_of_map_to_list, <- Hp. by rewrite list_elem_of_In. }
  intros (order & Hp & ->).
  destruct (check_rules_spec order next st) as [[Hall Hrun]|(n & rule & err & Hn & Hr & Hrun)].
  - left. split; [|done]. intros n rule Hl. apply (Hin order) in Hl; [|done].
    rewrite Forall_forall in Hall. by apply (Hall (n, rule)), list_elem_of_In.
  - right. exists n, rule, err. apply (Hin order) in Hn as Hn'; [|done].
    split_and!; [done..|]. intros h' (order' & Hp' & ->) Hone.
    destruct (check_rules_spec order' next st) as [[Hall _]|(m & rule' & err' & Hm & Hr' & Hrun')].
    + rewrite Forall_forall in Hall. apply (Hin order') in Hn'; [|done].
      specialize (Hall (n, rule) ltac:(by apply list_elem_of_In)). cbn in Hall. congruence.
    + apply (Hin order') in Hm; [|done]. destruct (decide (m = n)) as [->|Hne].
      * rewrite Hrun, Hrun'. congruence.
      * specialize (Hone m rule' Hne Hm). congruence.
Qed.
End Props.

(** ** Authentication *)

Section Auth.
Context {V W C K : Type} `{Unicode} `{Msgpack V} `{JWTLib C K} `{Boxed (Token C) V}.
Implicit Types (st : St V W) (next : HandlerFunc V W) (cfg : JWTConfig C K).

Definition with_local st (key : string) (v : option V) : St V W :=
  mkSt (set_locals (st_ctx st) (<[key := v]> (ctx_locals (st_ctx st)))) (st_sws st) (st_env st).

(** The middleware as a function of the state. *)
Lemma JWT_run cfg next st :
  let cfg' := JWTConfig_setDefaults cfg in
  let raw := GetHeader (st_ctx st) (TokenHeader cfg') in
  let refuse message := Error StatusUnauthorized message [] st in
  JWT cfg next st =
  if String.eqb raw "" then refuse "missing authorization header"
  else if negb (HasPrefix raw JWT_prefix)
  then refuse "authorization header must be Bearer token"
  else
    match ParseWithClaims (drop_str (String.length JWT_prefix) raw)
            (default (MapClaims ∅) (NewClaims cfg')) (jwt_keyfunc cfg') with
    | Err _ => refuse "invalid or expired token"
    | Ok token =>
        if negb (tok_Valid token) then refuse "invalid or expired token"
        else next (with_local st (ContextKey cfg') (Some (box token)))
    end.
Proof.
  intros cfg' raw refuse. unfold JWT. fold cfg'. cbv zeta. rewrite bind_run.
  cbn [get_ctx]. fold raw. destruct (String.eqb raw ""); [done|].
  destruct (negb (HasPrefix raw JWT_prefix)); [done|].
  destruct (ParseWithClaims _ _ _) as [token|e]; [|done]. by destruct (negb (tok_Valid token)).
Qed.

Lemma GetClaims_local st key (token : Token C) :
  let st' := with_local st key (Some (box token)) in
  (key = jwtLocalsKey -> GetClaims (C := C) (st_ctx st') =
     match tok_Claims token with MapClaims m => Some m | CustomClaims _ => None end) /\
  (key <> jwtLocalsKey -> GetClaims (C := C) (st_ctx st') = GetClaims (C := C) (st_ctx st)).
Proof.
  cbv zeta. unfold GetClaims, Get_, with_local. cbn [st_ctx ctx_locals set_locals].
  split; intros Hk.
  - subst key. by rewrite lookup_insert_eq, unbox_box.
  - by rewrite lookup_insert_ne.
Qed.

(** Either every handler is refused the request in the same way, or the header
    carries a good token and any handler runs with it. *)
Lemma JWT_cases cfg st :
  let cfg' := JWTConfig_setDefaults cfg in
  (exists message, forall next, JWT cfg next st = Error StatusUnauthorized message [] st) \/
  (exists tokenStr token,
     GetHeader (st_ctx st) (TokenHeader cfg') = "Bearer " +:+ tokenStr /\
     tok_Valid token = true /\ tok_Alg token = default "HS256" (SigningMethod cfg) /\
     verifies tokenStr token (SigningKey cfg) /\
     forall next, JWT cfg next st = next (with_local st (ContextKey cfg') (Some (box token)))).
Proof.
  intros cfg'.
  assert (forall message, (forall next, JWT cfg next st = Error StatusUnauthorized message [] st) ->
    exists message, forall next, JWT cfg next st = Error StatusUnauthorized message [] st) as Hrefuse
    by eauto.
  pose proof (fun next => JWT_run cfg next st) as Hrun. cbv zeta in Hrun. fold cfg' in Hrun.
  destruct (String.eqb (GetHeader (st_ctx st) (TokenHeader cfg')) ""); [left; by eapply Hrefuse|].
  destruct (HasPrefix (GetHeader (st_ctx st) (TokenHeader cfg')) JWT_prefix) eqn:Hpre;
    cbn [negb] in Hrun; [|left; by eapply Hrefuse].
  destruct (ParseWithClaims _ _ _) as [token|e] eqn:Hparse; [|left; by eapply Hrefuse].
  destruct (tok_Valid token) eqn:Hvalid; cbn [negb] in Hrun; [|left; by eapply Hrefuse].
  right. apply HasPrefix_drop in Hpre.
  destruct (ParseWithClaims_verified _ _ _ _ Hparse) as (key & Hkey & Hver).
  unfold jwt_keyfunc in Hkey.
  change (default SigningMethodHS256 (SigningMethod cfg'))
    with (default "HS256" (SigningMethod cfg)) in Hkey. cbn [tok_Alg set_valid] in Hkey.
  destruct (String.eqb_spec (tok_Alg token) (default "HS256" (SigningMethod cfg)))
    as [Halg|]; [|done]. cbn [negb] in Hkey. injection Hkey as <-.
  eexists _, token. by split_and!.
Qed.

(** C22.  The JWT guard: either the request is answered 401 and no handler
    whatsoever runs, or its header carries a Bearer token that is valid, was
    signed with the configured method and verifies under the configured key,
    and the handler runs with that token in the locals; then [GetClaims] gives
    the token's map claims under the default key, and under another key only
    what it gave before. *)
Theorem JWT_guard cfg st :
  let cfg' := JWTConfig_setDefaults cfg in
  (exists message, forall next, JWT cfg next st = Error StatusUnauthorized message [] st) \/
  (exists tokenStr token,
     GetHeader (st_ctx st) (TokenHeader cfg') = "Bearer " +:+ tokenStr /\
     tok_Valid token = true /\ tok_Alg token = default "HS256" (SigningMethod cfg) /\
     verifies tokenStr token (SigningKey cfg) /\
     let st' := with_local st (ContextKey cfg') (Some (box token)) in
     (forall next, JWT cfg next st = next st') /\
     (ContextKey cfg' = jwtLocalsKey -> GetClaims (C := C) (st_ctx st') =
        match tok_Claims token with MapClaims m => Some m | CustomClaims _ => None end) /\
     (ContextKey cfg' <> jwtLocalsKey ->
        GetClaims (C := C) (st_ctx st') = GetClaims (C := C) (st_ctx st))).
Proof.
  intros cfg'. destruct (JWT_cases cfg st) as [Hno|(s & token & Hh & Hv & Ha & Hver & Hrun)];
    [by left|right].
  exists s, token. split_and!; [done..|]. cbv zeta. split; [exact Hrun|]. apply GetClaims_local.
Qed.

(** The identity of [MTLSAuth] is the common name of the connection's
    first certificate: the handler runs with it under ["node_id"] whatever the
    validity dates and the rest of the chain, and otherwise the reply is 401;
    over WebTransport, whose sessions expose no certificates, it always is. *)
Theorem MTLSAuth_identity `{Boxed string V} st :
  (forall addr, ctx_conn (st_ctx st) = wtSessionWrapper addr -> forall next,
     MTLSAuth next st = Error StatusUnauthorized "mTLS: missing peer certificates" [] st) /\
  (forall addr cn nb na chain,
     ctx_conn (st_ctx st) = quicConnWrapper (mkQuicConn addr (mkCertificate cn nb na :: chain)) ->
     if String.eqb cn ""
     then forall next, MTLSAuth next st =
       Error StatusUnauthorized "mTLS: identity missing in certificate" [] st
     else forall next, MTLSAuth next st = next (with_local st "node_id" (Some (box cn)))).
Proof.
  unfold MTLSAuth, PeerCertificates. split.
  - intros addr Hc next. rewrite bind_run. cbn [get_ctx]. by rewrite Hc.
  - intros addr cn nb na chain Hc. destruct (String.eqb cn "") eqn:He; intros next;
      rewrite bind_run; cbn [get_ctx];
      rewrite Hc; cbn [peer_PeerCertificates qc_PeerCertificates Subject_CommonName];
      by rewrite He.
Qed.
End Auth.

(** ** Witnesses *)

Section Witnesses.
#[local] Existing Instance ascii_tables.
#[local] Instance no_authority : URLAuthority := {| authority_ok := fun _ => false |}.

(** Interface values: strings, byte slices, and tokens with string claims. *)
Abbreviation value := (iface (Token string)).

(** A library that knows one token, good under the key ["secret"]. *)
Definition known_token (valid : bool) : Token string :=
  mkToken "HS256" "HS256" (MapClaims {["sub" := "ada"]}) valid.

Definition parse_known (s : string) (claims : Claims string)
    (keyfunc : Token string -> result string) : result (Token string) :=
  match keyfunc (known_token false) with
  | Ok key =>
      if String.eqb s "good" && String.eqb key "secret" then Ok (known_token true)
      else Err (errorString "signature is invalid")
  | Err e => Err e
  end.

Lemma parse_known_verified s claims keyfunc t :
  parse_known s claims keyfunc = Ok t ->
  exists key, keyfunc (set_valid t false) = Ok key /\ (s = "good" /\ key = "secret").
Proof.
  unfold parse_known. destruct (keyfunc (known_token false)) as [key|e] eqn:Hk; [|done].
  destruct (String.eqb s "good" && String.eqb key "secret") eqn:Hb; [|done].
  apply andb_true_iff in Hb as [Hs%String.eqb_eq Hkey%String.eqb_eq].
  intros Hp. injection Hp as <-. by exists key.
Qed.

#[local] Instance known_jwt : JWTLib string string := {|
  ParseWithClaims := parse_known;
  verifies s t key := s = "good" /\ key = "secret";
  ParseWithClaims_verified := parse_known_verified |}.

Definition auth_request (path token : string) : Request :=
  mkRequest "r1" "GET" path (Some {["authorization" := token]}) None false.

Definition request_state (peer : remoteAddrProvider) (req : Request) : St value unit :=
  mkSt (newContext None req peer (reading [])) [] (mkEnv [] (fun n => Z.of_nat n) 0 tt).

Definition any_peer : remoteAddrProvider := wtSessionWrapper (Some "10.0.0.1:555").

Lemma JWT_guard_witness :
  exists tokenStr, GetHeader (st_ctx (request_state any_peer (auth_request "/me" "Bearer good")))
    "authorization" = "Bearer " +:+ tokenStr /\ tokenStr = "good".
Proof.
  destruct (JWT_guard (mkJWTConfig "secret" None "" "" None)
    (request_state any_peer (auth_request "/me" "Bearer good")))
    as [(message & Hno)|(tokenStr & token & Hraw & _ & _ & [Hs _] & _)].
  - exfalso. pose proof (eq_trans (Hno (mret None)) (eq_sym (Hno (mret (Some EOF))))) as Heq.
    apply (f_equal fst) in Heq. vm_compute in Heq. discriminate Heq.
  - exists tokenStr. split; [exact Hraw|exact Hs].
Defined.

Definition welcome : HandlerFunc value unit := Send 200 None.

Lemma MTLSAuth_identity_witness :
  MTLSAuth welcome (request_state any_peer (auth_request "/me" "")) =
    Error StatusUnauthorized "mTLS: missing peer certificates" []
      (request_state any_peer (auth_request "/me" "")).
Proof.
  destruct (MTLSAuth_identity (V := value) (W := unit)
    (request_state any_peer (auth_request "/me" ""))) as [Hwt _].
  exact (Hwt (Some "10.0.0.1:555") eq_refl welcome).
Defined.

Definition crash : HandlerFunc value unit := panic (PanicString "boom").
Definition no_stack : panic_value -> string := fun _ => "goroutine 1".
Definition crash_request : Request := auth_request "/" "".
Definition crash_app : App value unit := GET New "/" crash.
Definition crash_encoding : bytes :=
  encoding (PError (mkErrorFrame "r1" 500 "internal server error: boom" None)).

Lemma recovery_serves_witness :
  (serve (mkApp (router crash_app) [Recovery no_stack []] [] (app_logger crash_app) (quicCfg crash_app)) crash_request
     (request_state any_peer crash_request)).1 = Returns tt.
Proof.
  apply (recovery_serves no_stack [] crash_app [] crash_request
    (request_state any_peer crash_request) (PanicString "boom")
    (request_state any_peer crash_request) crash_encoding).
  - reflexivity.
  - reflexivity.
  - reflexivity.
  - vm_compute. reflexivity.
  - unfold accepted. vm_compute. discriminate.
Defined.

Lemma panic_logging_witness :
  logs (st_env (applyMiddleware crash [Recovery no_stack [None]; Logger [Some 7%nat]]
                  (request_state any_peer crash_request)).2) =
    [panic_record 0 no_stack (request_state any_peer crash_request) (PanicString "boom")].
Proof.
  apply (panic_logging no_stack 0 7 (PanicString "boom") crash (request_state any_peer crash_request)
    crash_encoding).
  - reflexivity.
  - reflexivity.
  - reflexivity.
  - vm_compute. reflexivity.
  - unfold accepted. vm_compute. discriminate.
Defined.

Definition tenant_rule : HeaderRule := fun v =>
  if String.eqb v "" then Some (errorString "tenant required") else None.

Lemma ValidateHeaders_spec_witness :
  check_rules [("x-tenant-id", tenant_rule)] crash (request_state any_peer crash_request) =
  Error StatusBadRequest "tenant required" [] (request_state any_peer crash_request).
Proof.
  destruct (ValidateHeaders_spec {["x-tenant-id" := tenant_rule]} crash
    (check_rules [("x-tenant-id", tenant_rule)] crash) (request_state any_peer crash_request))
    as [[Hall _]|(n & rule & err & Hl & Hr & Hrun & _)].
  - exists [("x-tenant-id", tenant_rule)]. split; [|reflexivity].
    rewrite map_to_list_singleton. reflexivity.
  - specialize (Hall "x-tenant-id" tenant_rule (lookup_singleton_eq _ _)).
    vm_compute in Hall. discriminate Hall.
  - apply lookup_singleton_Some in Hl as [<- <-]. vm_compute in Hr. injection Hr as <-.
    exact Hrun.
Defined.
End Witnesses.
