(* ===== verification/RateLimit.v ===== *)
(** * The rate limiter (middleware/ratelimit.go)

    [RateLimit] keeps, per call, a map from keys to entries that point to
    limiters of golang.org/x/time/rate; a pointer is an index into the list of
    limiters allocated so far, since a request keeps using the limiter it was
    given after the cleanup goroutine dropped the entry.  The limiter itself is
    third-party: the class [RateLib].  The map lives in the state shared by
    requests, reached through the class [HasLimiters].

    [float64] rates are rationals: [int] of one truncates toward zero, and
    values outside the range of [int] are not modelled. *)

From S2P Require Import Prelude GoStd NetURL Wire Validation Reqctx Reply Router App.
From Stdlib Require Import Ascii QArith_base.

Local Open Scope string_scope.
Local Open Scope list_scope.

(** ** [net.SplitHostPort] *)

Definition SplitHostPort (hostport : string) : option (string * string) :=
  match LastIndexByte hostport ":" with
  | None => None
  | Some i =>
      let finish host j k :=
        if Contains "[" (drop_str j hostport) then None
        else if Contains "]" (drop_str k hostport) then None
        else Some (host, drop_str (S i) hostport) in
      if HasPrefix hostport "[" then
        match IndexByte hostport "]" with
        | None => None
        | Some e =>
            if (S e =? String.length hostport)%nat then None
            else if (S e =? i)%nat then finish (String.substring 1 (e - 1) hostport) 1%nat (S e)
            else None
        end
      else
        let host := String.substring 0 i hostport in
        if Contains ":" host then None else finish host 0%nat 0%nat
  end.

(** ** Configuration *)

(** A zero duration or burst, and a nil [KeyFunc], ask for the default. *)
Record RateLimitConfig (V W : Type) := mkRateLimitConfig {
  RequestsPerSecond : Q;
  Burst : Z;
  KeyFunc : option (M V W string);
  CleanupInterval : Z;
  IdleTimeout : Z;
}.
Arguments mkRateLimitConfig {V W}. Arguments RequestsPerSecond {V W}.
Arguments Burst {V W}. Arguments KeyFunc {V W}. Arguments CleanupInterval {V W}.
Arguments IdleTimeout {V W}.

(** [int(f)]. *)
Definition int_of_float (f : Q) : Z := Z.quot (Qnum f) (Z.pos (Qden f)).

Section Config.
Context {V W : Type}.

Definition default_key : M V W string :=
  ctx ← get_ctx;
  match RemoteAddr ctx with
  | None => mret "unknown"
  | Some addr =>
      match SplitHostPort addr with
      | None => mret addr
      | Some (host, _) => mret host
      end
  end.

Definition default_burst (rps : Q) : Z :=
  let burst := int_of_float rps in
  if (burst <? 1)%Z then 1%Z else burst.

Definition RateLimitConfig_setDefaults (c : RateLimitConfig V W) : RateLimitConfig V W :=
  mkRateLimitConfig (RequestsPerSecond c)
    (if (Burst c =? 0)%Z then default_burst (RequestsPerSecond c) else Burst c)
    (Some (default default_key (KeyFunc c)))
    (if (CleanupInterval c =? 0)%Z then (5 * Minute)%Z else CleanupInterval c)
    (if (IdleTimeout c =? 0)%Z then (10 * Minute)%Z else IdleTimeout c).
End Config.

(** ** Entries *)

(** [rate.NewLimiter] and [Allow] at a reading of the clock. *)
Class RateLib (L : Type) := {
  NewLimiter : Q -> Z -> L;
  Allow : Z -> L -> bool * L;
}.

Record entry := mkEntry {
  limiter : nat;
  lastSeen : Z;
}.

(** The [entries] map, and the limiters by pointer. *)
Record limiters (L : Type) := mkLimiters {
  entries : gmap string entry;
  allocated : list L;
}.
Arguments mkLimiters {L}. Arguments entries {L}. Arguments allocated {L}.

Section Entries.
Context {L : Type} `{RateLib L}.
Implicit Types (s : limiters L).

Definition no_limiters : limiters L := mkLimiters ∅ [].

(** [getLimiter] under the mutex, with the reading of [time.Now]. *)
Definition get_limiter (rps : Q) (burst : Z) (key : string) (now : Z) s : nat * limiters L :=
  match entries s !! key with
  | Some e =>
      (limiter e, mkLimiters (<[key := mkEntry (limiter e) now]> (entries s)) (allocated s))
  | None =>
      let p := length (allocated s) in
      (p, mkLimiters (<[key := mkEntry p now]> (entries s))
            (allocated s ++ [NewLimiter rps burst]))
  end.

(** [Allow()] on a limiter. *)
Definition allow (p : nat) (now : Z) s : bool * limiters L :=
  match allocated s !! p with
  | Some l =>
      let '(ok, l) := Allow now l in (ok, mkLimiters (entries s) (<[p := l]> (allocated s)))
  | None => (false, s)
  end.

(** One tick of the cleanup goroutine, under the mutex: the map is walked in
    some order, and each entry is compared with its own reading of the clock. *)
Definition cleanup (idle : Z) (now : string -> Z) s : limiters L :=
  mkLimiters (filter (fun ke => (now ke.1 - lastSeen ke.2 <= idle)%Z) (entries s)) (allocated s).
End Entries.

(** ** The middleware *)

(** Where the shared state keeps the limiter's map. *)
Class HasLimiters (L W : Type) := {
  get_limiters : W -> limiters L;
  set_limiters : limiters L -> W -> W;
  get_set_limiters s w : get_limiters (set_limiters s w) = s;
  set_set_limiters s s' w : set_limiters s (set_limiters s' w) = set_limiters s w;
}.

Section Middleware.
Context {V W L : Type} `{Unicode} `{Msgpack V} `{RateLib L} `{HasLimiters L W}.
Implicit Types (cfg : RateLimitConfig V W).

Definition getLimiter cfg (key : string) : M V W nat :=
  now ← time_Now;
  w ← get_world;
  let '(p, s) := get_limiter (RequestsPerSecond cfg) (Burst cfg) key now (get_limiters w) in
  _ ← put_world (set_limiters s w);
  mret p.

Definition limiter_Allow (p : nat) : M V W bool :=
  now ← time_Now;
  w ← get_world;
  let '(ok, s) := allow p now (get_limiters (L := L) w) in
  _ ← put_world (set_limiters s w);
  mret ok.

Definition RateLimit cfg : MiddlewareFunc V W := fun next =>
  let cfg := RateLimitConfig_setDefaults cfg in
  (key ← default default_key (KeyFunc cfg);
   p ← getLimiter cfg key;
   ok ← limiter_Allow p;
   if negb ok then Error StatusTooManyRequests "rate limit exceeded" []
   else next : M V W (option error)).

Definition RateLimitSimple (rps : Q) : MiddlewareFunc V W :=
  RateLimit (mkRateLimitConfig rps 0 None 0 0).

(** The limiter keeps the reply protocol. *)
#[export] Instance safe_default_key : Safe (default_key : M V W string).
Proof.
  unfold default_key. apply safe_bind; [apply _|]. intros ctx.
  destruct (RemoteAddr ctx) as [addr|]; [|apply _].
  destruct (SplitHostPort addr) as [[host port]|]; apply _.
Qed.

#[export] Instance safe_mw_RateLimit cfg :
  Safe (default default_key (KeyFunc cfg)) -> SafeMW (RateLimit cfg).
Proof.
  intros Hkey next Hnext. unfold RateLimit. apply safe_bind; [exact Hkey|]. intros key.
  apply safe_bind; [|intros p; apply safe_bind; [|intros ok; apply _]].
  - unfold getLimiter. apply safe_bind; [apply _|]. intros now. apply safe_bind; [apply _|].
    intros w. destruct (get_limiter _ _ _ _ _). apply _.
  - unfold limiter_Allow. apply safe_bind; [apply _|]. intros now. apply safe_bind; [apply _|].
    intros w. destruct (allow _ _ _). apply _.
Qed.
End Middleware.

(** ** Traces

    The operations of the limiter in the order they take effect: a request is
    a [Get] and later an [Allow] of the pointer it got; ticks of the cleanup
    may fall anywhere. *)
Inductive op :=
  | OGet (key : string) (now : Z)
  | OAllow (p : nat) (now : Z)
  | OClean (now : string -> Z).

Inductive result_of :=
  | RGet (key : string) (p : nat)
  | RAllow (p : nat) (ok : bool)
  | RClean.

Section Traces.
Context {L : Type} `{RateLib L}.
Variable (rps : Q) (burst idle : Z).

Definition run_op (o : op) (s : limiters L) : result_of * limiters L :=
  match o with
  | OGet key now => let '(p, s) := get_limiter rps burst key now s in (RGet key p, s)
  | OAllow p now => let '(ok, s) := allow p now s in (RAllow p ok, s)
  | OClean now => (RClean, cleanup idle now s)
  end.

Fixpoint run_ops (os : list op) (s : limiters L) : list result_of * limiters L :=
  match os with
  | [] => ([], s)
  | o :: os =>
      let '(r, s) := run_op o s in
      let '(rs, s) := run_ops os s in
      (r :: rs, s)
  end.

(** *** Requests served one at a time *)

Inductive event :=
  | Req (key : string) (seen now : Z)
  | Tick (now : string -> Z).

Definition serve_event (e : event) (s : limiters L) : list (string * bool) * limiters L :=
  match e with
  | Req key seen now =>
      let '(p, s) := get_limiter rps burst key seen s in
      let '(ok, s) := allow p now s in
      ([(key, ok)], s)
  | Tick now => ([], cleanup idle now s)
  end.

Fixpoint serve_events (es : list event) (s : limiters L) : list (string * bool) * limiters L :=
  match es with
  | [] => ([], s)
  | e :: es =>
      let '(r, s) := serve_event e s in
      let '(rs, s) := serve_events es s in
      (r ++ rs, s)
  end.

(** The events that concern a key: its requests and every tick. *)
Definition concerns (key : string) (e : event) : bool :=
  match e with
  | Req k _ _ => String.eqb k key
  | Tick _ => true
  end.
End Traces.

(** ** Invariants *)

Section Facts.
Context {L : Type} `{RateLib L}.
Implicit Types (s : limiters L).

(** Entries point to allocated limiters, and no two to the same one. *)
Definition entries_wf s : Prop :=
  (forall k e, entries s !! k = Some e -> (limiter e < length (allocated s))%nat) /\
  (forall k1 k2 e1 e2, entries s !! k1 = Some e1 -> entries s !! k2 = Some e2 ->
     limiter e1 = limiter e2 -> k1 = k2).

Lemma entries_wf_no : entries_wf no_limiters.
Proof. split; intros *; cbn; by rewrite lookup_empty. Qed.

Lemma entries_wf_get rps burst key now s :
  entries_wf s -> entries_wf (get_limiter rps burst key now s).2.
Proof.
  intros [Hlt Hinj]. unfold get_limiter.
  destruct (entries s !! key) as [e|] eqn:Hk; split; cbn.
  - intros k e'. rewrite lookup_insert. case_decide as Hd; [|apply Hlt].
    intros [= <-]. cbn. by eapply Hlt.
  - intros k1 k2 e1 e2. rewrite !lookup_insert.
    repeat case_decide; subst; intros; simplify_eq/=; try done; by eauto.
  - intros k e'. rewrite lookup_insert, length_app. cbn. case_decide.
    + intros [= <-]. cbn. lia.
    + intros Hl%Hlt. lia.
  - intros k1 k2 e1 e2. rewrite !lookup_insert.
    repeat case_decide; subst; intros; simplify_eq/=; try done;
      try (by eauto); exfalso;
      match goal with Hl : entries s !! _ = Some _ |- _ => apply Hlt in Hl; lia end.
Qed.

Lemma entries_wf_allow p now s : entries_wf s -> entries_wf (allow p now s).2.
Proof.
  intros [Hlt Hinj]. unfold allow. destruct (allocated s !! p) as [l|]; [|done].
  destruct (Allow now l) as [ok l']. split; cbn; [|done]. by rewrite length_insert.
Qed.

Lemma entries_wf_cleanup idle now s : entries_wf s -> entries_wf (cleanup idle now s).
Proof.
  intros [Hlt Hinj]. split; cbn.
  - intros k e [Hk _]%map_lookup_filter_Some. by eapply Hlt.
  - intros k1 k2 e1 e2 [H1 _]%map_lookup_filter_Some [H2 _]%map_lookup_filter_Some.
    by apply Hinj.
Qed.

(** The pointer a [Get] returns is the key's entry afterwards. *)
Lemma get_limiter_entry rps burst key now s :
  entries (get_limiter rps burst key now s).2 !! key =
    Some (mkEntry (get_limiter rps burst key now s).1 now).
Proof.
  unfold get_limiter. destruct (entries s !! key); cbn; by rewrite lookup_insert_eq.
Qed.
End Facts.
