(* ===== verification/RateLimitProps.v ===== *)
(** * Properties of the rate limiter

    The middleware is the trace operations on the shared map; limiters are
    never shared between keys, keys do not influence each other, and a client
    that keeps coming keeps its limiter. *)

From S2P Require Import Prelude GoStd NetURL Wire RefCodec Validation Reqctx Reply Router App RateLimit.
From Stdlib Require Import QArith_base.

Local Open Scope string_scope.
Local Open Scope list_scope.

Section Handler.
Context {V W L : Type} `{Unicode} `{Msgpack V} `{RateLib L} `{HasLimiters L W}.
Implicit Types (st : St V W) (cfg : RateLimitConfig V W).

Definition set_world st (w : W) (n : nat) : St V W :=
  mkSt (st_ctx st) (st_sws st)
    (mkEnv (logs (st_env st)) (clock (st_env st)) (n + ticks (st_env st)) w).

Lemma getLimiter_run cfg key st :
  getLimiter (L := L) cfg key st =
  let '(p, s) := get_limiter (RequestsPerSecond cfg) (Burst cfg) key
    (clock (st_env st) (ticks (st_env st))) (get_limiters (world (st_env st))) in
  (Returns p, set_world st (set_limiters s (world (st_env st))) 1).
Proof.
  unfold getLimiter, get_world, put_world, time_Now, mbind, M_bind. cbn.
  by destruct (get_limiter _ _ _ _ _).
Qed.

Lemma limiter_Allow_run p st :
  limiter_Allow (L := L) p st =
  let '(ok, s) := allow p (clock (st_env st) (ticks (st_env st)))
    (get_limiters (world (st_env st))) in
  (Returns ok, set_world st (set_limiters s (world (st_env st))) 1).
Proof.
  unfold limiter_Allow, get_world, put_world, time_Now, mbind, M_bind. cbn.
  by destruct (allow _ _ _).
Qed.

(** The rate limiter decides by the key's bucket alone: for a key
    function that reads the request, the middleware takes one step of the
    limiter map under the key (the entry is looked up or made at one reading
    of the clock, the bucket asked at the next); it runs the handler exactly
    when the bucket allows, and answers 429 otherwise. *)
Theorem RateLimit_step cfg next st key :
  let cfg' := RateLimitConfig_setDefaults cfg in
  let now i := clock (st_env st) (i + ticks (st_env st))%nat in
  let w := world (st_env st) in
  default default_key (KeyFunc cfg) st = (Returns key, st) ->
  exists ok s,
    serve_event (RequestsPerSecond cfg) (Burst cfg') (IdleTimeout cfg')
      (Req key (now 0%nat) (now 1%nat)) (get_limiters w) = ([(key, ok)], s) /\
    RateLimit cfg next st =
      if ok then next (set_world st (set_limiters s w) 2)
      else Error StatusTooManyRequests "rate limit exceeded" []
             (set_world st (set_limiters s w) 2).
Proof.
  intros cfg' now w Hkey. unfold RateLimit. fold cfg'. rewrite bind_run.
  change (default default_key (KeyFunc cfg')) with (default default_key (KeyFunc cfg)).
  rewrite Hkey. cbn [serve_event]. rewrite bind_run, getLimiter_run.
  change (RequestsPerSecond cfg') with (RequestsPerSecond cfg).
  fold w. change (clock (st_env st) (ticks (st_env st))) with (now 0%nat).
  destruct (get_limiter _ _ _ _ _) as [p s]. rewrite bind_run, limiter_Allow_run.
  cbn [set_world st_env world clock ticks logs]. rewrite get_set_limiters.
  change (clock (st_env st) (1 + ticks (st_env st))%nat) with (now 1%nat).
  destruct (allow p (now 1%nat) s) as [ok s']. exists ok, s'. split; [done|].
  rewrite set_set_limiters. by destruct ok.
Qed.
End Handler.

(** ** Isolation *)

Section Isolation.
Context {L : Type} `{RateLib L}.
Implicit Types (s : limiters L).

(** [owner] lists the key every limiter was allocated for. *)
Definition owned (owner : list string) s : Prop :=
  length owner = length (allocated s) /\
  forall k e, entries s !! k = Some e -> owner !! limiter e = Some k.

Lemma run_op_owned rps burst idle o owner s :
  owned owner s ->
  exists owner', owned (owner ++ owner') (run_op rps burst idle o s).2 /\
    forall k p, (run_op rps burst idle o s).1 = RGet k p -> (owner ++ owner') !! p = Some k.
Proof.
  intros [Hlen Hown]. destruct o as [key now|p now|now]; cbn [run_op].
  - unfold get_limiter. destruct (entries s !! key) as [e|] eqn:Hk.
    + exists []. rewrite app_nil_r. cbn. split; [split; [done|]|].
      * intros k e'. cbn. rewrite lookup_insert. case_decide; [|apply Hown].
        intros [= <-]. subst k. cbn. by apply Hown.
      * intros k p [= <- <-]. by apply Hown.
    + exists [key]. cbn. split; [split|].
      * cbn. rewrite !length_app. cbn. lia.
      * intros k e'. cbn. rewrite lookup_insert. case_decide.
        -- intros [= <-]. subst k. cbn. by rewrite <- Hlen, lookup_app_r, Nat.sub_diag.
        -- intros Hl%Hown. by apply lookup_app_l_Some.
      * intros k p [= <- <-]. by rewrite <- Hlen, lookup_app_r, Nat.sub_diag.
  - exists []. rewrite app_nil_r. unfold allow.
    destruct (allocated s !! p) as [l|]; [|by split].
    destruct (Allow now l) as [ok l']. split; [|done]. split; cbn; [|done].
    by rewrite length_insert.
  - exists []. rewrite app_nil_r. split; [|done]. split; [done|]. cbn.
    intros k e [Hk _]%map_lookup_filter_Some. by apply Hown.
Qed.

Lemma run_ops_owned rps burst idle os owner s :
  owned owner s ->
  exists owner', owned (owner ++ owner') (run_ops rps burst idle os s).2 /\
    forall k p, In (RGet k p) (run_ops rps burst idle os s).1 -> (owner ++ owner') !! p = Some k.
Proof.
  revert owner s. induction os as [|o os IH]; intros owner s Hown.
  - exists []. rewrite app_nil_r. by split.
  - destruct (run_op_owned rps burst idle o owner s Hown) as (o1 & H1 & Hg1). cbn [run_ops].
    destruct (run_op rps burst idle o s) as [r s1]. cbn in H1, Hg1.
    destruct (IH _ _ H1) as (o2 & H2 & Hg2).
    destruct (run_ops rps burst idle os s1) as [rs s2]. cbn in H2, Hg2.
    exists (o1 ++ o2). rewrite app_assoc. split; [done|]. intros k p [->|Hin]; [|by apply Hg2].
    apply lookup_app_l_Some. by apply Hg1.
Qed.

(** Limiters are never shared: however the look-ups, the [Allow] calls
    and the cleanup ticks of concurrent requests interleave, two requests that
    were given the same limiter have the same key. *)
Theorem limiters_not_shared rps burst idle os k1 k2 p :
  In (RGet k1 p) (run_ops rps burst idle os no_limiters).1 ->
  In (RGet k2 p) (run_ops rps burst idle os no_limiters).1 -> k1 = k2.
Proof.
  intros H1 H2.
  destruct (run_ops_owned rps burst idle os [] no_limiters) as (owner & _ & Hget).
  { split; [done|]. intros *. cbn. by rewrite lookup_empty. }
  apply Hget in H1, H2. congruence.
Qed.

(** *** Keys do not influence each other *)

(** Two maps that agree on a key: same time stamp, same bucket. *)
Definition agree (key : string) (s1 s2 : limiters L) : Prop :=
  match entries s1 !! key, entries s2 !! key with
  | None, None => True
  | Some e1, Some e2 =>
      lastSeen e1 = lastSeen e2 /\
      exists l, allocated s1 !! limiter e1 = Some l /\ allocated s2 !! limiter e2 = Some l
  | _, _ => False
  end.

(** Serving one request, in the map. *)
Lemma serve_req rps burst idle key seen now s :
  entries_wf s ->
  exists l ok l',
    (match entries s !! key with
     | Some e => allocated s !! limiter e = Some l
     | None => l = NewLimiter rps burst
     end) /\ Allow now l = (ok, l') /\
    (serve_event rps burst idle (Req key seen now) s).1 = [(key, ok)] /\
    entries_wf (serve_event rps burst idle (Req key seen now) s).2 /\
    (exists e, entries (serve_event rps burst idle (Req key seen now) s).2 !! key = Some e /\
       lastSeen e = seen /\
       allocated (serve_event rps burst idle (Req key seen now) s).2 !! limiter e = Some l') /\
    (forall k e, k <> key -> entries s !! k = Some e ->
       entries (serve_event rps burst idle (Req key seen now) s).2 !! k = Some e /\
       allocated (serve_event rps burst idle (Req key seen now) s).2 !! limiter e =
         allocated s !! limiter e) /\
    (forall k, k <> key -> entries s !! k = None ->
       entries (serve_event rps burst idle (Req key seen now) s).2 !! k = None).
Proof.
  intros Hwf. pose proof (entries_wf_get rps burst key seen s Hwf) as Hwf1.
  pose proof Hwf as [Hlt Hinj]. cbn [serve_event]. unfold get_limiter in *.
  destruct (entries s !! key) as [e|] eqn:Hk.
  - destruct (lookup_lt_is_Some_2 (allocated s) (limiter e) (Hlt _ _ Hk)) as [l Hl].
    pose proof (entries_wf_allow (limiter e) now _ Hwf1) as Hwf2.
    unfold allow in *. cbn [allocated entries fst snd] in *. rewrite Hl in *.
    destruct (Allow now l) as [ok l'] eqn:Ha. exists l, ok, l'. cbn. split_and!; try done.
    + exists (mkEntry (limiter e) seen). rewrite lookup_insert_eq. cbn.
      by rewrite list_lookup_insert_eq by (by eapply lookup_lt_Some).
    + intros k e' Hne Hke. rewrite lookup_insert_ne by done. split; [done|].
      apply list_lookup_insert_ne. intros He. apply Hne. symmetry. by eapply Hinj.
    + intros k Hne Hke. by rewrite lookup_insert_ne.
  - pose proof (entries_wf_allow (length (allocated s)) now _ Hwf1) as Hwf2.
    unfold allow in *. cbn [allocated entries fst snd] in *.
    rewrite lookup_app_r, Nat.sub_diag in * by done. cbn [lookup list_lookup] in *.
    destruct (Allow now (NewLimiter rps burst)) as [ok l'] eqn:Ha.
    exists (NewLimiter rps burst), ok, l'. cbn. split_and!; try done.
    + exists (mkEntry (length (allocated s)) seen). rewrite lookup_insert_eq. cbn.
      rewrite list_lookup_insert_eq; [done|]. rewrite length_app. cbn. lia.
    + intros k e' Hne Hke. rewrite lookup_insert_ne by done. split; [done|].
      apply Hlt in Hke. rewrite list_lookup_insert_ne by lia. by rewrite lookup_app_l.
    + intros k Hne Hke. by rewrite lookup_insert_ne.
Qed.

Lemma agree_other rps burst idle key k seen now s1 s2 :
  entries_wf s1 -> key <> k -> agree key s1 s2 ->
  agree key (serve_event rps burst idle (Req k seen now) s1).2 s2.
Proof.
  intros Hwf Hne Hag.
  destruct (serve_req rps burst idle k seen now s1 Hwf)
    as (l & ok & l' & _ & _ & _ & _ & _ & Hsome & Hnone).
  unfold agree in *. destruct (entries s1 !! key) as [e1|] eqn:Hk.
  - destruct (Hsome key e1 Hne Hk) as [-> ->]. done.
  - by rewrite (Hnone key Hne Hk).
Qed.

Lemma agree_same rps burst idle key seen now s1 s2 :
  entries_wf s1 -> entries_wf s2 -> agree key s1 s2 ->
  let r1 := serve_event rps burst idle (Req key seen now) s1 in
  let r2 := serve_event rps burst idle (Req key seen now) s2 in
  r1.1 = r2.1 /\ agree key r1.2 r2.2.
Proof.
  intros Hwf1 Hwf2 Hag r1 r2.
  destruct (serve_req rps burst idle key seen now s1 Hwf1)
    as (l1 & ok1 & l1' & Hl1 & Ha1 & Hr1 & _ & (e1 & He1 & Hs1 & Hb1) & _).
  destruct (serve_req rps burst idle key seen now s2 Hwf2)
    as (l2 & ok2 & l2' & Hl2 & Ha2 & Hr2 & _ & (e2 & He2 & Hs2 & Hb2) & _).
  assert (l1 = l2) as ->.
  { unfold agree in Hag. destruct (entries s1 !! key), (entries s2 !! key); try done; [|congruence].
    destruct Hag as (_ & l & ? & ?). congruence. }
  assert (ok1 = ok2) as -> by congruence. assert (l1' = l2') as -> by congruence.
  subst r1 r2. split; [congruence|]. unfold agree. rewrite He1, He2. split; [congruence|]. eauto.
Qed.

Lemma agree_tick rps burst idle key now s1 s2 :
  agree key s1 s2 ->
  agree key (serve_event rps burst idle (Tick now) s1).2 (serve_event rps burst idle (Tick now) s2).2.
Proof.
  unfold agree. cbn. intros Hag. rewrite !map_lookup_filter.
  destruct (entries s1 !! key) as [e1|], (entries s2 !! key) as [e2|]; cbn; try done.
  destruct Hag as (Hs & l & H1 & H2). rewrite Hs. case_guard; cbn; [|done]. by eauto.
Qed.

(** C27.  Keys are independent: with any other traffic in between, the
    decisions on one key's requests are those of a limiter that sees this
    key's requests and the cleanup ticks only. *)
Theorem keys_independent rps burst idle key es :
  List.filter (fun d => String.eqb d.1 key) (serve_events rps burst idle es no_limiters).1 =
  (serve_events rps burst idle (List.filter (concerns key) es) no_limiters).1.
Proof.
  assert (forall s1 s2, entries_wf s1 -> entries_wf s2 -> agree key s1 s2 ->
    List.filter (fun d => String.eqb d.1 key) (serve_events rps burst idle es s1).1 =
    (serve_events rps burst idle (List.filter (concerns key) es) s2).1) as Hgen.
  2:{ apply Hgen; [apply entries_wf_no..|]. unfold agree. cbn. by rewrite lookup_empty. }
  induction es as [|e es IH]; intros s1 s2 Hwf1 Hwf2 Hag; [done|].
  destruct e as [k seen now|now]; cbn [List.filter concerns].
  - destruct (serve_req rps burst idle k seen now s1 Hwf1)
      as (l1 & ok1 & l1' & _ & _ & Hr1 & Hw1 & _).
    destruct (String.eqb_spec k key) as [->|Hne].
    + destruct (agree_same rps burst idle key seen now s1 s2 Hwf1 Hwf2 Hag) as [Heq Hag'].
      destruct (serve_req rps burst idle key seen now s2 Hwf2)
        as (l2 & ok2 & l2' & _ & _ & Hr2 & Hw2 & _).
      cbn [serve_events].
      destruct (serve_event rps burst idle (Req key seen now) s1) as [r1 s1'].
      destruct (serve_event rps burst idle (Req key seen now) s2) as [r2 s2'].
      cbn [fst snd] in *. specialize (IH _ _ Hw1 Hw2 Hag').
      destruct (serve_events _ _ _ es s1'), (serve_events _ _ _ _ s2'). cbn [fst] in *.
      subst r2. rewrite List.filter_app, IH, Hr1. cbn. by rewrite String.eqb_refl.
    + pose proof (agree_other rps burst idle key k seen now s1 s2 Hwf1 ltac:(done) Hag) as Hag'.
      cbn [serve_events].
      destruct (serve_event rps burst idle (Req k seen now) s1) as [r1 s1'].
      cbn [fst snd] in *. specialize (IH _ _ Hw1 Hwf2 Hag').
      destruct (serve_events _ _ _ es s1'). cbn [fst] in *.
      rewrite List.filter_app, Hr1. cbn. by rewrite (proj2 (String.eqb_neq k key)) by done.
  - pose proof (agree_tick rps burst idle key now s1 s2 Hag) as Hag'. cbn [serve_events].
    specialize (IH _ _ (entries_wf_cleanup idle now s1 Hwf1)
      (entries_wf_cleanup idle now s2 Hwf2) Hag').
    cbn [serve_event fst snd] in *.
    destruct (serve_events _ _ _ es _), (serve_events _ _ _ _ (cleanup idle now s2)). done.
Qed.
(** Operations that leave an entry in place: no other look-up of the key, and
    ticks that find it recent enough. *)
Definition leaves (key : string) (seen idle : Z) (o : op) : Prop :=
  match o with
  | OGet k _ => k <> key
  | OAllow _ _ => True
  | OClean now => (now key - seen <= idle)%Z
  end.

Lemma run_ops_leaves rps burst idle key e os s :
  Forall (leaves key (lastSeen e) idle) os -> entries s !! key = Some e ->
  entries (run_ops rps burst idle os s).2 !! key = Some e.
Proof.
  intros Hall. revert s. induction Hall as [|o os Ho _ IH]; intros s He; [done|].
  cbn [run_ops]. specialize (IH (run_op rps burst idle o s).2).
  destruct (run_op rps burst idle o s) as [r s1] eqn:Ho1. cbn [snd] in IH.
  destruct (run_ops rps burst idle os s1) as [rs s2]. cbn [snd] in *. apply IH.
  destruct o as [k now|p now|now]; cbn in *.
  - unfold get_limiter in Ho1. destruct (entries s !! k); simplify_eq; cbn;
      by rewrite lookup_insert_ne.
  - unfold allow in Ho1. destruct (allocated s !! p); [|by simplify_eq].
    destruct (Allow now _). by simplify_eq.
  - simplify_eq. cbn. apply map_lookup_filter_Some. by split.
Qed.

(** Only idle limiters are evicted: between two requests of one key, if
    no cleanup tick reads a clock more than [IdleTimeout] past the first, the
    second gets the same limiter, whatever the other clients do. *)
Theorem limiter_kept rps burst idle key t1 t2 os s :
  Forall (leaves key t1 idle) os ->
  let '(p, s1) := get_limiter rps burst key t1 s in
  (get_limiter rps burst key t2 (run_ops rps burst idle os s1).2).1 = p.
Proof.
  intros Hall. pose proof (get_limiter_entry rps burst key t1 s) as He.
  destruct (get_limiter rps burst key t1 s) as [p s1]. cbn [fst snd] in He.
  apply (run_ops_leaves rps burst idle key (mkEntry p t1) os s1 Hall) in He.
  unfold get_limiter. by rewrite He.
Qed.
End Isolation.

(** ** Witnesses *)

Section Witnesses.
#[local] Existing Instance ascii_tables.

(** A bucket that never refills: it holds [burst] requests. *)
#[local] Instance counting : RateLib Z := {|
  NewLimiter _ burst := burst;
  Allow _ n := if (0 <? n)%Z then (true, (n - 1)%Z) else (false, n);
|}.

#[local] Instance just_limiters : HasLimiters Z (limiters Z) := {|
  get_limiters w := w; set_limiters s _ := s;
  get_set_limiters s w := eq_refl; set_set_limiters s s' w := eq_refl |}.

Definition limited_state (served : limiters Z) : St string (limiters Z) :=
  mkSt (newContext None sample_request (otherPeer (Some "[::1]:4433") []) (reading [])) []
    (mkEnv [] (fun n => Z.of_nat n) 0 served).

Definition accept : HandlerFunc string (limiters Z) := Send 200 None.

Lemma RateLimit_step_witness :
  exists ok s,
    serve_event (5 # 2) 2 (10 * Minute)
      (Req "::1" 0 1) no_limiters = ([("::1", ok)], s) /\
    RateLimit (L := Z) (mkRateLimitConfig (5 # 2) 0 None 0 0) accept
      (limited_state no_limiters) =
      if ok then accept (set_world (limited_state no_limiters) s 2)
      else Error StatusTooManyRequests "rate limit exceeded" []
             (set_world (limited_state no_limiters) s 2).
Proof.
  exact (RateLimit_step (L := Z) (mkRateLimitConfig (5 # 2) 0 None 0 0) accept
    (limited_state no_limiters) "::1" eq_refl).
Defined.

(** Two clients, with a tick in between. *)
Definition busy : list op :=
  [OGet "a" 0; OGet "b" 1; OAllow 0 2; OClean (fun _ => 5%Z); OGet "a" 6; OAllow 1 7].

Lemma limiters_not_shared_witness : "b" = "b".
Proof.
  apply (limiters_not_shared (1 # 1) 1 10 busy "b" "b" 1).
  - vm_compute. tauto.
  - vm_compute. tauto.
Defined.

Lemma limiter_kept_witness :
  (get_limiter (1 # 1) 1 "a" 6 (run_ops (1 # 1) 1 10 [OGet "b" 1; OClean (fun _ => 5%Z)]
     (get_limiter (1 # 1) 1 "a" 0 no_limiters).2).2).1 = 0%nat.
Proof.
  apply (limiter_kept (1 # 1) 1 10 "a" 0 6 [OGet "b" 1; OClean (fun _ => 5%Z)] no_limiters).
  repeat constructor; [discriminate|]. cbn. lia.
Defined.
End Witnesses.
