(* ===== verification/Lifecycle.v ===== *)
(** * Listeners, connections and shutdown (framework/app.go)

    The goroutines of a running application and the [WaitGroup] they share, as
    a transition system.  Each goroutine of the source is a constructor of
    [goroutine] with a program counter; [gstep] runs it to its next visible
    action, given what the network answers ([input]).  The QUIC and HTTP/3
    packages only produce inputs: connections, sessions, streams, errors.
    What a stream goroutine does on its stream is [dispatchStream] of App.v;
    here it is running, then closing its stream, then leaving the group. *)

From S2P Require Import Prelude GoStd NetURL Wire Validation Reqctx Reply Router App.
From stdpp Require Import relations.

Local Open Scope string_scope.
Local Open Scope list_scope.

(** ** Goroutines *)

(** [ListenNative]: before [quic.ListenAddr]; after it, before the listener is
    announced; in the accept loop. *)
Inductive listen_pc := LStart | LOpen | LAccept.

(** [HandleNativeConn]: not yet in the group; in the accept loop; after
    [wg.Add(1)] for a stream and before its goroutine; in the deferred
    [CloseWithError]; in the deferred [wg.Done]. *)
Inductive conn_pc := CStart | CAccept | CSpawn | CClose | CDone.

(** The body of a stream's goroutine: in [dispatchStream], then the deferred
    [s.Close] and [wg.Done]. *)
Inductive stream_pc := SRun | SClose | SDone.

(** The [/wt] handler: upgrading, then between [wg.Add(1)] and its [go]. *)
Inductive upgrade_pc := UStart | USpawn.

(** [handleWebTransportSession], and the [wg.Done] its caller defers. *)
Inductive session_pc := WAccept | WSpawn | WDone.

Inductive goroutine :=
  | GListenNative (pc : listen_pc)
  | GWatch                           (* <-ctx.Done(); listener.Close() *)
  | GConn (pc : conn_pc)
  | GStream (pc : stream_pc)
  | GListenWT (serving : bool)
  | GUpgrade (pc : upgrade_pc)
  | GSession (pc : session_pc)
  | GListenAddr (waiting : bool) (wt : bool)
  | GShutdown.

(** What the outside world answers to a goroutine. *)
Inductive input :=
  | Accepted             (* a listener, connection, session or stream *)
  | Failed (e : error).

(** ** Shared state *)

Record globals := mkGlobals {
  wg : Z;
  cancelled : bool;                     (* ctx is done *)
  listening : bool;                     (* the native listener is open *)
  errCh : list (option error);          (* results sent by the listeners *)
  listen_result : option (option error);  (* what ListenAddr returned *)
  shutdown_returned : bool;
}.

Definition wg_Add (n : Z) (s : globals) : globals :=
  mkGlobals (wg s + n) (cancelled s) (listening s) (errCh s) (listen_result s)
    (shutdown_returned s).
Definition wg_Done (s : globals) : globals := wg_Add (-1) s.
Definition set_listening (b : bool) (s : globals) : globals :=
  mkGlobals (wg s) (cancelled s) b (errCh s) (listen_result s) (shutdown_returned s).
Definition cancel_ctx (s : globals) : globals :=
  mkGlobals (wg s) true (listening s) (errCh s) (listen_result s) (shutdown_returned s).
Definition send_errCh (r : option error) (s : globals) : globals :=
  mkGlobals (wg s) (cancelled s) (listening s) (errCh s ++ [r]) (listen_result s)
    (shutdown_returned s).

(** ** The steps of each goroutine

    [None] is blocked; otherwise the new shared state and the goroutines that
    take the place of this one: itself if it goes on, and those it starts. *)
Abbreviation gresult := (option (globals * list goroutine)).

(** The protocols offered by the native listener. *)
Definition native_protos (protos : list string) : list string := prepend "qf/1" protos.

Definition ListenNative (i : input) (pc : listen_pc) (s : globals) : gresult :=
  match pc, i with
  | LStart, Failed e => Some (send_errCh (Some (wrapError "quicframe: ListenNative: " e)) s, [])
  | LStart, Accepted => Some (set_listening true s, [GListenNative LOpen])
  | LOpen, _ => Some (s, [GListenNative LAccept; GWatch])
  | LAccept, Accepted =>
      if listening s then Some (s, [GListenNative LAccept; GConn CStart]) else None
  | LAccept, Failed e =>
      let r := if cancelled s then None else Some (wrapError "quicframe: accept: " e) in
      Some (send_errCh r (set_listening false s), [])
  end.

Definition watch (s : globals) : gresult :=
  if cancelled s then Some (set_listening false s, []) else None.

Definition HandleNativeConn (i : input) (pc : conn_pc) (s : globals) : gresult :=
  match pc with
  | CStart => Some (wg_Add 1 s, [GConn CAccept])
  | CAccept =>
      match i with
      | Failed _ => Some (s, [GConn CClose])
      | Accepted => Some (wg_Add 1 s, [GConn CSpawn])
      end
  | CSpawn => Some (s, [GConn CAccept; GStream SRun])
  | CClose => Some (s, [GConn CDone])
  | CDone => Some (wg_Done s, [])
  end.

Definition stream_goroutine (pc : stream_pc) (s : globals) : gresult :=
  match pc with
  | SRun => Some (s, [GStream SClose])
  | SClose => Some (s, [GStream SDone])
  | SDone => Some (wg_Done s, [])
  end.

(** [wtSrv.ListenAndServe] calls the [/wt] handler, or fails. *)
Definition ListenWebTransport (i : input) (serving : bool) (s : globals) : gresult :=
  match serving, i with
  | false, _ => Some (s, [GListenWT true])
  | true, Accepted => Some (s, [GListenWT true; GUpgrade UStart])
  | true, Failed e => Some (send_errCh (Some e) s, [])
  end.

Definition upgrade_handler (i : input) (pc : upgrade_pc) (s : globals) : gresult :=
  match pc, i with
  | UStart, Failed _ => Some (s, [])
  | UStart, Accepted => Some (wg_Add 1 s, [GUpgrade USpawn])
  | USpawn, _ => Some (s, [GSession WAccept])
  end.

Definition handleWebTransportSession (i : input) (pc : session_pc) (s : globals) : gresult :=
  match pc with
  | WAccept =>
      match i with
      | Failed _ => Some (s, [GSession WDone])
      | Accepted => Some (wg_Add 1 s, [GSession WSpawn])
      end
  | WSpawn => Some (s, [GSession WAccept; GStream SRun])
  | WDone => Some (wg_Done s, [])
  end.

(** It starts the listeners, then returns the first result on the channel. *)
Definition ListenAddr (waiting wt : bool) (s : globals) : gresult :=
  if waiting then
    match errCh s with
    | [] => None
    | r :: rs =>
        Some (mkGlobals (wg s) (cancelled s) (listening s) rs (Some r) (shutdown_returned s), [])
    end
  else
    Some (s, GListenAddr true wt :: GListenNative LStart ::
               (if wt then [GListenWT false] else [])).

(** [wg.Wait] returns when the counter is zero. *)
Definition Shutdown (s : globals) : gresult :=
  if (wg s =? 0)%Z
  then Some (mkGlobals (wg s) (cancelled s) (listening s) (errCh s) (listen_result s) true, [])
  else None.

(** [ListenWithPKI], as it stands. *)
Definition ListenWithPKI : option error := None.

Definition gstep (i : input) (g : goroutine) (s : globals) : gresult :=
  match g with
  | GListenNative pc => ListenNative i pc s
  | GWatch => watch s
  | GConn pc => HandleNativeConn i pc s
  | GStream pc => stream_goroutine pc s
  | GListenWT serving => ListenWebTransport i serving s
  | GUpgrade pc => upgrade_handler i pc s
  | GSession pc => handleWebTransportSession i pc s
  | GListenAddr waiting wt => ListenAddr waiting wt s
  | GShutdown => Shutdown s
  end.

(** ** The system *)

Definition system : Type := globals * list goroutine.

Inductive lstep : system -> system -> Prop :=
  | ls_run i s s' l1 g l2 gs :
      gstep i g s = Some (s', gs) -> lstep (s, l1 ++ g :: l2) (s', l1 ++ gs ++ l2)
  | ls_cancel s gs : lstep (s, gs) (cancel_ctx s, gs)
  | ls_shutdown s gs : lstep (s, gs) (s, gs ++ [GShutdown])
  | ls_conn s gs : lstep (s, gs) (s, gs ++ [GConn CStart]).  (* a caller of HandleNativeConn *)

Definition no_globals : globals := mkGlobals 0 false false [] None false.

(** A process that has called [ListenAddr]. *)
Definition launched (wt : bool) : system := (no_globals, [GListenAddr false wt]).

(** How much of the counter a goroutine accounts for. *)
Definition weight (g : goroutine) : Z :=
  match g with
  | GConn CStart => 0
  | GConn CSpawn => 2
  | GConn _ => 1
  | GStream _ => 1
  | GUpgrade USpawn => 1
  | GSession WSpawn => 2
  | GSession _ => 1
  | _ => 0
  end.

Definition counted (gs : list goroutine) : Z := foldr (fun g n => (weight g + n)%Z) 0%Z gs.

(** A goroutine inside a stream handler, a connection loop or a session loop. *)
Definition in_flight (g : goroutine) : Prop :=
  match g with
  | GStream _ | GSession _ => True
  | GConn CStart => False
  | GConn _ => True
  | _ => False
  end.

(** ** Lemmas *)

Lemma counted_app l1 l2 : counted (l1 ++ l2) = (counted l1 + counted l2)%Z.
Proof. unfold counted. induction l1 as [|g l1 IH]; [done|]. cbn. rewrite IH. lia. Qed.

Lemma weight_nonneg g : (0 <= weight g)%Z.
Proof. by destruct g as [| |[]|[]| |[]|[]| |]. Qed.

Lemma counted_nonneg gs : (0 <= counted gs)%Z.
Proof.
  induction gs as [|g gs IH]; [done|]. cbn. pose proof (weight_nonneg g). unfold counted in IH. lia.
Qed.

(** A step of a goroutine moves the counter as it moves the weights. *)
Lemma gstep_weight i g s s' gs :
  gstep i g s = Some (s', gs) -> (wg s' - wg s = counted gs - weight g)%Z.
Proof.
  destruct g as [[]| |[]|[]|[]|[]|[]|[] []|], i; cbn; unfold watch, Shutdown; intros Hs;
    repeat case_match; simplify_eq; cbn; lia.
Qed.
