(* ===== verification/LifecycleProps.v ===== *)
(** * Properties of the lifecycle

    The wait group counts what is in flight, so [Shutdown] returns only when
    nothing is; but a connection that was accepted and whose goroutine has not
    run yet is not counted. *)

From S2P Require Import Prelude GoStd NetURL Wire Validation Reqctx Reply Router App Lifecycle.
From stdpp Require Import relations.

Local Open Scope string_scope.
Local Open Scope list_scope.

Lemma lstep_counts c c' : wg c.1 = counted c.2 -> lstep c c' -> wg c'.1 = counted c'.2.
Proof.
  intros Hc Hstep. destruct Hstep as [i s s' l1 g l2 gs Hg|s gs|s gs|s gs]; cbn in *.
  - pose proof (gstep_weight _ _ _ _ _ Hg). rewrite !counted_app in *. cbn in Hc.
    unfold counted in *. cbn in *. lia.
  - done.
  - rewrite counted_app, Hc. cbn. by rewrite Z.add_0_r.
  - rewrite counted_app, Hc. cbn. by rewrite Z.add_0_r.
Qed.

Lemma reachable_counts wt c : rtc lstep (launched wt) c -> wg c.1 = counted c.2.
Proof.
  intros Hr. assert (wg (launched wt).1 = counted (launched wt).2) as Hi by done. revert Hi.
  induction Hr as [|c1 c2 c3 Hstep _ IH]; [done|]. intros Hi. apply IH. by eapply lstep_counts.
Qed.

Lemma counted_zero gs : counted gs = 0%Z <-> Forall (fun g => weight g = 0%Z) gs.
Proof.
  induction gs as [|g gs IH]; [by split; [constructor|]|].
  pose proof (weight_nonneg g). pose proof (counted_nonneg gs). rewrite Forall_cons, <- IH.
  unfold counted in *. cbn. lia.
Qed.

Lemma weight_zero g : weight g = 0%Z <-> ~ in_flight g /\ g <> GUpgrade USpawn.
Proof. by destruct g as [| |[]|[]| |[]|[]| |]; cbn; split; intros; destruct_and?; try split; auto; try lia. Qed.

(** C25.  The wait group is exact in every reachable state: its counter, which
    is never negative, is the number of connection loops, session loops and
    stream handlers in flight, counting those about to start; so [Shutdown]
    can return if and only if there are none, and one idle open connection is
    enough to hold it. *)
Theorem waitgroup_exact wt s gs :
  rtc lstep (launched wt) (s, gs) ->
  wg s = counted gs /\ (0 <= wg s)%Z /\
  (is_Some (Shutdown s) <-> Forall (fun g => ~ in_flight g /\ g <> GUpgrade USpawn) gs).
Proof.
  intros Hr. pose proof (reachable_counts wt _ Hr) as Hc. cbn [fst snd] in Hc.
  split_and!; [done|rewrite Hc; apply counted_nonneg|].
  assert (Forall (fun g => ~ in_flight g /\ g <> GUpgrade USpawn) gs <-> counted gs = 0%Z) as ->.
  { rewrite counted_zero, !Forall_forall. by setoid_rewrite weight_zero. }
  rewrite <- Hc. unfold Shutdown. destruct (Z.eqb_spec (wg s) 0) as [He|Hne].
  - by split; [|eexists].
  - split; [by intros [? ?]|done].
Qed.

(** One step of the goroutine after [l1]. *)
Lemma run_one i s s' l1 g l2 gs c :
  gstep i g s = Some (s', gs) -> rtc lstep (s', l1 ++ gs ++ l2) c ->
  rtc lstep (s, l1 ++ g :: l2) c.
Proof. intros Hg. apply rtc_l. by apply (ls_run i). Qed.

(** A server that accepted a connection whose goroutine has not started. *)
Definition accepting : list goroutine := [GListenNative LAccept; GConn CStart; GWatch].

Lemma accepting_reachable :
  rtc lstep (launched false) (set_listening true no_globals, GListenAddr true false :: accepting).
Proof.
  apply (run_one Accepted _ no_globals [] _ [] [GListenAddr true false; GListenNative LStart]);
    [done|].
  apply (run_one Accepted _ (set_listening true no_globals) [GListenAddr true false] _ []
    [GListenNative LOpen]); [done|].
  apply (run_one Accepted _ (set_listening true no_globals) [GListenAddr true false] _ []
    [GListenNative LAccept; GWatch]); [done|].
  apply (run_one Accepted _ (set_listening true no_globals) [GListenAddr true false] _ [GWatch]
    [GListenNative LAccept; GConn CStart]); [done|]. reflexivity.
Qed.

(** [wg.Add] runs inside the connection's goroutine, after the accept:
    there is a run in which [Shutdown] returns while an accepted connection is
    waiting to start, and that connection's streams are handled afterwards. *)
Theorem shutdown_race :
  exists s1 gs1 s2 gs2,
    rtc lstep (launched false) (s1, gs1) /\ shutdown_returned s1 = true /\
    rtc lstep (s1, gs1) (s2, gs2) /\ In (GStream SRun) gs2.
Proof.
  set (s1 := mkGlobals 0 false true [] None true).
  exists s1, (GListenAddr true false :: accepting),
    (wg_Add 1 (wg_Add 1 s1)),
    [GListenAddr true false; GListenNative LAccept; GConn CAccept; GStream SRun; GWatch].
  split_and!.
  - etrans; [apply accepting_reachable|].
    eapply rtc_l; [apply ls_shutdown|].
    apply (run_one Accepted _ s1 (GListenAddr true false :: accepting) GShutdown [] []); [done|].
    reflexivity.
  - done.
  - set (pre := [GListenAddr true false; GListenNative LAccept]).
    apply (run_one Accepted _ (wg_Add 1 s1) pre _ [GWatch] [GConn CAccept]); [done|].
    apply (run_one Accepted _ (wg_Add 1 (wg_Add 1 s1)) pre _ [GWatch] [GConn CSpawn]); [done|].
    apply (run_one Accepted _ (wg_Add 1 (wg_Add 1 s1)) pre _ [GWatch]
      [GConn CAccept; GStream SRun]); [done|]. reflexivity.
  - cbn. tauto.
Qed.

(** Cancelling the context ends [ListenAddr] with the native listener's nil,
    while the WebTransport listener goes on serving. *)
Lemma ListenAddr_leaves_webtransport :
  exists s gs, rtc lstep (launched true) (s, gs) /\
    listen_result s = Some None /\ In (GListenWT true) gs.
Proof.
  exists (mkGlobals 0 true false [] (Some None) false), [GWatch; GListenWT true]. split_and!.
  - apply (run_one Accepted _ no_globals [] _ []
      [GListenAddr true true; GListenNative LStart; GListenWT false]); [done|].
    apply (run_one Accepted _ (set_listening true no_globals) [GListenAddr true true] _
      [GListenWT false] [GListenNative LOpen]); [done|].
    apply (run_one Accepted _ (set_listening true no_globals) [GListenAddr true true] _
      [GListenWT false] [GListenNative LAccept; GWatch]); [done|].
    apply (run_one Accepted _ (set_listening true no_globals)
      [GListenAddr true true; GListenNative LAccept; GWatch] _ [] [GListenWT true]); [done|].
    eapply rtc_l; [apply ls_cancel|].
    apply (run_one (Failed EOF) _ (send_errCh None (set_listening false (cancel_ctx no_globals)))
      [GListenAddr true true] _ [GWatch; GListenWT true] []); [done|].
    apply (run_one Accepted _ (mkGlobals 0 true false [] (Some None) false) [] _
      [GWatch; GListenWT true] []); [done|]. reflexivity.
  - done.
  - cbn. tauto.
Qed.

Lemma waitgroup_exact_witness :
  ~ is_Some (Shutdown (wg_Add 1 (set_listening true no_globals))).
Proof.
  destruct (waitgroup_exact false (wg_Add 1 (set_listening true no_globals))
    [GListenAddr true false; GListenNative LAccept; GConn CAccept; GWatch]) as (_ & _ & Hiff).
  - etrans; [apply accepting_reachable|].
    apply (run_one Accepted _ (wg_Add 1 (set_listening true no_globals))
      [GListenAddr true false; GListenNative LAccept] _ [GWatch] [GConn CAccept]); [done|].
    reflexivity.
  - intros Hs. apply Hiff in Hs. rewrite Forall_forall in Hs.
    destruct (Hs (GConn CAccept)) as [Hno _]; [apply list_elem_of_In; cbn; tauto|].
    apply Hno. exact I.
Defined.
