(* ===== verification/Draining.v ===== *)
(** * Graceful shutdown (framework/app.go)

    Once the context is cancelled and the clients are gone, the goroutines of
    the server wind down: the native listener stops, every connection and
    session loop ends and runs its deferred calls, [ListenAddr] returns.  Two
    goroutines do not have to: nothing the context or the clients do ends the
    WebTransport listener, and a handler goes on for as long as it likes.  A
    [Shutdown] waits for the handlers and for nothing else. *)

From stdpp Require Import relations.
From S2P Require Import Prelude GoStd NetURL Wire Validation Reqctx Reply Router App Lifecycle LifecycleProps.

Local Open Scope list_scope.

(** The network has no connection, session, stream or upgrade request left to
    give, so a goroutine that waits for one is told so, or goes on waiting;
    what was asked of it before may succeed or fail. *)
Definition nothing_new (i : input) (g : goroutine) : Prop :=
  match g, i with
  | GListenNative LAccept, Accepted | GConn CAccept, Accepted
  | GSession WAccept, Accepted | GListenWT true, Accepted => False
  | _, _ => True
  end.

(** A step of [g] when the network has nothing more to give, and nobody
    cancels, shuts down or hands over a connection any more. *)
Inductive drain_by (g : goroutine) : system -> system -> Prop :=
  | drain_run i s s' l1 l2 gs :
      nothing_new i g -> gstep i g s = Some (s', gs) ->
      drain_by g (s, l1 ++ g :: l2) (s', l1 ++ gs ++ l2).

Definition drain (c c' : system) : Prop := exists g, drain_by g c c'.

(** The steps that need not come: that a handler returns, and that
    [wtSrv.ListenAndServe] fails. *)
Definition may_never (g : goroutine) : Prop := g = GStream SRun \/ g = GListenWT true.

(** Nothing is left to happen but such steps. *)
Definition settled (c : system) : Prop := forall g c', drain_by g c c' -> may_never g.

Lemma drain_lstep c c' : drain c c' -> lstep c c'.
Proof. intros [g Hd]. destruct Hd. by eapply ls_run. Qed.

(** ** It ends *)

(** The steps a goroutine and those it will start have left. *)
Definition steps_left (g : goroutine) : nat :=
  match g with
  | GListenNative LAccept | GWatch | GShutdown | GListenAddr true _ => 1
  | GConn CDone | GStream SDone | GListenWT true | GSession WDone => 1
  | GConn CClose | GStream SClose | GListenWT false | GSession WAccept => 2
  | GConn CAccept | GStream SRun | GUpgrade USpawn | GListenNative LOpen => 3
  | GConn CStart | GListenNative LStart | GUpgrade UStart => 4
  | GSession WSpawn => 6
  | GConn CSpawn => 7
  | GListenAddr false _ => 8
  end.

Lemma gstep_left i g s s' gs :
  nothing_new i g -> gstep i g s = Some (s', gs) -> sum_list_with steps_left gs < steps_left g.
Proof.
  destruct g as [[]| |[]|[]|[]|[]|[]|[] []|], i; cbn; unfold watch, ListenAddr, Shutdown;
    intros Hi E; try done; repeat case_match; simplify_eq/=; lia.
Qed.

Lemma drain_left c c' :
  drain c c' -> sum_list_with steps_left c'.2 < sum_list_with steps_left c.2.
Proof.
  intros [g Hd]. destruct Hd as [i s s' l1 l2 gs Hi Hg]. cbn. rewrite !sum_list_with_app. cbn.
  pose proof (gstep_left _ _ _ _ _ Hi Hg). lia.
Qed.

Lemma drain_ends c : sn drain c.
Proof.
  remember (sum_list_with steps_left c.2) as n eqn:E. revert c E.
  induction n as [n IH] using lt_wf_ind. intros c ->. constructor. intros c' Hd.
  eapply IH; [by apply drain_left|done].
Qed.

(** ** What is left *)

(** [ListenAddr] is called once; it has returned, or is running, and then a
    listener is at work or has left its result. *)
Definition starting (g : goroutine) : nat := match g with GListenAddr false _ => 1 | _ => 0 end.
Definition waiting (g : goroutine) : nat := match g with GListenAddr true _ => 1 | _ => 0 end.
Definition native (g : goroutine) : nat := match g with GListenNative _ => 1 | _ => 0 end.
Definition returned (s : globals) : nat := match listen_result s with Some _ => 1 | None => 0 end.

Definition listen_inv (c : system) : Prop :=
  sum_list_with starting c.2 + sum_list_with waiting c.2 + returned c.1 = 1 /\
  sum_list_with waiting c.2 <= sum_list_with native c.2 + length (errCh c.1).

Lemma gstep_listen i g s s' gs :
  gstep i g s = Some (s', gs) -> (0 < waiting g -> returned s = 0) ->
  sum_list_with starting gs + sum_list_with waiting gs + returned s' =
    starting g + waiting g + returned s /\
  sum_list_with waiting gs + native g + length (errCh s) <=
    waiting g + sum_list_with native gs + length (errCh s').
Proof.
  unfold returned.
  destruct g as [[]| |[]|[]|[]|[]|[]|[] []|], i; cbn; unfold watch, ListenAddr, Shutdown;
    intros E Hw; repeat case_match; simplify_eq/=; rewrite ?length_app; cbn in *;
    repeat case_match; simplify_eq/=; lia.
Qed.

Lemma listen_inv_step c c' : listen_inv c -> lstep c c' -> listen_inv c'.
Proof.
  unfold listen_inv. intros [H1 H2] Hst. destruct Hst as [i s s' l1 g l2 gs Hg|s gs|s gs|s gs]; cbn in *;
    rewrite ?sum_list_with_app in *; cbn in *; try (unfold returned in *; cbn in *; lia).
  destruct (gstep_listen _ _ _ _ _ Hg) as [? ?]; [lia|]. lia.
Qed.

Lemma listen_inv_reachable wt c : rtc lstep (launched wt) c -> listen_inv c.
Proof.
  intros Hr. assert (listen_inv (launched wt)) as Hi by (by split).
  induction Hr as [|c1 c2 c3 Hst _ IH]; [done|]. by apply IH, (listen_inv_step c1).
Qed.

(** The context stays cancelled, and a [Shutdown] that is gone has returned. *)
Lemma gstep_keeps i g s s' gs :
  gstep i g s = Some (s', gs) ->
  cancelled s' = cancelled s /\ (shutdown_returned s = true -> shutdown_returned s' = true) /\
  (g = GShutdown -> shutdown_returned s' = true).
Proof.
  destruct g as [[]| |[]|[]|[]|[]|[]|[] []|], i; cbn; unfold watch, ListenAddr, Shutdown;
    intros E; repeat case_match; simplify_eq/=; by auto.
Qed.

Definition shutting (c : system) : Prop := GShutdown ∈ c.2 \/ shutdown_returned c.1 = true.

Lemma drain_keeps c c' :
  drain c c' -> cancelled c.1 = true ->
  cancelled c'.1 = true /\ (shutting c -> shutting c').
Proof.
  unfold shutting. intros [g Hd]. destruct Hd as [i s s' l1 l2 gs _ Hg]. cbn. intros Hc.
  destruct (gstep_keeps _ _ _ _ _ Hg) as (-> & Hs & Hg'). split; [done|].
  intros [[Hin|[<-|Hin]%elem_of_cons]%elem_of_app|Hs']; auto; left; set_solver.
Qed.

(** What a goroutine that can make no step waits for. *)
Lemma stuck_goroutine g s :
  cancelled s = true -> (forall i, nothing_new i g -> gstep i g s = None) ->
  (exists wt, g = GListenAddr true wt /\ errCh s = []) \/ (g = GShutdown /\ wg s <> 0%Z).
Proof.
  intros Hc Hstuck. specialize (Hstuck (Failed EOF)). revert Hstuck.
  destruct g as [[]| |[]|[]|[]|[]|[]|[] wt|]; cbn; unfold watch, ListenAddr, Shutdown;
    rewrite ?Hc; intros E; specialize (E I); repeat case_match; simplify_eq/=; eauto.
  right. split; [done|]. by apply Z.eqb_neq.
Qed.

Lemma drain_or_stuck g s l1 l2 :
  (exists c', drain_by g (s, l1 ++ g :: l2) c') \/ (forall i, nothing_new i g -> gstep i g s = None).
Proof.
  assert (forall i, nothing_new i g -> (exists c', drain_by g (s, l1 ++ g :: l2) c') \/
    gstep i g s = None) as Hi.
  { intros i Hi. destruct (gstep i g s) as [[s' gs]|] eqn:E; [|by right]. left. eexists. by eapply drain_run. }
  destruct (gstep (Failed EOF) g s) as [[s' gs]|] eqn:E.
  - left. eexists. eapply drain_run; [|exact E]. by destruct g as [[]| |[]| |[]| |[]| |].
  - right. intros i Hn. revert E. destruct g as [[]| |[]|[]|[]|[]|[]|[] []|], i; done.
Qed.

(** What a settled server is made of. *)
Definition left_over (s : globals) (g : goroutine) : Prop :=
  may_never g \/ (g = GShutdown /\ wg s <> 0%Z).

Lemma settled_left wt s gs :
  rtc lstep (launched wt) (s, gs) -> cancelled s = true -> settled (s, gs) ->
  Forall (left_over s) gs.
Proof.
  intros Hr Hc Hset. unfold left_over.
  assert (forall g, g ∈ gs -> may_never g \/ (exists wt, g = GListenAddr true wt /\ errCh s = []) \/
    (g = GShutdown /\ wg s <> 0%Z)) as Hall.
  { intros g (l1 & l2 & ->)%list_elem_of_split.
    destruct (drain_or_stuck g s l1 l2) as [[c' Hd]|Hs]; [left; by eapply Hset|right].
    by apply stuck_goroutine. }
  apply Forall_forall. intros g Hg. destruct (Hall g Hg) as [?|[(w & -> & He)|?]]; [tauto| |tauto].
  exfalso. destruct (listen_inv_reachable wt _ Hr) as [_ Hw]. cbn in Hw. rewrite He in Hw.
  assert (sum_list_with native gs = 0) as Hn.
  { clear -Hall. induction gs as [|g gs IH]; [done|]. cbn.
    rewrite IH by (intros ? ?; apply Hall; by right).
    destruct (Hall g) as [[->| ->]|[(? & -> & _)|[-> _]]]; [by left|done..]. }
  apply list_elem_of_split in Hg as (l1 & l2 & ->). rewrite Hn, sum_list_with_app in Hw. cbn in Hw. lia.
Qed.

(** The handlers still running. *)
Definition running_handlers (gs : list goroutine) : nat :=
  sum_list_with (fun g => match g with GStream SRun => 1 | _ => 0 end) gs.

Lemma running_handlers_in gs : 0 < running_handlers gs -> GStream SRun ∈ gs.
Proof.
  unfold running_handlers. induction gs as [|g gs IH]; cbn; [lia|]. intros Hh.
  destruct g as [| | |[]| | | | |]; try (right; by apply IH). by left.
Qed.

Lemma left_over_counted s gs : Forall (left_over s) gs -> counted gs = Z.of_nat (running_handlers gs).
Proof.
  induction 1 as [|g gs Hg _ IH]; [done|]. unfold running_handlers, counted in *. cbn in *. rewrite IH.
  destruct Hg as [[->| ->]|[-> _]]; cbn; lia.
Qed.

(** A settled server: [ListenAddr] has returned, and the wait group is at the
    number of handlers still running. *)
Lemma settled_results wt s gs :
  rtc lstep (launched wt) (s, gs) -> cancelled s = true -> settled (s, gs) ->
  is_Some (listen_result s) /\ wg s = Z.of_nat (running_handlers gs) /\
  (wg s = 0%Z -> forall g, g ∈ gs -> g = GListenWT true).
Proof.
  intros Hr Hc Hset. pose proof (settled_left wt _ _ Hr Hc Hset) as Hl.
  pose proof (reachable_counts wt _ Hr) as Hwg. cbn [fst snd] in Hwg.
  rewrite (left_over_counted _ _ Hl) in Hwg. split_and!; [|done|].
  - destruct (listen_inv_reachable wt _ Hr) as [Hi _]. cbn in Hi. unfold returned in Hi.
    assert (sum_list_with starting gs = 0 /\ sum_list_with waiting gs = 0) as [Hs Hw].
    { clear -Hl. induction Hl as [|g gs Hg _ [IH1 IH2]]; [done|]. cbn. rewrite IH1, IH2.
      by destruct Hg as [[->| ->]|[-> _]]. }
    rewrite Hs, Hw in Hi. destruct (listen_result s); [by eexists|done].
  - intros Hz g Hg. rewrite Forall_forall in Hl. destruct (Hl g Hg) as [[->| ->]|[-> Hne]]; [|done|done].
    exfalso. apply list_elem_of_split in Hg as (l1 & l2 & ->).
    unfold running_handlers in Hwg. rewrite sum_list_with_app in Hwg. cbn in Hwg. lia.
Qed.

(** C23. Graceful shutdown.  From anything the server can get to, once the
    context is cancelled, the clients are gone and nobody asks for more, only
    finitely many steps are left, whichever handlers return and whether or not
    the WebTransport listener ever fails.  When no other step is left,
    [ListenAddr] has returned; no connection and no session is open, and what
    is left of the server is its WebTransport listener, the handlers that have
    not returned, for which the wait group stands, and the [Shutdown]s that
    wait for them.  If all handlers have returned a [Shutdown] that was called
    has returned too. *)
Theorem graceful_shutdown wt c :
  rtc lstep (launched wt) c -> cancelled c.1 = true ->
  sn drain c /\
  forall c', rtc drain c c' -> settled c' ->
    is_Some (listen_result c'.1) /\
    Forall (left_over c'.1) c'.2 /\
    wg c'.1 = Z.of_nat (running_handlers c'.2) /\
    (running_handlers c'.2 = 0 ->
       (forall g, g ∈ c'.2 -> g = GListenWT true) /\
       (GShutdown ∈ c.2 -> shutdown_returned c'.1 = true)).
Proof.
  intros Hr Hc. split; [apply drain_ends|]. intros c' Hd Hset.
  assert (rtc lstep (launched wt) c') as Hr'.
  { etrans; [done|]. eapply rtc_subrel; [apply drain_lstep|done]. }
  assert (cancelled c'.1 = true /\ (shutting c -> shutting c')) as [Hc' Hsh].
  { clear -Hd Hc. induction Hd as [c|c1 c2 c3 Hst _ IH]; [done|].
    destruct (drain_keeps _ _ Hst Hc) as [Hc2 H12]. destruct (IH Hc2) as [? ?]. auto. }
  destruct c' as [s' gs']. cbn [fst snd] in *.
  destruct (settled_results wt _ _ Hr' Hc' Hset) as (Hres & Hwg & Hidle).
  split_and!; [done|by eapply settled_left|done|]. intros Hn.
  assert (forall g, g ∈ gs' -> g = GListenWT true) as Hwt by (apply Hidle; lia).
  split; [done|]. intros Hin. destruct (Hsh (or_introl Hin)) as [Hx|Hx]; [by apply Hwt in Hx|done].
Qed.

(** ** Witness: a handler that does not return

    The signal comes while a stream is being served and [main] is in
    [Shutdown]. *)

Definition cancelled_serving : system :=
  (cancel_ctx (wg_Add 1 (wg_Add 1 (set_listening true no_globals))),
   [GListenAddr true false; GListenNative LAccept; GConn CAccept; GStream SRun; GWatch; GShutdown]).

Definition left_waiting : system :=
  (mkGlobals 1 true false [] (Some None) false, [GStream SRun; GShutdown]).

Lemma cancelled_serving_reachable : rtc lstep (launched false) cancelled_serving.
Proof.
  etrans; [exact accepting_reachable|].
  set (pre := [GListenAddr true false; GListenNative LAccept]).
  apply (run_one Accepted _ (wg_Add 1 (set_listening true no_globals)) pre _ [GWatch] [GConn CAccept]); [done|].
  apply (run_one Accepted _ (wg_Add 1 (wg_Add 1 (set_listening true no_globals))) pre _ [GWatch]
    [GConn CSpawn]); [done|].
  apply (run_one Accepted _ (wg_Add 1 (wg_Add 1 (set_listening true no_globals))) pre _ [GWatch]
    [GConn CAccept; GStream SRun]); [done|].
  eapply rtc_l; [apply ls_cancel|]. apply rtc_once. apply ls_shutdown.
Qed.

Lemma drain_one i s s' l1 g l2 gs c :
  nothing_new i g -> gstep i g s = Some (s', gs) -> rtc drain (s', l1 ++ gs ++ l2) c ->
  rtc drain (s, l1 ++ g :: l2) c.
Proof. intros Hi Hg. apply rtc_l. exists g. by eapply drain_run. Qed.

Lemma drains_to_waiting : rtc drain cancelled_serving left_waiting.
Proof.
  set (la := GListenAddr true false). set (tl := [GStream SRun; GWatch; GShutdown]).
  apply (drain_one (Failed EOF) _ (mkGlobals 2 true false [None] None false) [la] _ (GConn CAccept :: tl) []);
    [done..|]. cbn [app].
  apply (drain_one (Failed EOF) _ (mkGlobals 2 true false [] (Some None) false) [] _ (GConn CAccept :: tl) []);
    [done..|]. cbn [app].
  apply (drain_one (Failed EOF) _ (mkGlobals 2 true false [] (Some None) false) [] _ tl [GConn CClose]); [done..|].
  apply (drain_one (Failed EOF) _ (mkGlobals 2 true false [] (Some None) false) [] _ tl [GConn CDone]); [done..|].
  apply (drain_one (Failed EOF) _ (mkGlobals 1 true false [] (Some None) false) [] _ tl []); [done..|].
  apply (drain_one (Failed EOF) _ (mkGlobals 1 true false [] (Some None) false) [GStream SRun] _ [GShutdown] []);
    [done..|]. apply rtc_refl.
Qed.

Lemma waiting_settled : settled left_waiting.
Proof.
  intros g c' Hd. remember left_waiting as c eqn:E. destruct Hd as [i s s' l1 l2 gs _ Hg].
  injection E as -> E. assert (g ∈ [GStream SRun; GShutdown]) as Hin by (rewrite <- E; set_solver).
  apply elem_of_cons in Hin as [->|Hin]; [by left|]. apply list_elem_of_singleton in Hin as ->. done.
Qed.

Lemma graceful_shutdown_witness :
  sn drain cancelled_serving /\ is_Some (listen_result left_waiting.1) /\
  Forall (left_over left_waiting.1) left_waiting.2.
Proof.
  destruct (graceful_shutdown false cancelled_serving cancelled_serving_reachable eq_refl) as [Hsn Hset].
  split; [exact Hsn|].
  destruct (Hset left_waiting drains_to_waiting waiting_settled) as (Hres & Hleft & _).
  split; [exact Hres|exact Hleft].
Defined.
