(* ===== verification/Client.v ===== *)
(** * The client (framework/client.go)

    One request of a [Client]: open a stream, write the request frame, read
    one frame back and turn it into a response or an error.  The other end of
    the stream is the argument [peer]: what it sends back, and how its side
    ends, given the bytes the client wrote.  [dispatcher] is the peer that runs
    [dispatchStream].  The certificate watcher is a step per tick. *)

From S2P Require Import Prelude GoStd NetURL Wire Validation Reqctx Reply Router App.

Local Open Scope string_scope.
Local Open Scope list_scope.

(** ** Dialling *)

(** The configuration of [Dial] when none is given. *)
Definition Dial_config (quicCfg : option QuicConfig) : QuicConfig :=
  default (mkQuicConfig 0 0 (30 * Second) (5 * Minute) true) quicCfg.

Definition Dial_protos : list string := ["qf/1"].

Record Client := mkClient {
  client_conn : option QuicConn;
  client_quicCfg : option QuicConfig;
  client_hashes : list string;
}.

(** [Conn], and [Close] with [quic.Conn]'s method; a client over a nil
    connection panics. *)
Definition Client_Conn (c : Client) : option QuicConn := client_conn c.

Definition Client_Close (CloseWithError : QuicConn -> Z -> string -> option error) (c : Client)
    : outcome (option error) :=
  match client_conn c with
  | None => Panics nil_dereference
  | Some conn => Returns (CloseWithError conn 0%Z "client closed")
  end.

(** [quic.DialAddr], given the configuration and the protocols. *)
Definition Dial (DialAddr : list string -> QuicConfig -> result QuicConn)
    (quicCfg : option QuicConfig) : result Client :=
  let cfg := Dial_config quicCfg in
  match DialAddr Dial_protos cfg with
  | Err e => Err (wrapError "quicframe: dial: " e)
  | Ok conn => Ok (mkClient (Some conn) (Some cfg) [])
  end.

Definition NewClientFromConn (conn : option QuicConn) : Client := mkClient conn None [].

(** ** One request *)

Section Request.
Context {V : Type} `{Msgpack V} `{Boxed bytes V}.

(** The body: absent, a byte slice as it is, or a value to marshal. *)
Definition request_body (body : option V) : result (option bytes) :=
  match body with
  | None => Ok None
  | Some v =>
      match unbox v with
      | Some b => Ok (Some b)
      | None =>
          match Marshal (PValue (Some v)) with
          | Err e => Err (wrapError "quicframe: marshal body: " e)
          | Ok b => Ok (Some b)
          end
      end
  end.

(** The reply frame.  A nil [*ErrorFrame] is dereferenced when the error frame
    does not decode. *)
Definition read_reply (s : stream) : outcome (result Response) :=
  match ReadFrame s with
  | (Err e, _) => Returns (Err e)
  | (Ok (ft, data), _) =>
      if decide (ft = FrameTypeError) then
        match DecodeError data with
        | Err _ => Panics nil_dereference
        | Ok errFrame =>
            Returns (Err (errorString ("quicframe: server error " +:+
              fmt_d (ef_Code errFrame) +:+ ": " +:+ ef_Message errFrame)))
        end
      else if negb (bool_decide (ft = FrameTypeResponse)) then
        Returns (Err (errorString ("unexpected frame type: " +:+ fmt_d (byte_to_Z ft))))
      else Returns (DecodeResponse data)
  end.

(** [conn.OpenStreamSync] gave [opened]; [now] is [time.Now().UnixNano()]. *)
Definition RequestWithHeaders (peer : bytes -> list bytes * error) (opened : result stream)
    (now : Z) (method path : string) (headers : Headers) (body : option V)
    : outcome (result Response) :=
  match opened with
  | Err e => Returns (Err e)
  | Ok s =>
      match request_body body with
      | Err e => Returns (Err e)
      | Ok b =>
          let req := mkRequest ("req-" +:+ fmt_d now) method path headers b false in
          match WriteFrame s FrameTypeRequest (PRequest req) with
          | (Some e, _) => Returns (Err e)
          | (None, s) =>
              let '(chunks, err) := peer (out s) in
              read_reply (mkStream chunks err (out s) (room s) (out_err s))
          end
      end
  end.

Definition Client_Request (peer : bytes -> list bytes * error) (opened : result stream)
    (now : Z) (method path : string) (body : option V) : outcome (result Response) :=
  RequestWithHeaders peer opened now method path None body.
End Request.

(** The server at the other end, on a healthy stream that ends after its reply. *)
Definition dispatcher {V W : Type} `{Unicode} `{URLAuthority} `{Msgpack V}
    (a : App V W) (gc : GoContext) (conn : remoteAddrProvider) (e : Env W) (sent : bytes)
    : list bytes * error :=
  let '(_, s, _) := dispatchStream a gc conn (mkStream [sent] EOF [] None EOF) e in
  ([out s], EOF).

(** ** The certificate watcher *)

Section Watch.
(** [sha256.Sum256]. *)
Variable Sum256 : bytes -> bytes.

Definition hex_byte (b : byte) : string :=
  let n := Z.to_nat (byte_to_Z b) in
  String (hex_digit (n / 16)) (String (hex_digit (n mod 16)) "").

(** [hex.EncodeToString]. *)
Definition EncodeToString (b : bytes) : string := foldr (fun x s => hex_byte x +:+ s) "" b.

(** [os.ReadFile] gave [file]. *)
Definition calculateCertHash (file : result bytes) : result string :=
  match file with
  | Err e => Err e
  | Ok data => Ok (EncodeToString (Sum256 data))
  end.

(** One tick: the client and [lastHash]. *)
Definition watch_tick (file : result bytes) (st : Client * string) : Client * string :=
  let '(c, lastHash) := st in
  match calculateCertHash file with
  | Err _ => (c, lastHash)
  | Ok hash =>
      if negb (String.eqb hash lastHash)
      then (mkClient (client_conn c) (client_quicCfg c) [hash], hash)
      else (c, lastHash)
  end.

(** The watcher's goroutine, over what the file was at each tick. *)
Definition WatchCertFile (c : Client) (files : list (result bytes)) : Client :=
  (foldl (fun st file => watch_tick file st) (c, "") files).1.
End Watch.
