(* ===== verification/ClientProps.v ===== *)
(** * Properties of the client

    A client and the dispatcher at the two ends of a stream, and the one reply
    that makes the client panic. *)

From S2P Require Import Prelude GoStd NetURL Wire RefCodec Validation Reqctx Reply Router App Client.

Local Open Scope string_scope.
Local Open Scope list_scope.

Section EndToEnd.
Context {V W : Type} `{Unicode} `{URLAuthority} `{MsgpackLaws V} `{Boxed bytes V}.

(** The dispatcher on the bytes of one request frame. *)
Lemma dispatcher_request (a : App V W) gc conn e req enc :
  Marshal (PRequest req : payload V) = Ok enc -> fits enc ->
  exists s', out s' = [] /\ room s' = None /\
    dispatcher a gc conn e (frame_bytes FrameTypeRequest enc) =
      ([out (ctx_stream (st_ctx (serve a (norm_request req)
          (mkSt (request_ctx a gc conn (norm_request req) s') [] e)).2))], EOF).
Proof.
  intros HM Hf. set (s := mkStream [frame_bytes FrameTypeRequest enc] EOF [] None EOF).
  destruct (ReadFrame_parse s) as (Hr & _). unfold pending in Hr.
  cbn [s in_chunks in_err concat] in Hr. rewrite parse_frame_bytes in Hr by done.
  destruct (ReadFrame s) as [res s'] eqn:Hs. cbn [fst] in Hr. subst res.
  apply ReadFrame_out in Hs as Hout. destruct Hout as [Hout Hroom].
  exists s'. split_and!; [done|done|]. unfold dispatcher. fold s.
  rewrite (dispatch_request _ _ _ _ _ _ (norm_request req) _ Hs).
  - by destruct (serve _ _ _) as [r st].
  - unfold DecodeRequest. by rewrite (unmarshal_request _ _ HM).
Qed.

(** The client on a reply of one frame. *)
Lemma read_reply_frame ft enc s :
  fits enc -> pending s = frame_bytes ft enc ->
  exists s', ReadFrame s = (Ok (ft, enc), s').
Proof.
  intros Hf Hp. destruct (ReadFrame_parse s) as (Hr & _).
  rewrite Hp, <- (app_nil_r (frame_bytes ft enc)), parse_frame_bytes in Hr by done.
  destruct (ReadFrame s) as [res s']. cbn in Hr. subst res. by exists s'.
Qed.

(** The client's outcome when the chain puts one frame on the stream. *)
Lemma client_reply (a : App V W) gc conn e s now method path headers (body : option V) b enc :
  let req := mkRequest ("req-" +:+ fmt_d now) method path headers b false in
  let chain := applyMiddleware (resolve a (norm_request req)).1 (middleware a) in
  request_body body = Ok b -> out s = [] -> room s = None ->
  Marshal (PRequest req : payload V) = Ok enc -> fits enc -> Forall Quiet (afterMiddleware a) ->
  exists s', out s' = [] /\ room s' = None /\
    forall ft encr st1,
      chain (mkSt (request_ctx a gc conn (norm_request req) s') [] e) = (Returns None, st1) ->
      out (ctx_stream (st_ctx st1)) = frame_bytes ft encr -> fits encr ->
      exists r s1, ReadFrame r = (Ok (ft, encr), s1) /\
        RequestWithHeaders (dispatcher a gc conn e) (Ok s) now method path headers body =
          read_reply (V := V) r.
Proof.
  intros req chain Hb Hout Hroom HM Hf Hq.
  destruct (dispatcher_request a gc conn e req enc HM Hf) as (s' & Hout' & Hroom' & Hdisp).
  exists s'. split_and!; [done|done|]. intros ft encr st1 Hchain Hst1 Hfr. unfold RequestWithHeaders.
  rewrite Hb. fold req. rewrite (WriteFrame_ok _ _ _ _ HM) by auto with qf. cbn [out set_out].
  rewrite Hout. cbn [app]. rewrite Hdisp, (serve_no_error _ _ _ _ Hq Hchain), Hst1.
  destruct (read_reply_frame ft encr (mkStream [frame_bytes ft encr] EOF
    (frame_bytes FrameTypeRequest enc) None (out_err s)) Hfr) as [s1 Hs1].
  { unfold pending. cbn [in_chunks concat]. by rewrite app_nil_r. }
  eexists _, s1. split; [exact Hs1|reflexivity].
Qed.

(** C3.  A request and its reply, end to end: the client's request reaches the
    dispatcher as sent; when the chain it selects replies with a body, the
    client gets that status and body under the request's ID; when it replies
    with an error, the client gets the error's code and message. *)
Theorem client_server (a : App V W) gc conn e s now method path headers (body : option V) b enc :
  let req := mkRequest ("req-" +:+ fmt_d now) method path headers b false in
  let chain := applyMiddleware (resolve a (norm_request req)).1 (middleware a) in
  let result := RequestWithHeaders (dispatcher a gc conn e) (Ok s) now method path headers body in
  request_body body = Ok b -> out s = [] -> room s = None ->
  Marshal (PRequest req : payload V) = Ok enc -> fits enc ->
  Forall Quiet (afterMiddleware a) ->
  (forall status rbody encr,
     (forall st, chain st = Send status rbody st) ->
     let resp := mkResponse (req_ID req) status (Some ∅) rbody false in
     Marshal (PResponse resp : payload V) = Ok encr -> fits encr ->
     result = Returns (Ok (norm_response resp))) /\
  (forall code message ence,
     (forall st, chain st = Error code message [] st) ->
     Marshal (PError (mkErrorFrame (req_ID req) code message None) : payload V) = Ok ence ->
     fits ence ->
     result = Returns (Err (errorString ("quicframe: server error " +:+
       fmt_d code +:+ ": " +:+ message)))).
Proof.
  intros req chain result Hb Hout Hroom HM Hf Hq.
  destruct (client_reply a gc conn e s now method path headers body b enc Hb Hout Hroom HM Hf Hq)
    as (s' & Hout' & Hroom' & Hreply).
  set (st0 := mkSt (request_ctx a gc conn (norm_request req) s') [] e) in *.
  split.
  - intros status rbody encr Hchain resp HMr Hfr.
    destruct (Hreply FrameTypeResponse encr (after_send st0
      (set_out s' (frame_bytes FrameTypeResponse encr) None) [])) as (r & s1 & Hr & Hres);
      [|done|done|].
    + rewrite Hchain. unfold Send. rewrite writeResponse_run. cbn.
      rewrite (left_id_L ∅ (∪)). fold (RequestID (st_ctx st0)).
      rewrite (WriteFrame_ok _ _ _ encr HMr) by auto with qf. by rewrite Hout'.
    + subst result. rewrite Hres. unfold read_reply. rewrite Hr. cbn. unfold DecodeResponse.
      by rewrite (unmarshal_response _ _ HMr).
  - intros code message ence Hchain HMe Hfe.
    destruct (Hreply FrameTypeError ence (after_send st0
      (set_out s' (frame_bytes FrameTypeError ence) None) [])) as (r & s1 & Hr & Hres);
      [|done|done|].
    + rewrite Hchain, Error_run. cbn.
      rewrite (WriteFrame_ok _ _ _ ence HMe) by auto with qf. by rewrite Hout'.
    + subst result. rewrite Hres. unfold read_reply. rewrite Hr. cbn. unfold DecodeError.
      by rewrite (unmarshal_error _ _ HMe).
Qed.
End EndToEnd.

(** ** The panic *)

Section Panic.
Context {V : Type} `{Msgpack V} `{Boxed bytes V}.

(** C39.  The client panics on one reply only: once the request is written, it
    dereferences nil exactly when the peer's bytes start with a whole error
    frame whose payload does not decode; on anything else it returns. *)
Theorem client_panics_iff peer s now method path headers (body : option V) b enc :
  let req := mkRequest ("req-" +:+ fmt_d now) method path headers b false in
  let sent := out s ++ frame_bytes FrameTypeRequest enc in
  request_body body = Ok b -> room s = None ->
  Marshal (PRequest req : payload V) = Ok enc -> fits enc ->
  (exists p, RequestWithHeaders peer (Ok s) now method path headers body = Panics p) <->
  (exists data rest err, fits data /\
     concat (peer sent).1 = frame_bytes FrameTypeError data ++ rest /\
     DecodeError (V := V) data = Err err).
Proof.
  intros req sent Hb Hroom HM Hf. unfold RequestWithHeaders. rewrite Hb. fold req.
  rewrite (WriteFrame_ok _ _ _ _ HM) by auto with qf. cbn [out set_out room out_err].
  fold sent. destruct (peer sent) as [chunks err]. cbn [fst].
  set (r := mkStream chunks err sent None (out_err s)).
  destruct (ReadFrame_parse r) as (Hr & _). unfold pending in Hr. cbn [r in_chunks in_err] in Hr.
  unfold read_reply. split.
  - intros [p Hp]. destruct (ReadFrame r) as [[[ft data]|e] r']; [|done]. cbn [fst] in Hr.
    destruct (decide (ft = FrameTypeError)) as [->|]; [|by case_match].
    destruct (DecodeError data) as [ef|e] eqn:Hd; [done|].
    destruct (parse_frame err (concat chunks)) as [res rest] eqn:Hparse. cbn in Hr. subst res.
    apply parse_frame_length in Hparse as [Hfit Hc]. by exists data, rest, e.
  - intros (data & rest & e & Hfit & Hc & Hd). rewrite Hc, parse_frame_bytes in Hr by done.
    destruct (ReadFrame r) as [res r']. cbn in Hr. subst res. cbn. rewrite Hd. by eexists.
Qed.
End Panic.

(** ** Witnesses *)

Section Witnesses.
#[local] Existing Instance ascii_tables.
#[local] Instance no_authority : URLAuthority := {| authority_ok := fun _ => false |}.

(** A server with one good route and one that refuses. *)
Definition greet : HandlerFunc (iface unit) unit := Send 200 (Some [Byte.x2a]).
Definition refuse : HandlerFunc (iface unit) unit := Error 403 "forbidden" [].
Definition greeter : App (iface unit) unit := GET (GET New "/hello" greet) "/secret" refuse.

Definition server_env : Env unit := mkEnv [] (fun n => Z.of_nat n) 0 tt.
Definition client_peer : remoteAddrProvider := otherPeer None [].

Definition hello_request : Request :=
  mkRequest "req-7" "GET" "/hello" None (Some [Byte.x01]) false.

Lemma client_server_witness :
  RequestWithHeaders (dispatcher greeter Background client_peer server_env) (Ok (reading [])) 7
    "GET" "/hello" None (Some (IBytes (T := unit) [Byte.x01])) =
  Returns (Ok (mkResponse "req-7" 200 None (Some [Byte.x2a]) false)).
Proof.
  refine (proj1 (client_server greeter Background client_peer server_env (reading []) 7 "GET"
    "/hello" None (Some (IBytes (T := unit) [Byte.x01])) (Some [Byte.x01])
    (encoding (PRequest hello_request)) _ _ _ _ _ _) 200%Z (Some [Byte.x2a])
    (encoding (PResponse (mkResponse "req-7" 200 (Some ∅) (Some [Byte.x2a]) false))) _ _ _).
  - reflexivity.
  - reflexivity.
  - reflexivity.
  - reflexivity.
  - unfold fits. vm_compute. discriminate.
  - constructor.
  - reflexivity.
  - reflexivity.
  - unfold fits. vm_compute. discriminate.
Defined.

(** A peer that answers with an error frame of one stray byte. *)
Definition stray_reply : bytes := frame_bytes FrameTypeError [Byte.x09].

Lemma client_panics_iff_witness :
  exists p, RequestWithHeaders (fun _ => ([stray_reply], EOF)) (Ok (reading [])) 7
    "GET" "/hello" None (Some (IBytes (T := unit) [Byte.x01])) = Panics p.
Proof.
  apply (client_panics_iff (fun _ => ([stray_reply], EOF)) (reading []) 7 "GET" "/hello" None
    (Some (IBytes (T := unit) [Byte.x01])) (Some [Byte.x01]) (encoding (PRequest hello_request))).
  - reflexivity.
  - reflexivity.
  - reflexivity.
  - unfold fits. vm_compute. discriminate.
  - exists [Byte.x09], [], (wrapError "quicframe/protocol: decode error: "
      (errorString "unexpected payload")).
    split_and!; [unfold fits; vm_compute; discriminate|reflexivity|reflexivity].
Defined.
End Witnesses.
