(* ===== verification/Files.v ===== *)
(** * Paths and files (path/filepath, os)

    The lexical functions of [path/filepath] on Unix, and a disk of files and
    directories.  What can go wrong outside the model (permissions, a full
    disk, a missing parent of a written file) is the class [OS]: the fault each
    operation meets on a path, if any. *)

From S2P Require Import Prelude GoStd.
From Stdlib Require Import Ascii.

Local Open Scope string_scope.
Local Open Scope list_scope.

(** ** [path/filepath] *)

(** One element of a path, after those kept so far. *)
Definition clean_elem (rooted : bool) (kept : list string) (elem : string) : list string :=
  if String.eqb elem "" || String.eqb elem "." then kept
  else if String.eqb elem ".." then
    match last kept with
    | None => if rooted then kept else [".."]
    | Some prev =>
        if String.eqb prev ".." then kept ++ [".."] else take (length kept - 1) kept
    end
  else kept ++ [elem].

Definition Clean (path : string) : string :=
  if String.eqb path "" then "."
  else
    let rooted := HasPrefix path "/" in
    let kept := foldl (clean_elem rooted) [] (Split path "/") in
    if rooted then "/" +:+ Join kept "/"
    else match kept with
         | [] => "."
         | _ => Join kept "/"
         end.

Definition Base (path : string) : string :=
  if String.eqb path "" then "."
  else
    let name := default "" (last (Split (TrimRight path "/") "/")) in
    if String.eqb name "" then "/" else name.

Definition Dir (path : string) : string :=
  match LastIndexByte path "/" with
  | None => Clean ""
  | Some i => Clean (String.substring 0 (S i) path)
  end.

(** [filepath.Join]. *)
Fixpoint FilepathJoin (elems : list string) : string :=
  match elems with
  | [] => ""
  | e :: es => if String.eqb e "" then FilepathJoin es else Clean (Join elems "/")
  end.

(** ** The disk *)

Record disk := mkDisk {
  files : gmap string bytes;
  dirs : gset string;
}.

(** A fault of [MkdirAll] may leave the directories it made before it, one of
    [WriteFile] a truncated file. *)
Class OS := {
  stat_fault : string -> option error;
  read_fault : string -> option error;
  mkdir_fault : string -> option (gset string * error);
  write_fault : string -> option (option bytes * error);
  stat_fault_exists p e : stat_fault p = Some e -> Is_ErrNotExist e = false;
}.

(** The directory and its ancestors. *)
Definition ancestors (path : string) : list string :=
  let elems := Split path "/" in
  map (fun n => Join (take n elems) "/") (seq 1 (length elems)).

Section Operations.
Context `{OS}.

Definition Stat (d : disk) (path : string) : option error :=
  match stat_fault path with
  | Some e => Some (wrapError ("stat " +:+ path +:+ ": ") e)
  | None =>
      if bool_decide (path ∈ dom (files d) \/ path ∈ dirs d) then None
      else Some (wrapError ("stat " +:+ path +:+ ": ") ENOENT)
  end.

Definition ReadFile (d : disk) (path : string) : result bytes :=
  match read_fault path with
  | Some e => Err (wrapError ("open " +:+ path +:+ ": ") e)
  | None =>
      match files d !! path with
      | Some b => Ok b
      | None =>
          if bool_decide (path ∈ dirs d) then Err (wrapError ("read " +:+ path +:+ ": ") EISDIR)
          else Err (wrapError ("open " +:+ path +:+ ": ") ENOENT)
      end
  end.

Definition MkdirAll (d : disk) (path : string) : option error * disk :=
  match mkdir_fault path with
  | Some (made, e) =>
      (Some (wrapError ("mkdir " +:+ path +:+ ": ") e), mkDisk (files d) (made ∪ dirs d))
  | None =>
      if bool_decide (Exists (fun p => p ∈ dom (files d)) (ancestors path))
      then (Some (wrapError ("mkdir " +:+ path +:+ ": ") ENOTDIR), d)
      else (None, mkDisk (files d) (list_to_set (ancestors path) ∪ dirs d))
  end.

Definition WriteFile (d : disk) (path : string) (data : bytes) : option error * disk :=
  match write_fault path with
  | Some (part, e) =>
      (Some (wrapError ("open " +:+ path +:+ ": ") e),
       match part with
       | Some b => mkDisk (<[path := b]> (files d)) (dirs d)
       | None => d
       end)
  | None =>
      if bool_decide (path ∈ dirs d) then (Some (wrapError ("open " +:+ path +:+ ": ") EISDIR), d)
      else (None, mkDisk (<[path := data]> (files d)) (dirs d))
  end.
End Operations.

(** A machine on which nothing fails. *)
Lemma no_fault_exists (p : string) (e : error) : (None : option error) = Some e -> Is_ErrNotExist e = false.
Proof. done. Qed.

Definition reliable : OS := {|
  stat_fault _ := None; read_fault _ := None; mkdir_fault _ := None; write_fault _ := None;
  stat_fault_exists := no_fault_exists |}.

(** ** Lemmas *)

(** A file name: one element of a path that [Clean] keeps. *)
Definition file_name (x : string) : Prop :=
  plain "/" x /\ x <> "." /\ x <> "..".

Lemma clean_elem_name rooted kept x :
  file_name x -> clean_elem rooted kept x = kept ++ [x].
Proof.
  intros ([_ Hne] & Hdot & Hdots). unfold clean_elem.
  by rewrite !(proj2 (String.eqb_neq _ _)) by done.
Qed.

Lemma Split_Join_last l x :
  Contains "/" x = false -> last (Split (Join (l ++ [x]) "/") "/") = Some x.
Proof.
  intros Hx. destruct l as [|y l]; cbn [app].
  - by rewrite Split_no_sep.
  - change (y :: l ++ [x]) with ((y :: l) ++ [x]). rewrite Join_app by done.
    change ("/" +:+ Join [x] "/") with (String "/" x).
    by rewrite Split_app, (Split_no_sep x), last_snoc.
Qed.

(** The last element of a joined path is the file's name. *)
Lemma FilepathJoin_last dir x :
  file_name x -> last (Split (FilepathJoin [dir; x]) "/") = Some x.
Proof.
  intros Hx. pose proof Hx as ([Hc Hne] & _).
  assert (forall l s, Split s "/" = l ++ [x] -> s <> "" ->
    last (Split (Clean s) "/") = Some x) as HClean.
  { intros l s Hs Hs0. unfold Clean. destruct (String.eqb_spec s ""); [done|].
    rewrite Hs, foldl_app. cbn [foldl]. rewrite clean_elem_name by done.
    destruct (HasPrefix s "/").
    - change ("/" +:+ ?t) with (String "/" t). rewrite Split_cons_sep.
      pose proof (Split_Join_last (foldl (clean_elem true) [] l) x Hc) as E.
      by destruct (Split (Join _ _) _).
    - destruct (foldl (clean_elem false) [] l ++ [x]) eqn:E; [by destruct (foldl _ _ _)|].
      rewrite <- E. by apply Split_Join_last. }
  unfold FilepathJoin. destruct (String.eqb_spec dir "") as [->|Hd].
  - rewrite (proj2 (String.eqb_neq _ _)) by done. apply (HClean []); [by apply Split_no_sep|done].
  - cbn [Join]. apply (HClean (Split dir "/")); [|by destruct dir].
    change ("/" +:+ x) with (String "/" x). by rewrite Split_app, (Split_no_sep x).
Qed.

Lemma FilepathJoin_inj dir x y :
  file_name x -> file_name y -> FilepathJoin [dir; x] = FilepathJoin [dir; y] -> x = y.
Proof.
  intros Hx Hy E. pose proof (FilepathJoin_last dir x Hx) as Ex. rewrite E in Ex.
  rewrite FilepathJoin_last in Ex by done. by injection Ex.
Qed.

Section Facts.
Context `{OS}.

(** A file that [Stat] reports missing is not there. *)
Lemma Stat_not_exist d path e :
  Stat d path = Some e -> Is_ErrNotExist e = true -> files d !! path = None.
Proof.
  unfold Stat. destruct (stat_fault path) as [e'|] eqn:Hf.
  - intros [= <-] Hn. cbn in Hn. by rewrite (stat_fault_exists _ _ Hf) in Hn.
  - case_bool_decide as Hin; [done|]. intros _ _. apply not_elem_of_dom. tauto.
Qed.

Lemma MkdirAll_files d path : files (MkdirAll d path).2 = files d.
Proof.
  unfold MkdirAll. destruct (mkdir_fault path) as [[made e]|]; [done|]. by case_bool_decide.
Qed.

(** A write touches one file. *)
Lemma WriteFile_other d path data p :
  p <> path -> files (WriteFile d path data).2 !! p = files d !! p.
Proof.
  intros Hne. unfold WriteFile. destruct (write_fault path) as [[[b|] e]|]; cbn;
    [by rewrite lookup_insert_ne|done|].
  case_bool_decide; cbn; [done|]. by rewrite lookup_insert_ne.
Qed.

Lemma WriteFile_ok d path data :
  (WriteFile d path data).1 = None -> files (WriteFile d path data).2 = <[path := data]> (files d).
Proof.
  unfold WriteFile. destruct (write_fault path) as [[part e]|]; [done|]. by case_bool_decide.
Qed.

Lemma ReadFile_ok d path b : ReadFile d path = Ok b -> files d !! path = Some b.
Proof.
  unfold ReadFile. destruct (read_fault path); [done|].
  destruct (files d !! path); [by intros [= ->]|]. by case_bool_decide.
Qed.
End Facts.
