(* ===== verification/Cli.v ===== *)
(** * The command-line tool (internal/cli/cli.go)

    [Main] and [runNew] on a disk, with what they print as a list of lines.
    The contents of the generated files are the program's own text, line by
    line ([quoted] puts the double quotes). *)

From S2P Require Import Prelude GoStd Files.
From Stdlib Require Import Ascii.

Local Open Scope string_scope.
Local Open Scope list_scope.

(** ** Text *)

Definition newline : string := String (ascii_of_nat 10) "".
Definition tab : string := String (ascii_of_nat 9) "".
Definition quoted (s : string) : string :=
  String (ascii_of_nat 34) (s +:+ String (ascii_of_nat 34) "").

(** Lines, each ended by a newline; and the bytes of a text. *)
Definition unlines (l : list string) : string := foldr (fun x s => x +:+ newline +:+ s) "" l.
Definition text_bytes (s : string) : bytes := String.list_byte_of_string s.

Definition Version : string := "dev".

Definition help_lines : list string :=
  ["QuicFrame CLI"; ""; "Usage:"; "  quicframe <command>"; ""; "Commands:";
   "  new <dir>   Create a starter QuicFrame app"; "  version     Print CLI version";
   "  help        Show this help"; ""; "Install:";
   "  go install github.com/msmecodex/quicframe@latest"].

Definition starterGoMod (moduleName : string) : string :=
  unlines ["module " +:+ moduleName; ""; "go 1.24.0"].

Definition starterMainGo : string :=
  unlines
    ["package main"; "";
     "import (";
     tab +:+ quoted "context";
     tab +:+ quoted "log";
     "";
     tab +:+ "qf " +:+ quoted "github.com/msmecodex/quicframe/framework";
     tab +:+ quoted "github.com/msmecodex/quicframe/middleware";
     tab +:+ quoted "github.com/msmecodex/quicframe/tlsutil";
     ")"; "";
     "func main() {";
     tab +:+ "app := qf.New()";
     tab +:+ "app.Use(";
     tab +:+ tab +:+ "middleware.Recovery(),";
     tab +:+ tab +:+ "middleware.Logger(),";
     tab +:+ ")";
     "";
     tab +:+ "app.GET(" +:+ quoted "/ping" +:+ ", func(c *qf.Context) error {";
     tab +:+ tab +:+ "return c.MsgPack(200, map[string]string{" +:+ quoted "pong" +:+ ": " +:+
       quoted "ok" +:+ "})";
     tab +:+ "})";
     "";
     tab +:+ "tlsCfg, err := tlsutil.LoadOrCreateSelfSigned(";
     tab +:+ tab +:+ quoted ".local/certs/localhost-cert.pem" +:+ ",";
     tab +:+ tab +:+ quoted ".local/certs/localhost-key.pem" +:+ ",";
     tab +:+ tab +:+ quoted "localhost" +:+ ",";
     tab +:+ tab +:+ quoted "127.0.0.1" +:+ ",";
     tab +:+ ")";
     tab +:+ "if err != nil {";
     tab +:+ tab +:+ "log.Fatal(err)";
     tab +:+ "}";
     "";
     tab +:+ "log.Println(" +:+ quoted "QuicFrame server listening on :4433 and :4434" +:+ ")";
     tab +:+ "if err := app.ListenAddr(context.Background(), " +:+ quoted ":4433" +:+ ", " +:+
       quoted ":4434" +:+ ", tlsCfg); err != nil {";
     tab +:+ tab +:+ "log.Fatal(err)";
     tab +:+ "}";
     "}"].

Definition starterGitIgnore : string := unlines [".local/"].

Definition backquoted (s : string) : string :=
  String (ascii_of_nat 96) (s +:+ String (ascii_of_nat 96) "").

Definition fence : string :=
  String (ascii_of_nat 96) (String (ascii_of_nat 96) (String (ascii_of_nat 96) "")).

Definition starterREADME (moduleName : string) : string :=
  unlines
    ["# " +:+ moduleName; ""; "Starter app generated by QuicFrame CLI."; ""; "## Run"; "";
     fence +:+ "bash"; "go mod tidy"; "go run .";
     fence; "";
     "## Endpoints"; "";
     "- Native QUIC: " +:+ backquoted ":4433";
     "- WebTransport: " +:+ backquoted ":4434" +:+ " at " +:+ backquoted "/wt";
     "- Health check: " +:+ backquoted "/ping"].

(** ** Module names *)

Definition is_word (a : ascii) : bool :=
  in_range "a" "z" a || in_range "0" "9" a.

(** One rune of the loop; what is neither a word character nor a dash, every
    non-ASCII rune included, is skipped. *)
Definition sanitize_rune (acc : string * bool) (r : ascii) : string * bool :=
  let '(b, prevDash) := acc in
  if is_word r then (b +:+ String r "", false)
  else if (r =? "-")%char || (r =? "_")%char then
    if negb prevDash && negb (String.eqb b "") then (b +:+ "-", true) else (b, prevDash)
  else (b, prevDash).

Definition sanitizeModuleName `{Unicode} (name : string) : string :=
  let name := ToLower (TrimSpace name) in
  if String.eqb name "." || String.eqb name "/" then ""
  else Trim (foldl sanitize_rune ("", false) (String.list_ascii_of_string name)).1 "-".

(** ** Commands *)

Section Commands.
Context `{Unicode} `{OS}.

Definition writeNewFile (d : disk) (path content : string) : option error * disk :=
  match Stat d path with
  | None => (Some (errorString (path +:+ " already exists")), d)
  | Some err =>
      if negb (Is_ErrNotExist err) then (Some err, d)
      else WriteFile d path (text_bytes content)
  end.

Definition created_lines (dest : string) : list string :=
  ["Created QuicFrame app in " +:+ dest; ""; "Next steps:"; "  cd " +:+ dest;
   "  go mod tidy"; "  go run ."].

(** The error, the disk, and the lines printed. *)
Abbreviation outcome_of := (option error * disk * list string)%type.

Definition runNew (d : disk) (args : list string) : outcome_of :=
  match args with
  | [] => (Some (errorString "missing destination directory: quicframe new <dir>"), d, [])
  | _ :: _ :: _ => (Some (errorString "too many arguments: quicframe new <dir>"), d, [])
  | [arg] =>
      let dest := Clean arg in
      let moduleName := sanitizeModuleName (Base dest) in
      if String.eqb moduleName "" then
        (Some (errorString ("could not derive a module name from " +:+ Quote arg)), d, [])
      else
        match MkdirAll d dest with
        | (Some err, d) => (Some err, d, [])
        | (None, d) =>
            match writeNewFile d (FilepathJoin [dest; "go.mod"]) (starterGoMod moduleName) with
            | (Some err, d) => (Some err, d, [])
            | (None, d) =>
                match writeNewFile d (FilepathJoin [dest; "main.go"]) starterMainGo with
                | (Some err, d) => (Some err, d, [])
                | (None, d) =>
                    match MkdirAll d (FilepathJoin [dest; ".local"; "certs"]) with
                    | (Some err, d) => (Some err, d, [])
                    | (None, d) =>
                        match writeNewFile d (FilepathJoin [dest; ".gitignore"])
                                starterGitIgnore with
                        | (Some err, d) => (Some err, d, [])
                        | (None, d) =>
                            match writeNewFile d (FilepathJoin [dest; "README.md"])
                                    (starterREADME moduleName) with
                            | (Some err, d) => (Some err, d, [])
                            | (None, d) => (None, d, created_lines dest)
                            end
                        end
                    end
                end
            end
        end
  end.

Definition Main (d : disk) (args : list string) : outcome_of :=
  match args with
  | [] => (None, d, help_lines)
  | cmd :: args =>
      if String.eqb cmd "help" || String.eqb cmd "-h" || String.eqb cmd "--help"
      then (None, d, help_lines)
      else if String.eqb cmd "version" || String.eqb cmd "-v" || String.eqb cmd "--version"
      then (None, d, [Version])
      else if String.eqb cmd "new" then runNew d args
      else (Some (errorString ("unknown command " +:+ Quote cmd)), d, [])
  end.

(** [main] of the two binaries: the exit status, the disk, and both outputs. *)
Definition cli_main (d : disk) (args : list string) : Z * disk * list string * list string :=
  let '(err, d, printed) := Main d args in
  match err with
  | Some e => (1%Z, d, printed, ["quicframe: " +:+ Error_string e])
  | None => (0%Z, d, printed, [])
  end.
End Commands.
