(* ===== verification/CliProps.v ===== *)
(** * Properties of the command-line tool

    The module name that [sanitizeModuleName] derives is well formed and a
    fixed point, and [runNew] neither loses a file nor reports success without
    having written the starter project. *)

From S2P Require Import Prelude GoStd Files Cli.
From Stdlib Require Import Ascii.

Local Open Scope string_scope.
Local Open Scope list_scope.

(** ** Characters of a string *)

Abbreviation chars := String.list_ascii_of_string.

Lemma chars_app s t : chars (s +:+ t) = chars s ++ chars t.
Proof. induction s as [|a s IH]; [done|]. cbn. by rewrite IH. Qed.

Lemma chars_inj s t : chars s = chars t -> s = t.
Proof.
  intros E. rewrite <- (String.string_of_list_ascii_of_string s), E.
  apply String.string_of_list_ascii_of_string.
Qed.

Lemma chars_rev_app s t : chars (String.rev_app s t) = reverse (chars s) ++ chars t.
Proof.
  revert t. induction s as [|a s IH]; intros t; [done|].
  cbn [String.rev_app chars]. rewrite IH, reverse_cons, <- app_assoc. done.
Qed.

Lemma chars_rev s : chars (String.rev s) = reverse (chars s).
Proof. unfold String.rev. rewrite chars_rev_app. apply app_nil_r. Qed.

Lemma rev_rev s : String.rev (String.rev s) = s.
Proof. apply chars_inj. by rewrite !chars_rev, reverse_involutive. Qed.

(** ** Module names *)

(** Lower-case words and digits, joined by single dashes. *)
Definition word (s : string) : Prop :=
  s <> "" /\ Forall (fun a => is_word a = true) (chars s).

Definition module_name (s : string) : Prop :=
  exists words, Forall word words /\ s = Join words "-".

Definition name_char (a : ascii) : Prop := is_word a = true \/ a = "-"%char.

Example sanitize_example :
  sanitizeModuleName (H := ascii_tables) " My_cool--App.v2- " = "my-cool-appv2".
Proof. reflexivity. Qed.

Lemma word_snoc w r : Forall (fun a => is_word a = true) (chars w) -> is_word r = true ->
  word (w +:+ String r "").
Proof.
  intros Hw Hr. split; [by destruct w|]. rewrite chars_app. apply Forall_app. by repeat constructor.
Qed.

Lemma word_plain w : word w -> plain "-" w.
Proof.
  intros [Hne Hw]. split; [|done]. clear Hne.
  induction w as [|a w IH]; [done|]. inversion Hw as [|? ? Ha Hw']; subst. cbn.
  rewrite IH by done. destruct (Ascii.eqb_spec a "-") as [->|]; done.
Qed.

(** The builder holds words joined by dashes, with a dash after the last one
    when [prevDash] is set. *)
Definition built (acc : string * bool) : Prop :=
  exists words, Forall word words /\
    acc.1 = Join words "-" +:+ (if acc.2 then "-" else "") /\
    (acc.2 = true -> words <> []).

Lemma sanitize_rune_built acc r : built acc -> built (sanitize_rune acc r).
Proof.
  destruct acc as [b pd]. intros (ws & Hws & Hb & Hpd). cbn in Hb, Hpd. unfold sanitize_rune.
  destruct (is_word r) eqn:Hr.
  - destruct pd.
    + exists (ws ++ [String r ""]). split_and!; [|cbn|done].
      * apply Forall_app. repeat constructor; by cbn.
      * rewrite Join_app, Hb by auto. by rewrite append_nil_r, append_assoc.
    + rewrite append_nil_r in Hb. destruct ws as [|w ws _] using rev_ind.
      * exists [String r ""]. subst b. split_and!; [|done|done]. by repeat constructor.
      * apply Forall_app in Hws as [Hws Hw]. inversion Hw as [|? ? [Hne Hcs] _]; subst.
        exists (ws ++ [w +:+ String r ""]). split_and!; [|cbn|done].
        -- apply Forall_app. repeat constructor; [done|by apply word_snoc..].
        -- rewrite append_nil_r. destruct ws as [|w0 ws]; [done|].
           rewrite !Join_app by done. by rewrite !append_assoc.
  - destruct ((r =? "-")%char || (r =? "_")%char); [|by exists ws].
    destruct pd; cbn; [by exists ws|].
    destruct (String.eqb_spec b "") as [->|Hne]; cbn; [by exists ws|].
    exists ws. rewrite append_nil_r in Hb. cbn. subst b. split_and!; [done..|]. intros _ ->. done.
Qed.

Lemma sanitize_built l acc : built acc -> built (foldl sanitize_rune acc l).
Proof.
  revert acc. induction l as [|r l IH]; intros acc Hacc; [done|].
  cbn. by apply IH, sanitize_rune_built.
Qed.

Lemma Trim_built acc : built acc -> exists words, Forall word words /\
  Trim acc.1 "-" = Join words "-".
Proof.
  intros (ws & Hws & -> & _). exists ws. split; [done|].
  transitivity (Trim (Join ws "-") "-").
  - rewrite <- (Trim_repeat "-" 0 (if acc.2 then 1 else 0) (Join ws "-")). by destruct acc.2.
  - apply (Trim_Join "-"). eapply Forall_impl; eauto using word_plain.
Qed.

Lemma fold_word w b pd : Forall (fun a => is_word a = true) (chars w) -> w <> "" ->
  foldl sanitize_rune (b, pd) (chars w) = (b +:+ w, false).
Proof.
  revert b pd. induction w as [|a w IH]; intros b pd Hw Hne; [done|].
  inversion Hw as [|? ? Ha Hw']; subst. cbn. rewrite Ha.
  destruct w as [|a' w]; [done|]. rewrite IH by done. by rewrite append_assoc.
Qed.

Lemma fold_words w ws b pd : Forall word (w :: ws) ->
  foldl sanitize_rune (b, pd) (chars (Join (w :: ws) "-")) = (b +:+ Join (w :: ws) "-", false).
Proof.
  revert w b pd. induction ws as [|w' ws IH]; intros w b pd Hws;
    inversion Hws as [|? ? [Hne Hw] Hws']; subst; [by apply fold_word|].
  rewrite (Join_cons w) by done. rewrite !chars_app, !foldl_app, fold_word by done.
  assert (foldl sanitize_rune (b +:+ w, false) (chars "-") = ((b +:+ w) +:+ "-", true)) as ->.
  { cbn. destruct (String.eqb_spec (b +:+ w) "") as [E|_]; [by destruct b, w|done]. }
  rewrite IH by done. by rewrite !append_assoc.
Qed.

Lemma chars_Join ws : Forall word ws -> Forall name_char (chars (Join ws "-")).
Proof.
  unfold name_char. induction 1 as [|w ws [_ Hw] Hws IH]; [constructor|].
  assert (Forall (fun a => is_word a = true \/ a = "-"%char) (chars w)) as Hw'
    by (eapply Forall_impl; eauto).
  destruct ws as [|w' ws]; [done|]. rewrite Join_cons, !chars_app by done.
  apply Forall_app; split; [done|]. constructor; [by right|done].
Qed.

(** No name character is a space, an upper-case letter or outside ASCII. *)
Lemma name_char_facts a : name_char a ->
  is_ascii a = true /\ ascii_space a = false /\ lower a = a.
Proof. destruct a as [[] [] [] [] [] [] [] []]; intros [H|H]; (done || by vm_compute in H). Qed.

Lemma ToLower_name `{Unicode} s : Forall name_char (chars s) -> ToLower s = s.
Proof.
  intros Hs. assert (ascii_only s = true /\ map_str lower s = s) as [Ha Hl].
  { induction s as [|a s IH]; [done|]. inversion Hs as [|? ? Hc Hs']; subst.
    apply name_char_facts in Hc as (Ha & _ & Hl). apply IH in Hs' as [Hs1 Hs2].
    cbn [ascii_only map_str]. by rewrite Ha, Hl, Hs1, Hs2. }
  unfold ToLower. by rewrite Ha.
Qed.

Lemma skip_space_name s : Forall name_char (chars s) -> skip_space s = (false, s).
Proof.
  destruct s as [|a s]; [done|]. inversion 1 as [|? ? Hc Hs']; subst.
  apply name_char_facts in Hc as (Ha & Hsp & _). cbn [skip_space]. by rewrite Ha, Hsp.
Qed.

Lemma TrimSpace_name `{Unicode} s : Forall name_char (chars s) -> TrimSpace s = s.
Proof.
  intros Hs. unfold TrimSpace. rewrite skip_space_name by done.
  rewrite skip_space_name; [apply rev_rev|]. rewrite chars_rev. by apply Forall_reverse.
Qed.

Lemma sanitize_name `{Unicode} ws :
  Forall word ws -> sanitizeModuleName (Join ws "-") = Join ws "-".
Proof.
  intros Hws. pose proof (chars_Join ws Hws) as Hcs. unfold sanitizeModuleName.
  rewrite TrimSpace_name, ToLower_name by done.
  destruct (String.eqb_spec (Join ws "-") ".") as [E|_].
  { rewrite E in Hcs. inversion Hcs as [|? ? [Hd|Hd] _]; done. }
  destruct (String.eqb_spec (Join ws "-") "/") as [E|_].
  { rewrite E in Hcs. inversion Hcs as [|? ? [Hd|Hd] _]; done. }
  cbn [orb]. destruct ws as [|w ws]; [done|]. rewrite fold_words by done. cbn [fst].
  apply (Trim_Join "-"). eapply Forall_impl; eauto using word_plain.
Qed.

(** C36. The derived module name is made of non-empty words of lower-case letters
    and digits joined by single dashes, whatever the directory is called, and
    deriving a name from it again gives it back. *)
Theorem sanitizeModuleName_spec `{Unicode} (name : string) :
  module_name (sanitizeModuleName name) /\
  sanitizeModuleName (sanitizeModuleName name) = sanitizeModuleName name.
Proof.
  assert (exists ws, Forall word ws /\ sanitizeModuleName name = Join ws "-") as (ws & Hws & E).
  { unfold sanitizeModuleName. case_match; [by exists []|].
    apply Trim_built, sanitize_built. by exists []. }
  split; [by exists ws|]. rewrite E. by apply sanitize_name.
Qed.

(** ** The generated project *)

Section RunNew.
Context `{Unicode} `{OS}.

Lemma writeNewFile_keeps d path content :
  files d ⊆ files (writeNewFile d path content).2.
Proof.
  unfold writeNewFile. destruct (Stat d path) as [e|] eqn:Hs; [|done].
  destruct (Is_ErrNotExist e) eqn:Hn; cbn [negb]; [|done].
  apply map_subseteq_spec. intros p b Hp.
  rewrite WriteFile_other; [done|]. intros ->. by rewrite (Stat_not_exist _ _ _ Hs Hn) in Hp.
Qed.

Lemma writeNewFile_ok d path content d' :
  writeNewFile d path content = (None, d') ->
  files d !! path = None /\ files d' = <[path := text_bytes content]> (files d).
Proof.
  unfold writeNewFile. destruct (Stat d path) as [e|] eqn:Hs; [|done].
  destruct (Is_ErrNotExist e) eqn:Hn; cbn [negb]; [|done]. intros E.
  split; [by eapply Stat_not_exist|].
  replace d' with (WriteFile d path (text_bytes content)).2 by by rewrite E.
  apply WriteFile_ok. by rewrite E.
Qed.

Lemma MkdirAll_keeps d path : files d ⊆ files (MkdirAll d path).2.
Proof. by rewrite MkdirAll_files. Qed.

(** The four files of a starter project in [dest], the last written first. *)
Definition starter_files (dest moduleName : string) : list (string * string) :=
  [(FilepathJoin [dest; "README.md"], starterREADME moduleName);
   (FilepathJoin [dest; ".gitignore"], starterGitIgnore);
   (FilepathJoin [dest; "main.go"], starterMainGo);
   (FilepathJoin [dest; "go.mod"], starterGoMod moduleName)].

Definition with_files (l : list (string * string)) (m : gmap string bytes) : gmap string bytes :=
  foldr (fun '(path, content) m => <[path := text_bytes content]> m) m l.

(** One step of [runNew]: an operation on the disk keeps every file. *)
Ltac disk_step Hkeep :=
  match goal with
  | |- context [MkdirAll ?d ?p] =>
      let E := fresh "E" in
      apply (fun K => transitivity K (MkdirAll_keeps d p)) in Hkeep;
      pose proof (MkdirAll_files d p) as E; destruct (MkdirAll d p) as [[?|] ?];
      cbn [snd] in Hkeep, E; [clear E|]
  | |- context [writeNewFile ?d ?p ?c] =>
      let E := fresh "E" in
      apply (fun K => transitivity K (writeNewFile_keeps d p c)) in Hkeep;
      pose proof (writeNewFile_ok d p c) as E;
      destruct (writeNewFile d p c) as [[?|] ?]; cbn [snd] in Hkeep;
      [clear E|destruct (E _ eq_refl); clear E]
  end.

Lemma fresh_under_insert (m : gmap string bytes) p q b : <[p := b]> m !! q = None -> m !! q = None.
Proof. rewrite lookup_insert_None. by intros []. Qed.

(** C30. Whatever fails, [quicframe new] leaves every existing file as it was; when
    it reports success it was given one directory whose name yields a module
    name, none of the four starter files existed, and they are the only files
    that were written, with the starter contents. *)
Theorem runNew_spec d args :
  match runNew d args with
  | (err, d', printed) =>
      files d ⊆ files d' /\
      match err with
      | Some _ => printed = []
      | None => exists arg, args = [arg] /\
          let dest := Clean arg in
          let moduleName := sanitizeModuleName (Base dest) in
          moduleName <> "" /\
          Forall (fun f => files d !! f.1 = None) (starter_files dest moduleName) /\
          files d' = with_files (starter_files dest moduleName) (files d) /\
          printed = created_lines dest
      end
  end.
Proof.
  unfold runNew. destruct args as [|arg [|arg2 args]]; [done| |done].
  destruct (String.eqb_spec (sanitizeModuleName (Base (Clean arg))) "") as [|Hm]; [done|].
  cbv zeta. assert (files d ⊆ files d) as Hkeep by done.
  repeat (disk_step Hkeep; [by split|]).
  split; [done|]. exists arg. split; [done|]. cbn [starter_files with_files foldr].
  split_and!; [done| |congruence|done].
  repeat match goal with
    | E : files ?x = <[_ := _]> _, E' : files ?x !! _ = None |- _ =>
        rewrite E in E'; apply fresh_under_insert in E'
    | E : files ?x = files _, E' : files ?x !! _ = None |- _ => rewrite E in E'
    end.
  by repeat constructor.
Qed.
End RunNew.
