(* ===== verification/Certs.v ===== *)
(** * Certificates and node identities (tlsutil/certs.go, pki/pki.go)

    Key generation, DER, PEM and hashing are the class [Crypto], with the
    round trips the code relies on; certificates carry their times in whole
    seconds.  Times are nanoseconds on the wall clock, and each operation takes
    the readings of [time.Now] and the random source it consumes. *)

From S2P Require Import Prelude GoStd Files.
From Stdlib Require Import Ascii.

Local Open Scope string_scope.
Local Open Scope Z_scope.

(** ** Times and durations *)

Definition Second : Z := 1000000000.
Definition Minute : Z := 60 * Second.
Definition Hour : Z := 60 * Minute.

(** [t.Sub(u)], which saturates at the bounds of a [Duration]. *)
Definition Sub (t u : Z) : Z := Z.max (- 2 ^ 63) (Z.min (2 ^ 63 - 1) (t - u)).

(** [time.Until(t)] when the clock reads [now]. *)
Definition Until (now t : Z) : Z := Sub t now.

(** The time a certificate records: ASN.1 times have no fraction. *)
Definition whole_seconds (t : Z) : Z := t / Second * Second.

(** ** Certificates and the cryptographic library *)

Record Certificate := mkCertificate {
  SerialNumber : Z;
  Organization : list string;
  CommonName : string;
  NotBefore : Z;
  NotAfter : Z;
  KeyUsage : Z;
  ExtKeyUsage : list Z;
  BasicConstraintsValid : bool;
  DNSNames : list string;
  IPAddresses : list bytes;
}.

(** [x509.KeyUsageDigitalSignature], [x509.KeyUsageKeyEncipherment],
    [x509.ExtKeyUsageServerAuth], [x509.ExtKeyUsageClientAuth],
    [tls.VersionTLS13]. *)
Definition KeyUsageDigitalSignature : Z := 1.
Definition KeyUsageKeyEncipherment : Z := 4.
Definition ExtKeyUsageServerAuth : Z := 1.
Definition ExtKeyUsageClientAuth : Z := 2.
Definition VersionTLS13 : Z := 772.

(** [Rand] is the random source one generation draws from. *)
Class Crypto := {
  PrivateKey : Type;
  Rand : Type;
  GenerateKey : Rand -> result PrivateKey;
  rand_Int : Rand -> Z -> result Z;
  CreateCertificate : Rand -> Certificate -> PrivateKey -> result bytes;
  ParseCertificate : bytes -> result Certificate;
  MarshalECPrivateKey : PrivateKey -> result bytes;
  ParseECPrivateKey : bytes -> result PrivateKey;
  EncodeToMemory : string -> bytes -> bytes;
  Decode : bytes -> option (string * bytes);
  X509KeyPair : bytes -> bytes -> result (list bytes * PrivateKey);
  ParseIP : string -> option bytes;
  Sum256 : bytes -> bytes;
  ParseCertificate_created r tpl k der :
    CreateCertificate r tpl k = Ok der ->
    exists c, ParseCertificate der = Ok c /\
      NotBefore c = whole_seconds (NotBefore tpl) /\ NotAfter c = whole_seconds (NotAfter tpl);
  MarshalECPrivateKey_generated r k :
    GenerateKey r = Ok k -> exists der, MarshalECPrivateKey k = Ok der;
  ParseECPrivateKey_marshalled k der :
    MarshalECPrivateKey k = Ok der -> ParseECPrivateKey der = Ok k;
  Decode_encoded typ b : Decode (EncodeToMemory typ b) = Some (typ, b);
  X509KeyPair_created r tpl k der kder :
    CreateCertificate r tpl k = Ok der -> MarshalECPrivateKey k = Ok kder ->
    X509KeyPair (EncodeToMemory "CERTIFICATE" der) (EncodeToMemory "EC PRIVATE KEY" kder)
      = Ok ([der], k);
}.

(** A [*tls.Config], as far as the code sets or reads it. *)
Record Config `{Crypto} := mkConfig {
  Certificates : list (list bytes * PrivateKey);
  MinVersion : Z;
}.
#[global] Arguments mkConfig {_} _ _.

Section Certs.
Context `{Crypto} `{OS}.

(** ** tlsutil *)

Definition webTransportDevCertValidity : Z := 13 * 24 * Hour.

(** The hosts of a certificate: addresses apart from names. *)
Definition add_host (tpl : Certificate) (h : string) : Certificate :=
  match ParseIP h with
  | Some ip =>
      mkCertificate (SerialNumber tpl) (Organization tpl) (CommonName tpl) (NotBefore tpl)
        (NotAfter tpl) (KeyUsage tpl) (ExtKeyUsage tpl) (BasicConstraintsValid tpl)
        (DNSNames tpl) (IPAddresses tpl ++ [ip])
  | None =>
      mkCertificate (SerialNumber tpl) (Organization tpl) (CommonName tpl) (NotBefore tpl)
        (NotAfter tpl) (KeyUsage tpl) (ExtKeyUsage tpl) (BasicConstraintsValid tpl)
        (DNSNames tpl ++ [h]) (IPAddresses tpl)
  end.

(** [now1] and [now2] are the two readings of the clock. *)
Definition generateSelfSignedPEM (r : Rand) (now1 now2 : Z) (hosts : list string)
    : result (bytes * bytes) :=
  match GenerateKey r with
  | Err err => Err (wrapError "tlsutil: generate key: " err)
  | Ok priv =>
      match rand_Int r (Z.shiftl 1 128) with
      | Err err => Err (wrapError "tlsutil: generate serial: " err)
      | Ok serial =>
          let template :=
            foldl add_host
              (mkCertificate serial ["QuicFrame Dev"] "" (now1 + - Minute)
                 (now2 + webTransportDevCertValidity)
                 (Z.lor KeyUsageKeyEncipherment KeyUsageDigitalSignature)
                 [ExtKeyUsageServerAuth] false [] []) hosts in
          match CreateCertificate r template priv with
          | Err err => Err (wrapError "tlsutil: create certificate: " err)
          | Ok certDER =>
              match MarshalECPrivateKey priv with
              | Err err => Err (wrapError "tlsutil: marshal key: " err)
              | Ok keyDER =>
                  Ok (EncodeToMemory "CERTIFICATE" certDER, EncodeToMemory "EC PRIVATE KEY" keyDER)
              end
          end
      end
  end.

Definition SelfSigned (r : Rand) (now1 now2 : Z) (hosts : list string) : result Config :=
  match generateSelfSignedPEM r now1 now2 hosts with
  | Err err => Err err
  | Ok (certPEM, keyPEM) =>
      match X509KeyPair certPEM keyPEM with
      | Err err => Err (wrapError "tlsutil: X509KeyPair: " err)
      | Ok cert => Ok (mkConfig [cert] VersionTLS13)
      end
  end.

(** [tls.LoadX509KeyPair]. *)
Definition LoadX509KeyPair (d : disk) (certFile keyFile : string)
    : result (list bytes * PrivateKey) :=
  match ReadFile d certFile with
  | Err err => Err err
  | Ok certPEM =>
      match ReadFile d keyFile with
      | Err err => Err err
      | Ok keyPEM => X509KeyPair certPEM keyPEM
      end
  end.

Definition FromFiles (d : disk) (certFile keyFile : string) : result Config :=
  match LoadX509KeyPair d certFile keyFile with
  | Err err => Err (wrapError "tlsutil: load key pair: " err)
  | Ok cert => Ok (mkConfig [cert] VersionTLS13)
  end.

(** The first element of the first certificate's chain, or the error of the
    functions that ask for it. *)
Definition leaf_der (cfg : option Config) : result bytes :=
  match cfg with
  | None => Err (errorString "tlsutil: no certificates configured")
  | Some cfg =>
      match Certificates cfg with
      | [] => Err (errorString "tlsutil: no certificates configured")
      | (chain, _) :: _ =>
          match chain with
          | [] => Err (errorString "tlsutil: certificate chain is empty")
          | der :: _ => Ok der
          end
      end
  end.

Definition webTransportCompatibleLeaf (now : Z) (cfg : option Config) : result bool :=
  match leaf_der cfg with
  | Err err => Err err
  | Ok der =>
      match ParseCertificate der with
      | Err err => Err (wrapError "tlsutil: parse leaf certificate: " err)
      | Ok leaf =>
          if webTransportDevCertValidity <? Sub (NotAfter leaf) (NotBefore leaf) then Ok false
          else if (now <? NotBefore leaf) || negb (now <? NotAfter leaf) then Ok false
          else Ok true
      end
  end.

(** The pair on disk, when it can be kept. *)
Definition reusable (d : disk) (now : Z) (certFile keyFile : string) : option Config :=
  match Stat d certFile with
  | Some _ => None
  | None =>
      match Stat d keyFile with
      | Some _ => None
      | None =>
          match FromFiles d certFile keyFile with
          | Err _ => None
          | Ok cfg =>
              match webTransportCompatibleLeaf now (Some cfg) with
              | Ok true => Some cfg
              | _ => None
              end
          end
      end
  end.

Definition LoadOrCreateSelfSigned (r : Rand) (now now1 now2 : Z) (d : disk)
    (certFile keyFile : string) (hosts : list string) : result Config * disk :=
  match reusable d now certFile keyFile with
  | Some cfg => (Ok cfg, d)
  | None =>
      match generateSelfSignedPEM r now1 now2 hosts with
      | Err err => (Err err, d)
      | Ok (certPEM, keyPEM) =>
          match MkdirAll d (Dir certFile) with
          | (Some err, d) => (Err (wrapError "tlsutil: create cert dir: " err), d)
          | (None, d) =>
              match MkdirAll d (Dir keyFile) with
              | (Some err, d) => (Err (wrapError "tlsutil: create key dir: " err), d)
              | (None, d) =>
                  match WriteFile d certFile certPEM with
                  | (Some err, d) => (Err (wrapError "tlsutil: write cert: " err), d)
                  | (None, d) =>
                      match WriteFile d keyFile keyPEM with
                      | (Some err, d) => (Err (wrapError "tlsutil: write key: " err), d)
                      | (None, d) => (FromFiles d certFile keyFile, d)
                      end
                  end
              end
          end
      end
  end.

Definition CertificateSHA256 (cfg : option Config) : result bytes :=
  match leaf_der cfg with
  | Err err => Err err
  | Ok der => Ok (Sum256 der)
  end.

Definition CertificateSHA256Hex (cfg : option Config) : result string :=
  match CertificateSHA256 cfg with
  | Err err => Err err
  | Ok sum => Ok (hex_string sum)
  end.

(** [AutocertConfig], and the manager it is turned into; the manager's own
    configuration comes from golang.org/x/crypto and is a parameter. *)
Record AutocertConfig := mkAutocertConfig {
  Domains : list string;
  CacheDir : string;
  Email : string;
  Staging : bool;
}.

Record AutocertManager := mkAutocertManager {
  m_DirCache : string;
  m_AcceptTOS : bool;
  m_HostWhitelist : list string;
  m_Email : string;
  m_DirectoryURL : option string;
}.

Definition Autocert (TLSConfig : AutocertManager -> Config) (cfg : AutocertConfig)
    : result (Config * AutocertManager) :=
  match Domains cfg with
  | [] => Err (errorString "tlsutil: at least one domain is required")
  | _ =>
      let dir := if String.eqb (CacheDir cfg) "" then "/var/cache/quicframe/autocert"
                 else CacheDir cfg in
      let m := mkAutocertManager dir true (Domains cfg) (Email cfg)
                 (if Staging cfg
                  then Some "https://acme-staging-v02.api.letsencrypt.org/directory"
                  else None) in
      Ok (mkConfig (Certificates (TLSConfig m)) VersionTLS13, m)
  end.

(** ** pki *)

(** [Cert] is [None] for the nil certificate of an unreadable one; only
    [GenerateIdentity] can return it. *)
Record Identity := mkIdentity {
  id_NodeID : string;
  id_CertFile : string;
  id_KeyFile : string;
  id_Cert : option Certificate;
  id_PrivateKey : PrivateKey;
}.

(** Identities are kept under a base directory, each in a directory of its own. *)
Record Manager := mkManager { baseDir : string }.

Definition NewManager (dir : string) : Manager := mkManager dir.

Definition nodeDir (m : Manager) (nodeID : string) : string := FilepathJoin [baseDir m; nodeID].
Definition certFile (m : Manager) (nodeID : string) : string :=
  FilepathJoin [nodeDir m nodeID; "cert.pem"].
Definition keyFile (m : Manager) (nodeID : string) : string :=
  FilepathJoin [nodeDir m nodeID; "key.pem"].

Definition LoadIdentity (d : disk) (m : Manager) (nodeID : string) : result Identity :=
  match ReadFile d (certFile m nodeID) with
  | Err err => Err err
  | Ok certPEM =>
      match ReadFile d (keyFile m nodeID) with
      | Err err => Err err
      | Ok keyPEM =>
          match Decode certPEM with
          | None => Err (errorString "pki: failed to decode certificate PEM")
          | Some (_, block) =>
              match ParseCertificate block with
              | Err err => Err err
              | Ok cert =>
                  match Decode keyPEM with
                  | None => Err (errorString "pki: failed to decode key PEM")
                  | Some (_, keyBlock) =>
                      match ParseECPrivateKey keyBlock with
                      | Err err => Err err
                      | Ok key =>
                          Ok (mkIdentity nodeID (certFile m nodeID) (keyFile m nodeID)
                                (Some cert) key)
                      end
                  end
              end
          end
      end
  end.

Definition result_value {A} (x : result A) : option A :=
  match x with
  | Ok a => Some a
  | Err _ => None
  end.

Definition GenerateIdentity (r : Rand) (now : Z) (d : disk) (m : Manager) (nodeID : string)
    (hosts : list string) : result Identity * disk :=
  match GenerateKey r with
  | Err err => (Err (wrapError "pki: generate key: " err), d)
  | Ok priv =>
      match rand_Int r (Z.shiftl 1 128) with
      | Err err => (Err (wrapError "pki: generate serial: " err), d)
      | Ok serial =>
          let notBefore := now + - Minute in
          let notAfter := notBefore + 13 * 24 * Hour in
          let template :=
            mkCertificate serial ["QuicFrame Managed PKI"] nodeID notBefore notAfter
              (Z.lor KeyUsageKeyEncipherment KeyUsageDigitalSignature)
              [ExtKeyUsageServerAuth; ExtKeyUsageClientAuth] true
              (foldl (fun names h => (names ++ [h])%list) [] hosts) [] in
          match CreateCertificate r template priv with
          | Err err => (Err (wrapError "pki: create certificate: " err), d)
          | Ok certDER =>
              match MkdirAll d (nodeDir m nodeID) with
              | (Some err, d) => (Err (wrapError "pki: create node dir: " err), d)
              | (None, d) =>
                  let certPEM := EncodeToMemory "CERTIFICATE" certDER in
                  let keyDER := default [] (result_value (MarshalECPrivateKey priv)) in
                  let keyPEM := EncodeToMemory "EC PRIVATE KEY" keyDER in
                  match WriteFile d (certFile m nodeID) certPEM with
                  | (Some err, d) => (Err err, d)
                  | (None, d) =>
                      match WriteFile d (keyFile m nodeID) keyPEM with
                      | (Some err, d) => (Err err, d)
                      | (None, d) =>
                          (Ok (mkIdentity nodeID (certFile m nodeID) (keyFile m nodeID)
                                 (result_value (ParseCertificate certDER)) priv), d)
                      end
                  end
              end
          end
      end
  end.

(** The identity on disk, when it has more than a day left. *)
Definition reusable_identity (d : disk) (now : Z) (m : Manager) (nodeID : string) : option Identity :=
  match Stat d (certFile m nodeID) with
  | Some _ => None
  | None =>
      match Stat d (keyFile m nodeID) with
      | Some _ => None
      | None =>
          match LoadIdentity d m nodeID with
          | Err _ => None
          | Ok id =>
              match id_Cert id with
              | None => None
              | Some c => if 24 * Hour <? Until now (NotAfter c) then Some id else None
              end
          end
      end
  end.

Definition LoadOrCreateIdentity (r : Rand) (now1 now2 : Z) (d : disk) (m : Manager) (nodeID : string)
    (hosts : list string) : result Identity * disk :=
  match reusable_identity d now1 m nodeID with
  | Some id => (Ok id, d)
  | None => GenerateIdentity r now2 d m nodeID hosts
  end.

(** One tick of the rotation watcher: when it reads the clock, when the
    generation does, and the random source. *)
Record tick := mkTick {
  t_until : Z;
  t_now : Z;
  t_rand : Rand;
}.

Definition rotation_tick (m : Manager) (nodeID : string) (hosts : list string) (d : disk) (t : tick)
    : disk :=
  match LoadIdentity d m nodeID with
  | Err _ => d
  | Ok id =>
      match id_Cert id with
      | None => d
      | Some c =>
          if Until (t_until t) (NotAfter c) <? 24 * Hour
          then (GenerateIdentity (t_rand t) (t_now t) d m nodeID hosts).2
          else d
      end
  end.

(** [StartRotationWatcher]: the disk after each tick. *)
Fixpoint rotation_watcher (m : Manager) (nodeID : string) (hosts : list string) (d : disk)
    (ticks : list tick) : list (tick * disk) :=
  match ticks with
  | [] => []
  | t :: ticks =>
      let d := rotation_tick m nodeID hosts d t in
      (t, d) :: rotation_watcher m nodeID hosts d ticks
  end.
End Certs.
