(* ===== verification/CertsProps.v ===== *)
(** * Properties of certificates and node identities

    A stored identity is read back as it was generated and kept until its last
    day, and the rotation watcher never lets it expire; the self-signed pair of
    tlsutil, by contrast, is replaced on every start. *)

From S2P Require Import Prelude GoStd Files Certs.
From Stdlib Require Import Ascii.

Local Open Scope string_scope.
Local Open Scope Z_scope.

(** ** Times *)

Lemma whole_seconds_range t : whole_seconds t <= t < whole_seconds t + Second.
Proof. unfold whole_seconds, Second. Z.div_mod_to_equations. lia. Qed.

Lemma whole_seconds_shift t k : whole_seconds (t + k * Second) = whole_seconds t + k * Second.
Proof. unfold whole_seconds, Second. rewrite Z.div_add by lia. lia. Qed.

Lemma Sub_small t u : - 2 ^ 63 <= t - u < 2 ^ 63 -> Sub t u = t - u.
Proof. unfold Sub. lia. Qed.

(** Comparing a saturated difference with a bound inside a [Duration]. *)
Lemma Sub_le_iff t u k : - 2 ^ 63 < k < 2 ^ 63 - 1 -> (Sub t u <= k <-> t - u <= k).
Proof. unfold Sub. lia. Qed.

Lemma Sub_lt_iff t u k : - 2 ^ 63 < k < 2 ^ 63 -> (Sub t u < k <-> t - u < k).
Proof. unfold Sub. lia. Qed.

Section Props.
Context `{Crypto} `{OS}.

(** ** Files of an identity *)

Lemma cert_key_files m nodeID : certFile m nodeID <> keyFile m nodeID.
Proof.
  intros E. apply FilepathJoin_inj in E; [done| |]; repeat split; done.
Qed.

(** What a successful write leaves for a later read. *)
Lemma WriteFile_pair d d1 d2 p q b c :
  p <> q -> WriteFile d p b = (None, d1) -> WriteFile d1 q c = (None, d2) ->
  files d2 = <[q := c]> (<[p := b]> (files d)).
Proof.
  intros Hne H1 H2.
  pose proof (WriteFile_ok d p b) as E1. pose proof (WriteFile_ok d1 q c) as E2.
  rewrite H1 in E1. rewrite H2 in E2. cbn in *. by rewrite E2, E1 by done.
Qed.

(** Reading a pair of files that is there either gives its contents or meets
    a fault. *)
Lemma ReadFile_of d p b x : files d !! p = Some b -> ReadFile d p = Ok x -> x = b.
Proof. intros Hp E. apply ReadFile_ok in E. congruence. Qed.

(** A pair of PEM files for one certificate and its key. *)
Definition holds_pair (d : disk) (cf kf : string) (der kder : bytes) : Prop :=
  files d !! cf = Some (EncodeToMemory "CERTIFICATE" der) /\
  files d !! kf = Some (EncodeToMemory "EC PRIVATE KEY" kder).

Lemma FromFiles_pair d cf kf r tpl k der kder cfg :
  holds_pair d cf kf der kder -> CreateCertificate r tpl k = Ok der ->
  MarshalECPrivateKey k = Ok kder -> FromFiles d cf kf = Ok cfg ->
  cfg = mkConfig [([der], k)] VersionTLS13.
Proof.
  intros [Hc Hk] Hder Hkder. unfold FromFiles, LoadX509KeyPair.
  destruct (ReadFile d cf) eqn:E1; [|done]. destruct (ReadFile d kf) eqn:E2; [|done].
  apply (ReadFile_of _ _ _ _ Hc) in E1 as ->. apply (ReadFile_of _ _ _ _ Hk) in E2 as ->.
  rewrite (X509KeyPair_created _ _ _ _ _ Hder Hkder). by intros [= <-].
Qed.

Lemma LoadIdentity_pair d base node r tpl k der kder id :
  holds_pair d (certFile base node) (keyFile base node) der kder ->
  CreateCertificate r tpl k = Ok der -> MarshalECPrivateKey k = Ok kder ->
  LoadIdentity d base node = Ok id ->
  exists c, ParseCertificate der = Ok c /\
    id = mkIdentity node (certFile base node) (keyFile base node) (Some c) k.
Proof.
  intros [Hc Hk] Hder Hkder. unfold LoadIdentity.
  destruct (ReadFile d (certFile base node)) eqn:E1; [|done].
  destruct (ReadFile d (keyFile base node)) eqn:E2; [|done].
  apply (ReadFile_of _ _ _ _ Hc) in E1 as ->. apply (ReadFile_of _ _ _ _ Hk) in E2 as ->.
  rewrite !Decode_encoded, (ParseECPrivateKey_marshalled _ _ Hkder).
  destruct (ParseCertificate_created _ _ _ _ Hder) as (c & Hp & _).
  rewrite Hp. intros [= <-]. by exists c.
Qed.

(** ** tlsutil *)

Lemma add_hosts_times hosts tpl :
  NotBefore (foldl add_host tpl hosts) = NotBefore tpl /\
  NotAfter (foldl add_host tpl hosts) = NotAfter tpl.
Proof.
  revert tpl. induction hosts as [|h hosts IH]; intros tpl; [done|].
  cbn. destruct (IH (add_host tpl h)) as [-> ->]. unfold add_host. by destruct (ParseIP h).
Qed.

(** A generated pair: the certificate is longer than the limit. *)
Lemma generateSelfSignedPEM_ok r now1 now2 hosts cp kp :
  generateSelfSignedPEM r now1 now2 hosts = Ok (cp, kp) ->
  exists tpl k der kder, CreateCertificate r tpl k = Ok der /\ MarshalECPrivateKey k = Ok kder /\
    NotBefore tpl = now1 + - Minute /\ NotAfter tpl = now2 + webTransportDevCertValidity /\
    cp = EncodeToMemory "CERTIFICATE" der /\ kp = EncodeToMemory "EC PRIVATE KEY" kder.
Proof.
  unfold generateSelfSignedPEM. destruct (GenerateKey r) as [k|]; [|done].
  destruct (rand_Int r _) as [serial|]; [|done]. cbv zeta.
  match goal with |- context [foldl add_host ?t hosts] => set (tpl0 := t) end.
  destruct (CreateCertificate r _ k) as [der|] eqn:Hder; [|done].
  destruct (MarshalECPrivateKey k) as [kder|] eqn:Hk; [|done]. intros [= <- <-].
  destruct (add_hosts_times hosts tpl0) as [Hnb Hna].
  eexists _, k, der, kder. by rewrite Hnb, Hna.
Qed.

Lemma leaf_too_long r tpl k der now1 now2 now :
  CreateCertificate r tpl k = Ok der -> NotBefore tpl = now1 + - Minute ->
  NotAfter tpl = now2 + webTransportDevCertValidity -> now1 <= now2 ->
  webTransportCompatibleLeaf now (Some (mkConfig [([der], k)] VersionTLS13)) = Ok false.
Proof.
  intros Hder Hnb Hna Hle. destruct (ParseCertificate_created _ _ _ _ Hder) as (c & Hp & Hb & Ha).
  unfold webTransportCompatibleLeaf. cbn. rewrite Hp, Hb, Ha, Hnb, Hna.
  pose proof (whole_seconds_range (now1 + - Minute)).
  pose proof (whole_seconds_range (now2 + webTransportDevCertValidity)).
  rewrite (proj2 (Z.ltb_lt _ _)); [done|].
  unfold Sub, webTransportDevCertValidity, Hour, Minute, Second in *. lia.
Qed.

(** A pair that tlsutil generated is never reused. *)
Lemma generated_not_reusable d cf kf r now1 now2 hosts cp kp now :
  now1 <= now2 -> generateSelfSignedPEM r now1 now2 hosts = Ok (cp, kp) ->
  files d !! cf = Some cp -> files d !! kf = Some kp -> reusable d now cf kf = None.
Proof.
  intros Hle Hg Hcf Hkf.
  destruct (generateSelfSignedPEM_ok _ _ _ _ _ _ Hg)
    as (tpl & k & der & kder & Hder & Hkder & Hnb & Hna & -> & ->).
  unfold reusable. destruct (Stat d cf); [done|]. destruct (Stat d kf); [done|].
  destruct (FromFiles d cf kf) as [cfg|] eqn:E; [|done].
  apply (FromFiles_pair _ _ _ r tpl k der kder) in E as ->; [|done..].
  by rewrite (leaf_too_long _ _ _ _ _ _ _ Hder Hnb Hna Hle).
Qed.

Lemma LoadOrCreate_created r now now1 now2 d cf kf hosts cfg d' :
  cf <> kf -> reusable d now cf kf = None ->
  LoadOrCreateSelfSigned r now now1 now2 d cf kf hosts = (Ok cfg, d') ->
  exists cp kp, generateSelfSignedPEM r now1 now2 hosts = Ok (cp, kp) /\
    files d' = <[kf := kp]> (<[cf := cp]> (files d)).
Proof.
  intros Hne Hr. unfold LoadOrCreateSelfSigned. rewrite Hr.
  destruct (generateSelfSignedPEM r now1 now2 hosts) as [[cp kp]|]; [|done].
  pose proof (MkdirAll_files d (Dir cf)) as F1. destruct (MkdirAll d _) as [[]  d1]; [done|].
  pose proof (MkdirAll_files d1 (Dir kf)) as F2. destruct (MkdirAll d1 _) as [[]  d2]; [done|].
  destruct (WriteFile d2 cf cp) as [[] d3] eqn:E3; [done|].
  destruct (WriteFile d3 kf kp) as [[] d4] eqn:E4; [done|]. intros [= _ <-].
  exists cp, kp. split; [done|]. cbn in *. by rewrite (WriteFile_pair _ _ _ _ _ _ _ Hne E3 E4), F2, F1.
Qed.

(** C33. The pair tlsutil stores is not stable across restarts: whenever one start
    generated it, the next start throws it away and stores the pair it
    generates itself, since the stored certificate is valid for a minute more
    than [webTransportDevCertValidity]. *)
Theorem self_signed_replaced r now now1 now2 d cf kf hosts cfg1 d1
    r' now' now1' now2' hosts' cfg2 d2 :
  cf <> kf -> now1 <= now2 -> files d !! cf = None ->
  LoadOrCreateSelfSigned r now now1 now2 d cf kf hosts = (Ok cfg1, d1) ->
  LoadOrCreateSelfSigned r' now' now1' now2' d1 cf kf hosts' = (Ok cfg2, d2) ->
  exists cp kp, generateSelfSignedPEM r' now1' now2' hosts' = Ok (cp, kp) /\
    files d2 = <[kf := kp]> (<[cf := cp]> (files d1)).
Proof.
  intros Hne Hle Hfresh H1 H2.
  assert (reusable d now cf kf = None) as Hr.
  { unfold reusable, FromFiles, LoadX509KeyPair.
    destruct (Stat d cf); [done|]. destruct (Stat d kf); [done|].
    destruct (ReadFile d cf) eqn:E; [|done]. apply ReadFile_ok in E. congruence. }
  destruct (LoadOrCreate_created _ _ _ _ _ _ _ _ _ _ Hne Hr H1) as (cp & kp & Hg & Hd1).
  refine (LoadOrCreate_created _ _ _ _ _ _ _ _ _ _ Hne _ H2).
  apply (generated_not_reusable _ _ _ r now1 now2 hosts cp kp); [done|done|..];
    rewrite Hd1; [|by rewrite lookup_insert_eq].
  rewrite lookup_insert_ne by done. by rewrite lookup_insert_eq.
Qed.
(** ** pki *)

Lemma GenerateIdentity_ok r now d base node hosts id d' :
  GenerateIdentity r now d base node hosts = (Ok id, d') ->
  exists tpl k der kder c, CreateCertificate r tpl k = Ok der /\ MarshalECPrivateKey k = Ok kder /\
    holds_pair d' (certFile base node) (keyFile base node) der kder /\
    ParseCertificate der = Ok c /\
    NotBefore c = whole_seconds (now + - Minute) /\ NotAfter c = NotBefore c + 13 * 24 * Hour /\
    id = mkIdentity node (certFile base node) (keyFile base node) (Some c) k.
Proof.
  unfold GenerateIdentity. destruct (GenerateKey r) as [k|] eqn:Hk; [|done].
  destruct (rand_Int r _) as [serial|]; [|done]. cbv zeta.
  match goal with |- context [CreateCertificate r ?t k] => set (tpl := t) end.
  destruct (CreateCertificate r tpl k) as [der|] eqn:Hder; [|done].
  destruct (MarshalECPrivateKey_generated _ _ Hk) as [kder Hkder]. rewrite Hkder. cbn [result_value default].
  destruct (MkdirAll d _) as [[] d1]; [done|].
  destruct (WriteFile d1 _ _) as [[] d2] eqn:E1; [done|].
  destruct (WriteFile d2 _ _) as [[] d3] eqn:E2; [done|]. intros [= <- <-].
  destruct (ParseCertificate_created _ _ _ _ Hder) as (c & Hp & Hb & Ha).
  exists tpl, k, der, kder, c. rewrite Hp. split_and!; try done.
  - unfold holds_pair. rewrite (WriteFile_pair _ _ _ _ _ _ _ (cert_key_files base node) E1 E2).
    rewrite lookup_insert_ne by (intros E; symmetry in E; by apply cert_key_files in E).
    by rewrite !lookup_insert_eq.
  - rewrite Ha, Hb. cbn. apply (whole_seconds_shift _ (13 * 24 * 60 * 60)).
Qed.

(** No read of the two files of an identity meets a fault. *)
Definition readable (base : Manager) (node : string) : Prop :=
  forall p, p = certFile base node \/ p = keyFile base node ->
  stat_fault p = None /\ read_fault p = None.

Lemma LoadIdentity_generated r now d base node hosts id d' :
  readable base node -> GenerateIdentity r now d base node hosts = (Ok id, d') ->
  LoadIdentity d' base node = Ok id /\
  Stat d' (certFile base node) = None /\ Stat d' (keyFile base node) = None.
Proof.
  intros Hread Hg. destruct (GenerateIdentity_ok _ _ _ _ _ _ _ _ Hg)
    as (tpl & k & der & kder & c & Hder & Hkder & [Hc Hk] & Hp & _ & _ & ->).
  destruct (Hread (certFile base node)) as [S1 R1]; [by left|].
  destruct (Hread (keyFile base node)) as [S2 R2]; [by right|]. split_and!.
  - unfold LoadIdentity, ReadFile. rewrite R1, R2, Hc, Hk, !Decode_encoded, Hp.
    by rewrite (ParseECPrivateKey_marshalled _ _ Hkder).
  - unfold Stat. rewrite S1, bool_decide_eq_true_2; [done|]. left. by eapply elem_of_dom_2.
  - unfold Stat. rewrite S2, bool_decide_eq_true_2; [done|]. left. by eapply elem_of_dom_2.
Qed.

(** C28. An identity that was generated is stored so that loading gives it back,
    certificate and key; and up to 61 seconds before twelve days after the
    generation every start whose reads of the two files do not fail gets the
    same identity and leaves the disk as it is. *)
Theorem identity_stable r now d base node hosts id d' r' now1 now2 hosts' :
  readable base node -> GenerateIdentity r now d base node hosts = (Ok id, d') ->
  now <= now1 -> now1 + Minute + Second <= now + 12 * 24 * Hour ->
  LoadIdentity d' base node = Ok id /\
  LoadOrCreateIdentity r' now1 now2 d' base node hosts' = (Ok id, d').
Proof.
  intros Hread Hg Hfrom Hto. destruct (LoadIdentity_generated _ _ _ _ _ _ _ _ Hread Hg) as (Hl & S1 & S2).
  split; [done|]. destruct (GenerateIdentity_ok _ _ _ _ _ _ _ _ Hg)
    as (? & ? & ? & ? & c & _ & _ & _ & _ & Hb & Ha & Hid).
  unfold LoadOrCreateIdentity, reusable_identity. rewrite S1, S2, Hl, Hid. cbn [id_Cert].
  rewrite (proj2 (Z.ltb_lt _ _)); [done|].
  pose proof (whole_seconds_range (now + - Minute)).
  unfold Until, Sub, Hour, Minute, Second in *. lia.
Qed.

(** Whatever is on the disk, an identity that [LoadOrCreateIdentity] returns
    has a certificate with more than a day left. *)
Theorem identity_has_a_day r now1 now2 d base node hosts id d' :
  now1 <= now2 -> LoadOrCreateIdentity r now1 now2 d base node hosts = (Ok id, d') ->
  id_NodeID id = node /\ exists c, id_Cert id = Some c /\ now1 + 24 * Hour < NotAfter c.
Proof.
  intros Hle. unfold LoadOrCreateIdentity.
  destruct (reusable_identity d now1 base node) as [id0|] eqn:Hr.
  - intros [= -> <-]. unfold reusable_identity in Hr.
    destruct (Stat d _); [done|]. destruct (Stat d _); [done|].
    destruct (LoadIdentity d base node) as [id'|] eqn:Hl; [|done].
    destruct (id_Cert id') as [c|] eqn:Hc; [|done].
    destruct (24 * Hour <? Until now1 (NotAfter c)) eqn:Hu; [|done]. injection Hr as ->.
    split; [|exists c; split; [done|]].
    + unfold LoadIdentity in Hl. repeat (case_match; try done). by injection Hl as <-.
    + apply Z.ltb_lt in Hu. unfold Until, Sub, Hour, Minute, Second in *. lia.
  - intros Hg. destruct (GenerateIdentity_ok _ _ _ _ _ _ _ _ Hg)
      as (? & ? & ? & ? & c & _ & _ & _ & _ & Hb & Ha & ->).
    split; [done|]. exists c. split; [done|]. pose proof (whole_seconds_range (now2 + - Minute)).
    unfold Hour, Minute, Second in *. lia.
Qed.

(** ** Rotation *)

(** The identity on the disk has a certificate that ends at or after [e]. *)
Definition ends_after (base : Manager) (node : string) (d : disk) (e : Z) : Prop :=
  exists id c, LoadIdentity d base node = Ok id /\ id_Cert id = Some c /\ e <= NotAfter c.

Definition ends_afterb (base : Manager) (node : string) (d : disk) (e : Z) : bool :=
  match LoadIdentity d base node with
  | Ok id => match id_Cert id with Some c => e <=? NotAfter c | None => false end
  | Err _ => false
  end.

Lemma ends_afterb_true base node d e :
  ends_afterb base node d e = true -> ends_after base node d e.
Proof.
  unfold ends_afterb, ends_after. destruct (LoadIdentity d base node) as [id|]; [|done].
  destruct (id_Cert id) as [c|] eqn:Hc; [|done]. intros He%Z.leb_le. by exists id, c.
Qed.

(** Every generation the watcher may attempt succeeds. *)
Fixpoint generations_succeed (base : Manager) (node : string) (hosts : list string) (d : disk)
    (ticks : list tick) : Prop :=
  match ticks with
  | [] => True
  | t :: ticks =>
      (exists id, (GenerateIdentity (t_rand t) (t_now t) d base node hosts).1 = Ok id) /\
      generations_succeed base node hosts (rotation_tick base node hosts d t) ticks
  end.

Lemma rotation_tick_ends base node hosts d t e :
  readable base node -> t_until t <= t_now t -> ends_after base node d e ->
  (exists id, (GenerateIdentity (t_rand t) (t_now t) d base node hosts).1 = Ok id) ->
  ends_after base node (rotation_tick base node hosts d t) (t_until t + 24 * Hour).
Proof.
  intros Hread Hle (id & c & Hl & Hc & _) [id' Hg]. unfold rotation_tick. rewrite Hl, Hc.
  destruct (Until (t_until t) (NotAfter c) <? 24 * Hour) eqn:Hu.
  - destruct (GenerateIdentity _ _ _ _ _ _) as [[id1|] d'] eqn:E; [|done].
    destruct (LoadIdentity_generated _ _ _ _ _ _ _ _ Hread E) as (Hl' & _).
    destruct (GenerateIdentity_ok _ _ _ _ _ _ _ _ E)
      as (? & ? & ? & ? & c' & _ & _ & _ & _ & Hb & Ha & Hid).
    exists id1, c'. split_and!; [done|by rewrite Hid|].
    pose proof (whole_seconds_range (t_now t + - Minute)). unfold Hour, Minute, Second in *. lia.
  - exists id, c. split_and!; [done..|]. apply Z.ltb_ge in Hu.
    unfold Until, Sub, Hour, Minute, Second in *. lia.
Qed.

(** C29. While the watcher runs and its generations succeed, the identity on the
    disk after each tick lasts a day from that tick: with ticks at most a day
    apart it never expires. *)
Theorem rotation_never_expires base node hosts d ticks e :
  readable base node -> ends_after base node d e ->
  Forall (fun t => t_until t <= t_now t) ticks -> generations_succeed base node hosts d ticks ->
  Forall (fun '(t, d') => ends_after base node d' (t_until t + 24 * Hour))
    (rotation_watcher base node hosts d ticks).
Proof.
  intros Hread He Hle. revert d e He.
  induction Hle as [|t ticks Ht Hle IH]; intros d e He Hg; [constructor|].
  destruct Hg as [Hg Hgs]. pose proof (rotation_tick_ends _ _ hosts _ _ _ Hread Ht He Hg) as He'.
  constructor; [done|]. by apply (IH _ _ He').
Qed.
End Props.

(** ** A concrete library

    Keys and random sources are numbers; a certificate's DER holds its serial
    number and its times, bit by bit; PEM marks each byte of the type. *)

Fixpoint pos_bytes (p : positive) : bytes :=
  match p with
  | xH => []
  | xO p => Byte.x00 :: pos_bytes p
  | xI p => Byte.x01 :: pos_bytes p
  end.

Fixpoint bytes_pos (b : bytes) : positive :=
  match b with
  | [] => xH
  | Byte.x00 :: b => xO (bytes_pos b)
  | _ :: b => xI (bytes_pos b)
  end.

Lemma bytes_pos_bytes p : bytes_pos (pos_bytes p) = p.
Proof. induction p as [p IH|p IH|]; cbn; [by rewrite IH..|done]. Qed.

Definition toy_marshal {A} `{Countable A} (a : A) : bytes := pos_bytes (encode a).
Definition toy_parse {A} `{Countable A} (b : bytes) : result A :=
  match decode (bytes_pos b) with
  | Some a => Ok a
  | None => Err (errorString "malformed")
  end.

Lemma toy_parse_marshal {A} `{Countable A} (a : A) : toy_parse (toy_marshal a) = Ok a.
Proof. unfold toy_parse, toy_marshal. by rewrite bytes_pos_bytes, decode_encode. Qed.

Definition toy_create (r : N) (tpl : Certificate) (k : N) : result bytes :=
  Ok (toy_marshal (SerialNumber tpl, whole_seconds (NotBefore tpl), whole_seconds (NotAfter tpl))).

Definition toy_parse_certificate (b : bytes) : result Certificate :=
  match toy_parse b with
  | Ok (s, nb, na) => Ok (mkCertificate s [] "" nb na 0 [] false [] [])
  | Err e => Err e
  end.

Lemma toy_parse_created (r : N) tpl (k : N) der : toy_create r tpl k = Ok der ->
  exists c, toy_parse_certificate der = Ok c /\
    NotBefore c = whole_seconds (NotBefore tpl) /\ NotAfter c = whole_seconds (NotAfter tpl).
Proof.
  unfold toy_create, toy_parse_certificate. intros [= <-]. rewrite toy_parse_marshal.
  by eexists.
Qed.

Fixpoint toy_pem (typ : string) (b : bytes) : bytes :=
  match typ with
  | "" => Byte.x00 :: b
  | String a typ => Byte.x01 :: byte_of_ascii a :: toy_pem typ b
  end.

Fixpoint toy_decode (b : bytes) : option (string * bytes) :=
  match b with
  | Byte.x00 :: b => Some ("", b)
  | Byte.x01 :: a :: b => (fun x => (String (ascii_of_byte a) x.1, x.2)) <$> toy_decode b
  | _ => None
  end.

Lemma toy_decode_pem typ b : toy_decode (toy_pem typ b) = Some (typ, b).
Proof.
  induction typ as [|a typ IH]; [done|]. cbn. by rewrite IH, ascii_of_byte_of_ascii.
Qed.

Definition toy_key_pair (cert key : bytes) : result (list bytes * N) :=
  match toy_decode cert, toy_decode key with
  | Some (_, der), Some (_, kder) =>
      match toy_parse kder with
      | Ok k => Ok ([der], k)
      | Err e => Err e
      end
  | _, _ => Err (errorString "no PEM data")
  end.

Lemma toy_key_pair_created (r : N) tpl k der kder :
  toy_create r tpl k = Ok der -> Ok (toy_marshal k) = Ok kder ->
  toy_key_pair (toy_pem "CERTIFICATE" der) (toy_pem "EC PRIVATE KEY" kder) = Ok ([der], k).
Proof.
  intros _ [= <-]. unfold toy_key_pair. by rewrite !toy_decode_pem, toy_parse_marshal.
Qed.

Definition toy : Crypto.
Proof.
  refine {|
    PrivateKey := N; Rand := N;
    GenerateKey := Ok; rand_Int r _ := Ok (Z.of_N r);
    CreateCertificate := toy_create; ParseCertificate := toy_parse_certificate;
    MarshalECPrivateKey k := Ok (toy_marshal k); ParseECPrivateKey := toy_parse;
    EncodeToMemory := toy_pem; Decode := toy_decode; X509KeyPair := toy_key_pair;
    ParseIP h := if String.eqb h "127.0.0.1" then Some [Byte.x7f; Byte.x00; Byte.x00; Byte.x01]
                 else None;
    Sum256 b := take 32 (b ++ replicate 32 Byte.x00);
    ParseCertificate_created := toy_parse_created;
    Decode_encoded := toy_decode_pem;
    X509KeyPair_created := toy_key_pair_created;
  |}.
  - by eexists.
  - intros k der [= <-]. apply toy_parse_marshal.
Defined.

(** ** Witnesses *)

Definition empty_disk : disk := mkDisk ∅ ∅.

Lemma reliable_readable base node : readable (H0 := reliable) base node.
Proof. done. Qed.

(** 2025-01-01, half a second past midnight. *)
Definition start : Z := 1735689600 * Second + Second / 2.

Definition ok_value {A} (x : result A) (d : A) : A :=
  match x with
  | Ok a => a
  | Err _ => d
  end.

Definition is_ok {A} (x : result A) : bool :=
  match x with
  | Ok _ => true
  | Err _ => false
  end.

Lemma is_ok_exists {A} (x : result A) : is_ok x = true -> exists a, x = Ok a.
Proof. destruct x; [by eexists|done]. Qed.

Definition toy_config : @Config toy := @mkConfig toy [] 0.

Definition first_start :=
  LoadOrCreateSelfSigned (H := toy) (H0 := reliable) 7%N start start start empty_disk
    "certs/cert.pem" "certs/key.pem" ["localhost"].
Definition second_start :=
  LoadOrCreateSelfSigned (H := toy) (H0 := reliable) 8%N (start + Hour) (start + Hour)
    (start + Hour) first_start.2 "certs/cert.pem" "certs/key.pem" ["localhost"].

Lemma self_signed_replaced_witness :
  exists cp kp,
    generateSelfSignedPEM (H := toy) 8%N (start + Hour) (start + Hour) ["localhost"] = Ok (cp, kp) /\
    files second_start.2 = <["certs/key.pem" := kp]> (<["certs/cert.pem" := cp]>
      (files first_start.2)).
Proof.
  refine (self_signed_replaced (H := toy) (H0 := reliable) 7%N start start start empty_disk
    "certs/cert.pem" "certs/key.pem" ["localhost"] (ok_value first_start.1 toy_config)
    first_start.2 8%N (start + Hour) (start + Hour) (start + Hour) ["localhost"]
    (ok_value second_start.1 toy_config) second_start.2 _ _ _ _ _); try done.
Defined.

Definition first_identity :=
  GenerateIdentity (H := toy) (H0 := reliable) 7%N start empty_disk (NewManager "pki") "node-1" ["localhost"].
Definition no_identity : @Identity toy := @mkIdentity toy "" "" "" None 0%N.

Lemma identity_stable_witness :
  LoadIdentity (H := toy) (H0 := reliable) first_identity.2 (NewManager "pki") "node-1"
    = Ok (ok_value first_identity.1 no_identity) /\
  LoadOrCreateIdentity (H := toy) (H0 := reliable) 9%N (start + 11 * 24 * Hour)
    (start + 11 * 24 * Hour) first_identity.2 (NewManager "pki") "node-1" ["localhost"]
    = (Ok (ok_value first_identity.1 no_identity), first_identity.2).
Proof.
  refine (identity_stable (H := toy) (H0 := reliable) 7%N start empty_disk (NewManager "pki") "node-1"
    ["localhost"] (ok_value first_identity.1 no_identity) first_identity.2 9%N _ _ ["localhost"]
    (reliable_readable _ _) _ _ _); [reflexivity|by vm_compute..].
Defined.

Definition late_start :=
  LoadOrCreateIdentity (H := toy) (H0 := reliable) 9%N (start + 12 * 24 * Hour)
    (start + 12 * 24 * Hour) first_identity.2 (NewManager "pki") "node-1" ["localhost"].

Lemma identity_has_a_day_witness :
  id_NodeID (ok_value late_start.1 no_identity) = "node-1" /\
  exists c, id_Cert (ok_value late_start.1 no_identity) = Some c /\
    start + 12 * 24 * Hour + 24 * Hour < NotAfter c.
Proof.
  refine (identity_has_a_day (H := toy) (H0 := reliable) 9%N (start + 12 * 24 * Hour)
    (start + 12 * 24 * Hour) first_identity.2 (NewManager "pki") "node-1" ["localhost"]
    (ok_value late_start.1 no_identity) late_start.2 _ _); [by vm_compute|reflexivity].
Defined.

(** Three ticks: nothing to do, a rotation, nothing to do. *)
Definition three_ticks : list (@tick toy) :=
  [@mkTick toy (start + 11 * 24 * Hour) (start + 11 * 24 * Hour) 8%N;
   @mkTick toy (start + 12 * 24 * Hour) (start + 12 * 24 * Hour) 9%N;
   @mkTick toy (start + 13 * 24 * Hour) (start + 13 * 24 * Hour) 10%N].

Lemma rotation_never_expires_witness :
  Forall (fun '(t, d') => ends_after (H := toy) (H0 := reliable) (NewManager "pki") "node-1" d'
      (t_until (H := toy) t + 24 * Hour))
    (rotation_watcher (H := toy) (H0 := reliable) (NewManager "pki") "node-1" [] first_identity.2 three_ticks).
Proof.
  refine (rotation_never_expires (H := toy) (H0 := reliable) (NewManager "pki") "node-1" []
    first_identity.2 three_ticks start (reliable_readable _ _) _ _ _).
  - apply ends_afterb_true. vm_compute. reflexivity.
  - by repeat constructor.
  - repeat (split; [apply is_ok_exists; vm_compute; reflexivity|]). exact I.
Defined.
