(* ===== verification/Chat.v ===== *)
(** * The chat hub of the streaming demo (examples/streaming-demo/main.go)

    Rooms with a bounded history and buffered subscriber channels.  The parts
    under the hub's mutex are atomic; a publisher sends to the channels it
    collected after it has released the mutex, one step per channel, so that
    other goroutines run in between ([chat_step]). *)

From S2P Require Import Prelude GoStd NetURL Wire Validation Reqctx Reply.
From Stdlib Require Import Ascii.

Local Open Scope string_scope.
Local Open Scope list_scope.

(** ** Data *)

Definition chatHistoryLimit : nat := 120.

Record chatEvent := mkChatEvent {
  ev_ID : string;
  ev_Kind : string;
  ev_Room : string;
  ev_Sender : string;
  ev_ClientID : string;
  ev_Text : string;
  ev_SentAt : Z;
}.

Record chatPostBody := mkChatPostBody {
  post_Sender : string;
  post_ClientID : string;
  post_Text : string;
}.

(** Channels are numbered in the order they are made. *)
Record chatRoom := mkChatRoom {
  history : list chatEvent;
  subscribers : gmap string nat;
}.

(** A channel of capacity 32. *)
Record channel := mkChannel {
  buffer : list chatEvent;
  ch_closed : bool;
}.

Definition channel_capacity : nat := 32.

Record chatHub := mkChatHub {
  rooms : gmap string chatRoom;
  channels : list channel;
}.

Definition newChatHub : chatHub := mkChatHub ∅ [].

(** ** Names and events *)

Section Names.
Context `{Unicode}.

Definition normalizeRoomName (room : string) : string :=
  let room := TrimSpace (ToLower room) in
  if String.eqb room "" then "lounge" else room.

Definition sanitizeChatName (name : string) : string :=
  let name := TrimSpace name in
  if String.eqb name "" then ""
  else if (32 <? String.length name)%nat then String.substring 0 32 name
  else name.

(** [now] is the clock in nanoseconds, at each of its two readings. *)
Definition newSystemEvent (now1 now2 : Z) (roomName text : string) : chatEvent :=
  mkChatEvent ("sys-" +:+ fmt_d now1) "system" roomName "system" "" text (now2 / 1000000).
End Names.

(** ** Channels *)

Definition open_chan : channel := mkChannel [] false.

(** A non-blocking send: [None] is the panic of a send on a closed channel. *)
Definition chan_send (c : channel) (e : chatEvent) : option channel :=
  if ch_closed c then None
  else if (length (buffer c) <? channel_capacity)%nat
  then Some (mkChannel (buffer c ++ [e]) false)
  else Some c.

(** [close]: closing a closed channel panics. *)
Definition chan_close (c : channel) : option channel :=
  if ch_closed c then None else Some (mkChannel (buffer c) true).

(** ** The hub under its mutex *)

Definition ensureRoomLocked (h : chatHub) (roomName : string) : chatRoom * chatHub :=
  match rooms h !! roomName with
  | Some room => (room, h)
  | None =>
      let room := mkChatRoom [] ∅ in
      (room, mkChatHub (<[roomName := room]> (rooms h)) (channels h))
  end.

Definition set_room (h : chatHub) (roomName : string) (room : chatRoom) : chatHub :=
  mkChatHub (<[roomName := room]> (rooms h)) (channels h).

Section Hub.
Context `{Unicode}.

Definition subscriber_id (now : Z) : string := "sub-" +:+ fmt_d now.

(** The subscriber's ID, the history, and the channel. *)
Definition subscribe (h : chatHub) (now : Z) (roomName : string)
    : string * list chatEvent * nat * chatHub :=
  let roomName := normalizeRoomName roomName in
  let id := subscriber_id now in
  let ch := length (channels h) in
  let h := mkChatHub (rooms h) (channels h ++ [open_chan]) in
  let '(room, h) := ensureRoomLocked h roomName in
  let h := set_room h roomName (mkChatRoom (history room) (<[id := ch]> (subscribers room))) in
  (id, history room, ch, h).

(** The closure [subscribe] returns; [None] is a panic. *)
Definition unsubscribe (h : chatHub) (roomName id : string) : option chatHub :=
  match rooms h !! normalizeRoomName roomName with
  | None => Some h
  | Some room =>
      match subscribers room !! id with
      | None => Some h
      | Some ch =>
          let h := set_room h (normalizeRoomName roomName)
                     (mkChatRoom (history room) (delete id (subscribers room))) in
          match channels h !! ch with
          | None => Some h
          | Some c =>
              match chan_close c with
              | None => None
              | Some c => Some (mkChatHub (rooms h) (<[ch := c]> (channels h)))
              end
          end
      end
  end.

(** [s[len(s)-n:]] when [s] is longer than [n]. *)
Definition keep_last {A} (n : nat) (s : list A) : list A :=
  if (n <? length s)%nat then drop (length s - n) s else s.

(** The locked part of [publish]: the event it stored, the subscribers of the
    room, and the hub. *)
Definition publish_locked (h : chatHub) (roomName : string) (event : chatEvent)
    : chatEvent * gmap string nat * chatHub :=
  let roomName := normalizeRoomName roomName in
  let event := mkChatEvent (ev_ID event) (ev_Kind event) roomName (ev_Sender event)
                 (ev_ClientID event) (ev_Text event) (ev_SentAt event) in
  let '(room, h) := ensureRoomLocked h roomName in
  let hist := keep_last chatHistoryLimit (history room ++ [event]) in
  (event, subscribers room, set_room h roomName (mkChatRoom hist (subscribers room))).

(** One iteration of the send loop. *)
Definition publish_send (h : chatHub) (event : chatEvent) (ch : nat) : option chatHub :=
  match channels h !! ch with
  | None => Some h
  | Some c =>
      match chan_send c event with
      | None => None
      | Some c => Some (mkChatHub (rooms h) (<[ch := c]> (channels h)))
      end
  end.

(** The send loop: the hub, and false where a send panicked. *)
Fixpoint publish_sends (h : chatHub) (event : chatEvent) (order : list nat) : chatHub * bool :=
  match order with
  | [] => (h, true)
  | ch :: order =>
      match publish_send h event ch with
      | None => (h, false)
      | Some h => publish_sends h event order
      end
  end.

(** Go leaves the order in which the loop over the map meets them open. *)
Definition collected (subs : gmap string nat) (order : list nat) : Prop :=
  Permutation order (map_to_list subs).*2.

(** A receive: an event, the end of the channel, or a wait. *)
Inductive received := REvent (e : chatEvent) | RClosed | RWaits.

Definition receive (h : chatHub) (ch : nat) : received * chatHub :=
  match channels h !! ch with
  | None => (RWaits, h)
  | Some c =>
      match buffer c with
      | e :: b => (REvent e, mkChatHub (rooms h) (<[ch := mkChannel b (ch_closed c)]> (channels h)))
      | [] => (if ch_closed c then RClosed else RWaits, h)
      end
  end.
End Hub.

(** ** Goroutines *)

(** A publisher between its sends, and what a subscriber has seen so far. *)
Record publisher := mkPublisher {
  pub_event : chatEvent;
  pub_todo : list nat;
}.

(** What the proofs remember of a channel: the room, how many events had been
    published when it was made, what was received, what a full buffer lost. *)
Record view := mkView {
  v_room : string;
  v_from : nat;
  v_received : list chatEvent;
  v_dropped : list chatEvent;
}.

(** [log] has every published event, in the order of the mutex. *)
Record chat := mkChat {
  hub : chatHub;
  publishers : list publisher;
  log : list chatEvent;
  views : list view;
  panicked : bool;
}.

Definition new_chat : chat := mkChat newChatHub [] [] [] false.

Inductive label := LSubscribe | LPublish | LSend | LUnsubscribe | LReceive.

Definition see (e : chatEvent) (v : view) : view :=
  mkView (v_room v) (v_from v) (v_received v ++ [e]) (v_dropped v).
Definition lose (e : chatEvent) (v : view) : view :=
  mkView (v_room v) (v_from v) (v_received v) (v_dropped v ++ [e]).

(** A send to [ch] finds its buffer full. *)
Definition full (h : chatHub) (ch : nat) : bool :=
  match channels h !! ch with
  | Some c => negb (length (buffer c) <? channel_capacity)%nat
  | None => false
  end.

Section Steps.
Context `{Unicode}.

Inductive chat_step : label -> chat -> chat -> Prop :=
  | cs_subscribe h ps l vs p now name id hist ch h' :
      subscribe h now name = (id, hist, ch, h') ->
      chat_step LSubscribe (mkChat h ps l vs p)
        (mkChat h' ps l (vs ++ [mkView (normalizeRoomName name) (length l) [] []]) p)
  | cs_publish h ps l vs p name event e subs order h' :
      publish_locked h name event = (e, subs, h') -> collected subs order ->
      chat_step LPublish (mkChat h ps l vs p)
        (mkChat h' (ps ++ [mkPublisher e order]) (l ++ [e]) vs p)
  | cs_send h ps1 e ch todo ps2 l vs p h' :
      publish_send h e ch = Some h' ->
      chat_step LSend (mkChat h (ps1 ++ mkPublisher e (ch :: todo) :: ps2) l vs p)
        (mkChat h' (ps1 ++ mkPublisher e todo :: ps2) l
           (if full h ch then alter (lose e) ch vs else vs) p)
  | cs_send_panics h ps1 e ch todo ps2 l vs p :
      publish_send h e ch = None ->
      chat_step LSend (mkChat h (ps1 ++ mkPublisher e (ch :: todo) :: ps2) l vs p)
        (mkChat h (ps1 ++ mkPublisher e [] :: ps2) l vs true)
  | cs_unsubscribe h ps l vs p name id h' :
      unsubscribe h name id = Some h' ->
      chat_step LUnsubscribe (mkChat h ps l vs p) (mkChat h' ps l vs p)
  | cs_unsubscribe_panics h ps l vs p name id :
      unsubscribe h name id = None ->
      chat_step LUnsubscribe (mkChat h ps l vs p) (mkChat h ps l vs true)
  | cs_receive h ps l vs p ch e h' :
      receive h ch = (REvent e, h') ->
      chat_step LReceive (mkChat h ps l vs p) (mkChat h' ps l (alter (see e) ch vs) p).

Definition any_step (c c' : chat) : Prop := exists a, chat_step a c c'.

(** No subscriber leaves while a publisher is sending. *)
Definition orderly_step (c c' : chat) : Prop :=
  exists a, chat_step a c c' /\
    (a = LUnsubscribe -> Forall (fun p => pub_todo p = []) (publishers c)).
End Steps.

(** ** The message handler *)

(** [POST /chat/rooms/:room/messages], with the hub as the state shared by the
    requests and the sends of [publish] made at once.  The order of the sends
    is [order]'s. *)
Section Handler.
Context {V : Type} `{Unicode} `{Msgpack V} `{Validator V}.
Context `{Boxed chatPostBody V} `{Boxed (bool * string * string) V}.
Variable order : gmap string nat -> list nat.

Definition publish (roomName : string) (event : chatEvent) : M V chatHub unit :=
  h ← get_world;
  let '(e, subs, h) := publish_locked h roomName event in
  let '(h, ok) := publish_sends h e (order subs) in
  _ ← put_world h;
  if ok : bool then mret tt else panic (PanicString "send on closed channel").

(** The reply's map of [accepted], [id] and [room] is boxed as a triple. *)
Definition post_message : HandlerFunc V chatHub :=
  c ← get_ctx;
  let roomName := normalizeRoomName (Param c "room") in
  let '(v, err) := Bind c (box (mkChatPostBody "" "" "")) in
  match err, unbox v with
  | Some _, _ | None, None => Error 400 "invalid chat payload" []
  | None, Some body =>
      let sender := sanitizeChatName (post_Sender body) in
      let text := TrimSpace (post_Text body) in
      let clientID := TrimSpace (post_ClientID body) in
      if String.eqb sender "" then Error 400 "sender is required" []
      else if String.eqb text "" then Error 400 "text is required" []
      else if String.eqb clientID "" then Error 400 "clientId is required" []
      else
        now1 ← time_Now;
        now2 ← time_Now;
        let event := mkChatEvent ("msg-" +:+ fmt_d now1) "message" roomName sender clientID text
                       (now2 / 1000000) in
        _ ← publish roomName event;
        MsgPack 202 (Some (box (true, ev_ID event, roomName)))
  end.
End Handler.
