(* ===== verification/ChatProps.v ===== *)
(** * Properties of the chat hub

    The history of a room is the end of what was published to it, a subscriber
    receives what is published after its snapshot, each event at most once and
    all of them but those a full buffer loses; and the hub's goroutines do not
    panic, provided no subscriber leaves while a publisher is sending. *)

From S2P Require Import Prelude GoStd NetURL Wire Validation Reqctx Reply Chat.
From Stdlib Require Import Ascii.

Local Open Scope string_scope.
Local Open Scope list_scope.

(** ** The log of a room *)

Definition in_room (name : string) (e : chatEvent) : Prop := ev_Room e = name.
#[export] Instance in_room_dec name e : Decision (in_room name e).
Proof. unfold in_room. apply _. Defined.
Definition room_log (name : string) (l : list chatEvent) : list chatEvent :=
  filter (in_room name) l.

Lemma keep_last_drop {A} n (l : list A) : keep_last n l = drop (length l - n) l.
Proof.
  unfold keep_last. destruct (Nat.ltb_spec n (length l)); [done|].
  by replace (length l - n)%nat with 0%nat by lia.
Qed.

Lemma keep_last_snoc {A} n (l : list A) x :
  keep_last n (keep_last n l ++ [x]) = keep_last n (l ++ [x]).
Proof.
  rewrite !keep_last_drop, !length_app, length_drop. cbn.
  destruct (Nat.le_gt_cases (length l) n) as [Hl|Hl].
  - replace (length l - n)%nat with 0%nat by lia. by rewrite Nat.sub_0_r, drop_0.
  - rewrite !drop_app, drop_drop, length_drop. f_equal; f_equal; lia.
Qed.

Definition registered (h : chatHub) (name id : string) (ch : nat) : Prop :=
  exists r, rooms h !! name = Some r /\ subscribers r !! id = Some ch.

Definition room_history (h : chatHub) (name : string) : list chatEvent :=
  default [] (history <$> rooms h !! name).

Section Facts.
Context `{Unicode}.

(** ** The operations under the mutex *)

Lemma ensureRoom_spec h name r h' : ensureRoomLocked h name = (r, h') ->
  channels h' = channels h /\ rooms h' !! name = Some r /\
  (forall n, room_history h' n = room_history h n) /\
  (forall n i ch, registered h' n i ch <-> registered h n i ch) /\
  (forall n, n <> name -> rooms h' !! n = rooms h !! n).
Proof.
  unfold ensureRoomLocked. destruct (rooms h !! name) as [r0|] eqn:E; intros [= <- <-]; [done|].
  unfold room_history, registered. cbn. split_and!; [done|by rewrite lookup_insert_eq|..].
  - intros n. destruct (decide (n = name)) as [->|Hn];
      [by rewrite lookup_insert_eq, E|by rewrite lookup_insert_ne].
  - intros n i ch. destruct (decide (n = name)) as [->|Hn]; [|by rewrite lookup_insert_ne].
    rewrite lookup_insert_eq, E. split; intros (r & Hr & Hi); [|done]. by simplify_eq/=.
  - intros n Hn. by rewrite lookup_insert_ne.
Qed.

Lemma set_room_registered h name r n i ch :
  registered (set_room h name r) n i ch <->
  (n = name /\ subscribers r !! i = Some ch) \/ (n <> name /\ registered h n i ch).
Proof.
  unfold registered. cbn. destruct (decide (n = name)) as [->|Hn].
  - rewrite lookup_insert_eq. naive_solver.
  - rewrite lookup_insert_ne by done. naive_solver.
Qed.

Lemma set_room_history h name r n :
  room_history (set_room h name r) n = if decide (n = name) then history r else room_history h n.
Proof.
  unfold room_history. cbn. case_decide as Hn; [subst; by rewrite lookup_insert_eq|].
  by rewrite lookup_insert_ne.
Qed.

Lemma registered_room h name r i ch :
  rooms h !! name = Some r -> (registered h name i ch <-> subscribers r !! i = Some ch).
Proof. unfold registered. naive_solver. Qed.

Lemma subscribe_spec h now name id hist ch h' :
  subscribe h now name = (id, hist, ch, h') ->
  id = subscriber_id now /\ ch = length (channels h) /\
  hist = room_history h (normalizeRoomName name) /\
  channels h' = channels h ++ [open_chan] /\
  (forall n, room_history h' n = room_history h n) /\
  (forall n i c, registered h' n i c <->
    (n = normalizeRoomName name /\ i = id /\ c = ch) \/
    (registered h n i c /\ ~ (n = normalizeRoomName name /\ i = id))).
Proof.
  unfold subscribe. set (rn := normalizeRoomName name).
  set (h0 := mkChatHub (rooms h) (channels h ++ [open_chan])).
  destruct (ensureRoomLocked h0 rn) as [r h1] eqn:E. intros [= <- <- <- <-].
  destruct (ensureRoom_spec _ _ _ _ E) as (Hc & Hr & Hh & Hreg & _).
  assert (room_history h rn = history r) as Hhist.
  { change (room_history h rn) with (room_history h0 rn). rewrite <- Hh.
    unfold room_history. by rewrite Hr. }
  split_and!; [done..|exact Hc| |].
  - intros n. rewrite set_room_history. case_decide as Hn; [by subst|apply Hh].
  - intros n i c. rewrite set_room_registered. cbn [subscribers].
    change (registered h n i c) with (registered h0 n i c). rewrite <- Hreg.
    destruct (decide (n = rn)) as [->|Hn]; [|naive_solver].
    rewrite (registered_room h1 rn r) by done.
    destruct (decide (i = subscriber_id now)) as [->|Hi].
    + rewrite lookup_insert_eq. naive_solver.
    + rewrite lookup_insert_ne by done. naive_solver.
Qed.

Lemma publish_locked_spec h name event e subs h' :
  publish_locked h name event = (e, subs, h') ->
  ev_Room e = normalizeRoomName name /\ channels h' = channels h /\
  (forall n, room_history h' n =
     if decide (n = ev_Room e) then keep_last chatHistoryLimit (room_history h n ++ [e])
     else room_history h n) /\
  (forall n i c, registered h' n i c <-> registered h n i c) /\
  (forall i c, subs !! i = Some c <-> registered h (ev_Room e) i c).
Proof.
  unfold publish_locked. set (rn := normalizeRoomName name).
  destruct (ensureRoomLocked h rn) as [r h1] eqn:E. intros [= <- <- <-].
  destruct (ensureRoom_spec _ _ _ _ E) as (Hc & Hr & Hh & Hreg & _). cbn [ev_Room].
  split_and!; [done|done|..].
  - intros n. rewrite set_room_history. case_decide as Hn; [|apply Hh]. subst n. cbn [history].
    rewrite <- Hh. unfold room_history. by rewrite Hr.
  - intros n i c. rewrite set_room_registered, <- Hreg. cbn [subscribers].
    destruct (decide (n = rn)) as [->|Hn]; [|naive_solver].
    rewrite (registered_room h1 rn r) by done. naive_solver.
  - intros i c. by rewrite <- Hreg, (registered_room h1 rn r).
Qed.

Lemma publish_send_spec h e ch h' : publish_send h e ch = Some h' ->
  rooms h' = rooms h /\
  (channels h !! ch = None /\ channels h' = channels h \/
   exists c c', channels h !! ch = Some c /\ chan_send c e = Some c' /\
     channels h' = <[ch := c']> (channels h)).
Proof.
  unfold publish_send. destruct (channels h !! ch) as [c|] eqn:Hc; [|intros [= <-]; auto].
  destruct (chan_send c e) as [c'|] eqn:Hs; intros [= <-]. cbn. split; [done|right]. by exists c, c'.
Qed.

Lemma unsubscribe_spec h name id h' : unsubscribe h name id = Some h' ->
  (forall n, room_history h' n = room_history h n) /\
  (forall n i c, registered h' n i c <->
     registered h n i c /\ ~ (n = normalizeRoomName name /\ i = id)) /\
  (channels h' = channels h \/
   exists ch c, registered h (normalizeRoomName name) id ch /\ channels h !! ch = Some c /\
     channels h' = <[ch := mkChannel (buffer c) true]> (channels h)).
Proof.
  unfold unsubscribe. set (rn := normalizeRoomName name).
  destruct (rooms h !! rn) as [r|] eqn:Hr.
  2: { intros [= <-]. split_and!; [done| |by left]. intros n i c. split; [|tauto].
       intros Hreg. split; [done|]. intros [-> ->]. destruct Hreg as (r & Hr' & _). congruence. }
  destruct (subscribers r !! id) as [ch|] eqn:Hi.
  2: { intros [= <-]. split_and!; [done| |by left]. intros n i c. split; [|tauto].
       intros Hreg. split; [done|]. intros [-> ->].
       apply (registered_room h rn r) in Hreg; congruence. }
  set (h1 := set_room h rn (mkChatRoom (history r) (delete id (subscribers r)))).
  assert ((forall n, room_history h1 n = room_history h n) /\
    (forall n i c, registered h1 n i c <-> registered h n i c /\ ~ (n = rn /\ i = id)))
    as [Hh Hreg].
  { split.
    - intros n. subst h1. rewrite set_room_history. case_decide; [subst|done].
      unfold room_history. by rewrite Hr.
    - intros n i c. subst h1. rewrite set_room_registered. cbn [subscribers].
      destruct (decide (n = rn)) as [->|Hn]; [|naive_solver].
      rewrite (registered_room h rn r) by done. rewrite lookup_delete_Some. naive_solver. }
  destruct (channels h1 !! ch) as [c|] eqn:Hc; [|intros [= <-]; auto].
  unfold chan_close. destruct (ch_closed c); intros [= <-].
  split_and!; [done|done|right]. exists ch, c. split_and!; [by exists r|done..].
Qed.

Lemma receive_spec h ch e h' : receive h ch = (REvent e, h') ->
  rooms h' = rooms h /\
  exists b cl, channels h !! ch = Some (mkChannel (e :: b) cl) /\
    channels h' = <[ch := mkChannel b cl]> (channels h).
Proof.
  unfold receive. destruct (channels h !! ch) as [[b cl]|] eqn:Hc; [|done]. cbn.
  destruct b as [|e' b]; [by destruct cl|]. intros [= <- <-]. split; [done|]. by exists b, cl.
Qed.

(** ** Histories *)

Lemma room_history_rooms h h' n : rooms h' = rooms h -> room_history h' n = room_history h n.
Proof. unfold room_history. by intros ->. Qed.

Lemma registered_rooms h h' n i ch :
  rooms h' = rooms h -> (registered h' n i ch <-> registered h n i ch).
Proof. unfold registered. by intros ->. Qed.

Definition history_ok (c : chat) : Prop :=
  forall name, room_history (hub c) name = keep_last chatHistoryLimit (room_log name (log c)).

Lemma history_ok_step a c c' : chat_step a c c' -> history_ok c -> history_ok c'.
Proof.
  intros Hs Hc name. specialize (Hc name). destruct Hs; cbn in *; try done.
  - destruct (subscribe_spec _ _ _ _ _ _ _ H0) as (_ & _ & _ & _ & Hh & _). by rewrite Hh.
  - destruct (publish_locked_spec _ _ _ _ _ _ H0) as (_ & _ & Hh & _). rewrite Hh.
    unfold room_log, in_room in *. rewrite filter_app, filter_cons, filter_nil.
    case_decide as Hn; subst; case_decide; try done; [|by rewrite app_nil_r].
    by rewrite Hc, keep_last_snoc.
  - destruct (publish_send_spec _ _ _ _ H0) as [Hr _]. by rewrite (room_history_rooms _ _ _ Hr).
  - destruct (unsubscribe_spec _ _ _ _ H0) as [Hh _]. by rewrite Hh.
  - destruct (receive_spec _ _ _ _ H0) as [Hr _]. by rewrite (room_history_rooms _ _ _ Hr).
Qed.

(** ** Subscribers and their channels *)

Record wf (c : chat) : Prop := mkWf {
  wf_len : length (views c) = length (channels (hub c));
  wf_reg n i ch : registered (hub c) n i ch -> exists cn v,
    channels (hub c) !! ch = Some cn /\ ch_closed cn = false /\
    views c !! ch = Some v /\ v_room v = n;
  wf_inj n i i' ch : registered (hub c) n i ch -> registered (hub c) n i' ch -> i = i';
  wf_pend p ch : p ∈ publishers c -> ch ∈ pub_todo p -> (ch < length (channels (hub c)))%nat;
  wf_from v : v ∈ views c -> (v_from v <= length (log c))%nat;
}.

Lemma wf_new : wf new_chat.
Proof.
  assert (forall n i ch, ~ registered newChatHub n i ch) as Hno
    by (intros n i ch (r & Hr & _); cbn in Hr; by rewrite lookup_empty in Hr).
  split; cbn; [done|by intros * []%Hno..|intros p ch Hin|intros v Hin]; inversion Hin.
Qed.

(** [alter] on a list, at a position. *)
Lemma lookup_alter_cases (f : view -> view) k (vs : list view) i :
  alter f k vs !! i = if decide (i = k) then f <$> vs !! i else vs !! i.
Proof.
  rewrite list_lookup_alter. repeat case_decide; congruence.
Qed.

(** A change of the views that keeps rooms and positions. *)
Lemma views_alter (f : view -> view) k (vs : list view) i v :
  (forall w, v_room (f w) = v_room w /\ v_from (f w) = v_from w) ->
  alter f k vs !! i = Some v ->
  exists w, vs !! i = Some w /\ v_room v = v_room w /\ v_from v = v_from w.
Proof.
  intros Hf. rewrite lookup_alter_cases. case_decide; [|by exists v].
  rewrite fmap_Some. intros (w & Hw & ->). exists w. by destruct (Hf w).
Qed.

Lemma see_keeps e w : v_room (see e w) = v_room w /\ v_from (see e w) = v_from w.
Proof. done. Qed.
Lemma lose_keeps e w : v_room (lose e w) = v_room w /\ v_from (lose e w) = v_from w.
Proof. done. Qed.

#[local] Hint Resolve see_keeps lose_keeps : qf.

Lemma wf_channel c ch cn : wf c -> channels (hub c) !! ch = Some cn -> exists v, views c !! ch = Some v.
Proof. intros Hc Hch%lookup_lt_Some. apply lookup_lt_is_Some_2. by rewrite (wf_len c Hc). Qed.

Lemma wf_subscribe h ps l vs p now name id hist ch h' :
  subscribe h now name = (id, hist, ch, h') -> wf (mkChat h ps l vs p) ->
  wf (mkChat h' ps l (vs ++ [mkView (normalizeRoomName name) (length l) [] []]) p).
Proof.
  intros Hs [Hlen Hreg Hinj Hpend Hfrom]; cbn in *.
  destruct (subscribe_spec _ _ _ _ _ _ _ Hs) as (-> & -> & _ & Hch & _ & Hr).
  assert (forall n i, ~ registered h n i (length (channels h))) as Hnew.
  { intros n i Hn. destruct (Hreg _ _ _ Hn) as (cn & _ & Hcn & _).
    apply lookup_lt_Some in Hcn. lia. }
  split; cbn; rewrite ?Hch.
  - rewrite !length_app, Hlen. done.
  - intros n i ch [(-> & -> & ->)|[Hn _]]%Hr.
    + exists open_chan. eexists. rewrite <- Hlen at 2.
      by rewrite !lookup_app_r, Hlen, !Nat.sub_diag by lia.
    + destruct (Hreg _ _ _ Hn) as (cn & v & Hcn & Hcl & Hv & Hrm). exists cn, v.
      by rewrite !lookup_app_l by (by eapply lookup_lt_Some).
  - intros n i i' ch [(-> & -> & ->)|[Hn _]]%Hr [(Hn' & -> & He)|[Hn' _]]%Hr; [done|..].
    + by apply Hnew in Hn'.
    + subst ch. by apply Hnew in Hn.
    + by eapply Hinj.
  - intros q ch Hq Hin. rewrite length_app. specialize (Hpend q ch Hq Hin). cbn. lia.
  - intros v [Hv| ->%list_elem_of_singleton]%elem_of_app; [by apply Hfrom|done].
Qed.

Lemma collected_in subs order ch : collected subs order -> (ch ∈ order <-> exists i, subs !! i = Some ch).
Proof.
  intros Ho. unfold collected in Ho. rewrite Ho, list_elem_of_fmap. split.
  - intros ([i x] & -> & Hi%elem_of_map_to_list). by exists i.
  - intros [i Hi]. exists (i, ch). by rewrite elem_of_map_to_list.
Qed.

Lemma wf_publish h ps l vs p name event e subs order h' :
  publish_locked h name event = (e, subs, h') -> collected subs order ->
  wf (mkChat h ps l vs p) -> wf (mkChat h' (ps ++ [mkPublisher e order]) (l ++ [e]) vs p).
Proof.
  intros Hp Ho [Hlen Hreg Hinj Hpend Hfrom]; cbn in *.
  destruct (publish_locked_spec _ _ _ _ _ _ Hp) as (_ & Hch & _ & Hr & Hsubs).
  split; cbn; rewrite ?Hch; [done|..].
  - intros n i ch Hn%Hr. by apply Hreg with i.
  - intros n i i' ch Hn%Hr Hn'%Hr. by eapply Hinj.
  - intros q ch [Hq| ->%list_elem_of_singleton]%elem_of_app Hin; [by eapply Hpend|]. cbn in Hin.
    apply (collected_in _ _ _ Ho) in Hin as [i Hi%Hsubs].
    destruct (Hreg _ _ _ Hi) as (cn & _ & Hcn & _). by eapply lookup_lt_Some.
  - intros v Hv. rewrite length_app. specialize (Hfrom v Hv). lia.
Qed.

(** The same views up to what was received and lost. *)
Definition views_like (vs vs' : list view) : Prop :=
  length vs' = length vs /\
  forall i v, vs' !! i = Some v -> exists w, vs !! i = Some w /\ v_room v = v_room w /\ v_from v = v_from w.

Lemma views_like_refl vs : views_like vs vs.
Proof. split; [done|]. intros i v Hv. by exists v. Qed.

Lemma views_like_alter f k vs :
  (forall w, v_room (f w) = v_room w /\ v_from (f w) = v_from w) -> views_like vs (alter f k vs).
Proof. intros Hf. split; [apply length_alter|]. intros i v. by apply views_alter. Qed.

(** A step that changes channels, views and publishers, but makes none. *)
Lemma wf_update h h' ps ps' l vs vs' p p' :
  (forall n i ch, registered h' n i ch -> registered h n i ch) ->
  length (channels h') = length (channels h) -> views_like vs vs' ->
  (forall n i ch cn, registered h' n i ch -> channels h !! ch = Some cn -> ch_closed cn = false ->
     exists cn', channels h' !! ch = Some cn' /\ ch_closed cn' = false) ->
  (forall q ch, q ∈ ps' -> ch ∈ pub_todo q -> exists q', q' ∈ ps /\ ch ∈ pub_todo q') ->
  wf (mkChat h ps l vs p) -> wf (mkChat h' ps' l vs' p').
Proof.
  intros Hr Hl [Hvl Hv] Hc Hps [Hlen Hreg Hinj Hpend Hfrom]; cbn in *. split; cbn.
  - by rewrite Hl, Hvl.
  - intros n i ch Hn'. pose proof (Hr _ _ _ Hn') as Hn.
    destruct (Hreg _ _ _ Hn) as (cn & w & Hcn & Hcl & Hw & <-).
    destruct (Hc _ _ _ _ Hn' Hcn Hcl) as (cn' & Hcn' & Hcl').
    destruct (lookup_lt_is_Some_2 vs' ch) as [v Hv']; [rewrite Hvl; by eapply lookup_lt_Some|].
    destruct (Hv _ _ Hv') as (w' & Hw' & Hrm & _). exists cn', v. split_and!; congruence.
  - intros n i i' ch Hn%Hr Hn'%Hr. by eapply Hinj.
  - intros q ch Hq Hin. destruct (Hps q ch Hq Hin) as (q' & Hq' & Hin'). rewrite Hl. by eapply Hpend.
  - intros v [i Hi]%list_elem_of_lookup. destruct (Hv _ _ Hi) as (w & Hw & _ & ->).
    apply Hfrom, list_elem_of_lookup. by exists i.
Qed.

(** The next send of a publisher in the middle of the list. *)
Lemma todo_shrinks ps1 e todo todo' ps2 q ch :
  (forall x, x ∈ todo' -> x ∈ todo) ->
  q ∈ ps1 ++ mkPublisher e todo' :: ps2 -> ch ∈ pub_todo q ->
  exists q', q' ∈ ps1 ++ mkPublisher e todo :: ps2 /\ ch ∈ pub_todo q'.
Proof.
  intros Hsub. rewrite elem_of_app, elem_of_cons. intros [Hq|[->|Hq]] Hin.
  - exists q. rewrite elem_of_app. auto.
  - exists (mkPublisher e todo). rewrite elem_of_app, elem_of_cons. cbn in *. auto.
  - exists q. rewrite elem_of_app, elem_of_cons. auto.
Qed.

Lemma chan_send_open c e c' : chan_send c e = Some c' -> ch_closed c = false /\ ch_closed c' = false.
Proof. unfold chan_send. destruct (ch_closed c) eqn:E; [done|]. by case_match; intros [= <-]. Qed.

Lemma wf_step a c c' : chat_step a c c' -> wf c -> wf c'.
Proof.
  intros Hs. destruct Hs.
  - by eapply wf_subscribe.
  - by eapply wf_publish.
  - destruct (publish_send_spec _ _ _ _ H0) as [Hr Hc]. apply wf_update.
    + intros n i x. by apply registered_rooms.
    + destruct Hc as [[_ ->]|(cn & cn' & _ & _ & ->)]; [done|]. by rewrite length_insert.
    + destruct (full h ch); [by apply views_like_alter|apply views_like_refl].
    + intros n i x cn _ Hcn Hcl. destruct Hc as [[_ ->]|(c0 & c0' & Hc0 & Hsend & ->)]; [by exists cn|].
      destruct (decide (x = ch)) as [->|Hx].
      * exists c0'. apply chan_send_open in Hsend as [_ Hcl0].
        rewrite list_lookup_insert_eq by (by eapply lookup_lt_Some). done.
      * exists cn. by rewrite list_lookup_insert_ne.
    + intros q x. apply todo_shrinks. intros y Hy. by right.
  - apply wf_update; [done|done|apply views_like_refl|by eauto|].
    intros q x. apply todo_shrinks. intros y Hy. inversion Hy.
  - intros Hwf. pose proof Hwf as [_ Hreg Hinj _ _]. cbn in *.
    destruct (unsubscribe_spec _ _ _ _ H0) as (_ & Hr & Hc). revert Hwf. apply wf_update.
    + intros n i x Hn. by apply Hr.
    + destruct Hc as [->|(ch & cn & _ & _ & ->)]; [done|]. by rewrite length_insert.
    + apply views_like_refl.
    + intros n i x cn [Hn Hne]%Hr Hcn Hcl. destruct Hc as [->|(ch & c0 & Hid & _ & ->)]; [by exists cn|].
      exists cn. rewrite list_lookup_insert_ne; [done|]. intros <-. apply Hne.
      destruct (Hreg _ _ _ Hn) as (_ & v & _ & _ & Hv & <-).
      destruct (Hreg _ _ _ Hid) as (_ & v' & _ & _ & Hv' & Hrm). simplify_eq.
      rewrite <- Hrm in Hid. rewrite Hrm. split; [done|]. rewrite Hrm in *. by eapply Hinj.
    + intros q x Hq Hin. by exists q.
  - by apply wf_update; [done|done|apply views_like_refl|eauto|intros q x Hq Hin; exists q].
  - destruct (receive_spec _ _ _ _ H0) as [Hr (b & cl & Hb & Hc)]. apply wf_update.
    + intros n i x. by apply registered_rooms.
    + by rewrite Hc, length_insert.
    + by apply views_like_alter.
    + intros n i x cn _ Hcn Hcl. rewrite Hc. destruct (decide (x = ch)) as [->|Hx].
      * rewrite list_lookup_insert_eq by (by eapply lookup_lt_Some). eexists. split; [done|].
        rewrite Hb in Hcn. by injection Hcn as <-.
      * exists cn. by rewrite list_lookup_insert_ne.
    + intros q x Hq Hin. by exists q.
Qed.

(** ** What a subscriber is sent *)

(** The events that publishers have yet to send to [ch]. *)
Definition to_send (ch : nat) (p : publisher) : list chatEvent :=
  (fun _ => pub_event p) <$> filter (fun x => x = ch) (pub_todo p).
Definition pending (ps : list publisher) (ch : nat) : list chatEvent := ps ≫= to_send ch.

#[local] Arguments to_send : simpl never.
#[local] Arguments pending : simpl never.

(** Everything published to a room since [from]. *)
Definition published_since (c : chat) (v : view) : list chatEvent :=
  room_log (v_room v) (drop (v_from v) (log c)).

(** Received, waiting in the buffer, lost to a full buffer, and still to be
    sent. *)
Definition accounted (c : chat) (ch : nat) (cn : channel) (v : view) : list chatEvent :=
  v_received v ++ buffer cn ++ v_dropped v ++ pending (publishers c) ch.

Definition conserved (c : chat) : Prop :=
  forall ch cn v, channels (hub c) !! ch = Some cn -> views c !! ch = Some v ->
    accounted c ch cn v ⊆+ published_since c v /\
    (panicked c = false -> (exists n i, registered (hub c) n i ch) ->
     Permutation (accounted c ch cn v) (published_since c v)).

Lemma pending_app ps1 ps2 ch : pending (ps1 ++ ps2) ch = pending ps1 ch ++ pending ps2 ch.
Proof. apply bind_app. Qed.

Lemma pending_cons p ps ch : pending (p :: ps) ch = to_send ch p ++ pending ps ch.
Proof. done. Qed.

Lemma to_send_cons ch e x todo : to_send ch (mkPublisher e (x :: todo)) =
  (if decide (x = ch) then [e] else []) ++ to_send ch (mkPublisher e todo).
Proof. unfold to_send. cbn [pub_todo pub_event]. rewrite filter_cons. by case_decide. Qed.

Lemma to_send_absent ch p : ch ∉ pub_todo p -> to_send ch p = [].
Proof.
  destruct p as [e todo]. cbn [pub_todo]. induction todo as [|x todo IH]; intros Hin; [done|].
  apply not_elem_of_cons in Hin as [Hx Hin]. rewrite to_send_cons, decide_False by done. by apply IH.
Qed.

Lemma pending_absent ps ch :
  (forall p, p ∈ ps -> ch ∉ pub_todo p) -> pending ps ch = [].
Proof.
  induction ps as [|p ps IH]; intros Hps; [done|]. rewrite pending_cons, to_send_absent, IH;
    [done|intros q Hq; apply Hps; by right|apply Hps; by left].
Qed.

Lemma to_send_once ch e order : NoDup order -> ch ∈ order -> to_send ch (mkPublisher e order) = [e].
Proof.
  induction 1 as [|x order Hx Hnd IH]; [by intros ?%elem_of_nil|].
  rewrite to_send_cons, elem_of_cons. case_decide as Hc; subst; intros [Hin|Hin].
  - by rewrite to_send_absent.
  - done.
  - done.
  - by apply IH.
Qed.

Lemma room_log_snoc name l e :
  room_log name (l ++ [e]) = room_log name l ++ (if decide (ev_Room e = name) then [e] else []).
Proof. unfold room_log, in_room. rewrite filter_app, filter_cons, filter_nil. by case_decide. Qed.

(** A step that moves the events of a channel around keeps them accounted. *)
Lemma conserved_move c c' :
  wf c -> log c' = log c ->
  (panicked c' = false -> panicked c = false) ->
  (forall n i ch, registered (hub c') n i ch -> registered (hub c) n i ch) ->
  (forall ch cn' v', channels (hub c') !! ch = Some cn' -> views c' !! ch = Some v' ->
     exists cn v, channels (hub c) !! ch = Some cn /\ views c !! ch = Some v /\
       v_room v' = v_room v /\ v_from v' = v_from v /\
       Permutation (accounted c' ch cn' v') (accounted c ch cn v)) ->
  conserved c -> conserved c'.
Proof.
  intros Hwf Hlog Hp Hr Hmove Hc ch cn' v' Hcn' Hv'.
  destruct (Hmove _ _ _ Hcn' Hv') as (cn & v & Hcn & Hv & Hroom & Hfrom & Hperm).
  destruct (Hc _ _ _ Hcn Hv) as [Hsub Heq]. unfold published_since in *.
  rewrite Hlog, Hroom, Hfrom, Hperm. split; [done|].
  intros Hpn (n & i & Hreg). apply Heq; [by apply Hp|]. exists n, i. by apply Hr.
Qed.

Lemma collected_NoDup h name subs order :
  (forall i i' ch, registered h name i ch -> registered h name i' ch -> i = i') ->
  (forall i c, subs !! i = Some c <-> registered h name i c) ->
  collected subs order -> NoDup order.
Proof.
  intros Hinj Hsubs Ho. unfold collected in Ho. rewrite Ho.
  apply NoDup_fmap_2_strong; [|apply NoDup_map_to_list].
  intros [i x] [i' x'] Hi%elem_of_map_to_list Hi'%elem_of_map_to_list Hx. cbn in Hx. subst x'.
  f_equal. apply Hsubs in Hi, Hi'. by eapply Hinj.
Qed.

Lemma conserved_publish h ps l vs p name event e subs order h' :
  publish_locked h name event = (e, subs, h') -> collected subs order ->
  wf (mkChat h ps l vs p) -> conserved (mkChat h ps l vs p) ->
  conserved (mkChat h' (ps ++ [mkPublisher e order]) (l ++ [e]) vs p).
Proof.
  intros Hp Ho [Hlen Hreg Hinj Hpend Hfrom] Hc ch cn v Hcn Hv; cbn in *.
  destruct (publish_locked_spec _ _ _ _ _ _ Hp) as (_ & Hch & _ & Hr & Hsubs).
  rewrite Hch in Hcn. destruct (Hc _ _ _ Hcn Hv) as [Hsub Heq].
  unfold accounted, published_since in *. cbn in *.
  rewrite drop_app_le by (by apply Hfrom, (list_elem_of_lookup_2 _ ch)).
  rewrite pending_app, room_log_snoc, pending_cons, app_nil_r.
  rewrite !(app_assoc (v_dropped v)), !(app_assoc (buffer cn)), !(app_assoc (v_received v)) in *.
  pose proof (collected_NoDup _ _ _ _ (Hinj (ev_Room e)) Hsubs Ho) as Hnd.
  destruct (decide (ch ∈ order)) as [Hin|Hin].
  - rewrite to_send_once by done. apply (collected_in _ _ _ Ho) in Hin as [i Hi%Hsubs].
    destruct (Hreg _ _ _ Hi) as (_ & w & _ & _ & Hw & Hroom). simplify_eq.
    rewrite decide_True by done. split; [by apply submseteq_app|].
    intros Hpn (n & i' & Hn%Hr). f_equiv. apply Heq; [done|]. by exists n, i'.
  - rewrite to_send_absent, app_nil_r by done. split.
    + etrans; [exact Hsub|]. by apply submseteq_inserts_r.
    + intros Hpn (n & i & Hn%Hr). destruct (Hreg _ _ _ Hn) as (_ & w & _ & _ & Hw & Hroom). simplify_eq.
      rewrite decide_False; [rewrite app_nil_r; apply Heq; [done|by exists (v_room v), i]|].
      intros He. apply Hin, (collected_in _ _ _ Ho). exists i. apply Hsubs. by rewrite He.
Qed.

Lemma conserved_subscribe h ps l vs p now name id hist ch h' :
  subscribe h now name = (id, hist, ch, h') ->
  wf (mkChat h ps l vs p) -> conserved (mkChat h ps l vs p) ->
  conserved (mkChat h' ps l (vs ++ [mkView (normalizeRoomName name) (length l) [] []]) p).
Proof.
  intros Hs [Hlen Hreg _ Hpend _] Hc x cn v Hcn Hv; cbn in *.
  destruct (subscribe_spec _ _ _ _ _ _ _ Hs) as (_ & -> & _ & Hch & _ & Hr). rewrite Hch in Hcn.
  apply lookup_app_Some in Hcn as [Hcn|[Hx Hcn]].
  - pose proof (lookup_lt_Some _ _ _ Hcn) as Hlt. rewrite lookup_app_l in Hv by lia.
    destruct (Hc x cn v Hcn Hv) as [Hsub Heq]. split; [done|]. intros Hp (n & i & Hn).
    apply Heq; [done|]. apply Hr in Hn as [(_ & _ & ->)|[Hn _]]; [lia|]. by exists n, i.
  - apply list_lookup_singleton_Some in Hcn as [Hx0 <-].
    assert (x = length vs) as -> by lia. rewrite lookup_app_r, Nat.sub_diag in Hv by lia.
    injection Hv as <-. unfold accounted, published_since. cbn.
    rewrite pending_absent, drop_all; [done|]. intros q Hq Hin. specialize (Hpend q _ Hq Hin). lia.
Qed.

Lemma pending_send ps1 e x todo ps2 ch :
  Permutation (pending (ps1 ++ mkPublisher e (x :: todo) :: ps2) ch)
    ((if decide (x = ch) then [e] else []) ++ pending (ps1 ++ mkPublisher e todo :: ps2) ch).
Proof.
  rewrite !pending_app, !pending_cons, to_send_cons, <- !app_assoc. apply Permutation_app_swap_app.
Qed.

Lemma conserved_send h ps1 e ch todo ps2 l vs p h' :
  publish_send h e ch = Some h' ->
  wf (mkChat h (ps1 ++ mkPublisher e (ch :: todo) :: ps2) l vs p) ->
  conserved (mkChat h (ps1 ++ mkPublisher e (ch :: todo) :: ps2) l vs p) ->
  conserved (mkChat h' (ps1 ++ mkPublisher e todo :: ps2) l
    (if full h ch then alter (lose e) ch vs else vs) p).
Proof.
  intros Hs Hwf. destruct (publish_send_spec _ _ _ _ Hs) as [Hrooms Hch].
  destruct Hch as [[Hnone _]|(c & c' & Hc & Hsend & Hch)].
  { destruct Hwf as [_ _ _ Hpend _]. cbn in *.
    assert (ch < length (channels h))%nat as Hlt
      by (eapply (Hpend (mkPublisher e (ch :: todo))); [set_solver|by left]).
    apply lookup_lt_is_Some_2 in Hlt as [c Hc]. congruence. }
  apply conserved_move; [done..|intros n i x; by apply registered_rooms|]. cbn.
  intros x cn' v' Hcn' Hv'. rewrite Hch in Hcn'. unfold accounted. cbn [publishers].
  setoid_rewrite pending_send. unfold full in Hv'. rewrite Hc in Hv'.
  destruct (decide (ch = x)) as [<-|Hx].
  - rewrite list_lookup_insert_eq in Hcn' by (by eapply lookup_lt_Some). injection Hcn' as ->.
    unfold chan_send in Hsend. destruct (ch_closed c); [done|].
    destruct (length (buffer c) <? channel_capacity)%nat; cbn in Hv'; injection Hsend as <-.
    + exists c, v'. split_and!; [done..|]. cbn. rewrite <- app_assoc. do 2 f_equiv. cbn.
      apply Permutation_middle.
    + rewrite lookup_alter_cases, decide_True in Hv' by done.
      apply fmap_Some in Hv' as (v & Hv & ->). exists c, v. split_and!; [done..|].
      cbn. rewrite <- app_assoc. done.
  - rewrite list_lookup_insert_ne in Hcn' by done. exists cn', v'. split_and!; try done.
    destruct (negb _); [|done]. by rewrite lookup_alter_cases, decide_False in Hv' by congruence.
Qed.

Lemma conserved_step a c c' : chat_step a c c' -> wf c -> conserved c -> conserved c'.
Proof.
  intros Hs. destruct Hs.
  - by eapply conserved_subscribe.
  - by eapply conserved_publish.
  - by apply conserved_send.
  - intros _ Hc x cn v Hcn Hv. destruct (Hc x cn v Hcn Hv) as [Hsub _]. split; [|done].
    etrans; [|exact Hsub]. unfold accounted. cbn. do 3 apply submseteq_skips_l.
    rewrite !pending_app, !pending_cons. apply submseteq_skips_l, submseteq_inserts_l. done.
  - intros Hwf. destruct (unsubscribe_spec _ _ _ _ H0) as (_ & Hr & Hc).
    apply conserved_move; [done..|cbn; intros n i x Hn; by apply Hr|]. cbn. intros x cn' v' Hcn' Hv'.
    destruct Hc as [Hc|(ch & c & _ & Hc & Hch)]; [rewrite Hc in Hcn'; by exists cn', v'|].
    rewrite Hch in Hcn'. destruct (decide (ch = x)) as [<-|Hx].
    + rewrite list_lookup_insert_eq in Hcn' by (by eapply lookup_lt_Some).
      injection Hcn' as <-. by exists c, v'.
    + rewrite list_lookup_insert_ne in Hcn' by done. by exists cn', v'.
  - intros _ Hc x cn v Hcn Hv. destruct (Hc x cn v Hcn Hv) as [Hsub _]. by split.
  - intros Hwf. destruct (receive_spec _ _ _ _ H0) as [Hr (b & cl & Hb & Hc)].
    apply conserved_move; [done..|intros n i x; by apply registered_rooms|]. cbn.
    intros x cn' v' Hcn' Hv'. rewrite Hc in Hcn'. rewrite lookup_alter_cases in Hv'.
    destruct (decide (x = ch)) as [->|Hx].
    + rewrite list_lookup_insert_eq in Hcn' by (by eapply lookup_lt_Some). injection Hcn' as <-.
      apply fmap_Some in Hv' as (v & Hv & ->). eexists _, v. split_and!; [done..|].
      unfold accounted. cbn. by rewrite <- app_assoc.
    + rewrite list_lookup_insert_ne in Hcn' by done. by exists cn', v'.
Qed.

(** *** Reachable states *)

Lemma reachable_inv c : rtc any_step new_chat c -> wf c /\ history_ok c /\ conserved c.
Proof.
  intros Hr. assert (wf new_chat /\ history_ok new_chat /\ conserved new_chat) as Hnew
    by (split_and!; [apply wf_new|intros x; done..]).
  induction Hr as [|c1 c2 c3 [a Hs] _ IH]; [done|]. apply IH.
  destruct Hnew as (Hw & Hh & Hc).
  split_and!; [by eapply wf_step|by eapply history_ok_step|by eapply conserved_step].
Qed.

(** ** Panics *)

(** Every channel a publisher is about to send to is open. *)
Definition targets_open (c : chat) : Prop :=
  forall p ch cn, p ∈ publishers c -> ch ∈ pub_todo p -> channels (hub c) !! ch = Some cn ->
    ch_closed cn = false.

(** Leaving a room closes an open channel: it never panics. *)
Lemma unsubscribe_no_panic c name id : wf c -> unsubscribe (hub c) name id <> None.
Proof.
  intros [_ Hreg _ _ _]. unfold unsubscribe.
  destruct (rooms (hub c) !! normalizeRoomName name) as [r|] eqn:Hr; [|done].
  destruct (subscribers r !! id) as [ch|] eqn:Hi; [|done].
  destruct (Hreg (normalizeRoomName name) id ch) as (cn & _ & Hcn & Hcl & _); [by exists r|].
  cbn. rewrite Hcn. unfold chan_close. by rewrite Hcl.
Qed.

Lemma publish_send_open h e ch cn :
  channels h !! ch = Some cn -> ch_closed cn = false -> publish_send h e ch <> None.
Proof.
  intros Hcn Hcl. unfold publish_send, chan_send. rewrite Hcn, Hcl. by destruct (_ <? _)%nat.
Qed.

Lemma orderly_inv_step c c' : orderly_step c c' -> wf c -> targets_open c -> panicked c = false ->
  targets_open c' /\ panicked c' = false.
Proof.
  intros (a & Hs & Hquiet) Hwf Ht Hp. pose proof Hwf as [Hlen Hreg _ Hpend _].
  destruct Hs; cbn in *; (split; [|try done]).
  - destruct (subscribe_spec _ _ _ _ _ _ _ H0) as (_ & _ & _ & Hch & _).
    intros q x cn Hq Hin Hx; cbn in *. rewrite Hch, lookup_app_l in Hx by (by eapply Hpend). by eapply Ht.
  - destruct (publish_locked_spec _ _ _ _ _ _ H0) as (_ & Hch & _ & _ & Hsubs).
    intros q x cn Hq Hin Hx; cbn in *. rewrite Hch in Hx.
    apply elem_of_app in Hq as [Hq| ->%list_elem_of_singleton]; [by eapply Ht|]. cbn in Hin.
    apply (collected_in _ _ _ H1) in Hin as [i Hi%Hsubs].
    destruct (Hreg _ _ _ Hi) as (cn' & _ & Hcn & Hcl & _). congruence.
  - destruct (publish_send_spec _ _ _ _ H0) as [_ Hch]. intros q x cn Hq Hin Hx; cbn in *.
    destruct (todo_shrinks _ _ (ch :: todo) _ _ _ _ (fun y Hy => list_elem_of_further _ _ _ Hy) Hq Hin)
      as (q' & Hq' & Hin').
    destruct Hch as [[_ Hch]|(c & c' & Hc & Hsend & Hch)]; rewrite Hch in Hx; [by eapply Ht|].
    destruct (decide (ch = x)) as [<-|Hne].
    + rewrite list_lookup_insert_eq in Hx by (by eapply lookup_lt_Some). injection Hx as <-.
      by eapply chan_send_open.
    + rewrite list_lookup_insert_ne in Hx by done. by eapply Ht.
  - exfalso. assert (ch < length (channels h))%nat as Hlt
      by (eapply (Hpend (mkPublisher e (ch :: todo))); [set_solver|by left]).
    apply lookup_lt_is_Some_2 in Hlt as [cn Hcn]. revert H0. eapply publish_send_open; [done|].
    eapply (Ht (mkPublisher e (ch :: todo))); [set_solver|by left|done].
  - exfalso. assert (ch < length (channels h))%nat as Hlt
      by (eapply (Hpend (mkPublisher e (ch :: todo))); [set_solver|by left]).
    apply lookup_lt_is_Some_2 in Hlt as [cn Hcn]. revert H0. eapply publish_send_open; [done|].
    eapply (Ht (mkPublisher e (ch :: todo))); [set_solver|by left|done].
  - intros q x cn Hq Hin. rewrite Forall_forall in Hquiet. rewrite (Hquiet eq_refl q Hq) in Hin.
    inversion Hin.
  - by apply (unsubscribe_no_panic (mkChat h ps l vs p) name id) in H0.
  - by apply (unsubscribe_no_panic (mkChat h ps l vs p) name id) in H0.
  - destruct (receive_spec _ _ _ _ H0) as [_ (b & cl & Hb & Hch)]. intros q x cn Hq Hin Hx; cbn in *.
    rewrite Hch in Hx. destruct (decide (ch = x)) as [<-|Hne].
    + rewrite list_lookup_insert_eq in Hx by (by eapply lookup_lt_Some). injection Hx as <-.
      by apply (Ht q ch _ Hq Hin Hb).
    + rewrite list_lookup_insert_ne in Hx by done. by eapply Ht.
Qed.

(** ** The properties *)

(** What a new subscriber is shown is the end of everything that was published
    to its room so far, at most 120 events, oldest first. *)
Theorem chat_snapshot c now name id hist ch h' :
  rtc any_step new_chat c -> subscribe (hub c) now name = (id, hist, ch, h') ->
  hist = keep_last chatHistoryLimit (room_log (normalizeRoomName name) (log c)) /\
  (length hist <= 120)%nat.
Proof.
  intros Hr Hs. destruct (reachable_inv _ Hr) as (_ & Hh & _).
  destruct (subscribe_spec _ _ _ _ _ _ _ Hs) as (_ & _ & -> & _). rewrite Hh. split; [done|].
  rewrite keep_last_drop, length_drop. unfold chatHistoryLimit. lia.
Qed.

(** However subscribers, publishers and readers interleave, what a channel
    received, holds, lost to a full buffer and is still to be sent is made of
    events published to its room after its snapshot, none of them twice; and
    while its subscriber is registered and no publisher has panicked it is all
    of them: nothing is lost but by a full buffer. *)
Theorem chat_delivery c ch cn v :
  rtc any_step new_chat c -> channels (hub c) !! ch = Some cn -> views c !! ch = Some v ->
  v_received v ++ buffer cn ++ v_dropped v ++ pending (publishers c) ch ⊆+ published_since c v /\
  (panicked c = false -> (exists n i, registered (hub c) n i ch) ->
   Permutation (v_received v ++ buffer cn ++ v_dropped v ++ pending (publishers c) ch)
     (published_since c v)).
Proof. intros Hr. destruct (reachable_inv _ Hr) as (_ & _ & Hc). apply Hc. Qed.

(** C34. Provided no subscriber leaves while a publisher is sending, no goroutine of
    the hub panics. *)
Theorem chat_orderly c : rtc orderly_step new_chat c -> panicked c = false.
Proof.
  assert (targets_open new_chat) as Ht by (intros p ch cn Hp; inversion Hp).
  intros Hr. generalize wf_new Ht (eq_refl : panicked new_chat = false).
  induction Hr as [c|c1 c2 c3 Hs _ IH]; intros Hw Ht1 Hp; [done|].
  destruct (orderly_inv_step _ _ Hs Hw Ht1 Hp) as [Ht2 Hp2].
  apply IH; [done| |done..]. destruct Hs as (a & Hs & _). by eapply wf_step.
Qed.

(** A subscriber that leaves between the locked part of [publish] and its send
    makes the publisher panic with a send on a closed channel. *)
Theorem chat_leave_panics : exists c, rtc any_step new_chat c /\ panicked c = true.
Proof.
  set (e := mkChatEvent "msg-1" "message" "lounge" "ann" "1" "hi" 0).
  set (s := subscribe newChatHub 1 "lounge"). set (h1 := s.2). set (id := s.1.1.1).
  set (q := publish_locked h1 "lounge" e). set (h2 := q.2).
  set (h3 := default h2 (unsubscribe h2 "lounge" id)).
  set (vs := [mkView (normalizeRoomName "lounge") 0 [] []]).
  exists (mkChat h3 [mkPublisher e []] [e] vs true). split; [|done].
  eapply rtc_l; [eexists; by eapply (cs_subscribe _ _ _ _ _ 1 "lounge" id [] 0 h1)|].
  eapply rtc_l; [eexists; eapply (cs_publish h1 [] [] vs false "lounge" e e {[id := 0%nat]} [0%nat] h2)|].
  { reflexivity. }
  { unfold collected. by rewrite map_to_list_singleton. }
  eapply rtc_l; [eexists; eapply (cs_unsubscribe h2 _ _ _ _ "lounge" id h3)|]; [reflexivity|].
  eapply rtc_l; [eexists; eapply (cs_send_panics h3 [] e 0 [] [])|apply rtc_refl]. reflexivity.
Qed.

(** Subscriber IDs are clock readings: when two subscribers of a room get the
    same one, the first is never sent anything again and its channel is never
    closed, and when it leaves it closes the channel of the second. *)
Theorem chat_same_id c now name id1 hist1 ch1 h1 id2 hist2 ch2 h2 h3 :
  rtc any_step new_chat c ->
  subscribe (hub c) now name = (id1, hist1, ch1, h1) ->
  subscribe h1 now name = (id2, hist2, ch2, h2) ->
  unsubscribe h2 name id1 = Some h3 ->
  (forall n i, ~ registered h2 n i ch1) /\
  channels h3 !! ch1 = Some open_chan /\ channels h3 !! ch2 = Some (mkChannel [] true).
Proof.
  intros Hr Hs1 Hs2 Hu. destruct (reachable_inv _ Hr) as ([_ Hreg _ _ _] & _).
  destruct (subscribe_spec _ _ _ _ _ _ _ Hs1) as (Hid1 & Hch1 & _ & Hc1 & _ & Hr1).
  destruct (subscribe_spec _ _ _ _ _ _ _ Hs2) as (Hid2 & Hch2 & _ & Hc2 & _ & Hr2).
  rewrite Hc1, length_app in Hch2. cbn in Hch2.
  assert (forall n i, ~ registered (hub c) n i ch1) as Hnew.
  { intros n i Hn. destruct (Hreg _ _ _ Hn) as (cn & _ & Hcn & _).
    apply lookup_lt_Some in Hcn. lia. }
  assert (registered h2 (normalizeRoomName name) id1 ch2) as Hreg2
    by (apply Hr2; left; split_and!; congruence).
  assert (channels h2 !! ch2 = Some open_chan) as Ho2.
  { rewrite Hc2, lookup_app_r by (rewrite Hc1, length_app; cbn; lia).
    rewrite Hc1, length_app. cbn. by replace (ch2 - _)%nat with 0%nat by lia. }
  assert (channels h2 !! ch1 = Some open_chan) as Ho1.
  { rewrite Hc2, Hc1, lookup_app_l by (rewrite length_app; cbn; lia).
    rewrite lookup_app_r by lia. by replace (ch1 - _)%nat with 0%nat by lia. }
  split_and!.
  - intros n i [(_ & _ & ->)|[Hn Hne]]%Hr2; [lia|].
    apply Hr1 in Hn as [(-> & -> & _)|[Hn _]]; [apply Hne; by split; congruence|by apply Hnew in Hn].
  - destruct (unsubscribe_spec _ _ _ _ Hu) as (_ & _ & [->|(x & cn & Hx & _ & ->)]); [done|].
    destruct Hreg2 as (r & Hr' & Hi), Hx as (r' & Hr'' & Hi'). simplify_eq.
    rewrite list_lookup_insert_ne; [done|]. lia.
  - unfold unsubscribe in Hu. destruct Hreg2 as (r & Hr' & Hi). rewrite Hr', Hi in Hu. cbn in Hu.
    rewrite Ho2 in Hu. cbn in Hu. injection Hu as <-. cbn.
    by rewrite list_lookup_insert_eq by (by eapply lookup_lt_Some).
Qed.
End Facts.

(** ** Witnesses *)

Section Demo.
#[local] Existing Instance ascii_tables.

(** Someone enters the lounge, a message is published, sent and received. *)
Definition hello : chatEvent := mkChatEvent "msg-1" "message" "lounge" "ann" "1" "hi" 0.
Definition entered : string * list chatEvent * nat * chatHub := subscribe newChatHub 1 "Lounge ".
Definition stored : chatEvent * gmap string nat * chatHub := publish_locked entered.2 "lounge" hello.
Definition sent : chatHub := default newChatHub (publish_send stored.2 hello 0).
Definition seen : chatHub := (receive sent 0).2.

Definition demo : chat :=
  mkChat seen [mkPublisher hello []] [hello] [mkView "lounge" 0 [hello] []] false.

Definition lounge_view : view := mkView "lounge" 0 [] [].

Lemma demo_orderly : rtc orderly_step new_chat demo.
Proof.
  apply (rtc_l _ _ (mkChat entered.2 [] [] [lounge_view] false)).
  { exists LSubscribe. split; [|done].
    by apply (cs_subscribe newChatHub [] [] [] false 1 "Lounge " "sub-1" [] 0 entered.2). }
  apply (rtc_l _ _ (mkChat stored.2 [mkPublisher hello [0%nat]] [hello] [lounge_view] false)).
  { exists LPublish. split; [|done].
    apply (cs_publish entered.2 [] [] [lounge_view] false "lounge" hello hello stored.1.2
      [0%nat] stored.2); [reflexivity|exact (Permutation_refl [0%nat])]. }
  apply (rtc_l _ _ (mkChat sent [mkPublisher hello []] [hello] [lounge_view] false)).
  { exists LSend. split; [|done].
    by apply (cs_send stored.2 [] hello 0 [] [] [hello] [lounge_view] false sent). }
  apply (rtc_l _ _ demo); [|apply rtc_refl].
  exists LReceive. split; [|done].
  by apply (cs_receive sent [mkPublisher hello []] [hello] [lounge_view] false 0 hello seen).
Qed.

Lemma demo_reachable : rtc any_step new_chat demo.
Proof.
  eapply (rtc_subrel orderly_step any_step); [|apply demo_orderly].
  intros c c' (a & Hs & _). by exists a.
Qed.

(** Two more subscribers arrive at the same nanosecond; the first of them
    leaves. *)
Definition second : string * list chatEvent * nat * chatHub := subscribe seen 2 "LOUNGE".
Definition third : string * list chatEvent * nat * chatHub := subscribe second.2 2 "LOUNGE".
Definition after_leave : chatHub := default newChatHub (unsubscribe third.2 "LOUNGE" second.1.1.1).

Lemma chat_snapshot_witness :
  second.1.1.2 = keep_last chatHistoryLimit (room_log (normalizeRoomName "LOUNGE") (log demo)) /\
  (length second.1.1.2 <= 120)%nat.
Proof.
  exact (chat_snapshot demo 2 "LOUNGE" second.1.1.1 second.1.1.2 second.1.2 second.2
    demo_reachable eq_refl).
Defined.

Lemma chat_delivery_witness :
  Permutation ([hello] ++ [] ++ [] ++ pending (publishers demo) 0)
    (published_since demo (mkView "lounge" 0 [hello] [])).
Proof.
  refine (proj2 (chat_delivery demo 0 open_chan _ demo_reachable eq_refl eq_refl) eq_refl _).
  exists "lounge", "sub-1". by eexists.
Defined.

Lemma chat_orderly_witness : panicked demo = false.
Proof. exact (chat_orderly demo demo_orderly). Defined.

Lemma chat_same_id_witness :
  channels after_leave !! second.1.2 = Some open_chan /\
  channels after_leave !! third.1.2 = Some (mkChannel [] true).
Proof.
  exact (proj2 (chat_same_id demo 2 "LOUNGE" second.1.1.1 second.1.1.2 second.1.2 second.2
    third.1.1.1 third.1.1.2 third.1.2 third.2 after_leave
    demo_reachable eq_refl eq_refl eq_refl)).
Defined.
End Demo.

(** ** The message handler keeps to the reply protocol *)

Section Handler.
Context {V : Type} `{Unicode} `{Msgpack V} `{Validator V}.
Context `{Boxed chatPostBody V} `{Boxed (bool * string * string) V}.

#[export] Instance safe_publish order roomName event :
  Reply.Safe (publish (V := V) order roomName event).
Proof.
  unfold publish. apply safe_bind; [apply _|intros h].
  destruct (publish_locked h roomName event) as [[e subs] h']. destruct (publish_sends h' e (order subs)) as [h'' ok].
  apply safe_bind; [apply _|intros _]. destruct ok; apply _.
Qed.

#[export] Instance safe_post_message order : Reply.Safe (post_message (V := V) order).
Proof.
  unfold post_message. apply safe_bind; [apply _|intros c]. cbv zeta.
  destruct (Bind c (box (mkChatPostBody "" "" ""))) as [v [e|]]; [apply _|].
  destruct (unbox v) as [body|]; apply _.
Qed.
End Handler.
