(* ===== verification/World.v ===== *)
(** * What requests may do to the state they share

    A relation [R] on the shared state bounds a computation ([Moves]) when
    every run of it takes the state to a related one.  The rules follow the
    constructors of the monad, as in a program logic with one assertion: each
    operation of the context leaves the state alone and so is an instance for
    any preorder, instances compose, and only the read-modify-write sections of
    a handler need a proof.  [MovesApp] lifts the bound to an application, and
    [serve_streams] to every sequence of streams it serves. *)

From S2P Require Import Prelude GoStd NetURL Wire Validation Reqctx Router App Middleware RateLimit.
From Stdlib Require Import QArith.

Local Open Scope string_scope.
Local Open Scope list_scope.

(** A property of every middleware of a literal list, by instance search. *)
Ltac forall_instances := repeat (apply Forall_cons_2; [try apply _|]); try apply Forall_nil_2.

(** The shared state of a request's environment. *)
Definition shared_world {V W} (st : St V W) : W := world (st_env st).

Class Moves {V W A : Type} (R : relation W) (m : M V W A) : Prop :=
  moves st : R (shared_world st) (shared_world (m st).2).

Class MovesMW {V W : Type} (R : relation W) (mw : MiddlewareFunc V W) : Prop :=
  moves_mw h : Moves R h -> Moves R (mw h).

(** ** Rules *)

Section Rules.
Context {V W : Type} (R : relation W) `{!PreOrder R}.

#[export] Instance moves_ret {A} (a : A) : Moves R (mret a : M V W A).
Proof. intros st. reflexivity. Qed.
#[export] Instance moves_panic {A} p : Moves R (panic p : M V W A).
Proof. intros st. reflexivity. Qed.

#[export] Instance moves_bind {A B} (m : M V W A) (k : A -> M V W B) :
  Moves R m -> (forall a, Moves R (k a)) -> Moves R (m ≫= k).
Proof.
  intros Hm Hk st. rewrite bind_run. specialize (Hm st).
  destruct (m st) as [[a|p] st']; [|done]. etrans; [exact Hm|apply Hk].
Qed.

#[export] Instance moves_if {A} (b : bool) (m1 m2 : M V W A) :
  Moves R m1 -> Moves R m2 -> Moves R (if b then m1 else m2).
Proof. by destruct b. Qed.

#[export] Instance moves_option {A B} (o : option A) (m1 : A -> M V W B) (m2 : M V W B) :
  (forall a, Moves R (m1 a)) -> Moves R m2 ->
  Moves R (match o with Some a => m1 a | None => m2 end).
Proof. by destruct o. Qed.

#[export] Instance moves_result {A B} (r : result A) (m1 : A -> M V W B) (m2 : error -> M V W B) :
  (forall a, Moves R (m1 a)) -> (forall e, Moves R (m2 e)) ->
  Moves R (match r with Ok a => m1 a | Err e => m2 e end).
Proof. by destruct r. Qed.

(** A read of the state, followed by what may depend on it: the continuation
    runs on the state that was read. *)
Lemma moves_get_world {A} (k : W -> M V W A) :
  (forall st, R (shared_world st) (shared_world (k (shared_world st) st).2)) ->
  Moves R (get_world ≫= k).
Proof. intros Hk st. apply Hk. Qed.

(** A write to a related state, and the rest. *)
Lemma moves_put_world {A} w (m : M V W A) st :
  R (shared_world st) w -> Moves R m ->
  R (shared_world st) (shared_world ((put_world w ≫= fun _ => m) st).2).
Proof.
  intros Hw Hm. etrans; [exact Hw|].
  apply (Hm (mkSt (st_ctx st) (st_sws st)
    (mkEnv (logs (st_env st)) (clock (st_env st)) (ticks (st_env st)) w))).
Qed.

(** ** Operations that leave the state alone *)

#[export] Instance moves_get_ctx : Moves R (get_ctx : M V W (Ctx V)).
Proof. intros st. reflexivity. Qed.
#[export] Instance moves_put_ctx c : Moves R (put_ctx c : M V W unit).
Proof. intros st. reflexivity. Qed.
#[export] Instance moves_get_sw p : Moves R (get_sw p : M V W (option StreamWriter)).
Proof. intros st. reflexivity. Qed.
#[export] Instance moves_put_sw p w : Moves R (put_sw p w : M V W unit).
Proof. intros st. reflexivity. Qed.
#[export] Instance moves_new_sw w : Moves R (new_sw w : M V W nat).
Proof. intros st. reflexivity. Qed.
#[export] Instance moves_log r : Moves R (log_record r : M V W unit).
Proof. intros st. reflexivity. Qed.
#[export] Instance moves_slog log level msg attrs :
  Moves R (slog_Log log level msg attrs : M V W unit).
Proof. intros st. destruct log; reflexivity. Qed.
#[export] Instance moves_now : Moves R (time_Now : M V W Z).
Proof. intros st. reflexivity. Qed.
#[export] Instance moves_read_world : Moves R (get_world : M V W W).
Proof. intros st. reflexivity. Qed.
End Rules.

Section Context_.
Context {V W : Type} (R : relation W) `{!PreOrder R} `{Unicode} `{Msgpack V} `{Validator V}.

#[export] Instance moves_Header key v : Moves R (Header key v : M V W unit).
Proof. unfold Header. apply _. Qed.
#[export] Instance moves_SetCookie {C} `{Cookies C} (c : C) : Moves R (SetCookie c : M V W unit).
Proof. unfold SetCookie. apply _. Qed.
#[export] Instance moves_Set key v : Moves R (Set_ key v : M V W unit).
Proof. unfold Set_. apply _. Qed.
#[export] Instance moves_MustGet key : Moves R (MustGet key : M V W (option V)).
Proof. unfold MustGet. apply _. Qed.
#[export] Instance moves_cas_sent : Moves R (cas_sent : M V W bool).
Proof. unfold cas_sent. apply _. Qed.
#[export] Instance moves_write_frame ft p : Moves R (write_frame ft p : M V W (option error)).
Proof.
  unfold write_frame. apply moves_bind; [done|apply _|]. intros c.
  destruct (WriteFrame (ctx_stream c) ft p) as [err s]. apply _.
Qed.
#[export] Instance moves_writeResponse st hs b s :
  Moves R (writeResponse st hs b s : M V W (option error)).
Proof. unfold writeResponse. apply _. Qed.
#[export] Instance moves_Send st b : Moves R (Send st b : M V W (option error)).
Proof. unfold Send. apply _. Qed.
#[export] Instance moves_MsgPack st v : Moves R (MsgPack st v : M V W (option error)).
Proof. unfold MsgPack. apply _. Qed.
#[export] Instance moves_NoContent : Moves R (NoContent : M V W (option error)).
Proof. unfold NoContent. apply _. Qed.
#[export] Instance moves_Error code msg data : Moves R (Error code msg data : M V W (option error)).
Proof.
  unfold Error. apply moves_bind; [done|apply _|]. intros []; cbn [negb]; [|apply _].
  destruct data as [|[v|] data]; apply _.
Qed.
#[export] Instance moves_NewStream st hs : Moves R (NewStream st hs : M V W (result nat)).
Proof. unfold NewStream. apply _. Qed.
#[export] Instance moves_SW_Write p d : Moves R (SW_Write p d : M V W (Z * option error)).
Proof. unfold SW_Write. apply _. Qed.
#[export] Instance moves_SW_Close p : Moves R (SW_Close p : M V W (option error)).
Proof. unfold SW_Close. apply _. Qed.

(** ** Middleware *)

#[export] Instance moves_Recovery stack lg : MovesMW R (Recovery stack lg : MiddlewareFunc V W).
Proof.
  intros h Hh st. unfold Recovery. specialize (Hh st). destruct (h st) as [[e|r] st']; [done|].
  etrans; [exact Hh|]. assert (Moves R (recovered stack (logger_or_default lg) r : M V W (option error))) as Hr
    by (unfold recovered; apply _). apply Hr.
Qed.
#[export] Instance moves_Logger lg : MovesMW R (Logger lg : MiddlewareFunc V W).
Proof. intros h Hh. unfold Logger. apply _. Qed.
#[export] Instance moves_RequireHeaders names : MovesMW R (RequireHeaders names : MiddlewareFunc V W).
Proof. intros h Hh. induction names; cbn; apply _. Qed.
#[export] Instance moves_check_rules rules : MovesMW R (check_rules rules : MiddlewareFunc V W).
Proof. intros h Hh. induction rules as [|[name rule] rules IH]; cbn; apply _. Qed.
#[export] Instance moves_JWT {C K} `{JWTLib C K} `{Boxed (Token C) V} cfg :
  MovesMW R (JWT cfg : MiddlewareFunc V W).
Proof. intros h Hh. unfold JWT. apply _. Qed.
#[export] Instance moves_MTLSAuth `{Boxed string V} : MovesMW R (MTLSAuth : MiddlewareFunc V W).
Proof.
  intros h Hh. unfold MTLSAuth. apply moves_bind; [done|apply _|]. intros ctx.
  destruct (PeerCertificates ctx); apply _.
Qed.

(** The rate limiter's two critical sections are its only effects. *)
Class LimiterMoves {L : Type} `{RateLib L} `{HasLimiters L W} : Prop := {
  get_limiter_moves rps burst key now w :
    R w (set_limiters (get_limiter rps burst key now (get_limiters (L := L) w)).2 w);
  allow_moves p now w : R w (set_limiters (allow p now (get_limiters (L := L) w)).2 w);
}.

#[export] Instance moves_RateLimit {L} `{RateLib L} `{HasLimiters L W} `{!LimiterMoves (L := L)}
    (cfg : RateLimitConfig V W) :
  Moves R (default default_key (KeyFunc cfg)) -> MovesMW R (RateLimit (L := L) cfg).
Proof.
  intros Hkey next Hnext. unfold RateLimit. apply moves_bind; [done|exact Hkey|]. intros key.
  apply moves_bind; [done| |intros p; apply moves_bind; [done| |intros ok; apply _]].
  - unfold getLimiter. apply moves_bind; [done|apply _|]. intros now. apply moves_get_world.
    intros st. pose proof (get_limiter_moves (RequestsPerSecond (RateLimitConfig_setDefaults cfg))
      (Burst (RateLimitConfig_setDefaults cfg)) key now (shared_world st)) as Hg.
    destruct (get_limiter _ _ _ _ _) as [p s]. by apply moves_put_world; [done| |apply _].
  - unfold limiter_Allow. apply moves_bind; [done|apply _|]. intros now. apply moves_get_world.
    intros st. pose proof (allow_moves p now (shared_world st)) as Ha.
    destruct (allow _ _ _) as [ok s]. by apply moves_put_world; [done| |apply _].
Qed.

#[export] Instance moves_default_key : Moves R (default_key : M V W string).
Proof.
  unfold default_key. apply moves_bind; [done|apply _|]. intros ctx.
  destruct (RemoteAddr ctx) as [addr|]; [|apply _].
  destruct (SplitHostPort addr) as [[host port]|]; apply _.
Qed.
End Context_.

(** ** Applications *)

Record MovesApp {V W : Type} (R : relation W) (a : App V W) : Prop := mkMovesApp {
  moves_routes : Forall (fun rt => Moves R (rt_handler rt)) (routes (router a));
  moves_NotFound : Moves R (NotFound (router a));
  moves_MethodNotAllowed : Moves R (MethodNotAllowed (router a));
  moves_middleware : Forall (MovesMW R) (middleware a);
  moves_after : Forall (Moves R) (afterMiddleware a);
}.

(** The streams an application serves one after the other: who opened each,
    and what is on it.  The environment is threaded through; [None] when the
    dispatcher panics, which takes the process down. *)
Section Streams.
Context {V W : Type} `{Unicode} `{URLAuthority} `{Msgpack V}.

Fixpoint serve_streams (a : App V W) (gc : GoContext) (ss : list (remoteAddrProvider * stream))
    (e : Env W) : option (list stream * Env W) :=
  match ss with
  | [] => Some ([], e)
  | (peer, s) :: ss =>
      match dispatchStream a gc peer s e with
      | (Returns _, s, e) =>
          match serve_streams a gc ss e with
          | Some (outs, e) => Some (s :: outs, e)
          | None => None
          end
      | (Panics _, _, _) => None
      end
  end.
End Streams.

Section AppMoves.
Context {V W : Type} (R : relation W) `{!PreOrder R}.
Context `{Unicode} `{URLAuthority} `{Msgpack V} `{Validator V}.
Implicit Types (a : App V W).

Lemma moves_applyMiddleware h mws :
  Moves R h -> Forall (MovesMW R) mws -> Moves R (applyMiddleware h mws : HandlerFunc V W).
Proof.
  intros Hh Hm. rewrite applyMiddleware_foldr. induction Hm as [|mw mws Hmw _ IH]; cbn; [done|].
  by apply Hmw.
Qed.

Lemma Router_match_moves (r : Router V W) method path :
  Forall (fun rt => Moves R (rt_handler rt)) (routes r) ->
  Moves R (NotFound r) -> Moves R (MethodNotAllowed r) -> Moves R (Router_match r method path).1.
Proof.
  intros Hr Hn Hm. unfold Router_match. generalize false as b.
  induction Hr as [|rt rts Hrt _ IH]; intros b; cbn; [by destruct b|].
  destruct (matchSegments _ _); [|apply IH].
  destruct (String.eqb _ _); [done|apply IH].
Qed.

Lemma moves_serve a req : MovesApp R a -> Moves R (serve a req).
Proof.
  intros [Hr Hn Hm Hmw Ha]. unfold serve. apply moves_bind; [done| |intros err].
  { apply moves_applyMiddleware; [|done]. by apply Router_match_moves. }
  apply moves_bind; [done| |intros _].
  - destruct err as [e|]; cbn [report_error]; apply _.
  - clear Hmw. induction Ha as [|h l Hh _ IH]; cbn; apply _.
Qed.

Lemma app_log_world a s e level msg attrs k :
  R (world e) (world (app_log a s e level msg attrs k).2).
Proof. unfold app_log. destruct (app_logger a); reflexivity. Qed.

(** Whatever arrives on a stream, the dispatcher moves the state along [R]. *)
Lemma dispatch_moves a gc peer s e :
  MovesApp R a -> R (world e) (world (dispatchStream a gc peer s e).2).
Proof.
  intros Ha. unfold dispatchStream. destruct (ReadFrame s) as [[[ft data]|err] s']; [|by apply app_log_world].
  case_decide; [done|]. destruct (negb _); [by apply app_log_world|].
  destruct (DecodeRequest data) as [req|]; [|by apply app_log_world].
  pose proof (moves_serve a req Ha (mkSt (request_ctx a gc peer req s') [] e)) as Hs.
  by destruct (serve _ _ _) as [res st].
Qed.

Lemma serve_streams_moves a gc ss e outs e' :
  MovesApp R a -> serve_streams a gc ss e = Some (outs, e') -> R (world e) (world e').
Proof.
  intros Ha. revert e outs. induction ss as [|[peer s] ss IH]; intros e outs; cbn.
  { by intros [= _ <-]. }
  pose proof (dispatch_moves a gc peer s e Ha) as Hd.
  destruct (dispatchStream a gc peer s e) as [[[u|p] s1] e1]; [|done].
  destruct (serve_streams a gc ss e1) as [[outs1 e2]|] eqn:Hs; [|done]. intros [= _ <-].
  etrans; [exact Hd|]. by eapply IH.
Qed.

(** *** Registration *)

Lemma MovesApp_New : MovesApp R (New : App V W).
Proof. split; cbn; [constructor|apply _|apply _|constructor|constructor]. Qed.

Lemma MovesApp_Use a mw : MovesApp R a -> Forall (MovesMW R) mw -> MovesApp R (Use a mw).
Proof. intros [] Hmw. split; try done. cbn. by apply Forall_app. Qed.

Lemma MovesApp_After a l : MovesApp R a -> Forall (Moves R) l -> MovesApp R (After a l).
Proof. intros [] Hl. split; try done. cbn. by apply Forall_app. Qed.

Lemma MovesApp_SetLogger a l : MovesApp R a -> MovesApp R (SetLogger a l).
Proof. by intros []. Qed.

Lemma MovesApp_addRoute a method pattern mw h :
  MovesApp R a -> Forall (MovesMW R) mw -> Moves R h -> MovesApp R (addRoute a method pattern mw h).
Proof.
  intros [] Hmw Hh. split; try done. cbn. apply Forall_app. split; [done|].
  constructor; [|done]. by apply moves_applyMiddleware.
Qed.
End AppMoves.

#[export] Hint Resolve MovesApp_New MovesApp_Use MovesApp_After MovesApp_SetLogger MovesApp_addRoute : qf.

(** ** Surviving every request

    A computation that returns from every state; [Recovery] turns any handler
    into one, so that behind it no request takes the process down. *)

Class Total {V W A : Type} (m : M V W A) : Prop :=
  total st : exists a st', m st = (Returns a, st').

Section Survival.
Context {V W : Type} `{Unicode} `{URLAuthority} `{Msgpack V}.

#[export] Instance total_ret {A} (a : A) : Total (mret a : M V W A).
Proof. intros st. by exists a, st. Qed.

#[export] Instance total_bind {A B} (m : M V W A) (k : A -> M V W B) :
  Total m -> (forall a, Total (k a)) -> Total (m ≫= k).
Proof. intros Hm Hk st. rewrite bind_run. destruct (Hm st) as (a & st' & ->). apply Hk. Qed.

#[export] Instance total_if {A} (b : bool) (m1 m2 : M V W A) :
  Total m1 -> Total m2 -> Total (if b then m1 else m2).
Proof. by destruct b. Qed.

#[export] Instance total_log r : Total (log_record r : M V W unit).
Proof. intros st. by eexists _, _. Qed.
Lemma total_slog (log : nat) level msg attrs :
  Total (slog_Log (Some log) level msg attrs : M V W unit).
Proof. intros st. by eexists _, _. Qed.
#[export] Instance total_slog_default logger level msg attrs :
  Total (slog_Log (logger_or_default logger) level msg attrs : M V W unit).
Proof. destruct logger as [|[l|] logger]; apply total_slog. Qed.
#[export] Instance total_get_ctx : Total (get_ctx : M V W (Ctx V)).
Proof. intros st. by eexists _, _. Qed.
#[export] Instance total_write_frame ft p : Total (write_frame ft p : M V W (option error)).
Proof.
  intros st. unfold write_frame, mbind, M_bind. cbn.
  destruct (WriteFrame (ctx_stream (st_ctx st)) ft p) as [err s]. by eexists _, _.
Qed.
#[export] Instance total_Error code msg data : Total (Error code msg data : M V W (option error)).
Proof.
  intros st. rewrite Error_run. destruct (ctx_sent (st_ctx st)); [by eexists _, _|]. cbv zeta.
  destruct data as [|[v|] data]; [| destruct (Marshal (PValue (Some v)))|];
    try destruct (WriteFrame _ _ _); by eexists _, _.
Qed.

#[export] Instance total_Recovery stack lg h : Total (Recovery stack lg h : HandlerFunc V W).
Proof.
  intros st. unfold Recovery. destruct (h st) as [[e|r] st']; [by eexists _, _|].
  assert (Total (recovered stack (logger_or_default lg) r : M V W (option error))) as Hr by (unfold recovered; apply _).
  apply Hr.
Qed.

#[export] Instance total_report_error (log : nat) req err :
  Total (report_error (Some log) req err : M V W unit).
Proof.
  destruct err; cbn [report_error]; [|apply _]. repeat (apply total_bind; [apply _|intros]).
  apply total_slog.
Qed.

Lemma total_serve (a : App V W) req stack lg mws :
  is_Some (app_logger a) -> middleware a = Recovery stack lg :: mws -> Forall Total (afterMiddleware a) -> Total (serve a req).
Proof.
  intros [log Hlog] Hmw Ha. unfold serve. rewrite Hlog, Hmw, applyMiddleware_foldr. cbn [foldr].
  apply total_bind; [apply _|]. intros err. apply total_bind; [apply _|]. intros _.
  induction Ha as [|h l Hh _ IH]; cbn; apply _.
Qed.

Lemma serve_streams_survives (a : App V W) gc ss e stack lg mws :
  is_Some (app_logger a) -> middleware a = Recovery stack lg :: mws -> Forall Total (afterMiddleware a) ->
  exists outs e', serve_streams a gc ss e = Some (outs, e') /\ length outs = length ss.
Proof.
  intros Hlog Hmw Ha. revert e. induction ss as [|[peer s] ss IH]; intros e; cbn; [by exists [], e|].
  assert (exists s1 e1, dispatchStream a gc peer s e = (Returns tt, s1, e1)) as (s1 & e1 & ->).
  { destruct Hlog as [log Hl]. unfold dispatchStream, app_log. rewrite Hl. destruct (ReadFrame s) as [[[ft data]|err] s']; [|by eexists _, _].
    case_decide; [by eexists _, _|]. destruct (negb _); [by eexists _, _|].
    destruct (DecodeRequest data) as [req|]; [|by eexists _, _].
    destruct (total_serve a req stack lg mws (mk_is_Some _ _ Hl) Hmw Ha (mkSt (request_ctx a gc peer req s') [] e))
      as ([] & st' & ->). by eexists _, _. }
  destruct (IH e1) as (outs & e' & -> & Hl). exists (s1 :: outs), e'. cbn. by rewrite Hl.
Qed.
End Survival.
