(* ===== verification/Running.v ===== *)
(** * The running server (framework/app.go)

    The goroutines of Lifecycle.v with what they work on and what they log: a connection carries
    its peer, a stream its peer, its context and its contents, and the step of
    a stream's goroutine that Lifecycle.v leaves abstract is [dispatchStream]
    of App.v, on the environment all streams share.  The streams are served in
    any order the scheduler and the network allow.  A panic that leaves a
    goroutine ends the process; the deferred calls it unwinds through, such as
    the Close of a listener, belong to that end.  (net/http's convention to catch the panics of
    a handler only matters to a failed upgrade under a nil logger, and then no
    server gets that far: Loggers.v.) *)

From S2P Require Import Prelude GoStd NetURL Wire Validation Reqctx Reply Router App Lifecycle.
From stdpp Require Import relations.

Local Open Scope string_scope.
Local Open Scope list_scope.

(** ** Tasks *)

(** A goroutine and its local variables; [id] names the context of its
    connection. *)
Inductive task :=
  | Plain (g : goroutine)
  | ConnTask (pc : conn_pc) (c : QuicConn) (id : nat)
  | SessionTask (pc : session_pc) (addr : option string) (id : nat)
  | StreamTask (pc : stream_pc) (peer : remoteAddrProvider) (gc : GoContext) (s : stream).

Definition goroutine_of (t : task) : goroutine :=
  match t with
  | Plain g => g
  | ConnTask pc _ _ => GConn pc
  | SessionTask pc _ _ => GSession pc
  | StreamTask pc _ _ _ => GStream pc
  end.

(** The goroutines without local variables. *)
Definition is_plain (g : goroutine) : bool :=
  match g with
  | GConn _ | GSession _ | GStream _ => false
  | _ => true
  end.

(** The variables of a goroutine that [parent] goes on as or starts: its own,
    or those of the stream, connection or session it has just accepted. *)
Definition spawned (parent : task) (g : goroutine) (t : task) : Prop :=
  goroutine_of t = g /\
  match parent, t with
  | _, Plain g => is_plain g = true
  | ConnTask _ c id, ConnTask _ c' id' => c' = c /\ id' = id
  | ConnTask _ c id, StreamTask _ peer gc _ => peer = quicConnWrapper c /\ gc = connContext id
  | SessionTask _ addr id, SessionTask _ addr' id' => addr' = addr /\ id' = id
  | SessionTask _ addr id, StreamTask _ peer gc _ =>
      peer = wtSessionWrapper addr /\ gc = connContext id
  | StreamTask _ peer gc s, StreamTask _ peer' gc' s' => peer' = peer /\ gc' = gc /\ s' = s
  | Plain _, ConnTask _ _ _ | Plain _, SessionTask _ _ _ => True
  | _, _ => False
  end.

(** In [dispatchStream]. *)
Definition dispatching (t : task) : bool :=
  match t with
  | StreamTask SRun _ _ _ => true
  | _ => false
  end.

(** ** What the listeners log *)

(** The arguments of [ListenAddr]. *)
Record addresses := mkAddresses {
  nativeAddr : string;
  wtAddr : string;
}.

Abbreviation announcement := (Level * string * list (string * Attr))%type.

Definition native_listening (addr : string) : announcement :=
  (LevelInfo, "quicframe native transport listening",
   [("addr", AString addr); ("alpn", AString "qf/1")]).

Definition wt_listening (addr : string) : announcement :=
  (LevelInfo, "quicframe WebTransport listening",
   [("addr", AString addr); ("endpoint", AString "/wt")]).

(** A native listener once it is open, a WebTransport server before it serves,
    and an upgrade that failed. *)
Definition step_record (addrs : addresses) (i : input) (g : goroutine) : option announcement :=
  match g, i with
  | GListenNative LOpen, _ => Some (native_listening (nativeAddr addrs))
  | GListenWT false, _ => Some (wt_listening (wtAddr addrs))
  | GUpgrade UStart, Failed err =>
      Some (LevelError, "webtransport upgrade failed", [("err", AError (Some err))])
  | _, _ => None
  end.

Definition log_announcement (log : slogger) (n : announcement) : outcome LogRecord :=
  slog_record log n.1.1 n.1.2 n.2.

(** The environment after a step, or the panic of a nil logger. *)
Definition announce {V W : Type} (a : App V W) (addrs : addresses) (i : input) (g : goroutine)
    (e : Env W) : outcome (Env W) :=
  match step_record addrs i g with
  | None => Returns e
  | Some n =>
      match log_announcement (app_logger a) n with
      | Returns r => Returns (log_env e r)
      | Panics p => Panics p
      end
  end.

(** ** The system *)

(** A stream that was served: who opened it, what was on it and what is now. *)
Record served := mkServed {
  sv_peer : remoteAddrProvider;
  sv_ctx : GoContext;
  sv_before : stream;
  sv_after : stream;
}.

Record running (W : Type) := mkRunning {
  r_globals : globals;
  r_env : Env W;
  r_tasks : list task;
  r_served : list served;
  r_crashed : option panic_value;
}.
Arguments mkRunning {W}. Arguments r_globals {W}. Arguments r_env {W}. Arguments r_tasks {W}.
Arguments r_served {W}. Arguments r_crashed {W}.

Section Running.
Context {V W : Type} `{Unicode} `{URLAuthority} `{Msgpack V}.

(** The goroutines of the middleware, which change the shared state too. *)
Variable background : relation W.
Variable a : App V W.
Variable addrs : addresses.

Definition set_env_world_of (e : Env W) (w : W) : Env W :=
  mkEnv (logs e) (clock e) (ticks e) w.

Inductive rstep : running W -> running W -> Prop :=
  | rs_go i s s' e e' l1 t l2 gs ts sv :
      dispatching t = false -> gstep i (goroutine_of t) s = Some (s', gs) ->
      announce a addrs i (goroutine_of t) e = Returns e' -> Forall2 (spawned t) gs ts ->
      rstep (mkRunning s e (l1 ++ t :: l2) sv None) (mkRunning s' e' (l1 ++ ts ++ l2) sv None)
  | rs_mute i s s' e l1 t l2 gs sv p :
      gstep i (goroutine_of t) s = Some (s', gs) ->
      announce a addrs i (goroutine_of t) e = Panics p ->
      rstep (mkRunning s e (l1 ++ t :: l2) sv None) (mkRunning s' e (l1 ++ t :: l2) sv (Some p))
  | rs_dispatch s e e' l1 peer gc st st' l2 sv :
      dispatchStream a gc peer st e = (Returns tt, st', e') ->
      rstep (mkRunning s e (l1 ++ StreamTask SRun peer gc st :: l2) sv None)
            (mkRunning s e' (l1 ++ StreamTask SClose peer gc st' :: l2)
               (sv ++ [mkServed peer gc st st']) None)
  | rs_panic s e e' l1 peer gc st st' l2 sv p :
      dispatchStream a gc peer st e = (Panics p, st', e') ->
      rstep (mkRunning s e (l1 ++ StreamTask SRun peer gc st :: l2) sv None)
            (mkRunning s e' (l1 ++ StreamTask SRun peer gc st :: l2) sv (Some p))
  | rs_background s e w ts sv :
      background (world e) w ->
      rstep (mkRunning s e ts sv None) (mkRunning s (set_env_world_of e w) ts sv None)
  | rs_cancel s e ts sv : rstep (mkRunning s e ts sv None) (mkRunning (cancel_ctx s) e ts sv None)
  | rs_shutdown s e ts sv :
      rstep (mkRunning s e ts sv None) (mkRunning s e (ts ++ [Plain GShutdown]) sv None)
  | rs_conn s e ts sv c id :                       (* a caller of HandleNativeConn *)
      rstep (mkRunning s e ts sv None) (mkRunning s e (ts ++ [ConnTask CStart c id]) sv None).

(** A process that has called [ListenAddr] in the environment [e]. *)
Definition launch (e : Env W) : running W :=
  mkRunning no_globals e [Plain (GListenAddr false (negb (String.eqb (wtAddr addrs) "")))] [] None.

(** ** Specifications *)

(** The same system without what the goroutines work on. *)
Definition lifecycle (x : running W) : system :=
  (r_globals x, map goroutine_of (r_tasks x)).

(** A served request has a prefix of a well-shaped reply on its stream. *)
Definition answered (sv : served) : Prop :=
  forall data req,
    (ReadFrame (sv_before sv)).1 = Ok (FrameTypeRequest, data) ->
    DecodeRequest (V := V) data = Ok req ->
    exists fs bs, Forall2 (encodes (V := V)) fs bs /\
      delivered (out (sv_before sv)) (sv_after sv) bs /\
      reply_shape (req_ID req) fs /\ (length (List.filter is_head fs) <= 1)%nat.
End Running.
