(* ===== verification/RunningProps.v ===== *)
(** * The running server: theorems

    The system refines Lifecycle.v, so its wait group is exact; and what App.v
    and World.v promise of one stream holds of every stream of every run. *)

From stdpp Require Import relations.
From S2P Require Import Prelude GoStd NetURL Wire RefCodec Validation Reqctx Reply Router App AppProps Middleware RateLimit World Lifecycle LifecycleProps Running.

Local Open Scope string_scope.
Local Open Scope list_scope.

Section Running.
Context {V W : Type} `{Unicode} `{URLAuthority} `{Msgpack V}.
Variable background : relation W.
Variable addrs : addresses.
Implicit Types (a : App V W) (x y : running W) (e : Env W).

Lemma spawned_goroutines t gs ts : Forall2 (spawned t) gs ts -> map goroutine_of ts = gs.
Proof. induction 1 as [|g u gs ts [Hg _] _ IH]; [done|]. cbn. by rewrite Hg, IH. Qed.

(** What is announced changes nothing shared: a listener is open before its
    record is made. *)
Lemma announced_keeps a i g e p s s' gs :
  gstep i g s = Some (s', gs) -> announce a addrs i g e = Panics p -> s' = s.
Proof.
  unfold announce, step_record. intros Hg.
  destruct g as [[]| | | |[]|[]| | |], i; cbn in Hg; intros Ha; try done; by simplify_eq.
Qed.

(** A step is a step of the lifecycle, or none. *)
Lemma rstep_lifecycle a x y :
  rstep background a addrs x y -> rtc lstep (lifecycle x) (lifecycle y).
Proof.
  destruct 1 as [i s s' e e' l1 t l2 gs ts sv _ Hg _ Hts|i s s' e l1 t l2 gs sv p Hg Han
    |s e e' l1 peer gc st st' l2 sv Hd| | | | |];
    unfold lifecycle; cbn [r_globals r_tasks];
    rewrite ?map_app, ?(announced_keeps _ _ _ _ _ _ _ _ Hg Han); try apply rtc_refl;
    apply rtc_once; [| |by constructor..].
  - rewrite (spawned_goroutines _ _ _ Hts). cbn. by eapply ls_run.
  - cbn. by apply (ls_run Accepted s s _ _ _ [GStream SClose]).
Qed.

Lemma run_lifecycle a x y :
  rtc (rstep background a addrs) x y -> rtc lstep (lifecycle x) (lifecycle y).
Proof. induction 1 as [|x y z Hs _ IH]; [apply rtc_refl|]. etrans; [by eapply rstep_lifecycle|done]. Qed.

(** Every served stream was answered. *)
Lemma rstep_answered a x y :
  SafeApp a -> rstep background a addrs x y ->
  Forall (answered (V := V)) (r_served x) -> Forall (answered (V := V)) (r_served y).
Proof.
  intros Ha Hs. destruct Hs as [| |s e e' l1 peer gc st st' l2 sv Hd| | | | |]; try done.
  cbn. intros Hx. apply Forall_app. split; [done|]. constructor; [|done].
  intros data req Hr Hdec. cbn in *.
  pose proof (request_reply a gc peer st e data req Ha Hr Hdec) as Hrep. by rewrite Hd in Hrep.
Qed.

Lemma dispatch_total a gc peer s e stack lg mws :
  is_Some (app_logger a) -> middleware a = Recovery stack lg :: mws -> Forall Total (afterMiddleware a) ->
  (dispatchStream a gc peer s e).1.1 = Returns tt.
Proof.
  intros Hlog Hm Ht.
  destruct (serve_streams_survives a gc [(peer, s)] e stack lg mws Hlog Hm Ht)
    as (outs & e' & Hs & _).
  cbn in Hs. by destruct (dispatchStream a gc peer s e) as [[[[]|p] s'] e1].
Qed.

Lemma announce_returns a i g e :
  is_Some (app_logger a) -> exists e', announce a addrs i g e = Returns e'.
Proof.
  intros [l Hl]. unfold announce. rewrite Hl. destruct (step_record addrs i g); by eexists.
Qed.

Lemma announce_world a i g e e' : announce a addrs i g e = Returns e' -> world e' = world e.
Proof.
  unfold announce. destruct (step_record addrs i g) as [n|]; [|by intros [= <-]].
  destruct (log_announcement _ n); [|done]. by intros [= <-].
Qed.

Lemma rstep_survives a x y stack lg mws :
  is_Some (app_logger a) -> middleware a = Recovery stack lg :: mws -> Forall Total (afterMiddleware a) ->
  rstep background a addrs x y -> r_crashed y = None.
Proof.
  intros Hlog Hm Ht. destruct 1 as [|i s s' e l1 t l2 gs sv p _ Han| |s e e' l1 peer gc st st' l2 sv p Hd| | | |];
    try done.
  { destruct (announce_returns a i (goroutine_of t) e Hlog) as [e' He]. by rewrite He in Han. }
  pose proof (dispatch_total a gc peer st e stack lg mws Hlog Hm Ht) as Hr. by rewrite Hd in Hr.
Qed.

Lemma rstep_world (R : relation W) `{!PreOrder R} a x y :
  MovesApp R a -> (forall w w', background w w' -> R w w') -> rstep background a addrs x y ->
  R (world (r_env x)) (world (r_env y)).
Proof.
  intros Ha Hb. destruct 1 as [i s s' e e' l1 t l2 gs ts sv _ _ Han _| |s e e' l1 peer gc st st' l2 sv Hd
    |s e e' l1 peer gc st st' l2 sv p Hd|s e w ts sv Hw| | |]; cbn; try reflexivity;
    [by rewrite (announce_world _ _ _ _ _ Han)| | |by apply Hb];
    pose proof (dispatch_moves R a gc peer st e Ha) as Hr; by rewrite Hd in Hr.
Qed.

Lemma run_world (R : relation W) `{!PreOrder R} a x y :
  MovesApp R a -> (forall w w', background w w' -> R w w') -> rtc (rstep background a addrs) x y ->
  R (world (r_env x)) (world (r_env y)).
Proof.
  intros Ha Hb. induction 1 as [|x y z Hs _ IH]; [done|]. etrans; [by eapply rstep_world|done].
Qed.

Lemma run_answered a x y :
  SafeApp a -> rtc (rstep background a addrs) x y ->
  Forall (answered (V := V)) (r_served x) -> Forall (answered (V := V)) (r_served y).
Proof. intros Ha. induction 1 as [|x y z Hs _ IH]; [done|]. intros Hx. by eapply IH, rstep_answered. Qed.

Lemma run_survives a x y stack lg mws :
  is_Some (app_logger a) -> middleware a = Recovery stack lg :: mws -> Forall Total (afterMiddleware a) ->
  rtc (rstep background a addrs) x y -> r_crashed x = None -> r_crashed y = None.
Proof.
  intros Hlog Hm Ht. induction 1 as [|x y z Hs _ IH]; [done|]. intros _. by eapply IH, rstep_survives.
Qed.


End Running.

(** ** A run with one request *)

(** One transport only. *)
Definition one_addr : addresses := mkAddresses ":4433" "".

(** A step of one task, by computation. *)
Ltac goes := [> reflexivity | reflexivity | reflexivity | reflexivity | by repeat constructor |].

Section OneRequest.
Context {V W : Type} `{Unicode} `{URLAuthority} `{Msgpack V}.
Variable background : relation W.
Implicit Types (a : App V W) (e : Env W).

(** The task after [l1] goes on as [ts]. *)
Lemma run_task i s s' e e' l1 t l2 gs ts sv a tasks y :
  tasks = l1 ++ t :: l2 -> dispatching t = false -> gstep i (goroutine_of t) s = Some (s', gs) ->
  announce a one_addr i (goroutine_of t) e = Returns e' -> Forall2 (spawned t) gs ts ->
  rtc (rstep background a one_addr) (mkRunning s' e' (l1 ++ ts ++ l2) sv None) y ->
  rtc (rstep background a one_addr) (mkRunning s e tasks sv None) y.
Proof. intros -> Hd Hg Hn Hts Hr. eapply rtc_l; [by eapply rs_go|done]. Qed.

(** The environment once the native listener is open. *)
Definition opened a e : Env W :=
  match announce a one_addr Accepted (GListenNative LOpen) e with
  | Returns e' => e'
  | Panics _ => e
  end.

(** A connection was accepted, and a stream on it, and the stream is served. *)
Definition one_served a e (c : QuicConn) (id : nat) (s : stream) : running W :=
  let d := dispatchStream a (connContext id) (quicConnWrapper c) s (opened a e) in
  mkRunning (wg_Add 1 (wg_Add 1 (set_listening true no_globals))) d.2
    [Plain (GListenAddr true false); Plain (GListenNative LAccept); ConnTask CAccept c id;
     StreamTask SClose (quicConnWrapper c) (connContext id) d.1.2; Plain GWatch]
    [mkServed (quicConnWrapper c) (connContext id) s d.1.2] None.

(** A connection and a stream on it were accepted, and the stream's goroutine
    has not run yet. *)
Definition one_accepted a e (c : QuicConn) (id : nat) (s : stream) : running W :=
  mkRunning (wg_Add 1 (wg_Add 1 (set_listening true no_globals))) (opened a e)
    [Plain (GListenAddr true false); Plain (GListenNative LAccept); ConnTask CAccept c id;
     StreamTask SRun (quicConnWrapper c) (connContext id) s; Plain GWatch] [] None.

Lemma one_accept a e c id s :
  is_Some (app_logger a) ->
  rtc (rstep background a one_addr) (launch one_addr e) (one_accepted a e c id s).
Proof.
  intros [log Hlog]. set (la := Plain (GListenAddr true false)). set (ln := Plain (GListenNative LAccept)).
  eapply (run_task Accepted _ no_globals _ _ [] _ [] [GListenAddr true false; GListenNative LStart]
    [la; Plain (GListenNative LStart)]); goes.
  eapply (run_task Accepted _ (set_listening true no_globals) _ _ [la] _ [] [GListenNative LOpen]
    [Plain (GListenNative LOpen)]); goes.
  eapply (run_task Accepted _ (set_listening true no_globals) _ (opened a e) [la] _ []
    [GListenNative LAccept; GWatch] [ln; Plain GWatch]); [done..| |by repeat constructor|].
  { unfold opened, announce. cbn. by rewrite Hlog. }
  eapply (run_task Accepted _ (set_listening true no_globals) _ _ [la] _ [Plain GWatch]
    [GListenNative LAccept; GConn CStart] [ln; ConnTask CStart c id]); goes.
  eapply (run_task Accepted _ (wg_Add 1 (set_listening true no_globals)) _ _ [la; ln] _ [Plain GWatch]
    [GConn CAccept] [ConnTask CAccept c id]); goes.
  eapply (run_task Accepted _ (wg_Add 1 (wg_Add 1 (set_listening true no_globals))) _ _ [la; ln] _
    [Plain GWatch] [GConn CSpawn] [ConnTask CSpawn c id]); goes.
  eapply (run_task Accepted _ (wg_Add 1 (wg_Add 1 (set_listening true no_globals))) _ _ [la; ln] _
    [Plain GWatch] [GConn CAccept; GStream SRun]
    [ConnTask CAccept c id; StreamTask SRun (quicConnWrapper c) (connContext id) s]); goes.
  apply rtc_refl.
Qed.

Lemma one_request a e c id s :
  is_Some (app_logger a) ->
  (dispatchStream a (connContext id) (quicConnWrapper c) s (opened a e)).1.1 = Returns tt ->
  rtc (rstep background a one_addr) (launch one_addr e) (one_served a e c id s).
Proof.
  intros Hlog Hd. eapply rtc_r; [by apply one_accept|]. unfold one_served.
  destruct (dispatchStream a (connContext id) (quicConnWrapper c) s (opened a e)) as [[r s'] e'] eqn:E.
  cbn in Hd. subst r.
  exact (rs_dispatch background a one_addr _ _ _ [Plain (GListenAddr true false);
    Plain (GListenNative LAccept); ConnTask CAccept c id] _ _ s s' [Plain GWatch] [] E).
Qed.
End OneRequest.

(** ** Witness *)

Section Witness.
#[local] Existing Instance ascii_tables.
#[local] Existing Instance any_authority.

Definition demo_conn : QuicConn := mkQuicConn (Some "127.0.0.1:1234") [].
Definition no_background : relation unit := fun _ _ => False.

Definition guarded_demo : App string unit :=
  mkApp (router demo_app) [Recovery (fun _ => "stack") []] (afterMiddleware demo_app)
    (app_logger demo_app) (quicCfg demo_app).

Definition demo_running : running unit :=
  one_served guarded_demo demo_env demo_conn 0 (request_stream sample_request).

End Witness.
