(* ===== verification/Servers.v ===== *)
(** * The example servers (examples/basic-server/main.go, cmd/example/main.go)

    The handlers of the basic server over its list of users, the application it
    registers, and the handlers of the example command that reply at once.  A
    handler that locks [usersMu] runs its locked part without interruption, so
    the state shared by requests changes at once.  Values of dynamic types are
    boxed ([Boxed] of GoStd.v); a map of type map[string]interface{} is an
    option, [None] for nil. *)

From S2P Require Import Prelude GoStd NetURL Wire Validation Reqctx Reply Router App Group Middleware RateLimit.
From Stdlib Require Import Ascii QArith.

Local Open Scope string_scope.
Local Open Scope list_scope.

(** ** The users of the basic server *)

Abbreviation user := (gmap string string).

Record users_state := mkUsers {
  nextID : Z;
  users : list user;
}.

Definition initial_users : users_state :=
  mkUsers 3 [{["id" := "1"; "name" := "Alice"]}; {["id" := "2"; "name" := "Bob"]}].

(** The [name] field of the body of [POST /users]. *)
Record createUser := mkCreateUser { cu_Name : string }.

(** Where the shared state keeps the users. *)
Class HasUsers (W : Type) := {
  get_users : W -> users_state;
  set_users : users_state -> W -> W;
  get_set_users s w : get_users (set_users s w) = s;
}.

(** [user[key]], and the loop of [GET /users/:id]. *)
Definition field (u : user) (key : string) : string := default "" (u !! key).

Fixpoint find_user (l : list user) (id : string) : option user :=
  match l with
  | [] => None
  | u :: l => if String.eqb (field u "id") id then Some u else find_user l id
  end.

Definition copyUsers (s : users_state) : list user :=
  map (fun u => {["id" := field u "id"; "name" := field u "name"]} : user) (users s).

(** The locked part of [POST /users]. *)
Definition create_user (name : string) (s : users_state) : user * users_state :=
  let u : user := {["id" := fmt_d (nextID s); "name" := name]} in
  (u, mkUsers (nextID s + 1) (users s ++ [u])).

(** The rule for the x-tenant-id header. *)
Definition tenant_rule `{Unicode} : HeaderRule := fun value =>
  if (String.length (TrimSpace value) <? 3)%nat
  then Some (errorString "invalid x-tenant-id header") else None.

Section Basic.
Context {V W L : Type} `{Unicode} `{Msgpack V} `{Validator V}.
Context `{Boxed string V} `{Boxed user V} `{Boxed (list user) V} `{Boxed (option (gmap string V)) V}.
Context `{Boxed createUser V} `{HasUsers W} `{RateLib L} `{HasLimiters L W} `{Growslice}.
Variable debug_Stack : panic_value -> string.

(** A map literal of type map[string]interface{}. *)
Definition any_map (m : gmap string V) : V := box (Some m).

Definition get_ping : HandlerFunc V W :=
  MsgPack 200 (Some (box ({["pong" := "ok"]} : user))).

Definition get_users_list : HandlerFunc V W :=
  w ← get_world;
  MsgPack 200 (Some (any_map {["users" := box (copyUsers (get_users w))]})).

Definition get_user : HandlerFunc V W :=
  c ← get_ctx;
  w ← get_world;
  match find_user (users (get_users w)) (Param c "id") with
  | Some u => MsgPack 200 (Some (box u))
  | None => Error 404 "user not found" []
  end.

(** The body keeps the type it was bound with. *)
Definition post_user : HandlerFunc V W :=
  c ← get_ctx;
  let '(v, err) := BindAndValidate c (box (mkCreateUser "")) in
  match err with
  | Some err => Error 400 (Error_string err) []
  | None =>
      w ← get_world;
      let '(u, s) := create_user (from_option cu_Name "" (unbox v)) (get_users w) in
      _ ← put_world (set_users s w);
      MsgPack 201 (Some (box u))
  end.

Definition tenant_users : HandlerFunc V W :=
  c ← get_ctx;
  w ← get_world;
  MsgPack 200 (Some (any_map
    {["tenant" := box (GetHeader c "x-tenant-id"); "users" := box (copyUsers (get_users w))]})).

Definition delete_user : HandlerFunc V W := NoContent.

Definition get_file : HandlerFunc V W :=
  c ← get_ctx;
  MsgPack 200 (Some (box ({["path" := Param c "path"]} : user))).

(** What [main] registers, in its order; the header rules are a map of one
    entry, so there is one order to check them in. *)
Definition basic_server : App V W :=
  let app := App.Use New [Recovery debug_Stack []; Logger []; RateLimitSimple (L := L) 1000] in
  let app := App.GET app "/ping" get_ping in
  let app := App.GET app "/users" get_users_list in
  let app := App.GET app "/users/:id" get_user in
  let app := App.POST app "/users" post_user in
  let st := exec (empty_store app)
              (CGroup "/tenant" [RequireHeaders ["x-tenant-id"];
                                 check_rules [("x-tenant-id", tenant_rule)]]) in
  let st := exec st (CHandle 0 "GET" "/users" tenant_users) in
  let app := App.DELETE (s_app st) "/users/:id" delete_user in
  App.GET app "/files/*path" get_file.
End Basic.

(** ** The example command *)

(** [m[key] = v] on a map that may be nil. *)
Definition nil_map_assignment : panic_value :=
  PanicError (errorString "assignment to entry in nil map").

Section Example_.
Context {V W : Type} `{Unicode} `{Msgpack V} `{Validator V}.
Context `{Boxed string V} `{Boxed Z V} `{Boxed user V} `{Boxed (option (gmap string V)) V}.
Context `{Boxed (list (gmap string V)) V}.

Definition set_entry (m : option (gmap string V)) (key : string) (v : V)
    : M V W (option (gmap string V)) :=
  match m with
  | Some m => mret (Some (<[key := v]> m))
  | None => panic nil_map_assignment
  end.

Definition example_info : HandlerFunc V W :=
  now ← time_Now;
  MsgPack 200 (Some (box (Some ({["framework" := box "QuicFrame"; "transport" := box "QUIC/1";
    "encoding" := box "MsgPack"; "time" := box now]} : gmap string V)))).

Definition example_users : HandlerFunc V W :=
  let entry (id name role : string) : gmap string V :=
    {["id" := box id; "name" := box name; "role" := box role]} in
  MsgPack 200 (Some (box (Some
    ({["users" := box [entry "1" "Alice" "admin"; entry "2" "Bob" "user"];
       "total" := box 2%Z]} : gmap string V)))).

Definition example_user : HandlerFunc V W :=
  c ← get_ctx;
  MsgPack 200 (Some (box (Some ({["id" := box (Param c "id"); "name" := box "Alice"]}
    : gmap string V)))).

(** [var payload map[string]interface{}], bound and then assigned to. *)
Definition example_create : HandlerFunc V W :=
  c ← get_ctx;
  let '(v, err) := Bind c (box (None : option (gmap string V))) in
  match err with
  | Some err => Error 400 ("invalid body: " +:+ Error_string err) []
  | None =>
      now ← time_Now;
      payload ← set_entry (default None (unbox v)) "id" (box (fmt_d now));
      MsgPack 201 (Some (box payload))
  end.

Definition example_upload : HandlerFunc V W :=
  c ← get_ctx;
  let body := default [] (Body c) in
  _ ← log_record (mkLog LevelInfo "upload received" [("bytes", AInt (Z.of_nat (length body)))]);
  let preview := if (8 <? length body)%nat then take 8 body else body in
  MsgPack 200 (Some (box (Some ({["received_bytes" := box (Z.of_nat (length body));
    "preview_hex" := box (hex_string preview)]} : gmap string V)))).

Definition example_file : HandlerFunc V W :=
  c ← get_ctx;
  MsgPack 200 (Some (box ({["path" := Param c "path"; "note" := "demo placeholder"]} : user))).
End Example_.
