(* ===== verification/ServersProps.v ===== *)
(** * Properties of the example servers

    Users are found under the ID they were created with and no other; the
    basic server is a safe application; and the example command's [POST]
    handler panics on an empty body. *)

From S2P Require Import Prelude GoStd NetURL Wire RefCodec Validation Reqctx Reply Router App Group Middleware RateLimit World Lifecycle LifecycleProps Running RunningProps Servers.
From Stdlib Require Import Ascii QArith.

Local Open Scope string_scope.
Local Open Scope list_scope.

(** ** Users *)

Definition user_of (k : nat) (name : string) : user :=
  {["id" := fmt_d (Z.of_nat (S k)); "name" := name]}.

Definition all_names (names : list string) : list string := "Alice" :: "Bob" :: names.

(** The users after these names were posted: numbered from 1 in order, and the
    next number is the first that is free. *)
Definition created (names : list string) : users_state :=
  mkUsers (Z.of_nat (S (length (all_names names)))) (imap user_of (all_names names)).


Lemma created_snoc names name : created (names ++ [name]) = (create_user name (created names)).2.
Proof.
  unfold created, create_user, all_names. cbn [nextID users snd]. rewrite !app_comm_cons, imap_app, !length_app.
  f_equal; [cbn; lia|]. cbn [imap length]. do 2 f_equal. unfold user_of. by rewrite Nat.add_0_r.
Qed.

(** The handlers bring about these states. *)
Definition post_names (names : list string) (s : users_state) : users_state :=
  foldl (fun s name => (create_user name s).2) s names.

Lemma post_names_created names : post_names names initial_users = created names.
Proof.
  induction names as [|name names IH] using rev_ind; [reflexivity|].
  unfold post_names in *. by rewrite foldl_snoc, IH, created_snoc.
Qed.

Lemma field_id k name : field (user_of k name) "id" = fmt_d (Z.of_nat (S k)).
Proof. reflexivity. Qed.

(** Different users have different IDs. *)
Lemma fmt_d_inj (a b : nat) : fmt_d (Z.of_nat a) = fmt_d (Z.of_nat b) -> a = b.
Proof. unfold fmt_d. intros E%(inj pretty). lia. Qed.

Lemma find_user_none l id :
  (forall u, u ∈ l -> field u "id" <> id) -> find_user l id = None.
Proof.
  induction l as [|u l IH]; intros Hl; [done|]. cbn.
  destruct (String.eqb_spec (field u "id") id) as [E|_]; [by destruct (Hl u (list_elem_of_here _ _))|].
  apply IH. intros v Hv. apply Hl. by right.
Qed.

Lemma find_user_at l k u id :
  l !! k = Some u -> field u "id" = id ->
  (forall j v, (j < k)%nat -> l !! j = Some v -> field v "id" <> id) -> find_user l id = Some u.
Proof.
  revert k. induction l as [|v l IH]; intros k Hk Hid Hlt; [done|]. cbn.
  destruct k as [|k]; cbn in Hk; [injection Hk as ->|].
  - by rewrite (proj2 (String.eqb_eq _ _)).
  - rewrite (proj2 (String.eqb_neq _ _)) by (apply (Hlt 0%nat); [lia|done]).
    apply (IH k); [done|done|]. intros j w Hj. apply (Hlt (S j)). lia.
Qed.

Section Basic.
Context {V W L : Type} `{Unicode} `{Msgpack V} `{Validator V}.
Context `{Boxed string V} `{Boxed user V} `{Boxed (list user) V} `{Boxed (option (gmap string V)) V}.
Context `{Boxed createUser V} `{HasUsers W} `{RateLib L} `{HasLimiters L W} `{Growslice}.

(** After any names were posted to a fresh server, a request for a user
    replies with the user created under this ID, the two initial ones
    included, and with a 404 error frame for every other ID. *)
Theorem get_user_spec names (st : St V W) :
  get_users (world (st_env st)) = created names ->
  (forall k name, all_names names !! k = Some name ->
     Param (st_ctx st) "id" = fmt_d (Z.of_nat (S k)) ->
     get_user st = MsgPack 200 (Some (box (user_of k name))) st) /\
  ((forall k, (k < length (all_names names))%nat ->
      Param (st_ctx st) "id" <> fmt_d (Z.of_nat (S k))) ->
   get_user st = Error 404 "user not found" [] st).
Proof.
  intros Hw.
  assert (get_user st = match find_user (imap user_of (all_names names)) (Param (st_ctx st) "id") with
    | Some u => MsgPack 200 (Some (box u)) st
    | None => Error 404 "user not found" [] st
    end) as ->.
  { change (imap user_of (all_names names)) with (users (created names)). rewrite <- Hw.
    change (get_user st) with
      ((match find_user (users (get_users (world (st_env st)))) (Param (st_ctx st) "id") with
        | Some u => MsgPack 200 (Some (box u))
        | None => Error 404 "user not found" []
        end : M V W (option error)) st).
    by destruct (find_user _ _). }
  split.
  - intros k name Hk ->. erewrite (find_user_at _ k); [done| | |].
    + by rewrite list_lookup_imap, Hk.
    + apply field_id.
    + intros j v Hj. rewrite list_lookup_imap, fmap_Some. intros (n & _ & ->).
      rewrite field_id. intros E%fmt_d_inj. lia.
  - intros Hid. rewrite find_user_none; [done|]. intros u [k Hk]%list_elem_of_lookup.
    rewrite list_lookup_imap in Hk. apply fmap_Some in Hk as (n & Hn & ->).
    rewrite field_id. intros E. apply (Hid k); [by eapply lookup_lt_Some|done].
Qed.

(** *** The application *)

#[export] Instance safe_get_user : Safe (get_user (V := V) (W := W)).
Proof. unfold get_user. apply _. Qed.

#[export] Instance safe_post_user : Safe (post_user (V := V) (W := W)).
Proof.
  unfold post_user. apply safe_bind; [apply _|intros c].
  destruct (BindAndValidate c (box (mkCreateUser ""))) as [v [e|]]; [apply _|].
  apply safe_bind; [apply _|intros w]. apply safe_bind; [apply _|intros _]. apply _.
Qed.

(** One route of a group made from a literal. *)
Lemma exec_group_route (a : App V W) prefix mw method path h :
  s_app (exec (exec (empty_store a) (CGroup prefix mw)) (CHandle 0 method path h)) =
  addRoute a method (prefix +:+ path) mw h.
Proof.
  assert (contents (literal [] mw).2 (literal [] mw).1 = mw) as Hc.
  { apply (literal_separate [] [] []). split; [constructor|]. intros i j s t _ Hi. done. }
  unfold exec. cbn [empty_store s_heap s_app s_vars s_groups]. destruct (literal [] mw) as [s h0].
  unfold App_Group, handle. cbn in *. by rewrite Hc.
Qed.

(** The basic server is built from the Context API and the middleware package,
    so what [dispatchStream] promises of a safe application holds of it. *)
Lemma basic_server_safe stack :
  SafeApp (basic_server (V := V) (W := W) (L := L) stack).
Proof.
  unfold basic_server. cbn zeta. rewrite exec_group_route.
  repeat (apply SafeApp_addRoute; [|forall_instances|
    unfold get_file, delete_user, tenant_users, get_users_list, get_ping; apply _]).
  apply SafeApp_Use; [apply SafeApp_New|]. forall_instances.
Qed.
(** *** The state after any requests *)

(** The users and the limiters are different parts of the shared state. *)
Class Separate : Prop := {
  users_set_limiters (l : limiters L) (w : W) : get_users (set_limiters l w) = get_users w;
  limiters_set_users s (w : W) : get_limiters (L := L) (set_users s w) = get_limiters w;
}.
Context `{!Separate}.

(** Users are only ever added, with the next ID each; limiters stay apart. *)
Definition server_moves (w w' : W) : Prop :=
  (exists names, get_users w' = post_names names (get_users w)) /\
  (entries_wf (get_limiters (L := L) w) -> entries_wf (get_limiters (L := L) w')).

#[export] Instance server_moves_preorder : PreOrder server_moves.
Proof.
  split.
  - intros w. split; [by exists []|done].
  - intros w1 w2 w3 [[ns Hns] Hl] [[ms Hms] Hl']. split; [|by auto].
    exists (ns ++ ms). unfold post_names in *. by rewrite foldl_app, Hms, Hns.
Qed.

Lemma limiter_step_moves l (w : W) :
  (entries_wf (get_limiters w) -> entries_wf l) -> server_moves w (set_limiters l w).
Proof.
  intros Hl. split; [exists []; by rewrite users_set_limiters|]. by rewrite get_set_limiters.
Qed.

#[export] Instance limiter_server_moves : LimiterMoves server_moves (L := L).
Proof.
  split; intros *; apply limiter_step_moves; [apply entries_wf_get|apply entries_wf_allow].
Qed.

#[export] Instance post_user_moves : Moves server_moves (post_user (V := V) (W := W)).
Proof.
  unfold post_user. apply moves_bind; [apply _|apply _|]. intros c.
  destruct (BindAndValidate c (box (mkCreateUser ""))) as [v [err|]]; [apply _|].
  apply moves_get_world. intros st.
  destruct (create_user (from_option cu_Name "" (unbox v)) (get_users (shared_world st)))
    as [u s] eqn:Hc.
  apply moves_put_world; [apply _| |apply _]. split; [|by rewrite limiters_set_users].
  exists [from_option cu_Name "" (unbox v)]. rewrite get_set_users. cbn [post_names foldl].
  by rewrite Hc.
Qed.

Lemma basic_server_moves stack :
  MovesApp server_moves (basic_server (V := V) (W := W) (L := L) stack).
Proof.
  unfold basic_server. cbn zeta. rewrite exec_group_route.
  repeat (apply MovesApp_addRoute; [|forall_instances|
    unfold get_file, delete_user, tenant_users, get_users_list, get_user, get_ping; apply _]).
  apply MovesApp_Use; [apply MovesApp_New; apply _|]. forall_instances.
Qed.

(** A tick of the cleanup goroutine that [RateLimitSimple] starts. *)
Definition cleanup_tick (w w' : W) : Prop :=
  exists now, w' = set_limiters (cleanup (L := L)
    (IdleTimeout (RateLimitConfig_setDefaults (mkRateLimitConfig (V := V) (W := W) 1000 0 None 0 0)))
    now (get_limiters w)) w.

(** C9. The basic server as it runs: whoever connects and whatever they send,
    with streams served in any order and the limiter's cleanup ticking in
    between, no request takes the process down; every served request has a
    prefix of a well-shaped reply; the users are numbered from 1 in their order,
    the two initial ones and then created ones, with the number after the last
    free for the next; no two clients share a limiter;
    and the wait group counts what is in flight. *)
Theorem basic_server_runs `{URLAuthority} stack addrs (e : Env W) x :
  get_users (world e) = initial_users -> get_limiters (world e) = no_limiters (L := L) ->
  rtc (rstep cleanup_tick (basic_server (V := V) (W := W) (L := L) stack) addrs) (launch addrs e) x ->
  r_crashed x = None /\ Forall (answered (V := V)) (r_served x) /\
  (exists names, get_users (world (r_env x)) = created names) /\
  entries_wf (get_limiters (L := L) (world (r_env x))) /\
  wg (r_globals x) = counted (map goroutine_of (r_tasks x)).
Proof.
  intros Hu Hl Hr.
  assert (server_moves (world e) (world (r_env x))) as [[names Hn] Hw].
  { eapply (run_world cleanup_tick addrs server_moves _ (launch addrs e)); [apply basic_server_moves| |done].
    intros w w' (now & ->). apply limiter_step_moves. apply entries_wf_cleanup. }
  rewrite Hu, post_names_created in Hn. rewrite Hl in Hw. split_and!.
  - by apply (run_survives cleanup_tick addrs (basic_server (L := L) stack) (launch addrs e) x stack []
      [Logger []; RateLimitSimple (L := L) 1000] (mk_is_Some _ _ eq_refl) eq_refl (Forall_nil_2 _)).
  - by eapply (run_answered cleanup_tick addrs _ (launch addrs e)); [apply basic_server_safe|done|].
  - by exists names.
  - apply Hw, entries_wf_no.
  - exact (reachable_counts _ _ (run_lifecycle cleanup_tick addrs _ _ _ Hr)).
Qed.

(** Whatever anyone sends to a fresh basic server, on any number of streams,
    no request takes it down, its users are the two initial ones followed by
    some created ones with consecutive IDs, and no two clients share a
    limiter. *)
Theorem basic_server_serves `{URLAuthority} stack gc ss (e : Env W) :
  get_users (world e) = initial_users -> get_limiters (world e) = no_limiters (L := L) ->
  exists outs e' names,
    serve_streams (basic_server (V := V) (W := W) (L := L) stack) gc ss e = Some (outs, e') /\
    length outs = length ss /\ get_users (world e') = created names /\
    entries_wf (get_limiters (L := L) (world e')).
Proof.
  intros Hu Hl.
  destruct (serve_streams_survives (basic_server (V := V) (W := W) (L := L) stack) gc ss e stack []
    [Logger []; RateLimitSimple (L := L) 1000] (mk_is_Some _ _ eq_refl) eq_refl (Forall_nil_2 _)) as (outs & e' & Hs & Hlen).
  pose proof (serve_streams_moves server_moves _ gc ss e outs e' (basic_server_moves stack) Hs)
    as [[names Hn] Hw].
  exists outs, e', names. rewrite Hu, post_names_created in Hn. rewrite Hl in Hw.
  split_and!; [done..|]. apply Hw, entries_wf_no.
Qed.
End Basic.

(** ** The example command *)

Section Example_.
Context {V W : Type} `{Unicode} `{Msgpack V} `{Validator V}.
Context `{Boxed string V} `{Boxed (option (gmap string V)) V}.

(** [POST /api/v1/users] with an empty body leaves the map nil that it then
    assigns to: the handler panics, and behind [Recovery] the client gets a
    500 error frame instead of a 400. *)
Theorem example_create_empty stack lg (st : St V W) :
  default [] (req_Body (ctx_Request (st_ctx st))) = [] ->
  exists st', example_create st = (Panics nil_map_assignment, st') /\
    st_ctx st' = st_ctx st /\
    Recovery stack lg example_create st =
      recovered stack (logger_or_default lg) nil_map_assignment st'.
Proof.
  intros Hb. set (st' := mkSt (st_ctx st) (st_sws st)
    (mkEnv (logs (st_env st)) (clock (st_env st)) (S (ticks (st_env st))) (world (st_env st)))).
  assert (example_create st = (Panics nil_map_assignment, st')) as E.
  { unfold example_create. rewrite bind_run. cbn [get_ctx]. unfold Bind. rewrite Hb.
    rewrite unbox_box. reflexivity. }
  exists st'. split_and!; [done|done|]. unfold Recovery. by rewrite E.
Qed.
End Example_.

(** ** Witnesses

    Interface values of the types the servers box; the codec of RefCodec.v for
    frames, and bytes for strings and users. *)

Inductive value :=
  | VString (s : string)
  | VUser (u : user)
  | VUsers (l : list user)
  | VMap (m : option (gmap string value))
  | VCreate (c : createUser).

Definition value_string v : option string := match v with VString s => Some s | _ => None end.
Definition value_user v : option user := match v with VUser u => Some u | _ => None end.
Definition value_users v : option (list user) := match v with VUsers l => Some l | _ => None end.
Definition value_create v : option createUser := match v with VCreate c => Some c | _ => None end.
Definition value_map v : option (option (gmap string value)) :=
  match v with VMap m => Some m | _ => None end.

Lemma value_string_inv v s : value_string v = Some s -> v = VString s.
Proof. destruct v; intros; by simplify_eq/=. Qed.
Lemma value_user_inv v u : value_user v = Some u -> v = VUser u.
Proof. destruct v; intros; by simplify_eq/=. Qed.
Lemma value_users_inv v l : value_users v = Some l -> v = VUsers l.
Proof. destruct v; intros; by simplify_eq/=. Qed.
Lemma value_create_inv v c : value_create v = Some c -> v = VCreate c.
Proof. destruct v; intros; by simplify_eq/=. Qed.
Lemma value_map_inv v m : value_map v = Some m -> v = VMap m.
Proof. destruct v; intros; by simplify_eq/=. Qed.

#[export] Instance value_boxed_string : Boxed string value :=
  {| box := VString; unbox := value_string; unbox_box s := eq_refl; box_unbox := value_string_inv |}.
#[export] Instance value_boxed_user : Boxed user value :=
  {| box := VUser; unbox := value_user; unbox_box s := eq_refl; box_unbox := value_user_inv |}.
#[export] Instance value_boxed_map : Boxed (option (gmap string value)) value :=
  {| box := VMap; unbox := value_map; unbox_box s := eq_refl; box_unbox := value_map_inv |}.

#[export] Instance value_boxed_users : Boxed (list user) value :=
  {| box := VUsers; unbox := value_users; unbox_box s := eq_refl; box_unbox := value_users_inv |}.
#[export] Instance value_boxed_create : Boxed createUser value :=
  {| box := VCreate; unbox := value_create; unbox_box s := eq_refl; box_unbox := value_create_inv |}.

#[export] Instance value_codec : Msgpack value := {|
  Marshal p :=
    match p with
    | PRequest r => ref_marshal (PRequest r)
    | PResponse r => ref_marshal (PResponse r)
    | PChunk c => ref_marshal (PChunk c)
    | PError e => ref_marshal (PError e)
    | PPing p => ref_marshal (PPing p)
    | PValue None => ref_marshal (PValue None)
    | PValue (Some (VString s)) => ref_marshal (PValue (Some s))
    | PValue (Some (VUser u)) => Ok (tagged Byte.x0a u)
    | PValue (Some _) => Err (errorString "msgpack: Encode(unsupported type)")
    end;
  UnmarshalRequest := UnmarshalRequest (Msgpack := ref_codec);
  UnmarshalResponse := UnmarshalResponse (Msgpack := ref_codec);
  UnmarshalStreamChunk := UnmarshalStreamChunk (Msgpack := ref_codec);
  UnmarshalErrorFrame := UnmarshalErrorFrame (Msgpack := ref_codec);
  UnmarshalInto b v :=
    match v with
    | VCreate c =>
        let '(name, err) := UnmarshalInto (Msgpack := ref_codec) b (cu_Name c) in
        (VCreate (mkCreateUser name), err)
    | _ => (v, Some (errorString "msgpack: Decode(unsupported type)"))
    end;
|}.

(** A name needs two characters. *)
#[export] Instance value_validator : Validator value := {|
  Struct v :=
    match v with
    | VCreate c =>
        if (String.length (cu_Name c) <? 2)%nat
        then Some (ValidationErrors [mkLibFieldError "Name" "min" "2"]) else None
    | _ => None
    end;
|}.

Section Witnesses.
#[local] Existing Instance ascii_tables.

#[local] Instance only_users : HasUsers users_state :=
  {| get_users w := w; set_users s _ := s; get_set_users s w := eq_refl |}.

(** A request with a path parameter, over a world. *)
Definition asking {W} (params : gmap string string) (w : W) : St value W :=
  mkSt (setParams (newContext None (mkRequest "r1" "GET" "/users/3" None None false)
          (otherPeer (Some "[::1]:4433") []) (reading [])) params) []
    (mkEnv [] (fun n => Z.of_nat n) 0 w).

(** Carol was posted first and has the ID 3. *)
Lemma get_user_spec_witness :
  get_user (asking {["id" := "3"]} (created ["Carol"; "Dave"])) =
  MsgPack 200 (Some (box (user_of 2 "Carol"))) (asking {["id" := "3"]} (created ["Carol"; "Dave"])).
Proof.
  refine (proj1 (get_user_spec (V := value) (W := users_state) ["Carol"; "Dave"]
    (asking {["id" := "3"]} (created ["Carol"; "Dave"])) _) 2%nat "Carol" _ _); reflexivity.
Defined.

Lemma example_create_empty_witness :
  exists st', example_create (asking ∅ tt) = (Panics nil_map_assignment, st') /\
    st_ctx st' = st_ctx (asking ∅ tt) /\
    Recovery (fun _ => "stack") [] example_create (asking ∅ tt) =
      recovered (fun _ => "stack") slog_Default nil_map_assignment st'.
Proof. exact (example_create_empty (fun _ => "stack") [] (asking ∅ tt) eq_refl). Defined.

(** Two streams on a fresh server: a user is posted, then asked for. *)
#[local] Instance no_authority : URLAuthority := {| authority_ok := fun _ => false |}.
#[local] Instance doubling : Growslice :=
  {| growslice cap n := Nat.max n (2 * cap); growslice_ge cap n := Nat.le_max_l n (2 * cap) |}.
#[local] Instance counting : RateLib Z := {|
  NewLimiter _ burst := burst;
  Allow _ n := if (0 <? n)%Z then (true, (n - 1)%Z) else (false, n);
|}.

Abbreviation server_world := (users_state * limiters Z)%type.

#[local] Instance world_users : HasUsers server_world :=
  {| get_users w := w.1; set_users s w := (s, w.2); get_set_users s w := eq_refl |}.
#[local] Instance world_limiters : HasLimiters Z server_world := {|
  get_limiters w := w.2; set_limiters l w := (w.1, l);
  get_set_limiters l w := eq_refl; set_set_limiters l l' w := eq_refl |}.
#[local] Instance world_separate : Separate (W := server_world) (L := Z) :=
  {| users_set_limiters l w := eq_refl; limiters_set_users s w := eq_refl |}.

Definition request_stream (req : Request) : stream :=
  reading [frame_bytes FrameTypeRequest (encoding (PRequest req))].

Definition two_streams : list (remoteAddrProvider * stream) :=
  [(otherPeer (Some "[::1]:4433") [],
    request_stream (mkRequest "r1" "POST" "/users" None (Some (encoding (PValue (Some "Carol")))) false));
   (otherPeer (Some "[::1]:4434") [],
    request_stream (mkRequest "r2" "GET" "/users/3" None None false))].

Definition fresh_env : Env server_world :=
  mkEnv [] (fun n => Z.of_nat n) 0 (initial_users, no_limiters).

Definition quiet_stack : panic_value -> string := fun _ => "stack".

Definition server : App value server_world := basic_server (L := Z) quiet_stack.

(** The run itself: Carol has the ID 3, and the second reply is hers. *)
Example two_streams_served :
  match serve_streams server Background two_streams fresh_env with
  | Some (outs, e) =>
      (get_users (world e), option_map out (last outs))
  | None => (initial_users, None)
  end =
  (created ["Carol"],
   Some (frame_bytes FrameTypeResponse (encoding (PResponse (mkResponse "r2" 200
     (Some {["content-type" := "application/x-msgpack"]})
     (Some (tagged Byte.x0a (user_of 2 "Carol"))) false))))).
Proof. vm_compute. reflexivity. Qed.

Lemma basic_server_serves_witness :
  exists outs e' names,
    serve_streams server Background two_streams fresh_env = Some (outs, e') /\
    length outs = length two_streams /\ get_users (world e') = created names /\
    entries_wf (get_limiters (L := Z) (world e')).
Proof.
  exact (basic_server_serves (V := value) (W := server_world) (L := Z) quiet_stack Background
    two_streams fresh_env eq_refl eq_refl).
Defined.

(** A connection that posts a user. *)
Definition posting : running server_world :=
  one_served server fresh_env (mkQuicConn (Some "[::1]:4433") []) 0
    (request_stream (mkRequest "r1" "POST" "/users" None
       (Some (encoding (PValue (Some "Carol")))) false)).

Example posted : get_users (world (r_env posting)) = created ["Carol"].
Proof. vm_compute. reflexivity. Qed.

Lemma basic_server_runs_witness :
  r_crashed posting = None /\ Forall (answered (V := value)) (r_served posting) /\
  wg (r_globals posting) = 2%Z.
Proof.
  destruct (basic_server_runs (V := value) (W := server_world) (L := Z) quiet_stack one_addr
    fresh_env posting) as (Hc & Hs & _ & _ & Hw).
  - reflexivity.
  - reflexivity.
  - apply one_request; [by eexists|vm_compute; reflexivity].
  - split; [exact Hc|split; [exact Hs|exact Hw]].
Defined.
End Witnesses.
