(* ===== verification/Loggers.v ===== *)
(** * Where the records go (framework/app.go, middleware/recovery.go,
    middleware/logger.go)

    [SetLogger] and the optional arguments of [Recovery] and [Logger] choose a
    destination for records.  Two computations are related when, on states
    that differ only in the destinations of their records, they give the same
    result and such states again: a relation between programs, with a rule per
    operation.  Applications that differ only in their loggers are so related,
    as long as none of these is nil. *)

From stdpp Require Import relations.
From S2P Require Import Prelude GoStd NetURL Wire RefCodec Validation Reqctx Reply Router App AppProps Middleware RateLimit World Lifecycle Running RunningProps Group Servers ServersProps.

Local Open Scope string_scope.
Local Open Scope list_scope.

(** ** Records and states up to destinations *)

Definition unaddressed (r : LogRecord) : Level * string * list (string * Attr) :=
  (log_level r, log_msg r, log_attrs r).

Record same_env {W : Type} (e1 e2 : Env W) : Prop := mkSameEnv {
  same_logs : map unaddressed (logs e1) = map unaddressed (logs e2);
  same_clock : clock e1 = clock e2;
  same_ticks : ticks e1 = ticks e2;
  same_world : world e1 = world e2;
}.

#[export] Instance same_env_equivalence {W : Type} : Equivalence (@same_env W).
Proof.
  split; [by intros e|by intros e1 e2 []|].
  intros e1 e2 e3 [] []. split; by etrans.
Qed.

#[export] Instance log_env_proper {W : Type} (r : LogRecord) :
  Proper (same_env ==> same_env) (fun e : Env W => log_env e r).
Proof. intros e1 e2 []. split; cbn; [|done..]. rewrite !map_app. by f_equal. Qed.

Lemma log_env_redirect {W : Type} (e1 e2 : Env W) r1 r2 :
  same_env e1 e2 -> unaddressed r1 = unaddressed r2 -> same_env (log_env e1 r1) (log_env e2 r2).
Proof. intros [] Hr. split; cbn; [|done..]. rewrite !map_app. cbn. by f_equal; [|rewrite Hr]. Qed.

Record same_st {V W : Type} (st1 st2 : St V W) : Prop := mkSameSt {
  same_ctx : st_ctx st1 = st_ctx st2;
  same_sws : st_sws st1 = st_sws st2;
  same_st_env : same_env (st_env st1) (st_env st2);
}.

#[export] Instance same_st_reflexive {V W : Type} : Reflexive (@same_st V W).
Proof. by intros st. Qed.

(** ** The relation between computations *)

Class Redirects {V W A : Type} (m1 m2 : M V W A) : Prop :=
  redirects st1 st2 : same_st st1 st2 ->
    (m1 st1).1 = (m2 st2).1 /\ same_st (m1 st1).2 (m2 st2).2.

Class RedirectsMW {V W : Type} (mw1 mw2 : MiddlewareFunc V W) : Prop :=
  redirects_mw h1 h2 : Redirects h1 h2 -> Redirects (mw1 h1) (mw2 h2).

Section Rules.
Context {V W : Type}.

#[export] Instance redirects_ret {A} (x : A) : Redirects (mret x : M V W A) (mret x).
Proof. by intros st1 st2 Hst. Qed.

#[export] Instance redirects_panic {A} p : Redirects (panic p : M V W A) (panic p).
Proof. by intros st1 st2 Hst. Qed.

#[export] Instance redirects_bind {A B} (m1 m2 : M V W A) (k1 k2 : A -> M V W B) :
  Redirects m1 m2 -> (forall x, Redirects (k1 x) (k2 x)) -> Redirects (m1 ≫= k1) (m2 ≫= k2).
Proof.
  intros Hm Hk st1 st2 Hst. rewrite !bind_run. specialize (Hm st1 st2 Hst) as [Hr Hs].
  destruct (m1 st1) as [[x|p] st1'], (m2 st2) as [[y|q] st2']; cbn in Hr; simplify_eq; [|done].
  by apply Hk.
Qed.

#[export] Instance redirects_if {A} (b : bool) (m1 m2 n1 n2 : M V W A) :
  Redirects m1 m2 -> Redirects n1 n2 -> Redirects (if b then m1 else n1) (if b then m2 else n2).
Proof. by destruct b. Qed.

#[export] Instance redirects_option {A B} (o : option B) (m1 m2 : B -> M V W A) n1 n2 :
  (forall x, Redirects (m1 x) (m2 x)) -> Redirects n1 n2 ->
  Redirects (match o with Some x => m1 x | None => n1 end) (match o with Some x => m2 x | None => n2 end).
Proof. by destruct o. Qed.

#[export] Instance redirects_get_ctx : Redirects (get_ctx : M V W (Ctx V)) get_ctx.
Proof. intros st1 st2 []. split; [cbn; by f_equal|done]. Qed.
#[export] Instance redirects_put_ctx c : Redirects (put_ctx c : M V W unit) (put_ctx c).
Proof. by intros st1 st2 []. Qed.
#[export] Instance redirects_get_sw p : Redirects (get_sw p : M V W (option StreamWriter)) (get_sw p).
Proof. intros st1 st2 []. split; [cbn; by do 2 f_equal|done]. Qed.
#[export] Instance redirects_put_sw p w : Redirects (put_sw p w : M V W unit) (put_sw p w).
Proof. intros st1 st2 []. split; [done|]. split; cbn; [done|by f_equal|done]. Qed.
#[export] Instance redirects_new_sw w : Redirects (new_sw w : M V W nat) (new_sw w).
Proof. intros st1 st2 []. split; [cbn; by do 2 f_equal|]. split; cbn; [done|by f_equal|done]. Qed.

#[export] Instance redirects_log r1 r2 :
  unaddressed r1 = unaddressed r2 -> Redirects (log_record r1 : M V W unit) (log_record r2).
Proof. intros Hr st1 st2 []. split; [done|]. split; [done..|]. by apply log_env_redirect. Qed.

Lemma redirects_slog (l1 l2 : nat) level msg attrs :
  Redirects (slog_Log (Some l1) level msg attrs : M V W unit) (slog_Log (Some l2) level msg attrs).
Proof. by apply redirects_log. Qed.

#[export] Instance redirects_slog_default lg1 lg2 level msg attrs :
  Redirects (slog_Log (logger_or_default lg1) level msg attrs : M V W unit)
    (slog_Log (logger_or_default lg2) level msg attrs).
Proof. destruct lg1 as [|[l1|] lg1], lg2 as [|[l2|] lg2]; apply redirects_slog. Qed.

Ltac redirects_env :=
  intros [c1 s1 [l1 k1 t1 w1]] [c2 s2 [l2 k2 t2 w2]] [Hc Hs [Hl Hk Ht Hw]]; cbn in *; by subst.

#[export] Instance redirects_now : Redirects (time_Now : M V W Z) time_Now.
Proof. redirects_env. Qed.
#[export] Instance redirects_get_world : Redirects (get_world : M V W W) get_world.
Proof. redirects_env. Qed.
#[export] Instance redirects_put_world w : Redirects (put_world w : M V W unit) (put_world w).
Proof. redirects_env. Qed.
End Rules.

(** ** The context's operations and the middleware *)

Section Context_.
Context {V W : Type} `{Unicode} `{Msgpack V} `{Validator V}.

#[export] Instance redirects_Header key v : Redirects (Header key v : M V W unit) (Header key v).
Proof. unfold Header. apply _. Qed.
#[export] Instance redirects_Set key v : Redirects (Set_ key v : M V W unit) (Set_ key v).
Proof. unfold Set_. apply _. Qed.
#[export] Instance redirects_cas_sent : Redirects (cas_sent : M V W bool) cas_sent.
Proof. unfold cas_sent. apply _. Qed.
#[export] Instance redirects_write_frame ft p :
  Redirects (write_frame ft p : M V W (option error)) (write_frame ft p).
Proof.
  unfold write_frame. apply redirects_bind; [apply _|]. intros c.
  destruct (WriteFrame (ctx_stream c) ft p) as [err s]. apply _.
Qed.
#[export] Instance redirects_writeResponse st hs b s :
  Redirects (writeResponse st hs b s : M V W (option error)) (writeResponse st hs b s).
Proof. unfold writeResponse. apply _. Qed.
#[export] Instance redirects_Send st b : Redirects (Send st b : M V W (option error)) (Send st b).
Proof. unfold Send. apply _. Qed.
#[export] Instance redirects_MsgPack st v :
  Redirects (MsgPack st v : M V W (option error)) (MsgPack st v).
Proof. unfold MsgPack. destruct (Marshal _); apply _. Qed.
#[export] Instance redirects_NoContent : Redirects (NoContent : M V W (option error)) NoContent.
Proof. unfold NoContent. apply _. Qed.
#[export] Instance redirects_Error code msg data :
  Redirects (Error code msg data : M V W (option error)) (Error code msg data).
Proof.
  unfold Error. apply redirects_bind; [apply _|]. intros []; cbn [negb]; [|apply _].
  destruct data as [|[v|] data]; [|destruct (Marshal _)|]; apply _.
Qed.
#[export] Instance redirects_NewStream st hs :
  Redirects (NewStream st hs : M V W (result nat)) (NewStream st hs).
Proof. unfold NewStream. apply _. Qed.
#[export] Instance redirects_SW_Write p d :
  Redirects (SW_Write p d : M V W (Z * option error)) (SW_Write p d).
Proof. unfold SW_Write. apply _. Qed.
#[export] Instance redirects_SW_Close p : Redirects (SW_Close p : M V W (option error)) (SW_Close p).
Proof. unfold SW_Close. apply _. Qed.

(** Whatever loggers the two middlewares were made with. *)
#[export] Instance redirects_Recovery stack lg1 lg2 :
  RedirectsMW (Recovery stack lg1 : MiddlewareFunc V W) (Recovery stack lg2).
Proof.
  intros h1 h2 Hh st1 st2 Hst. unfold Recovery. specialize (Hh st1 st2 Hst) as [Hr Hs].
  destruct (h1 st1) as [[x|p] st1'], (h2 st2) as [[y|q] st2']; cbn in Hr; simplify_eq; [done|].
  enough (Redirects (recovered stack (logger_or_default lg1) q : M V W (option error))
    (recovered stack (logger_or_default lg2) q)) as Hrec by by apply Hrec.
  unfold recovered. apply _.
Qed.
#[export] Instance redirects_Logger lg1 lg2 : RedirectsMW (Logger lg1 : MiddlewareFunc V W) (Logger lg2).
Proof. intros h1 h2 Hh. unfold Logger. apply _. Qed.
#[export] Instance redirects_RequireHeaders names :
  RedirectsMW (RequireHeaders names : MiddlewareFunc V W) (RequireHeaders names).
Proof. intros h1 h2 Hh. induction names; cbn; apply _. Qed.
#[export] Instance redirects_check_rules rules :
  RedirectsMW (check_rules rules : MiddlewareFunc V W) (check_rules rules).
Proof. intros h1 h2 Hh. induction rules as [|[name rule] rules IH]; cbn; apply _. Qed.
End Context_.

(** The rate limiter, whose records are none. *)
Section Limiter.
Context {V W L : Type} `{Unicode} `{Msgpack V} `{RateLib L} `{HasLimiters L W}.

#[export] Instance redirects_default_key : Redirects (default_key : M V W string) default_key.
Proof.
  unfold default_key. apply redirects_bind; [apply _|]. intros c.
  destruct (RemoteAddr c) as [addr|]; [|apply _].
  destruct (SplitHostPort addr) as [[host port]|]; apply _.
Qed.

#[export] Instance redirects_RateLimitSimple rps :
  RedirectsMW (RateLimitSimple (L := L) rps : MiddlewareFunc V W) (RateLimitSimple (L := L) rps).
Proof.
  intros h1 h2 Hh. unfold RateLimitSimple, RateLimit, getLimiter, limiter_Allow. cbn [KeyFunc].
  apply redirects_bind; [apply _|]. intros key. apply redirects_bind; [|intros p; apply redirects_bind].
  - do 2 (apply redirects_bind; [apply _|intros]). destruct (get_limiter _ _ _ _ _). apply _.
  - do 2 (apply redirects_bind; [apply _|intros]). destruct (allow _ _ _). apply _.
  - intros ok. apply _.
Qed.
End Limiter.

(** ** Applications *)

Definition redirected_route {V W : Type} (rt1 rt2 : route V W) : Prop :=
  rt_method rt1 = rt_method rt2 /\ rt_segments rt1 = rt_segments rt2 /\
  Redirects (rt_handler rt1) (rt_handler rt2).

(** The same registrations, each with loggers of its own, and two loggers that
    are not nil. *)
Record Redirected {V W : Type} (a1 a2 : App V W) : Prop := mkRedirected {
  red_routes : Forall2 redirected_route (routes (router a1)) (routes (router a2));
  red_NotFound : Redirects (NotFound (router a1)) (NotFound (router a2));
  red_MethodNotAllowed : Redirects (MethodNotAllowed (router a1)) (MethodNotAllowed (router a2));
  red_middleware : Forall2 RedirectsMW (middleware a1) (middleware a2);
  red_after : Forall2 Redirects (afterMiddleware a1) (afterMiddleware a2);
  red_logger1 : is_Some (app_logger a1);
  red_logger2 : is_Some (app_logger a2);
}.

Section Apps.
Context {V W : Type} `{Unicode} `{URLAuthority} `{Msgpack V}.
Implicit Types (a : App V W) (e : Env W).

Lemma redirects_applyMiddleware (h1 h2 : HandlerFunc V W) mws1 mws2 :
  Redirects h1 h2 -> Forall2 RedirectsMW mws1 mws2 ->
  Redirects (applyMiddleware h1 mws1) (applyMiddleware h2 mws2).
Proof.
  intros Hh Hm. rewrite !applyMiddleware_foldr.
  induction Hm as [|mw1 mw2 mws1 mws2 Hmw _ IH]; cbn; [done|]. by apply Hmw.
Qed.

Lemma redirected_match (r1 r2 : Router V W) rts1 rts2 method segs b :
  Forall2 redirected_route rts1 rts2 -> Redirects (NotFound r1) (NotFound r2) ->
  Redirects (MethodNotAllowed r1) (MethodNotAllowed r2) ->
  Redirects (match_routes r1 rts1 method segs b).1 (match_routes r2 rts2 method segs b).1 /\
  (match_routes r1 rts1 method segs b).2 = (match_routes r2 rts2 method segs b).2.
Proof.
  intros Hrts Hn Hm. revert b.
  induction Hrts as [|rt1 rt2 rts1 rts2 (Hme & Hse & Hh) _ IH]; intros b; cbn; [by destruct b|].
  rewrite <- Hme, <- Hse. destruct (matchSegments _ _); [|apply IH]. by destruct (String.eqb _ _).
Qed.

Lemma redirects_run_after (l1 l2 : list (HandlerFunc V W)) :
  Forall2 Redirects l1 l2 -> Redirects (run_after l1) (run_after l2).
Proof. induction 1; cbn; apply _. Qed.

Lemma redirected_serve a1 a2 req :
  Redirected a1 a2 ->
  (resolve a1 req).2 = (resolve a2 req).2 /\ Redirects (serve a1 req) (serve a2 req).
Proof.
  intros [Hr Hn Hm Hmw Ha [l1 Hl1] [l2 Hl2]].
  destruct (redirected_match (router a1) (router a2) _ _ (req_Method req)
    (splitPath (Path (request_url req))) false Hr Hn Hm) as [Hh Hp].
  split; [done|]. unfold serve. apply redirects_bind; [by apply redirects_applyMiddleware|].
  intros err. apply redirects_bind; [|intros _; by apply redirects_run_after].
  rewrite Hl1, Hl2. destruct err as [err|]; cbn [report_error]; [|apply _].
  repeat (apply redirects_bind; [apply _|intros]). apply redirects_slog.
Qed.

(** The dispatcher's result and the stream are the same. *)
Lemma redirected_dispatch a1 a2 gc peer s e1 e2 :
  Redirected a1 a2 -> same_env e1 e2 ->
  (dispatchStream a1 gc peer s e1).1 = (dispatchStream a2 gc peer s e2).1 /\
  same_env (dispatchStream a1 gc peer s e1).2 (dispatchStream a2 gc peer s e2).2.
Proof.
  intros Ha He. pose proof Ha as [_ _ _ _ _ [l1 Hl1] [l2 Hl2]].
  assert (forall s level msg attrs k,
    (app_log a1 s e1 level msg attrs k).1 = (app_log a2 s e2 level msg attrs k).1 /\
    same_env (app_log a1 s e1 level msg attrs k).2 (app_log a2 s e2 level msg attrs k).2) as Hlog.
  { intros. unfold app_log. rewrite Hl1, Hl2. split; [done|]. by apply log_env_redirect. }
  unfold dispatchStream. destruct (ReadFrame s) as [[[ft data]|err] s']; [|apply Hlog].
  case_decide; [done|]. destruct (negb _); [apply Hlog|].
  destruct (DecodeRequest data) as [req|]; [|apply Hlog].
  destruct (redirected_serve a1 a2 req Ha) as [Hp Hs]. unfold request_ctx. rewrite <- Hp.
  match goal with |- context [serve a1 req (mkSt ?c [] e1)] =>
    destruct (Hs (mkSt c [] e1) (mkSt c [] e2)) as [Hr [Hc _ Hse]]; [done|] end.
  destruct (serve a1 req _) as [r1 st1], (serve a2 req _) as [r2 st2].
  cbn in *. by rewrite Hr, Hc.
Qed.
End Apps.

(** ** The running server *)

(** The same state of the process but for where the records went. *)
Record similar {W : Type} (x y : running W) : Prop := mkSimilar {
  sim_globals : r_globals x = r_globals y;
  sim_env : same_env (r_env x) (r_env y);
  sim_tasks : r_tasks x = r_tasks y;
  sim_served : r_served x = r_served y;
  sim_crashed : r_crashed x = r_crashed y;
}.

Section Running.
Context {V W : Type} `{Unicode} `{URLAuthority} `{Msgpack V}.
Variable background : relation W.
Variable addrs : addresses.
Implicit Types (a : App V W) (x y : running W) (e : Env W).

Lemma redirected_announce a1 a2 i g e1 e2 e1' :
  is_Some (app_logger a2) -> same_env e1 e2 -> announce a1 addrs i g e1 = Returns e1' ->
  exists e2', announce a2 addrs i g e2 = Returns e2' /\ same_env e1' e2'.
Proof.
  intros [l2 Hl2] He. unfold announce. rewrite Hl2.
  destruct (step_record addrs i g) as [n|]; [|intros [= <-]; by exists e2].
  destruct (app_logger a1) as [l1|]; cbn; [|done]. intros [= <-]. eexists. split; [done|].
  by apply log_env_redirect.
Qed.

(** A step of one is a step of the other. *)
Lemma redirected_step a1 a2 x1 x2 y1 :
  Redirected a1 a2 -> similar x1 x2 -> rstep background a1 addrs x1 y1 ->
  exists y2, rstep background a2 addrs x2 y2 /\ similar y1 y2.
Proof.
  intros Ha [Hg He Ht Hs Hc] Hstep. destruct x2 as [s2 e2 ts2 sv2 c2]. cbn in *.
  destruct Hstep as [i s s' e e' l1 t l2 gs ts sv Hd Hst Han Hsp|i s s' e l1 t l2 gs sv p _ Han
    |s e e' l1 peer gc st st' l2 sv Hd|s e e' l1 peer gc st st' l2 sv p Hd|s e w ts sv Hw| | |];
    cbn in *; subst.
  - destruct (redirected_announce a1 a2 _ _ _ _ _ (red_logger2 _ _ Ha) He Han) as (e2' & Hn & He').
    eexists. split; [by eapply rs_go|done].
  - destruct (announce_returns addrs a1 i (goroutine_of t) e (red_logger1 _ _ Ha)) as [e' He'].
    by rewrite He' in Han.
  - destruct (redirected_dispatch a1 a2 gc peer st e e2 Ha He) as [Hr Hse]. rewrite Hd in Hr, Hse.
    destruct (dispatchStream a2 gc peer st e2) as [rs e2'] eqn:Hd2. cbn in Hr, Hse. subst rs.
    eexists. split; [by eapply rs_dispatch|done].
  - destruct (redirected_dispatch a1 a2 gc peer st e e2 Ha He) as [Hr Hse]. rewrite Hd in Hr, Hse.
    destruct (dispatchStream a2 gc peer st e2) as [rs e2'] eqn:Hd2. cbn in Hr, Hse. subst rs.
    eexists. split; [by eapply rs_panic|done].
  - eexists. split; [apply rs_background; rewrite <- (same_world _ _ He); exact Hw|].
    destruct He. done.
  - eexists. split; [apply rs_cancel|done].
  - eexists. split; [apply rs_shutdown|done].
  - eexists. split; [apply rs_conn|done].
Qed.

Lemma redirected_run a1 a2 x1 x2 y1 :
  Redirected a1 a2 -> similar x1 x2 -> rtc (rstep background a1 addrs) x1 y1 ->
  exists y2, rtc (rstep background a2 addrs) x2 y2 /\ similar y1 y2.
Proof.
  intros Ha Hx Hr. revert x2 Hx. induction Hr as [x1|x1 y1 z1 Hs _ IH]; intros x2 Hx.
  { by exists x2. }
  destruct (redirected_step a1 a2 _ _ _ Ha Hx Hs) as (y2 & Hs2 & Hy).
  destruct (IH y2 Hy) as (z2 & Hr2 & Hz). exists z2. split; [by eapply rtc_l|done].
Qed.

(** What the handlers and the middleware of an application do does not depend
    on where records went. *)
Definition blind a : Prop := Redirected a a.

(** An application behind [Recovery] and [Logger], each made with loggers or
    with none, whose own logger was set by [SetLogger]. *)
Definition logged (stack : panic_value -> string) (lgR lgL : list slogger) (l : nat) a : App V W :=
  SetLogger (mkApp (router a) (Recovery stack lgR :: Logger lgL :: middleware a) (afterMiddleware a)
    (app_logger a) (quicCfg a)) (Some l).

Lemma logged_redirected stack lgR1 lgR2 lgL1 lgL2 l1 l2 a :
  blind a -> Redirected (logged stack lgR1 lgL1 l1 a) (logged stack lgR2 lgL2 l2 a).
Proof.
  intros []. split; cbn; [done..| |done|by eexists|by eexists].
  repeat (apply Forall2_cons_2; [apply _|]). done.
Qed.

(** C14.  Loggers only direct the records.  Take any application whose
    handlers do not look at where records go, and put it behind [Recovery] and
    [Logger] twice, with any loggers given to these two, none or nil among
    them, and any loggers set by [SetLogger] that are not nil.  The two servers
    run in lock step: whatever state one process reaches from [ListenAddr], the
    other reaches one with the same goroutines, the same contents of every
    stream, the same shared state and the same records, up to the logger each
    record went to. *)
Theorem loggers_direct_records stack lgR1 lgR2 lgL1 lgL2 l1 l2 a e x :
  blind a -> rtc (rstep background (logged stack lgR1 lgL1 l1 a) addrs) (launch addrs e) x ->
  exists y, rtc (rstep background (logged stack lgR2 lgL2 l2 a) addrs) (launch addrs e) y /\ similar x y.
Proof. intros Ha. apply redirected_run; [by apply logged_redirected|done]. Qed.

(** *** A nil logger *)

(** In its accept loop, or serving. *)
Definition serving (g : goroutine) : bool :=
  match g with
  | GListenNative LAccept | GListenWT true => true
  | _ => false
  end.

(** Nothing serves; and if the native listener is open, it has not got past
    its record. *)
Definition not_listening (x : running W) : Prop :=
  Forall (fun t => serving (goroutine_of t) = false) (r_tasks x) /\
  (listening (r_globals x) = true -> GListenNative LOpen ∈ map goroutine_of (r_tasks x)).

Lemma silent_gstep i g s s' gs :
  gstep i g s = Some (s', gs) -> step_record addrs i g = None -> serving g = false ->
  Forall (fun g => serving g = false) gs /\ g <> GListenNative LOpen /\
  (listening s' = true -> listening s = true \/ GListenNative LOpen ∈ gs).
Proof.
  intros Hg Hn Hs.
  destruct g as [[]| |[]|[]|[]|[]|[]|[] []|], i; try done;
    cbn in Hg; unfold watch, Shutdown in Hg; repeat case_match; simplify_eq;
    (split_and!; [by repeat constructor|done|]); cbn; auto; intros Hx; try done; right; by left.
Qed.

Lemma silent_announce a i g e e' :
  app_logger a = None -> announce a addrs i g e = Returns e' -> step_record addrs i g = None.
Proof. intros Hl. unfold announce. rewrite Hl. by destruct (step_record addrs i g). Qed.

Lemma silent_step a x y :
  app_logger a = None -> rstep background a addrs x y -> not_listening x -> not_listening y.
Proof.
  intros Hl Hs [Hts Hno]. unfold not_listening in *.
  destruct Hs as [i s s' e e' l1 t l2 gs ts sv _ Hg Han Hsp|i s s' e l1 t l2 gs sv p Hg Han
    |s e e' l1 peer gc st st' l2 sv _|s e e' l1 peer gc st st' l2 sv p _| | | |];
    cbn [r_tasks r_globals] in *; try done;
    rewrite ?map_app, ?Forall_app, ?Forall_cons in *; cbn [map goroutine_of] in *.
  - destruct Hts as (Hl1 & Ht & Hl2). apply silent_announce in Han; [|done].
    destruct (silent_gstep _ _ _ _ _ Hg Han Ht) as (Hgs & Hne & Hop).
    rewrite <- (spawned_goroutines _ _ _ Hsp) in Hgs, Hop. split; [split_and!; [done|by apply Forall_map in Hgs|done]|].
    intros Hs'. destruct (Hop Hs') as [Hs|Hin]; [specialize (Hno Hs)|]; set_solver.
  - by rewrite (announced_keeps addrs _ _ _ _ _ _ _ _ Hg Han).
  - split; [done|]. intros Hs. specialize (Hno Hs). set_solver.
  - split; [split; [done|by repeat constructor]|]. intros Hs. specialize (Hno Hs). set_solver.
  - split; [split; [done|by repeat constructor]|]. intros Hs. specialize (Hno Hs). set_solver.
Qed.

(** The record of the listener that opened is the end of the process. *)
Lemma open_announcement a i e :
  app_logger a = None -> announce a addrs i (GListenNative LOpen) e = Panics nil_dereference.
Proof. intros Hl. unfold announce. destruct i; cbn; by rewrite Hl. Qed.

(** [ListenAddr] has started its goroutines, and the native listener opens. *)
Lemma opening_crashes a e :
  app_logger a = None ->
  let wt := negb (String.eqb (wtAddr addrs) "") in
  let gs := GListenAddr true wt :: GListenNative LOpen :: if wt then [GListenWT false] else [] in
  rtc (rstep background a addrs) (launch addrs e)
    (mkRunning (set_listening true no_globals) e (map Plain gs) [] (Some nil_dereference)).
Proof.
  intros Hl wt gs. set (tl := if wt then [GListenWT false] else []).
  eapply rtc_l; [|eapply rtc_l; [|apply rtc_once]].
  - apply (rs_go background a addrs Accepted no_globals no_globals e e []
      (Plain (GListenAddr false wt)) [] (GListenAddr true wt :: GListenNative LStart :: tl)
      (map Plain (GListenAddr true wt :: GListenNative LStart :: tl))); [done..|].
    unfold tl. by destruct wt; repeat constructor.
  - rewrite app_nil_r. apply (rs_go background a addrs Accepted no_globals (set_listening true no_globals)
      e e [Plain (GListenAddr true wt)] (Plain (GListenNative LStart)) (map Plain tl)
      [GListenNative LOpen] [Plain (GListenNative LOpen)]); [done..|by repeat constructor].
  - eapply (rs_mute background a addrs Accepted (set_listening true no_globals) _ e
      [Plain (GListenAddr true wt)]); [done|by apply open_announcement].
Qed.

(** C38.  A nil logger.  The recovery and logging middleware take a nil logger
    for the default one; [SetLogger] does not.  A process whose application
    has a nil logger never serves: in no state after [ListenAddr] is a listener
    in its accept loop; the native one may be open, before its record is made,
    and the attempt to make that record ends the process. *)
Theorem nil_logger_never_listens a e :
  app_logger a = None ->
  (forall x, rtc (rstep background a addrs) (launch addrs e) x -> not_listening x) /\
  (forall i e', announce a addrs i (GListenNative LOpen) e' = Panics nil_dereference) /\
  exists x, rtc (rstep background a addrs) (launch addrs e) x /\ r_crashed x = Some nil_dereference.
Proof.
  intros Hl. split_and!.
  - intros x Hr. assert (not_listening (launch addrs e)) as Hx by (by repeat constructor).
    revert Hx. induction Hr as [|x y z Hs _ IH]; [done|]. intros Hx. by apply IH, (silent_step a x).
  - intros i e'. by apply open_announcement.
  - eexists. split; [by apply opening_crashes|done].
Qed.
End Running.

(** ** The basic server with a logger of its own *)

Section Basic.
Context {V W L : Type} `{Unicode} `{Msgpack V} `{Validator V}.
Context `{Boxed string V} `{Boxed user V} `{Boxed (list user) V} `{Boxed (option (gmap string V)) V}.
Context `{Boxed createUser V} `{HasUsers W} `{RateLib L} `{HasLimiters L W} `{Growslice}.

Lemma redirected_addRoute (a1 a2 : App V W) method pattern mws1 mws2 (h1 h2 : HandlerFunc V W) :
  Redirected a1 a2 -> Forall2 RedirectsMW mws1 mws2 -> Redirects h1 h2 ->
  Redirected (addRoute a1 method pattern mws1 h1) (addRoute a2 method pattern mws2 h2).
Proof.
  intros [] Hm Hh. split; try done. cbn. apply Forall2_app; [done|]. constructor; [|constructor].
  split_and!; [done..|]. by apply redirects_applyMiddleware.
Qed.

Lemma redirected_Use (a1 a2 : App V W) mws1 mws2 :
  Redirected a1 a2 -> Forall2 RedirectsMW mws1 mws2 -> Redirected (Use a1 mws1) (Use a2 mws2).
Proof. intros [] Hm. split; try done. cbn. by apply Forall2_app. Qed.

Lemma redirected_New : Redirected (New : App V W) New.
Proof. split; cbn; [apply Forall2_nil_2|apply _|apply _|apply Forall2_nil_2|apply Forall2_nil_2|by eexists|by eexists]. Qed.

#[export] Instance redirects_post_user : Redirects (post_user (V := V) (W := W)) post_user.
Proof.
  unfold post_user. apply redirects_bind; [apply _|]. intros c.
  destruct (BindAndValidate c _) as [v [err|]]; [apply _|]. apply redirects_bind; [apply _|].
  intros w. destruct (create_user _ _). apply _.
Qed.

Ltac forall2_instances := repeat (apply Forall2_cons_2; [apply _|]); apply Forall2_nil_2.

Lemma basic_server_redirected stack :
  Redirected (basic_server (V := V) (W := W) (L := L) stack) (basic_server (L := L) stack).
Proof.
  unfold basic_server. cbn zeta. rewrite exec_group_route.
  repeat (apply redirected_addRoute; [|forall2_instances|
    unfold get_file, delete_user, tenant_users, get_users_list, get_user, get_ping; apply _]).
  apply redirected_Use; [apply redirected_New|]. forall2_instances.
Qed.
End Basic.

(** ** Witnesses *)

Section Witnesses.
#[local] Existing Instance ascii_tables.
#[local] Existing Instance no_authority.
#[local] Existing Instance doubling.
#[local] Existing Instance counting.
#[local] Existing Instance world_users.
#[local] Existing Instance world_limiters.

Abbreviation ticking := (cleanup_tick (V := value) (W := users_state * limiters Z) (L := Z)).

(** The basic server without its two outermost middlewares. *)
Definition unlogged_server : App value (users_state * limiters Z) :=
  mkApp (router server) (drop 2 (middleware server)) (afterMiddleware server) (app_logger server)
    (quicCfg server).

Lemma unlogged_blind : blind unlogged_server.
Proof.
  destruct (basic_server_redirected (V := value) (W := users_state * limiters Z) (L := Z)
    quiet_stack) as [? ? ? Hm ? ? ?].
  split; [assumption..| |assumption|assumption|assumption].
  cbn in Hm. apply Forall2_cons in Hm as [_ [_ Hm]%Forall2_cons]. exact Hm.
Qed.

(** A user is posted to the server as it is and to one that logs elsewhere. *)
Lemma loggers_direct_records_witness :
  exists y, rtc (rstep ticking
      (logged quiet_stack [Some 5%nat] [None; Some 6%nat] 7 unlogged_server) one_addr)
      (launch one_addr fresh_env) y /\
    get_users (world (r_env y)) = created ["Carol"] /\
    map unaddressed (logs (r_env y)) = map unaddressed (logs (r_env posting)).
Proof.
  destruct (loggers_direct_records ticking one_addr quiet_stack
    [] [Some 5%nat] [] [None; Some 6%nat] 0 7 unlogged_server fresh_env posting)
    as (y & Hy & Hs).
  - exact unlogged_blind.
  - apply (one_request ticking server); [by eexists|]. vm_compute. reflexivity.
  - exists y. split; [exact Hy|]. destruct Hs as [_ [Hl _ _ Hw] _ _ _].
    split; [rewrite <- Hw; vm_compute; reflexivity|symmetry; exact Hl].
Defined.

Lemma nil_logger_never_listens_witness :
  exists x, rtc (rstep ticking (SetLogger server None) one_addr) (launch one_addr fresh_env) x /\
    r_crashed x = Some nil_dereference.
Proof.
  exact (proj2 (proj2 (nil_logger_never_listens ticking one_addr (SetLogger server None) fresh_env
    eq_refl))).
Defined.
End Witnesses.
