(* ===== verification/Users.v ===== *)
(** * The users of the basic server under concurrent requests
    (examples/basic-server/main.go)

    Servers.v runs a handler that locks [usersMu] as one step.  Here its locked
    part is run statement by statement, with other requests in between: taking
    the mutex, the iterations of the loops over [users], the three statements
    of [POST /users], the reply, the unlock.  [GET /users/:id] defers its
    unlock, so it writes its reply to the client with the mutex held. *)

From stdpp Require Import relations.
From S2P Require Import Prelude GoStd NetURL Wire Validation Reqctx Reply Servers.
From Stdlib Require Import Ascii.

Local Open Scope string_scope.
Local Open Scope list_scope.

(** ** Requests and replies *)

Inductive users_request :=
  | RList                          (* copyUsers *)
  | RGet (id : string)             (* GET /users/:id *)
  | RPost (name : string).         (* POST /users, after its body was bound *)

Inductive users_reply :=
  | ReUsers (l : list user)
  | ReUser (u : user)
  | ReNotFound
  | ReCreated (u : user).

(** The copy of a user in [copyUsers]. *)
Definition clone_user (u : user) : user :=
  {["id" := field u "id"; "name" := field u "name"]}.

(** ** One request

    A goroutine that waits for the mutex, is at a statement of its locked part
    (with the value of its loop variables), is about to unlock, or is past
    that. *)
Inductive users_pc :=
  | UWaiting (r : users_request)
  | UCopying (rest cloned : list user)
  | UFinding (id : string) (rest : list user)
  | UPosting (name : string)
  | UCounting (name : string) (u : user)          (* nextID++ *)
  | UAppending (name : string) (u : user)         (* users = append(users, user) *)
  | UReplyingLocked (r : users_request) (re : users_reply)
  | UUnlocking (r : users_request) (re : users_reply)
  | UReplying (re : users_reply)
  | UDone.

Definition enter_section (r : users_request) (s : users_state) : users_pc :=
  match r with
  | RList => UCopying (users s) []
  | RGet id => UFinding id (users s)
  | RPost name => UPosting name
  end.

(** The next statement of a locked part; [None] outside one, and where the
    goroutine waits for the client. *)
Definition section_step (pc : users_pc) (s : users_state) : option (users_pc * users_state) :=
  match pc with
  | UCopying (u :: rest) cloned => Some (UCopying rest (cloned ++ [clone_user u]), s)
  | UCopying [] cloned => Some (UUnlocking RList (ReUsers cloned), s)
  | UFinding id (u :: rest) =>
      if String.eqb (field u "id") id
      then Some (UReplyingLocked (RGet id) (ReUser u), s)
      else Some (UFinding id rest, s)
  | UFinding id [] => Some (UReplyingLocked (RGet id) ReNotFound, s)
  | UPosting name => Some (UCounting name {["id" := fmt_d (nextID s); "name" := name]}, s)
  | UCounting name u => Some (UAppending name u, mkUsers (nextID s + 1) (users s))
  | UAppending name u =>
      Some (UUnlocking (RPost name) (ReCreated u), mkUsers (nextID s) (users s ++ [u]))
  | _ => None
  end.

(** After the unlock: the reply of [GET /users/:id] was sent before. *)
Definition after_unlock (r : users_request) (re : users_reply) : users_pc :=
  match r with
  | RGet _ => UDone
  | _ => UReplying re
  end.

(** ** The system *)

(** [u_log] has the completed locked parts, in the order of their unlocks. *)
Record users_config := mkUsersConfig {
  u_state : users_state;
  u_holder : option nat;
  u_threads : list users_pc;
  u_log : list (nat * users_request * users_reply);
}.

(** What a step does: a request arrives, a goroutine runs on its own, or a
    client takes the reply it is being sent. *)
Inductive users_label := LArrive | LRun (i : nat) | LTake (i : nat).

Inductive users_step : users_label -> users_config -> users_config -> Prop :=
  | us_arrive s h ts l r :
      users_step LArrive (mkUsersConfig s h ts l) (mkUsersConfig s h (ts ++ [UWaiting r]) l)
  | us_lock s ts l i r :
      ts !! i = Some (UWaiting r) ->
      users_step (LRun i) (mkUsersConfig s None ts l)
        (mkUsersConfig s (Some i) (<[i := enter_section r s]> ts) l)
  | us_section s s' ts l i pc pc' :
      ts !! i = Some pc -> section_step pc s = Some (pc', s') ->
      users_step (LRun i) (mkUsersConfig s (Some i) ts l)
        (mkUsersConfig s' (Some i) (<[i := pc']> ts) l)
  | us_reply_locked s ts l i r re :
      ts !! i = Some (UReplyingLocked r re) ->
      users_step (LTake i) (mkUsersConfig s (Some i) ts l)
        (mkUsersConfig s (Some i) (<[i := UUnlocking r re]> ts) l)
  | us_unlock s ts l i r re :
      ts !! i = Some (UUnlocking r re) ->
      users_step (LRun i) (mkUsersConfig s (Some i) ts l)
        (mkUsersConfig s None (<[i := after_unlock r re]> ts) (l ++ [(i, r, re)]))
  | us_reply s h ts l i re :
      ts !! i = Some (UReplying re) ->
      users_step (LTake i) (mkUsersConfig s h ts l) (mkUsersConfig s h (<[i := UDone]> ts) l).

Definition users_any (c c' : users_config) : Prop := exists a, users_step a c c'.

(** Steps in which the client [i] takes nothing. *)
Definition users_without (i : nat) (c c' : users_config) : Prop :=
  exists a, users_step a c c' /\ a <> LTake i.

Definition users_start (s : users_state) : users_config := mkUsersConfig s None [] [].

(** ** The specification: requests one after the other *)

Definition run_request (r : users_request) (s : users_state) : users_reply * users_state :=
  match r with
  | RList => (ReUsers (copyUsers s), s)
  | RGet id =>
      (match find_user (users s) id with Some u => ReUser u | None => ReNotFound end, s)
  | RPost name => let '(u, s) := create_user name s in (ReCreated u, s)
  end.

Fixpoint run_requests (rs : list users_request) (s : users_state)
    : list users_reply * users_state :=
  match rs with
  | [] => ([], s)
  | r :: rs =>
      let '(re, s) := run_request r s in
      let '(res, s) := run_requests rs s in
      (re :: res, s)
  end.

(** The reply as the handler sends it. *)
Section Replies.
Context {V W : Type} `{Unicode} `{Msgpack V}.
Context `{Boxed user V} `{Boxed (list user) V} `{Boxed (option (gmap string V)) V}.

Definition send_reply (re : users_reply) : HandlerFunc V W :=
  match re with
  | ReUsers l => MsgPack 200 (Some (any_map {["users" := box l]}))
  | ReUser u => MsgPack 200 (Some (box u))
  | ReNotFound => Error 404 "user not found" []
  | ReCreated u => MsgPack 201 (Some (box u))
  end.
End Replies.
