(* ===== verification/UsersProps.v ===== *)
(** * The users of the basic server: theorems

    The mutex makes the locked parts atomic: any interleaving answers as the
    requests would one after the other, in the order of the unlocks.  And it is
    held while a client is served: one that does not take its reply stops every
    other request for the users. *)

From stdpp Require Import relations.
From S2P Require Import Prelude GoStd NetURL Wire Validation Reqctx Reply Servers ServersProps Users.
From Stdlib Require Import Ascii.

Local Open Scope string_scope.
Local Open Scope list_scope.

(** ** The handlers of Servers.v are the specification *)

Section Handlers.
Context {V W : Type} `{Unicode} `{Msgpack V} `{Validator V}.
Context `{Boxed string V} `{Boxed user V} `{Boxed (list user) V} `{Boxed (option (gmap string V)) V}.
Context `{Boxed createUser V} `{HasUsers W}.

Lemma handlers_run (st : St V W) :
  let s := get_users (world (st_env st)) in
  get_users_list st = send_reply (run_request RList s).1 st /\
  get_user st = send_reply (run_request (RGet (Param (st_ctx st) "id")) s).1 st /\
  forall v, BindAndValidate (st_ctx st) (box (mkCreateUser "")) = (v, None) ->
    post_user st =
      let '(re, s) := run_request (RPost (from_option cu_Name "" (unbox v))) s in
      send_reply re (set_env_world st (set_users s (world (st_env st)))).
Proof.
  cbv zeta. split_and!; [done| |].
  - unfold get_user. rewrite bind_run. cbn [get_ctx]. rewrite bind_run, get_world_run.
    cbn [run_request fst]. by destruct (find_user _ _).
  - intros v Hv. unfold post_user. rewrite bind_run. cbn [get_ctx]. rewrite Hv.
    rewrite bind_run, get_world_run. cbn [run_request].
    destruct (create_user _ _) as [u s]. by rewrite bind_run, put_world_run.
Qed.
End Handlers.

(** ** The invariant *)

Lemma run_requests_snoc rs r s :
  run_requests (rs ++ [r]) s =
  let '(res, s1) := run_requests rs s in
  let '(re, s2) := run_request r s1 in (res ++ [re], s2).
Proof.
  revert s. induction rs as [|r' rs IH]; intros s; cbn [run_requests app].
  - by destruct (run_request r s).
  - destruct (run_request r' s) as [re s1]. rewrite IH.
    destruct (run_requests rs s1) as [res s2]. by destruct (run_request r s2).
Qed.

(** The completed parts were answered as in a sequential run, to the state [s]. *)
Definition replayed (s0 : users_state) (l : list (nat * users_request * users_reply)) s : Prop :=
  run_requests (map (fun x => x.1.2) l) s0 = (map snd l, s).

Lemma replayed_snoc s0 l s i r re s' :
  replayed s0 l s -> run_request r s = (re, s') -> replayed s0 (l ++ [(i, r, re)]) s'.
Proof. unfold replayed. intros Hl Hr. rewrite !map_app. cbn [map fst snd]. by rewrite run_requests_snoc, Hl, Hr. Qed.

(** Outside the locked parts. *)
Definition users_outside (pc : users_pc) : Prop :=
  match pc with
  | UWaiting _ | UReplying _ | UDone => True
  | _ => False
  end.

(** Where a goroutine is in its locked part, which it began in the state [s]. *)
Definition section_ok (s cur : users_state) (pc : users_pc) : Prop :=
  match pc with
  | UCopying rest cloned => cur = s /\ copyUsers s = cloned ++ map clone_user rest
  | UFinding id rest => cur = s /\ find_user (users s) id = find_user rest id
  | UPosting name => cur = s
  | UCounting name u => cur = s /\ u = (create_user name s).1
  | UAppending name u => cur = mkUsers (nextID s + 1) (users s) /\ u = (create_user name s).1
  | UReplyingLocked r re => cur = s /\ run_request r s = (re, s)
  | UUnlocking r re => run_request r s = (re, cur)
  | _ => False
  end.

Definition users_inv (s0 : users_state) (c : users_config) : Prop :=
  exists s, replayed s0 (u_log c) s /\
    match u_holder c with
    | None => u_state c = s /\ Forall users_outside (u_threads c)
    | Some i =>
        (exists pc, u_threads c !! i = Some pc /\ section_ok s (u_state c) pc) /\
        forall j pc, j <> i -> u_threads c !! j = Some pc -> users_outside pc
    end.

Lemma enter_ok r s : section_ok s s (enter_section r s).
Proof. by destruct r. Qed.

Lemma section_step_ok s cur pc pc' cur' :
  section_ok s cur pc -> section_step pc cur = Some (pc', cur') -> section_ok s cur' pc'.
Proof.
  destruct pc as [|[|u rest] cloned|id [|u rest]|name|name u|name u| | | |];
    cbn; intros Hok Hst; simplify_eq; try done.
  - destruct Hok as [-> E]. cbn. by rewrite E, app_nil_r.
  - destruct Hok as [-> E]. split; [done|]. cbn in *. by rewrite E, <- app_assoc.
  - destruct Hok as [-> E]. split; [done|]. cbn in *. by rewrite E.
  - destruct Hok as [-> E]. cbn in E.
    destruct (String.eqb (field u "id") id); simplify_eq; (split; [done|]); cbn; by rewrite E.
  - by destruct Hok as [-> ->].
  - by destruct Hok as [-> ->].
Qed.

(** The other goroutines are unaffected by a step of [i]. *)
Lemma others_insert (i : nat) (pc : users_pc) (ts : list users_pc) :
  (forall j p, j <> i -> ts !! j = Some p -> users_outside p) ->
  forall j p, j <> i -> <[i := pc]> ts !! j = Some p -> users_outside p.
Proof. intros Ht j p Hj. rewrite list_lookup_insert_ne by done. by apply Ht. Qed.

Lemma lookup_holder (i : nat) (pc : users_pc) (ts : list users_pc) pc0 :
  ts !! i = Some pc0 -> <[i := pc]> ts !! i = Some pc.
Proof. intros Hi. apply list_lookup_insert_eq. by eapply lookup_lt_Some. Qed.

Lemma users_inv_step s0 a c c' : users_inv s0 c -> users_step a c c' -> users_inv s0 c'.
Proof.
  intros (s & Hl & Hh) Hst. destruct Hst as [cur h ts l r|cur ts l i r Hi|cur cur' ts l i pc pc' Hi Hsec
    |cur ts l i r re Hi|cur ts l i r re Hi|cur h ts l i re Hi]; cbn in *.
  - exists s. split; [done|]. destruct h as [i|]; cbn in *.
    + destruct Hh as [(pc & Hi & Hok) Ho]. split; [exists pc; split; [by apply lookup_app_l_Some|done]|].
      intros j p Hj [Hp|[_ Hp]]%lookup_app_Some; [by apply (Ho j)|].
      by apply list_lookup_singleton_Some in Hp as [_ <-].
    + destruct Hh as [-> Ho]. split; [done|]. apply Forall_app. by repeat constructor.
  - destruct Hh as [-> Ho]. exists s. split; [done|]. cbn. split.
    + eexists. split; [by eapply lookup_holder|apply enter_ok].
    + apply others_insert. intros j p _. by apply Forall_lookup_1.
  - destruct Hh as [(p & Hp & Hok) Ho]. simplify_eq. exists s. split; [done|]. cbn. split.
    + eexists. split; [by eapply lookup_holder|by eapply section_step_ok].
    + by apply others_insert.
  - destruct Hh as [(p & Hp & Hok) Ho]. simplify_eq. exists s. split; [done|]. cbn. split.
    + eexists. split; [by eapply lookup_holder|]. cbn in *. by destruct Hok as [-> ?].
    + by apply others_insert.
  - destruct Hh as [(p & Hp & Hok) Ho]. simplify_eq. exists cur. split; [by eapply replayed_snoc|].
    cbn. split; [done|]. apply Forall_lookup. intros j p. destruct (decide (j = i)) as [->|Hj].
    + rewrite (lookup_holder _ _ _ _ Hp). intros [= <-]. by destruct r.
    + rewrite list_lookup_insert_ne by done. by apply Ho.
  - exists s. split; [done|]. destruct h as [j|]; cbn in *.
    + destruct Hh as [(p & Hp & Hok) Ho]. assert (j <> i) by (intros ->; by simplify_eq).
      split; [|by intros k q Hk [[-> [<- _]]|[_ Hq]]%list_lookup_insert_Some; [|apply (Ho k)]].
      exists p. by rewrite list_lookup_insert_ne.
    + destruct Hh as [-> Ho]. split; [done|]. by apply Forall_insert.
Qed.

(** What holds at the start and is kept by every step holds throughout. *)
Lemma users_reachable (P : users_config -> Prop) c c' :
  P c -> (forall a c c', P c -> users_step a c c' -> P c') -> rtc users_any c c' -> P c'.
Proof.
  intros Hc Hstep Hr. induction Hr as [c|c c1 c2 [a Ha] _ IH]; [done|]. eapply IH, Hstep; done.
Qed.

Lemma users_inv_reachable s c : rtc users_any (users_start s) c -> users_inv s c.
Proof. apply users_reachable; [by exists s|]. intros a. apply users_inv_step. Qed.

(** A goroutine that owes its client a reply completed its locked part with it. *)
Definition owed (c : users_config) : Prop :=
  forall i re, u_threads c !! i = Some (UReplying re) -> exists r, (i, r, re) ∈ u_log c.

Lemma section_not_replying pc s pc' s' :
  section_step pc s = Some (pc', s') -> forall re, pc' <> UReplying re.
Proof.
  destruct pc as [|[|u rest] cloned|id [|u rest]|name|name u|name u| | | |]; cbn; intros E ?;
    simplify_eq; try done. by destruct (String.eqb _ _); simplify_eq.
Qed.

Lemma owed_step a c c' : owed c -> users_step a c c' -> owed c'.
Proof.
  intros Ho Hst j re'. destruct Hst as [cur h ts l r|cur ts l i r Hi|cur cur' ts l i pc pc' Hi Hsec
    |cur ts l i r re Hi|cur ts l i r re Hi|cur h ts l i re Hi]; cbn.
  1: { intros [Hp|[_ Hp]]%lookup_app_Some; [by apply Ho|].
       by apply list_lookup_singleton_Some in Hp as [_ ?]. }
  all: intros [(<- & E & _)|[_ Hj]]%list_lookup_insert_Some; try by eapply Ho.
  - by destruct r.
  - by destruct (section_not_replying _ _ _ _ Hsec re').
  - exists r. apply elem_of_app. right. destruct r; simplify_eq/=; by apply list_elem_of_singleton.
  - destruct (Ho _ _ Hj) as [r' ?]. exists r'. apply elem_of_app. by left.
Qed.

Lemma owed_reachable s c : rtc users_any (users_start s) c -> owed c.
Proof. apply users_reachable; [by intros ? ? ?|exact owed_step]. Qed.

(** ** Progress *)

(** Everything but arrivals. *)
Definition users_run (c c' : users_config) : Prop := exists a, a <> LArrive /\ users_step a c c'.

Definition will_append (pc : users_pc) : nat :=
  match pc with
  | UWaiting (RPost _) | UPosting _ | UCounting _ _ | UAppending _ _ => 1
  | _ => 0
  end.

Definition finished (pc : users_pc) : nat :=
  match pc with UReplying _ | UDone => 1 | _ => 0 end.

(** A bound on the steps a goroutine has left, where the list has at most [n]
    users. *)
Definition work (n : nat) (pc : users_pc) : nat :=
  match pc with
  | UWaiting _ => n + 6
  | UCopying rest _ => length rest + 3
  | UFinding _ rest => length rest + 4
  | UPosting _ => 5
  | UCounting _ _ => 4
  | UAppending _ _ | UReplyingLocked _ _ => 3
  | UUnlocking _ _ => 2
  | UReplying _ => 1
  | UDone => 0
  end.

Definition all_users (c : users_config) : nat :=
  length (users (u_state c)) + sum_list_with will_append (u_threads c).
Definition all_work (c : users_config) : nat := sum_list_with (work (all_users c)) (u_threads c).

Lemma sum_insert (f : users_pc -> nat) ts i pc pc' :
  ts !! i = Some pc -> sum_list_with f (<[i := pc']> ts) + f pc = sum_list_with f ts + f pc'.
Proof.
  revert i. induction ts as [|p ts IH]; intros [|i] Hi; simplify_eq/=; [lia|]. specialize (IH _ Hi). lia.
Qed.

Lemma section_step_progress n s pc pc' s' :
  section_step pc s = Some (pc', s') ->
  work n pc' < work n pc /\ finished pc' = finished pc /\
  length (users s') + will_append pc' = length (users s) + will_append pc.
Proof.
  destruct pc as [|[|u rest] cloned|id [|u rest]|name|name u|name u| | | |]; cbn; intros E;
    simplify_eq; cbn; rewrite ?length_app; cbn; try lia.
  destruct (String.eqb _ _); simplify_eq; cbn; lia.
Qed.

Lemma run_decreases c c' : users_run c c' -> all_work c' < all_work c.
Proof.
  intros (a & Ha & Hst). unfold all_work.
  assert (all_users c' = all_users c /\ forall n, n = all_users c ->
    sum_list_with (work n) (u_threads c') < sum_list_with (work n) (u_threads c)) as [E H];
    [|rewrite E; by apply H].
  unfold all_users. destruct Hst as [cur h ts l r|cur ts l i r Hi|cur cur' ts l i pc pc' Hi Hsec
    |cur ts l i r re Hi|cur ts l i r re Hi|cur h ts l i re Hi]; cbn; [done|..].
  2: pose proof (section_step_progress 0 _ _ _ _ Hsec) as (_ & _ & Hu).
  all: match goal with |- context [<[_ := ?p]> _] =>
    pose proof (sum_insert will_append _ _ _ p Hi) as Hs;
    pose proof (fun n => sum_insert (work n) _ _ _ p Hi) as Hn end.
  all: split; [|intros n Hle; specialize (Hn n)].
  all: try (destruct r; cbn in *; lia).
  - lia.
  - pose proof (section_step_progress n _ _ _ _ Hsec) as (? & _ & _). lia.
  - cbn in *. lia.
  - cbn in *. lia.
Qed.

Lemma all_runs_end c : sn users_run c.
Proof.
  remember (all_work c) as n eqn:E. revert c E. induction n as [n IH] using lt_wf_ind. intros c ->.
  constructor. intros c' Hc. eapply IH; [by apply run_decreases|done].
Qed.

Lemma section_moves s cur i pc ts l :
  ts !! i = Some pc -> section_ok s cur pc ->
  exists c, users_run (mkUsersConfig cur (Some i) ts l) c.
Proof.
  intros Hi Hok.
  destruct (section_step pc cur) as [[pc' s']|] eqn:E; [by eexists _, (LRun i); split; [|by econstructor]|].
  destruct pc as [|[|u rest] cloned|id [|u rest]|name|name u|name u|r re|r re| |]; try done.
  - cbn in E. by destruct (String.eqb _ _).
  - by eexists _, (LTake i); split; [|by econstructor].
  - by eexists _, (LRun i); split; [|by econstructor].
Qed.

(** Where nothing can run, every goroutine is through. *)
Lemma stopped_done s c :
  users_inv s c -> (forall c', ~ users_run c c') -> Forall (eq UDone) (u_threads c).
Proof.
  destruct c as [cur h ts l]. intros (s' & Hl & Hh) Hstop. cbn in *. destruct h as [i|].
  - destruct Hh as [(pc & Hi & Hok) _]. destruct (section_moves _ _ _ _ _ l Hi Hok) as [c Hc].
    by destruct (Hstop c).
  - destruct Hh as [-> Ho]. apply Forall_lookup. intros i pc Hi.
    pose proof (Forall_lookup_1 _ _ _ _ Ho Hi) as Hp. destruct pc; try done.
    + edestruct Hstop. exists (LRun i). split; [done|]. by econstructor.
    + edestruct Hstop. exists (LTake i). split; [done|]. by econstructor.
Qed.

(** Each request is in the log once it is through its locked part. *)
Definition logged (c : users_config) : Prop :=
  length (u_log c) = sum_list_with finished (u_threads c).

Lemma logged_step a c c' : logged c -> users_step a c c' -> logged c'.
Proof.
  unfold logged. intros Hl Hst. destruct Hst as [cur h ts l r|cur ts l i r Hi|cur cur' ts l i pc pc' Hi Hsec
    |cur ts l i r re Hi|cur ts l i r re Hi|cur h ts l i re Hi]; cbn in *;
    [rewrite sum_list_with_app; cbn; lia|..].
  2: pose proof (section_step_progress 0 _ _ _ _ Hsec) as (_ & Hf & _).
  all: match goal with |- context [<[_ := ?p]> _] =>
    pose proof (sum_insert finished _ _ _ p Hi) as Hs end; cbn in *; rewrite ?length_app; cbn.
  all: try lia.
  all: destruct r; cbn in *; lia.
Qed.

(** ** The theorems *)

(** The names posted by the completed requests. *)
Definition posted (l : list (nat * users_request * users_reply)) : list string :=
  omap (fun x => match x.1.2 with RPost name => Some name | _ => None end) l.

Lemma replayed_posted l s0 s : replayed s0 l s -> s = post_names (posted l) s0.
Proof.
  revert s. induction l as [|[[i r] re] l IH] using rev_ind; intros s Hr.
  - by injection Hr.
  - unfold replayed, posted, post_names in *. rewrite omap_app, foldl_app.
    rewrite !map_app in Hr. cbn [map fst snd] in Hr. rewrite run_requests_snoc in Hr.
    destruct (run_requests _ s0) as [res s1] eqn:E.
    destruct (run_request r s1) as [re1 s2] eqn:E2. injection Hr as Hr ->.
    apply app_inj_tail in Hr as [-> ->]. rewrite <- (IH s1 eq_refl). by destruct r; simplify_eq/=.
Qed.

(** C5. The mutex makes the requests for the users atomic.  However the
    statements of any number of concurrent requests interleave, the locked
    parts completed so far were answered as the same requests would be one
    after the other, in the order of their unlocks; a request that still owes
    its client a reply owes one of these; a reply sent before the unlock is the
    one for the current users; and whenever the mutex is free the users are the
    two initial ones and one per completed [POST], none lost and with
    consecutive IDs. *)
Theorem users_linearizable c :
  rtc users_any (users_start initial_users) c ->
  (exists s, run_requests (map (fun x => x.1.2) (u_log c)) initial_users = (map snd (u_log c), s)) /\
  (forall i re, u_threads c !! i = Some (UReplying re) -> exists r, (i, r, re) ∈ u_log c) /\
  (forall i r re, u_threads c !! i = Some (UReplyingLocked r re) ->
     run_request r (u_state c) = (re, u_state c)) /\
  (u_holder c = None -> u_state c = created (posted (u_log c))).
Proof.
  intros Hr. pose proof (users_inv_reachable _ _ Hr) as (s & Hl & Hh). split_and!.
  - by exists s.
  - exact (owed_reachable _ _ Hr).
  - intros i r re Hi. destruct (u_holder c) as [j|].
    + destruct Hh as [(pc & Hp & Hok) Ho].
      destruct (decide (i = j)) as [->|Hj]; [|by destruct (Ho i _ Hj Hi)].
      simplify_eq. cbn in Hok. by destruct Hok as [-> ?].
    + destruct Hh as [_ Ho]. by destruct (Forall_lookup_1 _ _ _ _ Ho Hi).
  - intros E. rewrite E in Hh. destruct Hh as [-> _]. rewrite <- post_names_created. by apply replayed_posted.
Qed.

(** A request that has not begun its locked part. *)
Definition waits (pc : users_pc) : Prop := exists r, pc = UWaiting r.

Lemma stalled_step i r re c c' :
  u_holder c = Some i -> u_threads c !! i = Some (UReplyingLocked r re) ->
  users_without i c c' ->
  u_holder c' = Some i /\ u_threads c' !! i = Some (UReplyingLocked r re) /\
  u_log c' = u_log c /\ u_state c' = u_state c /\
  forall j pc, u_threads c !! j = Some pc -> waits pc -> u_threads c' !! j = Some pc.
Proof.
  intros Hh Hi (a & Hst & Ha).
  destruct Hst as [cur h ts l r1|cur ts l k r1 Hk|cur cur' ts l k pc pc' Hk Hsec
    |cur ts l k r1 re1 Hk|cur ts l k r1 re1 Hk|cur h ts l k re1 Hk]; cbn in *; simplify_eq; try done.
  - split_and!; try done; [by apply lookup_app_l_Some|].
    intros j pc Hj _. by apply lookup_app_l_Some.
  - assert (k <> i) by (intros ->; by simplify_eq).
    split_and!; try done; [by rewrite list_lookup_insert_ne|].
    intros j pc Hj [q ->]. rewrite list_lookup_insert_ne; [done|]. intros ->. by simplify_eq.
Qed.

(** [GET /users/:id] replies with the mutex held: while its client takes
    nothing, no other request for the users completes, whoever sends it and
    whatever else runs, the users stay as they are, and every request that was
    waiting for the mutex still waits. *)
Theorem users_stalled i r re c c' :
  u_holder c = Some i -> u_threads c !! i = Some (UReplyingLocked r re) ->
  rtc (users_without i) c c' ->
  u_holder c' = Some i /\ u_log c' = u_log c /\ u_state c' = u_state c /\
  forall j pc, u_threads c !! j = Some pc -> waits pc -> u_threads c' !! j = Some pc.
Proof.
  intros Hh Hi Hr. revert Hh Hi. induction Hr as [c|c c1 c2 Hst _ IH]; intros Hh Hi; [done|].
  destruct (stalled_step _ _ _ _ _ Hh Hi Hst) as (Hh1 & Hi1 & El & Es & Hw).
  destruct (IH Hh1 Hi1) as (Hh2 & El2 & Es2 & Hw2). rewrite El2, Es2. split_and!; try done.
  intros j pc Hj Hp. by apply Hw2; [apply Hw|].
Qed.

(** C15. Nothing deadlocks, provided the clients take their replies: from
    anything the server can get to, if no further request arrives there are
    only finitely many steps, and when none is left every goroutine is through
    and every request was answered once. *)
Theorem users_served s c :
  rtc users_any (users_start s) c ->
  sn users_run c /\
  forall c', rtc users_run c c' -> (forall c'', ~ users_run c' c'') ->
    Forall (eq UDone) (u_threads c') /\ length (u_log c') = length (u_threads c').
Proof.
  intros Hr. split; [apply all_runs_end|]. intros c' Hc Hstop.
  assert (rtc users_any (users_start s) c') as Hr'.
  { etrans; [done|]. eapply rtc_subrel; [|done]. by intros ? ? (a & _ & ?); exists a. }
  assert (Forall (eq UDone) (u_threads c')) as Hd
    by (eapply stopped_done; [by apply users_inv_reachable|done]).
  split; [done|]. assert (logged c') as ->.
  { revert Hr'. apply users_reachable; [done|exact logged_step]. }
  clear -Hd. induction Hd as [|p ts <- _ IH]; [done|]. cbn. by rewrite IH.
Qed.

(** ** Witnesses *)

(** The user 1 is asked for, and "Carol" posted; the first has the mutex and
    its client takes nothing. *)
Definition slow_client : users_config :=
  mkUsersConfig initial_users (Some 0%nat)
    [UReplyingLocked (RGet "1") (ReUser {["id" := "1"; "name" := "Alice"]}); UWaiting (RPost "Carol")] [].

(** It takes its reply, and the post gets the mutex and completes. *)
Definition after_post : users_config :=
  mkUsersConfig (created ["Carol"]) None
    [UDone; UReplying (ReCreated {["id" := "3"; "name" := "Carol"]})]
    [(0%nat, RGet "1", ReUser {["id" := "1"; "name" := "Alice"]});
     (1%nat, RPost "Carol", ReCreated {["id" := "3"; "name" := "Carol"]})].

Ltac users_walk rule := eapply rtc_l; [eexists; (eapply rule; reflexivity)|cbn].

Lemma slow_client_reached : rtc users_any (users_start initial_users) slow_client.
Proof.
  eapply rtc_l; [exists LArrive; apply (us_arrive _ _ _ _ (RGet "1"))|].
  eapply rtc_l; [exists LArrive; apply (us_arrive _ _ _ _ (RPost "Carol"))|]. cbn.
  eapply rtc_l; [exists (LRun 0); by eapply us_lock|]. cbn.
  users_walk us_section. apply rtc_refl.
Qed.

Lemma after_post_reached : rtc users_any (users_start initial_users) after_post.
Proof.
  etrans; [exact slow_client_reached|].
  eapply rtc_l; [exists (LTake 0); by eapply us_reply_locked|]. cbn.
  eapply rtc_l; [exists (LRun 0); by eapply us_unlock|]. cbn.
  eapply rtc_l; [exists (LRun 1); by eapply us_lock|]. cbn.
  do 3 users_walk us_section.
  eapply rtc_l; [exists (LRun 1); by eapply us_unlock|]. apply rtc_refl.
Qed.

Lemma users_linearizable_witness :
  posted (u_log after_post) = ["Carol"] /\ u_state after_post = created (posted (u_log after_post)).
Proof.
  split; [reflexivity|].
  destruct (users_linearizable after_post after_post_reached) as (_ & _ & _ & Hc).
  by apply Hc.
Defined.

(** The post stays where it is whatever comes after the GET. *)
Lemma users_stalled_witness :
  rtc users_any (users_start initial_users) slow_client /\
  exists c', rtc (users_without 0) slow_client c' /\ length (u_threads c') = 3%nat /\
    u_threads c' !! 1%nat = Some (UWaiting (RPost "Carol")) /\ u_log c' = [].
Proof.
  split; [exact slow_client_reached|].
  set (c' := mkUsersConfig (u_state slow_client) (u_holder slow_client)
    (u_threads slow_client ++ [UWaiting RList]) (u_log slow_client)).
  assert (rtc (users_without 0) slow_client c') as Hr
    by (apply rtc_once; exists LArrive; split; [constructor|discriminate]).
  destruct (users_stalled 0%nat _ _ slow_client c' eq_refl eq_refl Hr) as (_ & Hl & _ & Hw).
  exists c'. split; [exact Hr|]. split; [reflexivity|]. split; [|exact Hl].
  apply Hw; [reflexivity|by eexists].
Defined.

Lemma users_served_witness : sn users_run slow_client.
Proof. apply (users_served initial_users slow_client slow_client_reached). Defined.
