(* ===== verification/Scan.v ===== *)
(** * Scanning integers (fmt.Sscanf with the %d verb)

    What the demo handlers use to read a count from a path parameter: skip
    spaces, an optional sign, decimal digits, and a value in the range of
    [int]; the rest of the string is ignored.  On any failure the destination
    keeps its value, so the result is an option.  Skipping spaces outside ASCII
    needs the Unicode tables: the class [ScanSpace]. *)

From S2P Require Import Prelude GoStd.
From Stdlib Require Import Ascii.

Local Open Scope string_scope.
Local Open Scope Z_scope.

(** What is left after the spaces at the front, from a non-ASCII one on. *)
Class ScanSpace := { scanSpaceWide : string -> string }.

Definition is_digit (a : ascii) : bool := in_range "0" "9" a.
Definition digit_value (a : ascii) : Z := Z.of_nat (nat_of_ascii a) - 48.

(** [SkipSpace]: a newline is an error. *)
Fixpoint skip_spaces `{ScanSpace} (s : string) : option string :=
  match s with
  | "" => Some ""
  | String a s' =>
      if (nat_of_ascii a =? 10)%nat then None
      else if negb (is_ascii a) then Some (scanSpaceWide s)
      else if ascii_space a then skip_spaces s' else Some s
  end.

(** The value of the digits at the front, continuing from [acc]. *)
Fixpoint scan_digits (acc : Z) (s : string) : Z :=
  match s with
  | "" => acc
  | String a s => if is_digit a then scan_digits (acc * 10 + digit_value a) s else acc
  end.

(** At least one digit, read as an [int]. *)
Definition scan_number (neg : bool) (s : string) : option Z :=
  match s with
  | "" => None
  | String a _ =>
      if is_digit a then
        let v := if neg then - scan_digits 0 s else scan_digits 0 s in
        if (- 2 ^ 63 <=? v) && (v <? 2 ^ 63) then Some v else None
      else None
  end.

Definition Sscanf_d `{ScanSpace} (s : string) : option Z :=
  match skip_spaces s with
  | None => None
  | Some s =>
      match s with
      | String a s' =>
          if (a =? "-")%char then scan_number true s'
          else if (a =? "+")%char then scan_number false s'
          else scan_number false s
      | "" => None
      end
  end.

(** ** Lemmas *)

Lemma digit_char (d : N) : (d < 10)%N ->
  is_digit (pretty_N_char d) = true /\ digit_value (pretty_N_char d) = Z.of_N d.
Proof.
  intros Hd. assert (d ∈ [0; 1; 2; 3; 4; 5; 6; 7; 8; 9]%N) as Hin by set_solver by lia.
  repeat (apply elem_of_cons in Hin as [->|Hin]; [by split|]). by apply elem_of_nil in Hin.
Qed.

Lemma scan_digits_go x s : scan_digits 0 (pretty_N_go x s) = scan_digits (Z.of_N x) s.
Proof.
  revert s. induction (N.lt_wf_0 x) as [x _ IH]. intros s.
  destruct (N.eq_dec x 0) as [->|Hx]; [by rewrite pretty_N_go_0|].
  rewrite pretty_N_go_step by lia. rewrite IH by (apply N.div_lt; lia).
  destruct (digit_char (x mod 10)) as [Hd Hv]; [apply N.mod_lt; lia|].
  cbn [scan_digits]. rewrite Hd, Hv. f_equal.
  pose proof (N.div_mod x 10 ltac:(done)) as E. lia.
Qed.

Lemma pretty_N_go_digit x s : (0 < x)%N -> exists a t, pretty_N_go x s = String a t /\ is_digit a = true.
Proof.
  revert s. induction (N.lt_wf_0 x) as [x _ IH]. intros s Hx. rewrite pretty_N_go_step by done.
  destruct (N.eq_dec (x `div` 10) 0) as [->|Hne].
  - rewrite pretty_N_go_0. eexists _, _. split; [done|]. apply digit_char, N.mod_lt. lia.
  - apply IH; [apply N.div_lt; lia|by apply N.neq_0_lt_0].
Qed.

(** The decimal digits of a number, without its sign. *)
Lemma pretty_N_digits (n : N) :
  exists a t, pretty n = String a t /\ is_digit a = true /\ scan_digits 0 (pretty n) = Z.of_N n.
Proof.
  unfold pretty, pretty_N. case_decide as Hn; [subst; by eexists _, _|].
  destruct (pretty_N_go_digit n "") as (a & t & E & Hd); [lia|]. exists a, t.
  split_and!; [done|done|]. by rewrite scan_digits_go.
Qed.

(** A digit is neither a space nor a sign. *)
Lemma digit_plain a : is_digit a = true ->
  (nat_of_ascii a =? 10)%nat = false /\ is_ascii a = true /\ ascii_space a = false /\
  (a =? "-")%char = false /\ (a =? "+")%char = false.
Proof. destruct a as [[] [] [] [] [] [] [] []]; intros H; (done || by vm_compute in H). Qed.

(** A printed [int] is scanned back. *)
Lemma Sscanf_d_printed `{ScanSpace} (z : Z) : - 2 ^ 63 <= z < 2 ^ 63 -> Sscanf_d (fmt_d z) = Some z.
Proof.
  intros Hz. unfold fmt_d, Sscanf_d. assert (forall n : N, Z.of_N n = z ->
    Sscanf_d (pretty n) = Some z) as Hpos.
  { intros n Hn. destruct (pretty_N_digits n) as (a & t & E & Hd & Hv). unfold Sscanf_d.
    destruct (digit_plain a Hd) as (H1 & H2 & H3 & H4 & H5). rewrite E. cbn [skip_spaces].
    rewrite H1, H2, H3. cbn [negb]. rewrite H4, H5. unfold scan_number. rewrite Hd, <- E, Hv, Hn.
    replace (- 2 ^ 63 <=? z) with true by (symmetry; apply Z.leb_le; lia).
    by replace (z <? 2 ^ 63) with true by (symmetry; apply Z.ltb_lt; lia). }
  destruct z as [|p|p]; [by apply (Hpos 0%N)|by apply (Hpos (N.pos p))|].
  destruct (pretty_N_digits (N.pos p)) as (a & t & E & Hd & Hv).
  change (pretty (Z.neg p)) with ("-" +:+ pretty (N.pos p)). rewrite append_char.
  change (scan_number true (pretty (N.pos p)) = Some (Z.neg p)).
  unfold scan_number. rewrite E, Hd, <- E, Hv. cbn [Z.of_N].
  change (- Z.pos p) with (Z.neg p).
  replace (- 2 ^ 63 <=? Z.neg p) with true by (symmetry; apply Z.leb_le; lia).
  by replace (Z.neg p <? 2 ^ 63) with true by (symmetry; apply Z.ltb_lt; lia).
Qed.
