(* ===== verification/Demos.v ===== *)
(** * The streaming handlers of the demos
    (examples/streaming-demo/main.go, cmd/example/main.go)

    Handlers that push chunks on a [StreamWriter]: a fixed number of items, or
    one per tick of a ticker until a deadline.  The outcome of the k-th [select]
    is the k-th element of a schedule, so a loop over it may run for ever: it
    takes fuel, and [None] means that the fuel ran out while it was running.
    [time.Sleep] only delays and is left out. *)

From S2P Require Import Prelude GoStd Scan NetURL Wire Validation Reqctx Reply Streaming.
From Stdlib Require Import Ascii.

Local Open Scope string_scope.
Local Open Scope list_scope.

(** What a [select] between a ticker and a deadline finds. *)
Inductive selected := Deadline | Ticked (t : Z).

Section Demos.
Context {V W : Type} `{Unicode} `{ScanSpace} `{Msgpack V} `{Validator V}.
Context `{Boxed Z V} `{Boxed string V} `{Boxed (option (gmap string V)) V}.

(** [defer d] before the statements [m]: [d] runs however [m] ends. *)
Definition defer {A B} (d : M V W B) (m : M V W A) : M V W A := fun st =>
  match m st with
  | (Returns a, st) =>
      match d st with
      | (Returns _, st) => (Returns a, st)
      | (Panics p, st) => (Panics p, st)
      end
  | (Panics p, st) =>
      match d st with
      | (Returns _, st) => (Panics p, st)
      | (Panics q, st) => (Panics q, st)
      end
  end.

(** The same for a loop that may still be running: then nothing is deferred. *)
Definition defer_fuel {A B} (d : M V W B) (m : M V W (option A)) : M V W (option A) := fun st =>
  match m st with
  | (Returns None, st) => (Returns None, st)
  | _ => defer d m st
  end.

(** A map[string]interface{} literal. *)
Definition any_map (m : gmap string V) : V := box (Some m).

(** ** A fixed number of items

    The marshalling error is dropped: the data is then nil. *)
Fixpoint send_items (item : nat -> V) (sw : nat) (i k : nat) : M V W (option error) :=
  match k with
  | O => mret None
  | S k =>
      let data := match Marshal (PValue (Some (item i))) with
                  | Ok data => Some data
                  | Err _ => None
                  end in
      r ← SW_Write sw data;
      match r.2 with
      | Some _ => mret None
      | None => send_items item sw (S i) k
      end
  end.

Definition batch_item (i : nat) : V :=
  any_map {["index" := box (Z.of_nat i); "value" := box (Z.of_nat i * Z.of_nat i)%Z]}.

Definition get_batch : M V W (option error) :=
  c ← get_ctx;
  let n := default 100%Z (Sscanf_d (Param c "n")) in
  if (10000 <? n)%Z then Error 400 "n must be ≤ 10000" []
  else
    r ← NewStream 200 None;
    match r with
    | Err err => mret (Some err)
    | Ok sw => defer (SW_Close sw) (send_items batch_item sw 0 (Z.to_nat n))
    end.

Definition slow_item (n : Z) (i : nat) : V :=
  any_map {["seq" := box (Z.of_nat i);
            "msg" := box ("slow chunk " +:+ fmt_d (Z.of_nat i + 1) +:+ "/" +:+ fmt_d n)]}.

Definition get_slow : M V W (option error) :=
  c ← get_ctx;
  let n := default 5%Z (Sscanf_d (Param c "n")) in
  if (60 <? n)%Z then Error 400 "n must be ≤ 60" []
  else
    r ← NewStream 200 None;
    match r with
    | Err err => mret (Some err)
    | Ok sw => defer (SW_Close sw) (send_items (slow_item n) sw 0 (Z.to_nat n))
    end.

(** ** The counting stream of the example command *)

Definition count_item (count : Z) (now : Z) (i : nat) : V :=
  any_map {["seq" := box (Z.of_nat i);
            "data" := box ("chunk " +:+ fmt_d (Z.of_nat i + 1) +:+ " of " +:+ fmt_d count);
            "ts" := box now]}.

Fixpoint send_counted (count : Z) (sw : nat) (i k : nat) : M V W (option error) :=
  match k with
  | O => mret None
  | S k =>
      now ← time_Now;
      match Marshal (PValue (Some (count_item count now i))) with
      | Err err => mret (Some err)
      | Ok data =>
          r ← SW_Write sw (Some data);
          match r.2 with
          | Some _ => mret None
          | None => send_counted count sw (S i) k
          end
      end
  end.

Definition stream_count (param : string) : Z :=
  let count := default 5%Z (Sscanf_d param) in
  if (100 <? count)%Z then 100%Z else count.

Definition get_count : M V W (option error) :=
  r ← NewStream 200 (Some {["x-format" := "msgpack-stream"]});
  match r with
  | Err err => mret (Some err)
  | Ok sw =>
      defer (SW_Close sw)
        (c ← get_ctx;
         let count := stream_count (Param c "count") in
         send_counted count sw 0 (Z.to_nat count))
  end.

(** ** Tickers *)

Variable sel : nat -> selected.

Fixpoint tick_loop (item : nat -> Z -> V) (sw : nat) (fuel i : nat)
    : M V W (option (option error)) :=
  match fuel with
  | O => mret None
  | S fuel =>
      match sel i with
      | Deadline => mret (Some None)
      | Ticked t =>
          match Marshal (PValue (Some (item i t))) with
          | Err err => mret (Some (Some err))
          | Ok payload =>
              r ← SW_Write sw (Some payload);
              match r.2 with
              | Some _ => mret (Some None)
              | None => tick_loop item sw fuel (S i)
              end
          end
      end
  end.

Definition ticking (headers : Headers) (item : nat -> Z -> V) (fuel : nat)
    : M V W (option (option error)) :=
  r ← NewStream 200 headers;
  match r with
  | Err err => mret (Some (Some err))
  | Ok sw => defer_fuel (SW_Close sw) (tick_loop item sw fuel 0)
  end.

Definition tick_item (i : nat) (t : Z) : V :=
  any_map {["seq" := box (Z.of_nat i); "ts" := box t;
            "msg" := box ("tick #" +:+ fmt_d (Z.of_nat i))]}.

Definition get_ticks (fuel : nat) : M V W (option (option error)) :=
  ticking (Some {["x-stream" := "ticks"]}) tick_item fuel.

Definition event_item (i : nat) (t : Z) : V :=
  any_map {["event" := box "tick"; "seq" := box (Z.of_nat i); "ts" := box t]}.

Definition get_events (fuel : nat) : M V W (option (option error)) :=
  ticking None event_item fuel.
End Demos.
