(* ===== verification/DemosProps.v ===== *)
(** * The streaming handlers of the demos: theorems

    What a client of the demo streams gets: the batch and slow streams are the
    documented handler on the marshalled items, the counting stream is bounded,
    and the streams driven by a ticker end at their deadline. *)

From S2P Require Import Prelude GoStd Scan NetURL Wire RefCodec Validation Reqctx Reply Streaming Demos.
From Stdlib Require Import Ascii.

Local Open Scope string_scope.
Local Open Scope list_scope.

Section Demos.
Context {V W : Type} `{Unicode} `{ScanSpace} `{Msgpack V} `{Validator V}.
Context `{Boxed Z V} `{Boxed string V} `{Boxed (option (gmap string V)) V}.
Implicit Types (st : St V W).

(** ** Deferred calls keep the reply well formed *)

#[export] Instance safe_defer {A B} (d : M V W B) (m : M V W A) :
  Safe d -> Safe m -> Safe (defer d m).
Proof.
  intros Hd Hm base req st Hst. specialize (Hm base req st Hst). unfold defer.
  destruct (m st) as [[a|p] st1]; cbn in Hm; specialize (Hd base req st1 Hm);
    by destruct (d st1) as [[b|q] st2].
Qed.

#[export] Instance safe_defer_fuel {A B} (d : M V W B) (m : M V W (option A)) :
  Safe d -> Safe m -> Safe (defer_fuel d m).
Proof.
  intros Hd Hm base req st Hst. pose proof (safe_defer d m Hd Hm base req st Hst) as Hdm.
  specialize (Hm base req st Hst). unfold defer_fuel.
  by destruct (m st) as [[[a|]|p] st1] eqn:E.
Qed.

#[export] Instance safe_send_items item sw i k : Safe (send_items item sw i k : M V W (option error)).
Proof. revert i. induction k; intros i; cbn; apply _. Qed.

#[export] Instance safe_send_counted count sw i k :
  Safe (send_counted count sw i k : M V W (option error)).
Proof. revert i. induction k; intros i; cbn; apply _. Qed.

#[export] Instance safe_tick_loop sel item sw fuel i :
  Safe (tick_loop sel item sw fuel i : M V W (option (option error))).
Proof.
  revert i. induction fuel; intros i; cbn; [apply _|]. destruct (sel i); apply _.
Qed.

#[export] Instance safe_get_batch : Safe (get_batch (V := V) (W := W)).
Proof. unfold get_batch. apply _. Qed.
#[export] Instance safe_get_slow : Safe (get_slow (V := V) (W := W)).
Proof. unfold get_slow. apply _. Qed.
#[export] Instance safe_get_count : Safe (get_count (V := V) (W := W)).
Proof. unfold get_count. apply _. Qed.
#[export] Instance safe_ticking sel headers item fuel :
  Safe (ticking sel headers item fuel : M V W (option (option error))).
Proof. unfold ticking. apply _. Qed.

(** ** An open writer

    [SW_Write] and [SW_Close] do not panic on a writer of the request, and
    keep it there. *)
Lemma write_valid p data st : (p < length (st_sws st))%nat ->
  exists r st', SW_Write p data st = (Returns r, st') /\ length (st_sws st') = length (st_sws st).
Proof.
  intros (w & Hw)%lookup_lt_is_Some_2. rewrite SW_Write_run, Hw.
  destruct (sw_closed w); [by eauto|]. destruct (WriteFrame _ _ _) as [err s].
  eexists _, _. split; [done|]. apply length_insert.
Qed.

Lemma close_valid p st : (p < length (st_sws st))%nat ->
  exists r st', SW_Close p st = (Returns r, st') /\ length (st_sws st') = length (st_sws st).
Proof.
  intros (w & Hw)%lookup_lt_is_Some_2. rewrite SW_Close_run, Hw.
  destruct (sw_closed w); [by eauto|]. destruct (WriteFrame _ _ _) as [err s].
  eexists _, _. split; [done|]. apply length_insert.
Qed.

Lemma write_chunks_valid p ds st : (p < length (st_sws st))%nat ->
  exists st', write_chunks p ds st = (Returns tt, st') /\ length (st_sws st') = length (st_sws st).
Proof.
  revert st. induction ds as [|d ds IH]; intros st Hp; cbn [write_chunks]; [by eauto|].
  rewrite bind_run. destruct (write_valid p (Some d) st Hp) as ([z [err|]] & st1 & -> & Hl);
    cbn [snd]; [by eauto|].
  destruct (IH st1) as (st2 & -> & Hl2); [lia|]. eexists. split; [done|]. lia.
Qed.

Lemma new_stream_valid status headers st :
  (exists err st', NewStream status headers st = (Returns (Err err), st')) \/
  (exists sw st', NewStream status headers st = (Returns (Ok sw), st') /\
     (sw < length (st_sws st'))%nat).
Proof.
  rewrite NewStream_run. destruct (ctx_sent (st_ctx st)); [by left; eauto|].
  destruct (WriteFrame _ _ _) as [[err|] s]; [by left; eauto|]. right.
  eexists _, _. split; [done|]. cbn. rewrite length_app. cbn. lia.
Qed.

(** ** The batch and slow streams *)

(** Sending items is writing their encodings. *)
Lemma send_items_chunks item enc sw i k st :
  (forall j, (i <= j < i + k)%nat -> Marshal (PValue (Some (item j))) = Ok (enc j)) ->
  send_items item sw i k st =
    (_ ← write_chunks sw (map enc (seq i k)); mret None) st.
Proof.
  revert i st. induction k as [|k IH]; intros i st Henc; cbn [send_items seq map write_chunks]; [done|].
  rewrite Henc by lia. rewrite bind_run. rewrite (M_bind_assoc _ _ _ st), bind_run.
  destruct (SW_Write sw (Some (enc i)) st) as [[[z [err|]]|p] st1]; cbn [snd]; [done| |done].
  apply IH. intros j Hj. apply Henc. lia.
Qed.

Lemma send_all_equiv item enc k headers st :
  (forall j, (j < k)%nat -> Marshal (PValue (Some (item j))) = Ok (enc j)) ->
  (r ← NewStream 200 headers;
   match r with
   | Err err => mret (Some err)
   | Ok sw => defer (SW_Close sw) (send_items item sw 0 k)
   end) st = stream_all 200 headers (map enc (seq 0 k)) st.
Proof.
  intros Henc. unfold stream_all. rewrite !bind_run.
  destruct (new_stream_valid 200 headers st) as [(err & st1 & ->)|(sw & st1 & -> & Hsw)]; [done|].
  unfold defer. rewrite send_items_chunks with (enc := enc) by (intros j Hj; apply Henc; lia).
  rewrite !bind_run.
  destruct (write_chunks_valid sw (map enc (seq 0 k)) st1 Hsw) as (st2 & -> & Hl).
  cbn [mret M_ret]. rewrite bind_run.
  destruct (close_valid sw st2) as (r & st3 & -> & _); [lia|done].
Qed.

(** C18.  The batch stream: more than 10000 items are refused with a 400;
    otherwise, whatever state the stream is in, the handler behaves as the
    documented streaming handler on the items 0 to n-1, marshalled, so that
    the round trip of a streamed reply applies to it.  The count is the
    integer at the front of the path parameter, 100 without one, and a
    negative count sends nothing. *)
Theorem batch_equiv enc st :
  let n := default 100%Z (Sscanf_d (Param (st_ctx st) "n")) in
  (forall i, (Z.of_nat i < n)%Z -> Marshal (PValue (Some (batch_item i))) = Ok (enc i)) ->
  get_batch st =
    if (10000 <? n)%Z then Error 400 "n must be ≤ 10000" [] st
    else stream_all 200 None (map enc (seq 0 (Z.to_nat n))) st.
Proof.
  intros n Henc. unfold get_batch. rewrite bind_run. cbn [get_ctx]. fold n.
  destruct (10000 <? n)%Z; [done|]. apply send_all_equiv. intros j Hj. apply Henc. lia.
Qed.

(** A decimal count in the path is the one used. *)
Corollary batch_count n st : (0 <= n < 2 ^ 63)%Z ->
  Param (st_ctx st) "n" = fmt_d n -> default 100%Z (Sscanf_d (Param (st_ctx st) "n")) = n.
Proof. intros Hn ->. by rewrite Sscanf_d_printed by lia. Qed.

(** ** Tickers *)

Lemma tick_loop_ends sel item sw k n st :
  sel (k + n)%nat = Deadline -> (sw < length (st_sws st))%nat ->
  exists r st', (sw < length (st_sws st'))%nat /\
    forall fuel, (n < fuel)%nat -> tick_loop sel item sw fuel k st = (Returns (Some r), st').
Proof.
  intros Hn. revert k st Hn. induction n as [|n IH]; intros k st Hn Hsw.
  - rewrite Nat.add_0_r in Hn. exists None, st. split; [done|].
    intros [|fuel] Hf; [lia|]. cbn. by rewrite Hn.
  - destruct (sel k) as [|t] eqn:Hk.
    { exists None, st. split; [done|]. intros [|fuel] Hf; [lia|]. cbn. by rewrite Hk. }
    destruct (Marshal (PValue (Some (item k t)))) as [payload|err] eqn:HM.
    + destruct (write_valid sw (Some payload) st Hsw) as ([z [err|]] & st1 & HW & Hl).
      * exists None, st1. split; [lia|]. intros [|fuel] Hf; [lia|]. cbn [tick_loop].
        by rewrite Hk, HM, bind_run, HW.
      * destruct (IH (S k) st1) as (r & st2 & Hsw2 & Hrun); [by rewrite Nat.add_succ_comm|lia|].
        exists r, st2. split; [done|]. intros [|fuel] Hf; [lia|]. cbn [tick_loop].
        rewrite Hk, HM, bind_run, HW. cbn [snd]. apply Hrun. lia.
    + exists (Some err), st. split; [done|]. intros [|fuel] Hf; [lia|]. cbn [tick_loop].
      by rewrite Hk, HM.
Qed.

(** Until a deadline at the [n]-th [select], the ticks are written as chunks. *)
Lemma tick_loop_chunks sel item (t : nat -> Z) enc sw k n fuel st :
  sel (k + n)%nat = Deadline -> (n < fuel)%nat ->
  (forall j, (k <= j < k + n)%nat ->
     sel j = Ticked (t j) /\ Marshal (PValue (Some (item j (t j)))) = Ok (enc j)) ->
  tick_loop sel item sw fuel k st =
    (_ ← write_chunks sw (map enc (seq k n)); mret (Some None)) st.
Proof.
  revert k fuel st. induction n as [|n IH]; intros k [|fuel] st Hn Hf Henc; try lia;
    cbn [tick_loop seq map write_chunks].
  - rewrite Nat.add_0_r in Hn. by rewrite Hn.
  - destruct (Henc k) as [-> ->]; [lia|]. rewrite bind_run, (M_bind_assoc _ _ _ st), bind_run.
    destruct (SW_Write sw (Some (enc k)) st) as [[[z [err|]]|p] st1]; cbn [snd]; [done| |done].
    apply IH; [by rewrite Nat.add_succ_comm|lia|]. intros j Hj. apply Henc. lia.
Qed.

(** What a ticking handler does with a deadline at the [k]-th [select]. *)
Definition ends_at (sel : nat -> selected) (headers : Headers) (item : nat -> Z -> V) (k : nat)
    (run : nat -> M V W (option (option error))) st : Prop :=
  exists r st',
    (forall fuel, (k < fuel)%nat -> run fuel st = (Returns (Some r), st')) /\
    forall t enc,
      (forall j, (j < k)%nat ->
         sel j = Ticked (t j) /\ Marshal (PValue (Some (item j (t j)))) = Ok (enc j)) ->
      stream_all 200 headers (map enc (seq 0 k)) st = (Returns r, st').

Lemma ticking_ends sel headers item k st :
  sel k = Deadline -> ends_at sel headers item k (ticking sel headers item) st.
Proof.
  intros Hk. unfold ends_at, ticking, stream_all.
  destruct (new_stream_valid 200 headers st) as [(err & st1 & HN)|(sw & st1 & HN & Hsw)].
  { exists (Some err), st1. split; intros; by rewrite bind_run, HN. }
  destruct (tick_loop_ends sel item sw 0 k st1 Hk Hsw) as (r & st2 & Hsw2 & Hrun).
  destruct (close_valid sw st2 Hsw2) as (r' & st3 & HC & _).
  exists r, st3. split.
  - intros fuel Hf. rewrite bind_run, HN. unfold defer_fuel, defer. by rewrite (Hrun fuel Hf), HC.
  - intros t enc Henc. rewrite bind_run, HN.
    pose proof (tick_loop_chunks sel item t enc sw 0 k (S k) st1 Hk ltac:(lia)
      ltac:(intros j Hj; apply Henc; lia)) as E.
    rewrite Hrun, bind_run in E by lia. rewrite bind_run.
    destruct (write_chunks sw (map enc (seq 0 k)) st1) as [[[]|p] st4]; [|done].
    unfold mret, M_ret in E. simplify_eq. by rewrite bind_run, HC.
Qed.

(** C17.  The tick and event streams end, whatever the connection does: if the
    k-th [select] finds the deadline then each handler returns without a
    panic, with the same reply and state for any fuel above k.  And when the
    selects before it were ticks whose items marshal, it behaved as the
    documented streaming handler on these items: nothing but the deadline or
    an error ends a stream. *)
Theorem ticks_terminate sel k st :
  sel k = Deadline ->
  ends_at sel (Some {["x-stream" := "ticks"]}) tick_item k (get_ticks sel) st /\
  ends_at sel None event_item k (get_events sel) st.
Proof. intros Hk. split; by apply ticking_ends. Qed.

(** ** The counting stream *)

(** Every writer is closed and has written at most [n] chunks. *)
Definition all_closed_within (n : Z) st : Prop :=
  Forall (fun w => sw_closed w = true /\ (0 <= sw_seq w <= n)%Z) (st_sws st).

(** A single open writer which has written [i] chunks. *)
Definition one_open (i : nat) st : Prop :=
  exists id, st_sws st = [mkStreamWriter id (Z.of_nat i) false].

Lemma write_one_open i data st : (Z.of_nat i < 2 ^ 64 - 1)%Z -> one_open i st ->
  exists r st', SW_Write 0 data st = (Returns r, st') /\ one_open (S i) st'.
Proof.
  intros Hi [id Hst]. rewrite SW_Write_run, Hst. cbn. destruct (WriteFrame _ _ _) as [err s].
  eexists _, _. split; [done|]. exists id. cbn. do 2 f_equal. unfold uint64.
  rewrite Z.mod_small by lia. lia.
Qed.

Lemma close_one_open i st : one_open i st ->
  exists r st', SW_Close 0 st = (Returns r, st') /\ all_closed_within (Z.of_nat i) st'.
Proof.
  intros [id Hst]. rewrite SW_Close_run, Hst. cbn. destruct (WriteFrame _ _ _) as [err s].
  eexists _, _. split; [done|]. constructor; [cbn; split; [done|lia]|constructor].
Qed.

Lemma send_counted_open count i k st :
  (Z.of_nat (i + k) < 2 ^ 64)%Z -> one_open i st ->
  exists r st' j, send_counted count 0 i k st = (Returns r, st') /\ one_open j st' /\ (j <= i + k)%nat.
Proof.
  revert i st. induction k as [|k IH]; intros i st Hik Hst; cbn [send_counted].
  { exists None, st, i. split_and!; [done|done|lia]. }
  rewrite bind_run, time_Now_run. cbn beta iota.
  match goal with |- context [Marshal ?pl] => destruct (Marshal pl) as [data|err] end;
    [|eexists _, _, i; split_and!; [done|exact Hst|lia]].
  rewrite bind_run.
  match goal with |- context [SW_Write 0 _ ?st1] =>
    destruct (write_one_open i (Some data) st1) as ([z [err|]] & st2 & -> & Ho2);
      [lia|exact Hst| |]
  end; cbn [snd].
  - exists None, st2, (S i). split_and!; [done|done|lia].
  - destruct (IH (S i) st2) as (r & st3 & j & -> & Ho3 & Hj); [lia|done|].
    exists r, st3, j. split_and!; [done|done|lia].
Qed.

Lemma stream_count_bound s : (stream_count s <= 100)%Z.
Proof. unfold stream_count. destruct (Z.ltb_spec 100 (default 5%Z (Sscanf_d s))); lia. Qed.

(** The counting stream is bounded: on a fresh request, whatever the
    count in the path and whatever happens to the connection, the handler
    returns, and the writer it opened, if any, is closed and has written at
    most 100 chunks, and no more than the path asks for. *)
Theorem get_count_bounded st :
  st_sws st = [] ->
  exists r st', get_count st = (Returns r, st') /\
    all_closed_within (Z.max 0 (stream_count (Param (st_ctx st) "count"))) st' /\
    (stream_count (Param (st_ctx st) "count") <= 100)%Z.
Proof.
  intros Hst. unfold get_count. rewrite bind_run, NewStream_run, Hst.
  pose proof (stream_count_bound (Param (st_ctx st) "count")) as Hc.
  unfold all_closed_within.
  destruct (ctx_sent (st_ctx st)); [eexists _, _; split_and!; [done|by rewrite Hst|done]|].
  destruct (WriteFrame _ _ _) as [[err|] s];
    [eexists _, _; split_and!; [done|constructor|done]|].
  unfold defer. rewrite bind_run. cbn [get_ctx app length].
  set (st1 := after_send st s _). change (Param (st_ctx st1) "count") with (Param (st_ctx st) "count").
  set (c := stream_count (Param (st_ctx st) "count")) in *.
  destruct (send_counted_open c 0 (Z.to_nat c) st1) as (r & st2 & j & -> & Ho & Hj);
    [lia|by eexists|].
  destruct (close_one_open j st2 Ho) as (r' & st3 & -> & Hcl).
  exists r, st3. split_and!; [done| |done].
  eapply Forall_impl; [exact Hcl|]. cbn. intros w [? ?]. split; [done|lia].
Qed.
End Demos.

(** ** Witnesses

    The values the items box; a map is marshalled to its keys. *)

Inductive item_value :=
  | IInt (z : Z)
  | IString (s : string)
  | IMap (m : option (gmap string item_value)).

Definition item_int v : option Z := match v with IInt z => Some z | _ => None end.
Definition item_string v : option string := match v with IString s => Some s | _ => None end.
Definition item_map v : option (option (gmap string item_value)) :=
  match v with IMap m => Some m | _ => None end.

Lemma item_int_inv v z : item_int v = Some z -> v = IInt z.
Proof. destruct v; intros; by simplify_eq/=. Qed.
Lemma item_string_inv v s : item_string v = Some s -> v = IString s.
Proof. destruct v; intros; by simplify_eq/=. Qed.
Lemma item_map_inv v m : item_map v = Some m -> v = IMap m.
Proof. destruct v; intros; by simplify_eq/=. Qed.

#[export] Instance item_boxed_int : Boxed Z item_value :=
  {| box := IInt; unbox := item_int; unbox_box s := eq_refl; box_unbox := item_int_inv |}.
#[export] Instance item_boxed_string : Boxed string item_value :=
  {| box := IString; unbox := item_string; unbox_box s := eq_refl; box_unbox := item_string_inv |}.
#[export] Instance item_boxed_map : Boxed (option (gmap string item_value)) item_value :=
  {| box := IMap; unbox := item_map; unbox_box s := eq_refl; box_unbox := item_map_inv |}.

Definition item_bytes (v : item_value) : bytes :=
  match v with
  | IInt z => tagged Byte.x10 z
  | IString s => tagged Byte.x11 s
  | IMap m => tagged Byte.x12 (map fst (map_to_list (default ∅ m)))
  end.

#[export] Instance item_codec : Msgpack item_value := {|
  Marshal p :=
    match p with
    | PRequest r => ref_marshal (PRequest r)
    | PResponse r => ref_marshal (PResponse r)
    | PChunk c => ref_marshal (PChunk c)
    | PError e => ref_marshal (PError e)
    | PPing p => ref_marshal (PPing p)
    | PValue None => ref_marshal (PValue None)
    | PValue (Some v) => Ok (item_bytes v)
    end;
  UnmarshalRequest := UnmarshalRequest (Msgpack := ref_codec);
  UnmarshalResponse := UnmarshalResponse (Msgpack := ref_codec);
  UnmarshalStreamChunk := UnmarshalStreamChunk (Msgpack := ref_codec);
  UnmarshalErrorFrame := UnmarshalErrorFrame (Msgpack := ref_codec);
  UnmarshalInto b v := (v, Some (errorString "msgpack: Decode(unsupported type)"));
|}.

#[export] Instance item_validator : Validator item_value := {| Struct v := None |}.

Section Witnesses.
#[local] Existing Instance ascii_tables.
#[local] Instance narrow : ScanSpace := {| scanSpaceWide s := s |}.

(** A request with a path parameter, on a healthy stream. *)
Definition asked (params : gmap string string) : St item_value unit :=
  mkSt (setParams (newContext None (mkRequest "r1" "GET" "/stream" None None false)
          (otherPeer (Some "[::1]:4433") []) (reading [])) params) []
    (mkEnv [] (fun n => Z.of_nat n) 0 tt).

(** Three ticks and the deadline. *)
Definition three_ticks (n : nat) : selected := if (n <? 3)%nat then Ticked (Z.of_nat n) else Deadline.

Lemma batch_equiv_witness :
  get_batch (asked {["n" := "2"]}) =
  stream_all 200 None [item_bytes (batch_item 0); item_bytes (batch_item 1)] (asked {["n" := "2"]}).
Proof.
  assert (Sscanf_d (Param (st_ctx (asked {["n" := "2"]})) "n") = Some 2%Z) as E by (vm_compute; reflexivity).
  pose proof (batch_equiv (V := item_value) (W := unit) (fun i => item_bytes (batch_item i))
    (asked {["n" := "2"]}) (fun i _ => eq_refl)) as Hb.
  rewrite E in Hb. exact Hb.
Defined.

Lemma ticks_terminate_witness :
  ends_at three_ticks (Some {["x-stream" := "ticks"]}) tick_item 3 (get_ticks three_ticks) (asked ∅) /\
  ends_at three_ticks None event_item 3 (get_events three_ticks) (asked ∅).
Proof. exact (ticks_terminate three_ticks 3 (asked ∅) eq_refl). Defined.

Lemma get_count_bounded_witness :
  exists r st', get_count (asked {["count" := "250"]}) = (Returns r, st') /\
    all_closed_within 100 st' /\ (100 <= 100)%Z.
Proof. exact (get_count_bounded (asked {["count" := "250"]}) eq_refl). Defined.

(** The runs themselves. *)
Example negative_batch :
  get_batch (asked {["n" := "-4"]}) = stream_all 200 None [] (asked {["n" := "-4"]}).
Proof. vm_compute. reflexivity. Qed.

Example huge_batch :
  get_batch (asked {["n" := "10001x"]}) = Error 400 "n must be ≤ 10000" [] (asked {["n" := "10001x"]}).
Proof. vm_compute. reflexivity. Qed.

Example ticks_sent :
  sw_seq <$> st_sws (get_ticks three_ticks 4 (asked ∅)).2 = [3%Z] /\
  (get_ticks three_ticks 3 (asked ∅)).1 = Returns None.
Proof. split; vm_compute; reflexivity. Qed.
End Witnesses.
