(* ===== verification/Example.v ===== *)
(** * The example command (cmd/example/main.go)

    The whole application [main] puts together: three middlewares, public
    routes, a group of routes behind a token, two streams, a wildcard route;
    and its start-up.  The handlers that reply at once are in Servers.v, the
    streams in Demos.v.  The environment variables, the conversion of the
    secret to the key type of the JWT library and the schedule of the ticker
    are variables; that the deadline fires is what [time.After] promises. *)

From S2P Require Import Prelude GoStd Scan NetURL Wire Validation Reqctx Reply Router App Group Middleware RateLimit Files Certs Servers Demos.
From Stdlib Require Import QArith.

Local Open Scope string_scope.
Local Open Scope list_scope.

(** What a ticker and a timer do to the [select]s of one request. *)
Class Schedule := {
  schedule : nat -> selected;
  deadline : nat;
  deadline_fires : schedule deadline = Deadline;
}.

Definition envOr (getenv : string -> string) (key fallback : string) : string :=
  if negb (String.eqb (getenv key) "") then getenv key else fallback.

(** [main]'s logger, which it also makes the default one with [SetDefault]. *)
Definition example_logger : slogger := slog_Default.

(** The handlers [main] registers on the group. *)
Record api (V W : Type) := mkApi {
  api_list : HandlerFunc V W;
  api_show : HandlerFunc V W;
  api_create : HandlerFunc V W;
  api_remove : HandlerFunc V W;
  api_upload : HandlerFunc V W;
}.
Arguments mkApi {V W}. Arguments api_list {V W}. Arguments api_show {V W}.
Arguments api_create {V W}. Arguments api_remove {V W}. Arguments api_upload {V W}.

Section Example_.
Context {V W C K L : Type} `{Unicode} `{ScanSpace} `{Schedule} `{Growslice}.
Context `{Msgpack V} `{Validator V} `{JWTLib C K} `{RateLib L} `{HasLimiters L W}.
Context `{Boxed string V} `{Boxed Z V} `{Boxed user V} `{Boxed (option (gmap string V)) V}.
Context `{Boxed (list (gmap string V)) V} `{Boxed (Token C) V}.
Variables (debug_Stack : panic_value -> string) (getenv : string -> string) (key_of : string -> K).

(** [GET /events], with the fuel that reaches the deadline. *)
Definition example_events : HandlerFunc V W :=
  r ← get_events schedule (S deadline);
  mret (default None r).

Definition jwtSecret : K := key_of (envOr getenv "JWT_SECRET" "change-me-in-production").

Definition public_routes (app : App V W) : App V W :=
  let app := App.GET app "/ping" get_ping in
  App.GET app "/info" example_info.

Definition api_routes (st : store V W) (handlers : api V W) : store V W :=
  let st := Group_GET st 0 "/users" (api_list handlers) in
  let st := Group_GET st 0 "/users/:id" (api_show handlers) in
  let st := Group_POST st 0 "/users" (api_create handlers) in
  let st := Group_DELETE st 0 "/users/:id" (api_remove handlers) in
  Group_POST st 0 "/upload" (api_upload handlers).

Definition stream_routes (app : App V W) : App V W :=
  let app := App.GET app "/stream/:count" get_count in
  let app := App.GET app "/events" example_events in
  App.GET app "/files/*path" example_file.

Definition example_with (handlers : api V W) : App V W :=
  let app := App.SetLogger New example_logger in
  let app := App.Use app [Recovery debug_Stack [example_logger]; Logger [example_logger];
                          RateLimitSimple (L := L) 500] in
  let st := exec (empty_store (public_routes app)) (CGroup "/api/v1" [JWTSimple jwtSecret]) in
  stream_routes (s_app (api_routes st handlers)).

Definition example_api : api V W :=
  mkApi example_users example_user example_create NoContent example_upload.

Definition example_app : App V W := example_with example_api.
End Example_.

(** ** Start-up

    The exit code of [main] and what its goroutine logs, with the result of
    [ListenAddr] (Lifecycle.v) as an argument.  [Shutdown] then waits for the
    streams in flight, which changes neither. *)
Section Startup.
Context `{Crypto}.

Definition example_main (getenv : string -> string) (r : Rand) (now1 now2 : Z)
    (listen : string -> string -> Config -> option error) : Z * list LogRecord :=
  match SelfSigned r now1 now2 ["localhost"; "127.0.0.1"] with
  | Err err => (1%Z, [mkLog LevelError "tls setup failed" [("err", AError (Some err))]])
  | Ok tlsCfg =>
      let nativeAddr := envOr getenv "NATIVE_ADDR" ":4433" in
      let wtAddr := envOr getenv "WT_ADDR" ":4434" in
      let starting := mkLog LevelInfo "QuicFrame example server starting"
        [("native_addr", AString nativeAddr); ("webtransport_addr", AString wtAddr)] in
      match listen nativeAddr wtAddr tlsCfg with
      | Some err =>
          (1%Z, [starting; mkLog LevelError "server exited with error" [("err", AError (Some err))]])
      | None => (0%Z, [starting; mkLog LevelInfo "server stopped cleanly" []])
      end
  end.
End Startup.
