(* ===== verification/ExampleProps.v ===== *)
(** * The example command: theorems

    A client without a token cannot tell what the handlers of the protected
    group are: the composed application answers it the same for any of them,
    and leaves the same environment.  The proof is a relation between two
    handlers, [agrees], that the router and the middlewares keep. *)

From S2P Require Import Prelude GoStd NetURL Wire RefCodec Validation Reqctx Reply Router RouterProps App AppProps Group GroupProps Middleware MiddlewareProps RateLimit RateLimitProps Lifecycle LifecycleProps Files Certs World Running RunningProps Servers ServersProps Scan Demos DemosProps Example.
From Stdlib Require Import QArith.

Local Open Scope string_scope.
Local Open Scope list_scope.
Local Open Scope nat_scope.

(** ** Handlers that agree on a request *)

Section Agreement.
Context {V W : Type}.
Variable req : Request.

Definition agrees {A} (m1 m2 : M V W A) : Prop :=
  forall st, ctx_Request (st_ctx st) = req -> m1 st = m2 st.

#[export] Instance agrees_equivalence {A} : Equivalence (agrees (A := A)).
Proof.
  split.
  - by intros m st _.
  - intros m1 m2 Hm st Hst. by rewrite Hm.
  - intros m1 m2 m3 H12 H23 st Hst. by rewrite H12, H23.
Qed.

(** A computation that leaves the request as it is. *)
Class Keeps {A} (m : M V W A) : Prop :=
  keeps st : ctx_Request (st_ctx (m st).2) = ctx_Request (st_ctx st).

#[export] Instance keeps_ret {A} (a : A) : Keeps (mret a : M V W A).
Proof. by intros st. Qed.
#[export] Instance keeps_bind {A B} (m : M V W A) (k : A -> M V W B) :
  Keeps m -> (forall a, Keeps (k a)) -> Keeps (m ≫= k).
Proof.
  intros Hm Hk st. rewrite bind_run. specialize (Hm st).
  destruct (m st) as [[a|p] st']; [|done]. by rewrite (Hk a st').
Qed.
#[export] Instance keeps_now : Keeps (time_Now : M V W Z).
Proof. by intros st. Qed.
#[export] Instance keeps_get_world : Keeps (get_world : M V W W).
Proof. by intros st. Qed.
#[export] Instance keeps_put_world w : Keeps (put_world w : M V W unit).
Proof. by intros st. Qed.
#[export] Instance keeps_get_ctx : Keeps (get_ctx : M V W (Ctx V)).
Proof. by intros st. Qed.

Lemma agrees_bind {A B} (m : M V W A) (k1 k2 : A -> M V W B) :
  Keeps m -> (forall a, agrees (k1 a) (k2 a)) -> agrees (m ≫= k1) (m ≫= k2).
Proof.
  intros Hm Hk st Hst. rewrite !bind_run. specialize (Hm st).
  destruct (m st) as [[a|p] st']; [|done]. apply Hk. by rewrite <- Hst.
Qed.

Lemma agrees_then {A B} (m1 m2 : M V W A) (k : A -> M V W B) :
  agrees m1 m2 -> agrees (m1 ≫= k) (m2 ≫= k).
Proof. intros Hm st Hst. by rewrite !bind_run, (Hm st Hst). Qed.

(** A middleware that does not look into the handler it wraps. *)
Class AgreeMW (mw : MiddlewareFunc V W) : Prop :=
  agree_mw h1 h2 : agrees h1 h2 -> agrees (mw h1) (mw h2).

Lemma agrees_applyMiddleware mws (h1 h2 : HandlerFunc V W) :
  Forall AgreeMW mws -> agrees h1 h2 -> agrees (applyMiddleware h1 mws) (applyMiddleware h2 mws).
Proof.
  intros Hm Hh. rewrite !applyMiddleware_foldr. induction Hm as [|mw mws Hmw _ IH]; cbn; [done|].
  by apply Hmw.
Qed.
End Agreement.

(** ** The middlewares of the application *)

Section Middlewares.
Context {V W L C K : Type} `{Unicode} `{Msgpack V} `{Validator V} `{RateLib L} `{HasLimiters L W}.
Context `{JWTLib C K} `{Boxed (Token C) V}.
Variable req : Request.

#[export] Instance agree_Recovery stack lg : AgreeMW req (Recovery stack lg : MiddlewareFunc V W).
Proof. intros h1 h2 Hh st Hst. unfold Recovery. by rewrite (Hh st Hst). Qed.

#[export] Instance agree_Logger lg : AgreeMW req (Logger lg : MiddlewareFunc V W).
Proof.
  intros h1 h2 Hh. unfold Logger. apply agrees_bind; [apply _|intros start]. by apply agrees_then.
Qed.

#[export] Instance keeps_default_key : Keeps (default_key : M V W string).
Proof.
  unfold default_key. apply keeps_bind; [apply _|intros c].
  destruct (RemoteAddr c) as [a|]; [|apply _]. destruct (SplitHostPort a) as [[]|]; apply _.
Qed.

#[export] Instance keeps_getLimiter cfg key : Keeps (getLimiter (L := L) cfg key : M V W nat).
Proof.
  unfold getLimiter. do 2 (apply keeps_bind; [apply _|intros]).
  destruct (get_limiter _ _ _ _ _). apply _.
Qed.

#[export] Instance keeps_limiter_Allow p : Keeps (limiter_Allow (L := L) p : M V W bool).
Proof.
  unfold limiter_Allow. do 2 (apply keeps_bind; [apply _|intros]). destruct (allow _ _ _). apply _.
Qed.

#[export] Instance agree_RateLimitSimple rps :
  AgreeMW req (RateLimitSimple (L := L) rps : MiddlewareFunc V W).
Proof.
  intros h1 h2 Hh. unfold RateLimitSimple, RateLimit. cbn [KeyFunc RateLimitConfig_setDefaults].
  do 3 (apply agrees_bind; [cbn; apply _|intros]). by destruct (negb _).
Qed.

(** A request with a token the library accepts under the secret. *)
Definition bears_token (secret : K) (r : Request) : Prop :=
  exists tokenStr token,
    default "" (default ∅ (req_Headers r) !! "authorization") = "Bearer " +:+ tokenStr /\
    tok_Valid token = true /\ tok_Alg token = "HS256" /\ verifies (C := C) tokenStr token secret.

(** Without one, the guard makes any two handlers agree. *)
Lemma JWTSimple_agrees (secret : K) (h1 h2 : HandlerFunc V W) :
  ~ bears_token secret req -> agrees req (JWTSimple secret h1) (JWTSimple secret h2).
Proof.
  intros Hno st Hst. unfold JWTSimple.
  destruct (JWT_cases (mkJWTConfig secret (Some SigningMethodHS256) "" "" None) st)
    as [(message & Hr)|(s & token & Hh & Hv & Ha & Hver & _)]; [by rewrite !Hr|].
  destruct Hno. exists s, token. split_and!; [|done..]. rewrite <- Hh. unfold GetHeader.
  rewrite Hst. cbn. by destruct (req_Headers req).
Qed.
End Middlewares.

(** ** Applications that differ in their handlers only *)

Section Apps.
Context {V W : Type} `{Unicode} `{URLAuthority} `{Msgpack V} `{Validator V}.
Implicit Types (a : App V W) (rt : route V W).

Definition same_route (req : Request) (rt1 rt2 : route V W) : Prop :=
  rt_method rt1 = rt_method rt2 /\ rt_segments rt1 = rt_segments rt2 /\
  agrees req (rt_handler rt1) (rt_handler rt2).

(** Equal but for the handlers of the routes, which agree on [req]. *)
Record same_app (req : Request) (a1 a2 : App V W) : Prop := mkSameApp {
  same_routes : Forall2 (same_route req) (routes (router a1)) (routes (router a2));
  same_NotFound : NotFound (router a1) = NotFound (router a2);
  same_MethodNotAllowed : MethodNotAllowed (router a1) = MethodNotAllowed (router a2);
  same_middleware : middleware a1 = middleware a2;
  same_after : afterMiddleware a1 = afterMiddleware a2;
  same_logger : app_logger a1 = app_logger a2;
}.

#[export] Instance same_app_refl req : Reflexive (same_app req).
Proof.
  intros a. split; [|done..]. induction (routes (router a)) as [|rt rts IH]; [constructor|].
  constructor; [|done]. split_and!; [done..|]. by intros st _.
Qed.

Lemma same_addRoute req a1 a2 method pattern mw (h1 h2 : HandlerFunc V W) :
  same_app req a1 a2 -> agrees req (applyMiddleware h1 mw) (applyMiddleware h2 mw) ->
  same_app req (addRoute a1 method pattern mw h1) (addRoute a2 method pattern mw h2).
Proof.
  intros [] Hh. split; try done. cbn. apply Forall2_app; [done|]. by repeat constructor.
Qed.

Lemma same_match req (r1 r2 : Router V W) rts1 rts2 method segs b :
  Forall2 (same_route req) rts1 rts2 ->
  NotFound r1 = NotFound r2 -> MethodNotAllowed r1 = MethodNotAllowed r2 ->
  agrees req (match_routes r1 rts1 method segs b).1 (match_routes r2 rts2 method segs b).1 /\
  (match_routes r1 rts1 method segs b).2 = (match_routes r2 rts2 method segs b).2.
Proof.
  intros Hrts Hn Hm. revert b.
  induction Hrts as [|rt1 rt2 rts1 rts2 (Hme & Hse & Hh) _ IH]; intros b; cbn.
  - rewrite Hn, Hm. by destruct b.
  - rewrite <- Hme, <- Hse. destruct (matchSegments _ _); [|apply IH].
    by destruct (String.eqb _ _).
Qed.

Lemma same_serve req a1 a2 :
  same_app req a1 a2 -> Forall (AgreeMW req) (middleware a1) ->
  (resolve a1 req).2 = (resolve a2 req).2 /\ agrees req (serve a1 req) (serve a2 req).
Proof.
  intros [Hr Hn Hm Hmw Ha Hl] Hag.
  destruct (same_match req (router a1) (router a2) _ _ (req_Method req)
    (splitPath (Path (request_url req))) false Hr Hn Hm) as [Hh Hp].
  split; [done|]. unfold serve. rewrite <- Ha, <- Hmw, <- Hl. apply agrees_then.
  by apply agrees_applyMiddleware.
Qed.

(** Their dispatchers then agree on a stream with that request. *)
Lemma same_dispatch a1 a2 gc peer s e :
  app_logger a1 = app_logger a2 ->
  (forall data s' req,
     ReadFrame s = (Ok (FrameTypeRequest, data), s') -> DecodeRequest (V := V) data = Ok req ->
     same_app req a1 a2 /\ Forall (AgreeMW req) (middleware a1)) ->
  dispatchStream a1 gc peer s e = dispatchStream a2 gc peer s e.
Proof.
  intros Hl Hs. unfold dispatchStream, app_log. rewrite Hl. destruct (ReadFrame s) as [[[ft data]|err] s'] eqn:Hr; [|done].
  case_decide; [done|]. destruct (negb (bool_decide (ft = FrameTypeRequest))) eqn:Hft; [done|].
  apply negb_false_iff, bool_decide_eq_true in Hft as ->.
  destruct (DecodeRequest data) as [req|err] eqn:Hd; [|done].
  destruct (Hs data s' req eq_refl Hd) as [Ha Hm].
  destruct (same_serve req a1 a2 Ha Hm) as [Hp Hag].
  unfold request_ctx. rewrite <- Hp. by rewrite Hag.
Qed.
End Apps.

(** ** The application *)

Section Example_.
Context {V W C K L : Type} `{Unicode} `{URLAuthority} `{ScanSpace} `{Schedule} `{Growslice}.
Context `{Msgpack V} `{Validator V} `{JWTLib C K} `{RateLib L} `{HasLimiters L W}.
Context `{Boxed string V} `{Boxed Z V} `{Boxed user V} `{Boxed (option (gmap string V)) V}.
Context `{Boxed (list (gmap string V)) V} `{Boxed (Token C) V}.
Variables (debug_Stack : panic_value -> string) (getenv : string -> string) (key_of : string -> K).

Abbreviation secret := (jwtSecret getenv key_of).
Abbreviation guarded_app := (example_with (C := C) (L := L) debug_Stack getenv key_of).

(** What [main] registers on the group. *)
Definition api_table (hs : api V W) : list (string * string * HandlerFunc V W) :=
  [("GET", "/users", api_list hs); ("GET", "/users/:id", api_show hs);
   ("POST", "/users", api_create hs); ("DELETE", "/users/:id", api_remove hs);
   ("POST", "/upload", api_upload hs)].

Lemma example_with_routes hs :
  guarded_app hs =
  stream_routes
    (foldl (fun a '(method, path, h) =>
              addRoute a method ("/api/v1" +:+ path) [JWTSimple secret] h)
       (public_routes (App.Use (App.SetLogger New example_logger)
         [Recovery debug_Stack [example_logger]; Logger [example_logger]; RateLimitSimple (L := L) 500]))
       (api_table hs)).
Proof. reflexivity. Qed.

Lemma example_same req hs1 hs2 :
  ~ bears_token (C := C) secret req -> same_app req (guarded_app hs1) (guarded_app hs2).
Proof.
  intros Hno. rewrite !example_with_routes.
  assert (forall h1 h2 : HandlerFunc V W,
    agrees req (applyMiddleware h1 [JWTSimple secret]) (applyMiddleware h2 [JWTSimple secret])) as Hag
    by (intros h1 h2; by apply JWTSimple_agrees).
  unfold stream_routes. repeat (apply same_addRoute; [|reflexivity]). cbn [foldl api_table].
  repeat (apply same_addRoute; [|apply Hag]). reflexivity.
Qed.

Lemma example_agree_middleware req hs : Forall (AgreeMW req) (middleware (guarded_app hs)).
Proof.
  rewrite example_with_routes. cbn. forall_instances.
Qed.

(** No request on the stream has a token that verifies under the secret. *)
Definition no_token (s : stream) : Prop :=
  forall data s' req,
    ReadFrame s = (Ok (FrameTypeRequest, data), s') -> DecodeRequest (V := V) data = Ok req ->
    ~ bears_token (C := C) secret req.

(** C7.  The token guards the whole API: to clients none of which has a token
    that is valid, of method HS256 and verified under the secret, the
    application is the same whatever the handlers of /api/v1 are.  The replies
    on all their streams, the log and the shared state, rate limiters
    included, and whether the process survives do not depend on them. *)
Theorem example_guarded hs1 hs2 gc ss (e : Env W) :
  Forall (fun ps => no_token ps.2) ss ->
  serve_streams (guarded_app hs1) gc ss e = serve_streams (guarded_app hs2) gc ss e.
Proof.
  intros Hss. revert e. induction Hss as [|[peer s] ss Hs _ IH]; intros e; [done|]. cbn.
  rewrite (same_dispatch (guarded_app hs1) (guarded_app hs2)).
  - by destruct (dispatchStream _ _ _ _ _) as [[[[]|p] s'] e']; [rewrite IH|].
  - done.
  - intros data s' req Hr Hd. split; [|apply example_agree_middleware].
    by apply example_same, (Hs data s').
Qed.

(** The application keeps the reply protocol, and survives anything. *)
#[export] Instance safe_example_events : Safe (example_events (V := V) (W := W)).
Proof. unfold example_events, get_events. apply _. Qed.

#[export] Instance safe_example_create : Safe (example_create (V := V) (W := W)).
Proof.
  unfold example_create. apply safe_bind; [apply _|intros c].
  destruct (Bind c (box (None : option (gmap string V)))) as [v [err|]]; [apply _|].
  apply safe_bind; [apply _|intros now]. apply safe_bind; [|intros; apply _].
  destruct (default None (unbox v)); cbn; apply _.
Qed.

Lemma example_safe : SafeApp (example_app (C := C) (L := L) debug_Stack getenv key_of : App V W).
Proof.
  unfold example_app. rewrite example_with_routes. unfold stream_routes, public_routes.
  cbn [foldl api_table example_api api_list api_show api_create api_remove api_upload].
  repeat (apply SafeApp_addRoute; [|forall_instances|
    unfold example_file, example_upload, example_user, example_users, example_info, get_ping;
    cbv zeta; apply _]).
  apply SafeApp_Use; [apply SafeApp_SetLogger, SafeApp_New|]. forall_instances.
Qed.

(** The example command as it runs, whatever its background goroutines do: no
    request takes it down, the handler that assigns to a nil map included,
    every served request has a prefix of a well-shaped reply, and the wait
    group counts what is in flight. *)
Theorem example_runs background addrs (e : Env W) x :
  rtc (rstep background (example_app (C := C) (L := L) debug_Stack getenv key_of) addrs)
    (launch addrs e) x ->
  r_crashed x = None /\ Forall (answered (V := V)) (r_served x) /\
  wg (r_globals x) = counted (map goroutine_of (r_tasks x)).
Proof.
  intros Hr. split_and!.
  - by apply (run_survives background addrs (example_app (L := L) debug_Stack getenv key_of) (launch addrs e) x
      debug_Stack [example_logger] [Logger [example_logger]; RateLimitSimple (L := L) 500]
      (mk_is_Some _ _ eq_refl) eq_refl (Forall_nil_2 _)).
  - by eapply (run_answered background addrs); [apply example_safe|done|].
  - exact (reachable_counts _ _ (run_lifecycle background addrs _ _ _ Hr)).
Qed.
End Example_.

(** ** Witnesses *)

(** The values the handlers box; a map is marshalled to its keys. *)
Inductive reply_value :=
  | RVInt (z : Z)
  | RVString (s : string)
  | RVUser (u : user)
  | RVMap (m : option (gmap string reply_value))
  | RVMaps (l : list (gmap string reply_value))
  | RVToken (t : Token string).

Definition rv_int v : option Z := match v with RVInt z => Some z | _ => None end.
Definition rv_string v : option string := match v with RVString s => Some s | _ => None end.
Definition rv_user v : option user := match v with RVUser u => Some u | _ => None end.
Definition rv_map v : option (option (gmap string reply_value)) :=
  match v with RVMap m => Some m | _ => None end.
Definition rv_maps v : option (list (gmap string reply_value)) :=
  match v with RVMaps l => Some l | _ => None end.
Definition rv_token v : option (Token string) := match v with RVToken t => Some t | _ => None end.

Ltac unboxes := intros v x; destruct v; intros E; first [discriminate E | injection E as <-; reflexivity].
Lemma rv_int_inv : forall v x, rv_int v = Some x -> v = RVInt x.
Proof. unboxes. Qed.
Lemma rv_string_inv : forall v x, rv_string v = Some x -> v = RVString x.
Proof. unboxes. Qed.
Lemma rv_user_inv : forall v x, rv_user v = Some x -> v = RVUser x.
Proof. unboxes. Qed.
Lemma rv_map_inv : forall v x, rv_map v = Some x -> v = RVMap x.
Proof. unboxes. Qed.
Lemma rv_maps_inv : forall v x, rv_maps v = Some x -> v = RVMaps x.
Proof. unboxes. Qed.
Lemma rv_token_inv : forall v x, rv_token v = Some x -> v = RVToken x.
Proof. unboxes. Qed.

#[export] Instance rv_boxed_int : Boxed Z reply_value :=
  {| box := RVInt; unbox := rv_int; unbox_box s := eq_refl; box_unbox := rv_int_inv |}.
#[export] Instance rv_boxed_string : Boxed string reply_value :=
  {| box := RVString; unbox := rv_string; unbox_box s := eq_refl; box_unbox := rv_string_inv |}.
#[export] Instance rv_boxed_user : Boxed user reply_value :=
  {| box := RVUser; unbox := rv_user; unbox_box s := eq_refl; box_unbox := rv_user_inv |}.
#[export] Instance rv_boxed_map : Boxed (option (gmap string reply_value)) reply_value :=
  {| box := RVMap; unbox := rv_map; unbox_box s := eq_refl; box_unbox := rv_map_inv |}.
#[export] Instance rv_boxed_maps : Boxed (list (gmap string reply_value)) reply_value :=
  {| box := RVMaps; unbox := rv_maps; unbox_box s := eq_refl; box_unbox := rv_maps_inv |}.
#[export] Instance rv_boxed_token : Boxed (Token string) reply_value :=
  {| box := RVToken; unbox := rv_token; unbox_box s := eq_refl; box_unbox := rv_token_inv |}.

Definition rv_bytes (v : reply_value) : bytes :=
  match v with
  | RVString s => tagged Byte.x21 s
  | RVUser u => tagged Byte.x22 u
  | RVMap m => tagged Byte.x23 (map fst (map_to_list (default ∅ m)))
  | _ => [Byte.x24]
  end.

#[export] Instance rv_codec : Msgpack reply_value := {|
  Marshal p :=
    match p with
    | PRequest r => ref_marshal (PRequest r)
    | PResponse r => ref_marshal (PResponse r)
    | PChunk c => ref_marshal (PChunk c)
    | PError e => ref_marshal (PError e)
    | PPing p => ref_marshal (PPing p)
    | PValue None => ref_marshal (PValue None)
    | PValue (Some v) => Ok (rv_bytes v)
    end;
  UnmarshalRequest := UnmarshalRequest (Msgpack := ref_codec);
  UnmarshalResponse := UnmarshalResponse (Msgpack := ref_codec);
  UnmarshalStreamChunk := UnmarshalStreamChunk (Msgpack := ref_codec);
  UnmarshalErrorFrame := UnmarshalErrorFrame (Msgpack := ref_codec);
  UnmarshalInto b v := (v, Some (errorString "msgpack: Decode(unsupported type)"));
|}.
#[export] Instance rv_validator : Validator reply_value := {| Struct v := None |}.

Section Witnesses.
#[local] Existing Instance ascii_tables.
#[local] Existing Instance known_jwt.
#[local] Instance narrow : ScanSpace := {| scanSpaceWide s := s |}.
#[local] Instance no_authority : URLAuthority := {| authority_ok := fun _ => false |}.
#[local] Instance doubling : Growslice :=
  {| growslice cap n := Nat.max n (2 * cap); growslice_ge cap n := Nat.le_max_l n (2 * cap) |}.
#[local] Instance counting : RateLib Z := {|
  NewLimiter _ burst := burst;
  Allow _ n := if (0 <? n)%Z then (true, (n - 1)%Z) else (false, n);
|}.
#[local] Instance world_limiters : HasLimiters Z (limiters Z) := {|
  get_limiters w := w; set_limiters l w := l;
  get_set_limiters l w := eq_refl; set_set_limiters l l' w := eq_refl |}.
#[local] Instance three_then_end : Schedule :=
  {| schedule := three_ticks; deadline := 3; deadline_fires := eq_refl |}.

Definition stack_text : panic_value -> string := fun _ => "stack".
Definition environment (key : string) : string := if String.eqb key "JWT_SECRET" then "secret" else "".
Definition key_string : string -> string := fun s => s.

Abbreviation app_with := (example_with (C := string) (L := Z) stack_text environment key_string).

(** The real handlers, and ones that panic. *)
Definition real_api : api reply_value (limiters Z) := example_api.
Definition broken : HandlerFunc reply_value (limiters Z) := panic (PanicString "boom").
Definition broken_api : api reply_value (limiters Z) := mkApi broken broken broken broken broken.

Definition api_stream (token : string) : stream :=
  reading [frame_bytes FrameTypeRequest (encoding
    (PRequest (mkRequest "r1" "GET" "/api/v1/users" (Some {["authorization" := token]}) None false)))].
Definition from (s : stream) : remoteAddrProvider * stream := (otherPeer (Some "[::1]:4433") [], s).

Definition start_env : Env (limiters Z) := mkEnv [] (fun n => Z.of_nat n) 0 no_limiters.

(** With a good token the two can be told apart. *)
Example token_tells_apart :
  let outs hs := option_map fst
    (serve_streams (app_with hs) Background [from (api_stream "Bearer good")] start_env) in
  map (map out) (option_list (outs real_api)) =
    [[frame_bytes FrameTypeResponse (encoding (PResponse (mkResponse "r1" 200
      (Some {["content-type" := "application/x-msgpack"]})
      (Some (tagged Byte.x23 ["users"; "total"])) false)))]] /\
  outs real_api <> outs broken_api.
Proof. split; vm_compute; [reflexivity|discriminate]. Qed.

Lemma example_guarded_witness :
  serve_streams (app_with real_api) Background [from (api_stream "Bearer forged")] start_env =
  serve_streams (app_with broken_api) Background [from (api_stream "Bearer forged")] start_env.
Proof.
  apply (example_guarded (V := reply_value) (W := limiters Z) (C := string) (K := string) (L := Z)
    stack_text environment key_string real_api broken_api).
  constructor; [|constructor]. intros data s' req Hr Hd (t & token & Hh & _ & _ & [-> _]).
  assert (req_Headers req = Some {["authorization" := "Bearer forged"]}) as E.
  { assert (data = encoding (PRequest (mkRequest "r1" "GET" "/api/v1/users"
      (Some {["authorization" := "Bearer forged"]}) None false))) as ->.
    { apply (f_equal (fun r => option_map snd (result_value r.1))) in Hr.
      vm_compute in Hr. injection Hr as <-. vm_compute. reflexivity. }
    assert (option_map req_Headers (result_value (DecodeRequest (V := reply_value)
      (encoding (PRequest (mkRequest "r1" "GET" "/api/v1/users"
        (Some {["authorization" := "Bearer forged"]}) None false))))) =
      Some (Some {["authorization" := "Bearer forged"]})) as Hq by (vm_compute; reflexivity).
    rewrite Hd in Hq. injection Hq as ->. reflexivity. }
  rewrite E in Hh. vm_compute in Hh. discriminate Hh.
Defined.
End Witnesses.
