(* ===== verification/Hub.v ===== *)
(** * What happens to a chat hub (examples/streaming-demo/main.go)

    Whatever goroutines use the hub, they do so through its operations:
    subscriptions, the locked part of [publish] and its sends, the closures
    that unsubscribe, and receives.  Here they are the moves of a hub in any
    order ([hub_move]); registered channels stay open and belong to one
    subscriber, and no move registers a channel that exists already. *)

From stdpp Require Import relations.
From S2P Require Import Prelude GoStd NetURL Wire Validation Reqctx Chat ChatProps.

Local Open Scope list_scope.

Section Hub.
Context `{Unicode}.
Implicit Types (h : chatHub).

Inductive hub_move : chatHub -> chatHub -> Prop :=
  | hm_subscribe h now name : hub_move h (subscribe h now name).2
  | hm_publish h name event : hub_move h (publish_locked h name event).2
  | hm_send h e ch h' : publish_send h e ch = Some h' -> hub_move h h'
  | hm_unsubscribe h name id h' : unsubscribe h name id = Some h' -> hub_move h h'
  | hm_receive h ch : hub_move h (receive h ch).2.

(** A registered channel is open, and registered once. *)
Definition hub_wf h : Prop :=
  forall n i c, registered h n i c ->
    (exists cn, channels h !! c = Some cn /\ ch_closed cn = false) /\
    forall n' i', registered h n' i' c -> n' = n /\ i' = i.

(** From a well-formed hub to a well-formed hub, with the same channels or
    more, and no channel of the first newly registered. *)
Definition hub_keeps h h' : Prop :=
  hub_wf h -> hub_wf h' /\ (length (channels h) <= length (channels h'))%nat /\
    forall n i c, (c < length (channels h))%nat -> registered h' n i c -> registered h n i c.

#[export] Instance hub_keeps_preorder : PreOrder hub_keeps.
Proof.
  split; [by intros h Hw|]. intros h1 h2 h3 H12 H23 Hw.
  destruct (H12 Hw) as (Hw2 & Hl2 & Hr2), (H23 Hw2) as (Hw3 & Hl3 & Hr3).
  split_and!; [done|lia|]. intros n i c Hc Hreg. apply Hr2, Hr3; [done|lia|done].
Qed.

Lemma hub_wf_length h n i c : hub_wf h -> registered h n i c -> (c < length (channels h))%nat.
Proof. intros Hw Hr. destruct (Hw _ _ _ Hr) as [(cn & Hcn & _) _]. by eapply lookup_lt_Some. Qed.

(** The registrations stay or become fewer, and open channels stay open. *)
Lemma hub_keeps_fewer h h' :
  (forall n i c, registered h' n i c -> registered h n i c) ->
  length (channels h') = length (channels h) ->
  (hub_wf h -> forall n i c cn, registered h' n i c -> channels h !! c = Some cn -> ch_closed cn = false ->
     exists cn', channels h' !! c = Some cn' /\ ch_closed cn' = false) ->
  hub_keeps h h'.
Proof.
  intros Hreg Hlen Hopen Hw. split_and!; [|lia|by auto]. intros n i c Hr.
  destruct (Hw n i c (Hreg _ _ _ Hr)) as [(cn & Hcn & Hcl) Hu].
  split; [by eapply Hopen|]. intros n' i' Hr'. by apply Hu, Hreg.
Qed.

(** A channel is replaced by one that is as open. *)
Lemma hub_keeps_channel h h' c0 c1 c2 :
  rooms h' = rooms h -> channels h !! c0 = Some c1 -> ch_closed c2 = ch_closed c1 ->
  channels h' = <[c0 := c2]> (channels h) -> hub_keeps h h'.
Proof.
  intros Hr Hc Hcl Hch. apply hub_keeps_fewer.
  - intros n i c. by apply registered_rooms.
  - by rewrite Hch, length_insert.
  - intros _ n i c cn _ Hcn Hopen. rewrite Hch. destruct (decide (c = c0)) as [->|Hne].
    + exists c2. rewrite list_lookup_insert_eq by (by eapply lookup_lt_Some). split; [done|congruence].
    + exists cn. by rewrite list_lookup_insert_ne.
Qed.

Lemma subscribe_keeps h now name : hub_keeps h (subscribe h now name).2.
Proof.
  destruct (subscribe h now name) as [[[id hist] ch] h'] eqn:E. cbn.
  destruct (subscribe_spec _ _ _ _ _ _ _ E) as (_ & -> & _ & Hc & _ & Hreg). intros Hw.
  split_and!.
  - intros n i c [(-> & -> & ->)|[Hr Hne]]%Hreg.
    + rewrite Hc. split; [exists open_chan; by rewrite list_lookup_middle|].
      intros n' i' [(-> & -> & _)|[Hr' _]]%Hreg; [done|].
      pose proof (hub_wf_length _ _ _ _ Hw Hr'). lia.
    + destruct (Hw _ _ _ Hr) as [(cn & Hcn & Hcl) Hu]. split.
      * exists cn. rewrite Hc. split; [by apply lookup_app_l_Some|done].
      * intros n' i' [(_ & _ & ->)|[Hr' _]]%Hreg; [|by apply Hu].
        apply lookup_lt_Some in Hcn. lia.
  - rewrite Hc, length_app. lia.
  - intros n i c Hlt [(_ & _ & ->)|[Hr _]]%Hreg; [lia|done].
Qed.

Lemma publish_locked_keeps h name event : hub_keeps h (publish_locked h name event).2.
Proof.
  destruct (publish_locked h name event) as [[e subs] h'] eqn:E. cbn.
  destruct (publish_locked_spec _ _ _ _ _ _ E) as (_ & Hc & _ & Hreg & _).
  apply hub_keeps_fewer; [intros n i c; apply Hreg|by rewrite Hc|].
  intros _ n i c cn _ Hcn Hcl. rewrite Hc. by exists cn.
Qed.

Lemma publish_send_keeps h e ch h' : publish_send h e ch = Some h' -> hub_keeps h h'.
Proof.
  intros E. destruct (publish_send_spec _ _ _ _ E) as [Hr [[_ Hc]|(c & c' & Hc & Hs & Hch)]].
  - apply hub_keeps_fewer; [intros n i c; by apply registered_rooms|by rewrite Hc|].
    intros _ n i c cn _ Hcn Hcl. rewrite Hc. by exists cn.
  - apply (hub_keeps_channel h h' ch c c'); [done|done| |done].
    destruct (chan_send_open _ _ _ Hs). congruence.
Qed.

Lemma unsubscribe_keeps h name id h' : unsubscribe h name id = Some h' -> hub_keeps h h'.
Proof.
  intros E. destruct (unsubscribe_spec _ _ _ _ E) as (_ & Hreg & Hc). apply hub_keeps_fewer.
  - intros n i c Hr. by apply Hreg in Hr as [? _].
  - destruct Hc as [->|(ch & c & _ & _ & ->)]; [done|by rewrite length_insert].
  - intros Hw n i c cn [Hr Hne]%Hreg Hcn Hcl. destruct Hc as [->|(ch & c1 & Hr1 & _ & ->)]; [by exists cn|].
    exists cn. split; [|done]. rewrite list_lookup_insert_ne; [done|]. intros ->.
    destruct (Hw _ _ _ Hr1) as [_ Hu]. by apply Hne, Hu.
Qed.

Lemma receive_keeps h ch : hub_keeps h (receive h ch).2.
Proof.
  unfold receive. destruct (channels h !! ch) as [[b cl]|] eqn:Hc; [|reflexivity].
  destruct b as [|e b]; [reflexivity|].
  by apply (hub_keeps_channel h _ ch (mkChannel (e :: b) cl) (mkChannel b cl)).
Qed.

Lemma hub_move_keeps h h' : hub_move h h' -> hub_keeps h h'.
Proof.
  destruct 1 as [h now name|h name event|h e ch h' E|h name id h' E|h ch].
  - apply subscribe_keeps.
  - apply publish_locked_keeps.
  - by apply (publish_send_keeps _ _ _ _ E).
  - by apply (unsubscribe_keeps _ _ _ _ E).
  - apply receive_keeps.
Qed.

Lemma hub_moves_keep h h' : rtc hub_move h h' -> hub_keeps h h'.
Proof.
  induction 1 as [|h1 h2 h3 Hm _ IH]; [reflexivity|]. etrans; [by apply hub_move_keeps|done].
Qed.

Lemma hub_wf_new : hub_wf newChatHub.
Proof. intros n i c (r & Hr & _). cbn in Hr. by rewrite lookup_empty in Hr. Qed.

Lemma hub_wf_moves h : rtc hub_move newChatHub h -> hub_wf h.
Proof. intros Hm. exact (proj1 (hub_moves_keep _ _ Hm hub_wf_new)). Qed.

(** No closed channel is registered, so [unsubscribe] does not close one. *)
Lemma unsubscribe_wf h name id : hub_wf h -> exists h', unsubscribe h name id = Some h'.
Proof.
  intros Hw. destruct (unsubscribe h name id) as [h'|] eqn:E; [by exists h'|exfalso]. revert E.
  unfold unsubscribe. destruct (rooms h !! normalizeRoomName name) as [r|] eqn:Hr; [|done].
  destruct (subscribers r !! id) as [ch|] eqn:Hi; [|done]. cbn [set_room channels rooms].
  destruct (Hw (normalizeRoomName name) id ch) as [(cn & Hcn & Hcl) _]; [by exists r|].
  rewrite Hcn. unfold chan_close. by rewrite Hcl.
Qed.

(** A channel of the hub that nobody is registered with. *)
Definition unregistered h (ch : nat) : Prop :=
  (ch < length (channels h))%nat /\ forall n i, ~ registered h n i ch.

Lemma unregistered_kept h h' ch : hub_wf h -> hub_keeps h h' -> unregistered h ch -> unregistered h' ch.
Proof.
  intros Hw Hk [Hl Hn]. destruct (Hk Hw) as (_ & Hlen & Hreg). split; [lia|].
  intros n i Hr. by eapply Hn, Hreg.
Qed.

(** A channel registered by one subscriber of one room at most. *)
Definition registered_by h (name id : string) (ch : nat) : Prop :=
  (ch < length (channels h))%nat /\ forall n i, registered h n i ch -> n = name /\ i = id.

Lemma registered_by_kept h h' name id ch :
  hub_wf h -> hub_keeps h h' -> registered_by h name id ch -> registered_by h' name id ch.
Proof.
  intros Hw Hk [Hl Hn]. destruct (Hk Hw) as (_ & Hlen & Hreg). split; [lia|].
  intros n i Hr. by apply Hn, Hreg.
Qed.

Lemma subscribe_registers h now name id hist ch h' :
  hub_wf h -> subscribe h now name = (id, hist, ch, h') ->
  registered_by h' (normalizeRoomName name) id ch.
Proof.
  intros Hw E. destruct (subscribe_spec _ _ _ _ _ _ _ E) as (_ & -> & _ & Hc & _ & Hreg).
  split; [rewrite Hc, length_app; cbn; lia|]. intros n i [(-> & -> & _)|[Hr _]]%Hreg; [done|].
  pose proof (hub_wf_length _ _ _ _ Hw Hr). lia.
Qed.

Lemma unsubscribe_unregisters h name id h' ch :
  unsubscribe h name id = Some h' -> registered_by h (normalizeRoomName name) id ch ->
  unregistered h' ch.
Proof.
  intros E [Hl Hn]. destruct (unsubscribe_spec _ _ _ _ E) as (_ & Hreg & Hc). split.
  - destruct Hc as [->|(c & cn & _ & _ & ->)]; [done|by rewrite length_insert].
  - intros n i [Hr Hne]%Hreg. by apply Hne, Hn.
Qed.
End Hub.
