(* ===== verification/Room.v ===== *)
(** * The room stream of the streaming demo (examples/streaming-demo/main.go)

    [GET /chat/rooms/:room/stream]: subscribe, send the history, announce the
    participant, then forward the events of the channel until it is closed or
    the client is gone, and at the end unsubscribe, announce the departure and
    close the stream.  The hub is the state the requests share.  Other
    goroutines act on it between any two statements of this one: [others p] is
    what they did to the hub at the point [p].  The loop takes fuel, with
    [None] for a stream that is still running. *)

From S2P Require Import Prelude GoStd Scan NetURL Wire Validation Reqctx Reply Streaming Demos Chat.
From Stdlib Require Import Ascii.

Local Open Scope string_scope.
Local Open Scope list_scope.

(** Where the handler is when others act: what it does next. *)
Inductive point :=
  | PNewStream
  | PRefused                (* [unsubscribe], when there is no stream *)
  | PHistory (k : nat)      (* the write of the k-th event of the history *)
  | PJoin                   (* the locked part of the first announcement *)
  | PJoinSend (k : nat)     (* its k-th send *)
  | PReceive (k : nat)      (* the k-th receive *)
  | PWrite (k : nat)        (* the write of what it gave *)
  | PUnsubscribe            (* the deferred calls *)
  | PLeave
  | PLeaveSend (k : nat)
  | PClose.

Section Room.
Context {V : Type} `{Unicode} `{Msgpack V} `{Validator V} `{Boxed chatEvent V}.
Variable order : gmap string nat -> list nat.
Variable others : point -> chatHub -> chatHub.

Definition meanwhile (p : point) : M V chatHub unit :=
  h ← get_world;
  put_world (others p h).

Definition writeChatEvent (sw : nat) (event : chatEvent) : M V chatHub (option error) :=
  match Marshal (PValue (Some (box event))) with
  | Err err => mret (Some err)
  | Ok payload => r ← SW_Write sw (Some payload); mret r.2
  end.

(** The closure [unsubscribe]; closing a closed channel panics. *)
Definition run_unsubscribe (roomName id : string) : M V chatHub unit :=
  h ← get_world;
  match unsubscribe h roomName id with
  | Some h => put_world h
  | None => panic (PanicString "close of closed channel")
  end.

(** The send loop of [publish]. *)
Fixpoint send_each (sends : nat -> point) (k : nat) (event : chatEvent) (subs : list nat)
    : M V chatHub unit :=
  match subs with
  | [] => mret tt
  | ch :: subs =>
      _ ← meanwhile (sends k);
      h ← get_world;
      match publish_send h event ch with
      | None => panic (PanicString "send on closed channel")
      | Some h => _ ← put_world h; send_each sends (S k) event subs
      end
  end.

(** [chat.publish(roomName, newSystemEvent(roomName, text))]. *)
Definition publish_system (lock : point) (sends : nat -> point) (roomName text : string)
    : M V chatHub unit :=
  now1 ← time_Now;
  now2 ← time_Now;
  _ ← meanwhile lock;
  h ← get_world;
  let '(e, subs, h) := publish_locked h roomName (newSystemEvent now1 now2 roomName text) in
  _ ← put_world h;
  send_each sends 0 e (order subs).

(** The deferred function. *)
Definition leave (roomName id : string) (sw : nat) : M V chatHub unit :=
  _ ← meanwhile PUnsubscribe;
  _ ← run_unsubscribe roomName id;
  _ ← publish_system PLeave PLeaveSend roomName "A participant left the room.";
  _ ← meanwhile PClose;
  _ ← SW_Close sw;
  mret tt.

(** The loop over the history: true when it was sent to its end. *)
Fixpoint send_history (sw k : nat) (events : list chatEvent) : M V chatHub bool :=
  match events with
  | [] => mret true
  | event :: events =>
      _ ← meanwhile (PHistory k);
      err ← writeChatEvent sw event;
      match err with
      | Some _ => mret false
      | None => send_history sw (S k) events
      end
  end.

(** The k-th receive, after what the others did. *)
Definition await (k ch : nat) : M V chatHub received :=
  _ ← meanwhile (PReceive k);
  h ← get_world;
  let '(r, h) := receive h ch in
  _ ← put_world h;
  mret r.

(** [range events]. *)
Fixpoint forward (roomName id : string) (sw ch fuel k : nat) : M V chatHub (option (option error)) :=
  match fuel with
  | O => mret None
  | S fuel =>
      r ← await k ch;
      match r with
      | RWaits => forward roomName id sw ch fuel (S k)
      | RClosed =>
          _ ← log_record (mkLog LevelDebug "chat subscriber stream ended"
                [("room", AString roomName); ("subscriber", AString id)]);
          mret (Some None)
      | REvent event =>
          _ ← meanwhile (PWrite k);
          err ← writeChatEvent sw event;
          match err with
          | Some _ => mret (Some None)
          | None => forward roomName id sw ch fuel (S k)
          end
      end
  end.

Definition room_body (roomName id : string) (history : list chatEvent) (sw ch fuel : nat)
    : M V chatHub (option (option error)) :=
  sent ← send_history sw 0 history;
  if negb sent then mret (Some None)
  else
    _ ← publish_system PJoin PJoinSend roomName "A participant joined the room.";
    forward roomName id sw ch fuel 0.

(** [chat.subscribe]. *)
Definition run_subscribe (roomName : string) : M V chatHub (string * list chatEvent * nat) :=
  now ← time_Now;
  h ← get_world;
  let '(id, history, ch, h) := subscribe h now roomName in
  _ ← put_world h;
  mret (id, history, ch).

Definition get_room_stream (fuel : nat) : M V chatHub (option (option error)) :=
  c ← get_ctx;
  let roomName := normalizeRoomName (Param c "room") in
  '(id, history, ch) ← run_subscribe roomName;
  _ ← meanwhile PNewStream;
  r ← NewStream 200 (Some {["x-stream" := "chat-room"]});
  match r with
  | Err err =>
      _ ← meanwhile PRefused;
      _ ← run_unsubscribe roomName id;
      mret (Some (Some err))
  | Ok sw => defer_fuel (leave roomName id sw) (room_body roomName id history sw ch fuel)
  end.
End Room.
