(* ===== verification/RoomProps.v ===== *)
(** * The room stream: theorems

    Whatever the other goroutines do to the hub between the statements of the
    handler ([hub_move], at any [point]), a handler that ends, by a return or
    by a panic, leaves its channel registered with nobody.  The hub and the
    reply are separate parts of the state ([stream_part]): as to the reply, the
    handler is the documented streaming handler on the snapshot and the events
    it receives, or has got so far in it. *)

From stdpp Require Import relations.
From S2P Require Import Prelude GoStd Scan NetURL Wire RefCodec Validation Reqctx Reply Streaming World Demos DemosProps Chat ChatProps Hub Room.
From Stdlib Require Import Ascii.

Local Open Scope string_scope.
Local Open Scope list_scope.

Section Room.
Context {V : Type} `{Unicode} `{Msgpack V} `{Validator V} `{Boxed chatEvent V}.
Variable order : gmap string nat -> list nat.
Variable others : point -> chatHub -> chatHub.
Implicit Types (st : St V chatHub) (h : chatHub).

Lemma meanwhile_run p st :
  meanwhile others p st = (Returns tt, set_env_world st (others p (shared_world st))).
Proof. unfold meanwhile. by rewrite bind_run, get_world_run. Qed.

(** ** The reply *)

#[export] Instance safe_meanwhile p : Safe (meanwhile (V := V) others p).
Proof. unfold meanwhile. apply _. Qed.

#[export] Instance safe_writeChatEvent sw event : Safe (writeChatEvent (V := V) sw event).
Proof. unfold writeChatEvent. apply _. Qed.

#[export] Instance safe_run_unsubscribe name id : Safe (run_unsubscribe (V := V) name id).
Proof. unfold run_unsubscribe. apply _. Qed.

#[export] Instance safe_send_each sends k e subs : Safe (send_each (V := V) others sends k e subs).
Proof. revert k. induction subs as [|ch subs IH]; intros k; cbn [send_each]; apply _. Qed.

#[export] Instance safe_publish_system lock sends name text :
  Safe (publish_system (V := V) order others lock sends name text).
Proof.
  unfold publish_system. do 4 (apply safe_bind; [apply _|intros ?]).
  destruct (publish_locked _ _ _) as [[e subs] h]. apply _.
Qed.

#[export] Instance safe_leave name id sw : Safe (leave (V := V) order others name id sw).
Proof. unfold leave. apply _. Qed.

#[export] Instance safe_send_history sw k events : Safe (send_history (V := V) others sw k events).
Proof. revert k. induction events; intros k; cbn [send_history]; apply _. Qed.

#[export] Instance safe_await k ch : Safe (await (V := V) others k ch).
Proof.
  unfold await. do 2 (apply safe_bind; [apply _|intros ?]).
  destruct (receive _ ch) as [r h']. apply _.
Qed.

#[export] Instance safe_forward name id sw ch fuel k :
  Safe (forward (V := V) others name id sw ch fuel k).
Proof.
  revert k. induction fuel as [|fuel IH]; intros k; cbn [forward]; [apply _|].
  apply safe_bind; [apply _|]. intros [event| |]; apply _.
Qed.

(** The handler behaves towards the dispatcher, whatever the others do. *)
#[export] Instance safe_room_stream fuel : Safe (get_room_stream (V := V) order others fuel).
Proof.
  unfold get_room_stream, run_subscribe, room_body.
  apply safe_bind; [apply _|intros c]. apply safe_bind; [|intros [[id hist] ch]; apply _].
  apply safe_bind; [apply _|intros now]. apply safe_bind; [apply _|intros h].
  destruct (subscribe h now _) as [[[id hist] ch] h']. apply _.
Qed.

(** ** Registrations *)

Section Moves.
(** The others use the hub through its operations. *)
Hypothesis others_move : forall p h, rtc hub_move h (others p h).

#[local] Instance meanwhile_keeps p : Moves hub_keeps (meanwhile (V := V) others p).
Proof. intros st. rewrite meanwhile_run. apply hub_moves_keep, others_move. Qed.

#[local] Instance send_each_keeps sends k e subs :
  Moves hub_keeps (send_each (V := V) others sends k e subs).
Proof.
  revert k. induction subs as [|ch subs IH]; intros k; cbn [send_each]; [apply _|].
  apply moves_bind; [apply _|apply _|intros _]. apply moves_get_world. intros st.
  destruct (publish_send (shared_world st) e ch) as [h|] eqn:E; [|reflexivity].
  apply moves_put_world; [apply _|by eapply publish_send_keeps|apply IH].
Qed.

#[local] Instance publish_system_keeps lock sends name text :
  Moves hub_keeps (publish_system (V := V) order others lock sends name text).
Proof.
  unfold publish_system. apply moves_bind; [apply _|apply _|intros now1].
  apply moves_bind; [apply _|apply _|intros now2]. apply moves_bind; [apply _|apply _|intros _].
  apply moves_get_world. intros st. pose proof (publish_locked_keeps (shared_world st) name
    (newSystemEvent now1 now2 name text)) as Hk.
  destruct (publish_locked _ _ _) as [[e subs] h]. apply moves_put_world; [apply _|done|apply _].
Qed.

#[local] Instance run_unsubscribe_keeps name id : Moves hub_keeps (run_unsubscribe (V := V) name id).
Proof.
  unfold run_unsubscribe. apply moves_get_world. intros st.
  destruct (unsubscribe (shared_world st) name id) as [h|] eqn:E; [|reflexivity].
  rewrite put_world_run. by eapply unsubscribe_keeps.
Qed.

#[local] Instance writeChatEvent_keeps sw e : Moves hub_keeps (writeChatEvent (V := V) sw e).
Proof. unfold writeChatEvent. apply _. Qed.

#[local] Instance send_history_keeps sw k es : Moves hub_keeps (send_history (V := V) others sw k es).
Proof. revert k. induction es; intros k; cbn [send_history]; apply _. Qed.

#[local] Instance forward_keeps name id sw ch fuel k :
  Moves hub_keeps (forward (V := V) others name id sw ch fuel k).
Proof.
  revert k. induction fuel as [|fuel IH]; intros k; cbn [forward]; [apply _|].
  apply moves_bind; [apply _| |intros [e| |]; apply _].
  unfold await. apply moves_bind; [apply _|apply _|intros _]. apply moves_get_world. intros st.
  pose proof (receive_keeps (shared_world st) ch) as Hk.
  destruct (receive _ ch) as [r h]. by apply moves_put_world; [apply _|exact Hk|apply _].
Qed.

#[local] Instance room_body_keeps name id hist sw ch fuel :
  Moves hub_keeps (room_body (V := V) order others name id hist sw ch fuel).
Proof. unfold room_body. apply _. Qed.

(** A step of the handler keeps what is known of its channel. *)
Lemma keeps_registered {A} (m : M V chatHub A) `{!Moves hub_keeps m} st name id ch :
  hub_wf (shared_world st) -> registered_by (shared_world st) name id ch ->
  hub_wf (shared_world (m st).2) /\ registered_by (shared_world (m st).2) name id ch.
Proof.
  intros Hw Hr. pose proof (moves (R := hub_keeps) (m := m) st) as Hk.
  split; [exact (proj1 (Hk Hw))|by eapply registered_by_kept].
Qed.

Lemma keeps_unregistered {A} (m : M V chatHub A) `{!Moves hub_keeps m} st ch :
  hub_wf (shared_world st) -> unregistered (shared_world st) ch ->
  unregistered (shared_world (m st).2) ch.
Proof. intros Hw Hu. by apply (unregistered_kept _ _ _ Hw (moves (R := hub_keeps) (m := m) st)). Qed.

Lemma run_unsubscribe_unregisters name id st ch :
  hub_wf (shared_world st) -> registered_by (shared_world st) (normalizeRoomName name) id ch ->
  (run_unsubscribe name id st).1 = Returns tt /\
  hub_wf (shared_world (run_unsubscribe name id st).2) /\
  unregistered (shared_world (run_unsubscribe name id st).2) ch.
Proof.
  intros Hw Hr. destruct (keeps_registered (run_unsubscribe name id) st _ id ch Hw Hr) as [Hw' _].
  revert Hw'. unfold run_unsubscribe. rewrite bind_run, get_world_run.
  change (world (st_env st)) with (shared_world st).
  destruct (unsubscribe_wf (shared_world st) name id Hw) as [h' E]. rewrite E, put_world_run.
  intros Hw'. split_and!; [done|done|]. by eapply unsubscribe_unregisters.
Qed.

(** However the deferred function ends. *)
Lemma leave_unregisters name id sw st ch :
  hub_wf (shared_world st) -> registered_by (shared_world st) (normalizeRoomName name) id ch ->
  unregistered (shared_world (leave order others name id sw st).2) ch.
Proof.
  intros Hw Hr. unfold leave. rewrite bind_run, meanwhile_run.
  destruct (keeps_registered (meanwhile others PUnsubscribe) st _ id ch Hw Hr) as [Hw1 Hr1].
  rewrite meanwhile_run in Hw1, Hr1. cbn [snd] in Hw1, Hr1. rewrite bind_run.
  destruct (run_unsubscribe_unregisters name id _ ch Hw1 Hr1) as (Eu & Hw2 & Hu).
  destruct (run_unsubscribe name id _) as [o st2]. cbn [fst snd] in *. subst o.
  by apply (keeps_unregistered (_ ← publish_system order others PLeave PLeaveSend name
    "A participant left the room."; _ ← meanwhile others PClose; _ ← SW_Close sw; mret tt)).
Qed.

(** The deferred function runs if the body returns and if it panics. *)
Lemma defer_unregisters {A} (m : M V chatHub (option A)) `{!Moves hub_keeps m} name id sw st ch :
  hub_wf (shared_world st) -> registered_by (shared_world st) (normalizeRoomName name) id ch ->
  (defer_fuel (leave order others name id sw) m st).1 <> Returns None ->
  unregistered (shared_world (defer_fuel (leave order others name id sw) m st).2) ch.
Proof.
  intros Hw Hr. destruct (keeps_registered m st _ id ch Hw Hr) as [Hw1 Hr1].
  unfold defer_fuel, defer. destruct (m st) as [o st1]. cbn [snd] in Hw1, Hr1.
  pose proof (leave_unregisters name id sw st1 ch Hw1 Hr1) as Hl.
  destruct (leave order others name id sw st1) as [[u|q] st2]; by destruct o as [[r|]|p].
Qed.
(** C21.  No subscription is left behind.  However the handler of the room
    stream ends, by returning because the stream could not be opened, because
    a write failed or because its channel was closed, or by a panic of its
    announcement or of a deferred call, the channel it subscribed with is
    registered with nobody any more: whatever the other goroutines did to the
    hub between its statements, clients with the same subscriber ID among
    them. *)
Theorem room_stream_leaves fuel st res st' :
  rtc hub_move newChatHub (shared_world st) ->
  let name := normalizeRoomName (Param (st_ctx st) "room") in
  let '(_, _, ch, _) := subscribe (shared_world st) (clock (st_env st) (ticks (st_env st))) name in
  get_room_stream order others fuel st = (res, st') -> res <> Returns None ->
  forall n i, ~ registered (shared_world st') n i ch.
Proof.
  intros Hh name. destruct (subscribe _ _ name) as [[[id hist] ch] h'] eqn:E.
  unfold get_room_stream. rewrite bind_run. cbn [get_ctx]. fold name.
  rewrite bind_run. unfold run_subscribe. rewrite bind_run, time_Now_run, bind_run, get_world_run.
  unfold shared_world in E. cbn [st_env world]. rewrite E, bind_run, put_world_run.
  unfold mret at 1, M_ret at 1. apply hub_wf_moves in Hh as Hw.
  pose proof (proj1 (subscribe_keeps (shared_world st) (clock (st_env st) (ticks (st_env st))) name Hw)) as Hw'.
  unfold shared_world in Hw'. rewrite E in Hw'. cbn [snd] in Hw'.
  pose proof (subscribe_registers _ _ _ _ _ _ _ Hw E) as Hr.
  match goal with |- context [set_env_world ?s h'] => set (st0 := set_env_world s h') end.
  rewrite bind_run. destruct (keeps_registered (meanwhile others PNewStream) st0 _ id ch Hw' Hr) as [Hw1 Hr1].
  rewrite meanwhile_run in Hw1, Hr1 |- *. cbn [snd] in Hw1, Hr1.
  set (st1 := set_env_world st0 _) in *. rewrite bind_run.
  destruct (keeps_registered (NewStream 200 (Some {["x-stream" := "chat-room"]})) st1 _ id ch Hw1 Hr1)
    as [Hw2 Hr2].
  destruct (new_stream_valid 200 (Some {["x-stream" := "chat-room"]}) st1)
    as [(err & st2 & HN)|(sw & st2 & HN & _)]; rewrite HN in *; cbn [snd] in Hw2, Hr2; intros Hret Hres.
  - destruct (keeps_registered (meanwhile others PRefused) st2 _ id ch Hw2 Hr2) as [Hw3 Hr3].
    rewrite bind_run, meanwhile_run in Hret. rewrite meanwhile_run in Hw3, Hr3. cbn [snd] in Hw3, Hr3.
    rewrite bind_run in Hret. destruct (run_unsubscribe_unregisters name id _ ch Hw3 Hr3) as (Eu & _ & Hu).
    destruct (run_unsubscribe name id _) as [o3 st3]. cbn [fst snd] in *. subst o3.
    injection Hret as <- <-. apply Hu.
  - pose proof (defer_unregisters (room_body order others name id hist sw ch fuel) name id sw st2 ch Hw2 Hr2) as Hd.
    rewrite Hret in Hd. cbn [fst snd] in Hd. by apply Hd.
Qed.
End Moves.

(** ** What the client gets

    The part of the state a stream reply is written to; the hub and the clock
    are the rest. *)
Definition stream_part st : Ctx V * list StreamWriter := (st_ctx st, st_sws st).

Lemma write_same p d st1 st2 :
  stream_part st1 = stream_part st2 ->
  (SW_Write p d st1).1 = (SW_Write p d st2).1 /\
  stream_part (SW_Write p d st1).2 = stream_part (SW_Write p d st2).2 /\
  st_env (SW_Write p d st1).2 = st_env st1.
Proof.
  unfold stream_part. intros [= Hc Hs]. rewrite !SW_Write_run, Hc, Hs.
  destruct (st_sws st2 !! p) as [w|]; [|cbn; by rewrite Hc, Hs].
  destruct (sw_closed w); [cbn; by rewrite Hc, Hs|]. by destruct (WriteFrame _ _ _).
Qed.

Lemma close_same p st1 st2 :
  stream_part st1 = stream_part st2 ->
  (SW_Close p st1).1 = (SW_Close p st2).1 /\
  stream_part (SW_Close p st1).2 = stream_part (SW_Close p st2).2.
Proof.
  unfold stream_part. intros [= Hc Hs]. rewrite !SW_Close_run, Hc, Hs.
  destruct (st_sws st2 !! p) as [w|]; [|cbn; by rewrite Hc, Hs].
  destruct (sw_closed w); [cbn; by rewrite Hc, Hs|]. by destruct (WriteFrame _ _ _).
Qed.

Lemma new_stream_same status headers st1 st2 :
  stream_part st1 = stream_part st2 ->
  (NewStream status headers st1).1 = (NewStream status headers st2).1 /\
  stream_part (NewStream status headers st1).2 = stream_part (NewStream status headers st2).2 /\
  st_env (NewStream status headers st1).2 = st_env st1.
Proof.
  unfold stream_part. intros [= Hc Hs]. rewrite !NewStream_run, Hc, Hs.
  destruct (ctx_sent (st_ctx st2)); [cbn; by rewrite Hc, Hs|].
  destruct (WriteFrame _ _ _) as [[e|] s]; cbn; by rewrite ?Hc, ?Hs.
Qed.

(** Events marshal to [enc]. *)
Variable enc : chatEvent -> bytes.
Hypothesis marshals : forall e, Marshal (PValue (Some (box e : V))) = Ok (enc e).

Lemma writeChatEvent_run sw e st :
  writeChatEvent (V := V) sw e st = (r ← SW_Write sw (Some (enc e)); mret r.2) st.
Proof. unfold writeChatEvent. by rewrite marshals. Qed.

(** The chunks were all written. *)
Fixpoint chunks_written (sw : nat) (ds : list bytes) st : option (St V chatHub) :=
  match ds with
  | [] => Some st
  | d :: ds =>
      match SW_Write sw (Some d) st with
      | (Returns (_, None), st) => chunks_written sw ds st
      | _ => None
      end
  end.

Lemma chunks_written_app sw ds1 ds2 st :
  chunks_written sw (ds1 ++ ds2) st =
  match chunks_written sw ds1 st with
  | Some st1 => chunks_written sw ds2 st1
  | None => None
  end.
Proof.
  revert st. induction ds1 as [|d ds1 IH]; intros st; cbn [chunks_written app]; [done|].
  by destruct (SW_Write sw (Some d) st) as [[[z [err|]]|p] st1].
Qed.

(** Then writing goes on after them. *)
Lemma chunks_written_write sw ds1 ds2 st st1 :
  chunks_written sw ds1 st = Some st1 ->
  write_chunks sw (ds1 ++ ds2) st = write_chunks sw ds2 st1.
Proof.
  revert st. induction ds1 as [|d ds1 IH]; intros st; cbn [chunks_written app write_chunks]; [by intros [= ->]|].
  rewrite bind_run. destruct (SW_Write sw (Some d) st) as [[[z [err|]]|p] st2]; [done|apply IH|done].
Qed.

(** ** The hub on the way *)

(** While the history is sent. *)
Fixpoint through_history (k : nat) (es : list chatEvent) h : chatHub :=
  match es with
  | [] => h
  | _ :: es => through_history (S k) es (others (PHistory k) h)
  end.

(** After the send loop, unless a send panics. *)
Fixpoint sends_between (sends : nat -> point) (k : nat) (e : chatEvent) (subs : list nat) h
    : option chatHub :=
  match subs with
  | [] => Some h
  | ch :: subs =>
      match publish_send (others (sends k) h) e ch with
      | Some h => sends_between sends (S k) e subs h
      | None => None
      end
  end.

(** After an announcement. *)
Definition announced (lock : point) (sends : nat -> point) h (now1 now2 : Z) (name text : string)
    : option chatHub :=
  let '(e, subs, h) := publish_locked (others lock h) name (newSystemEvent now1 now2 name text) in
  sends_between sends 0 e (order subs) h.

(** The events a subscriber takes out of its channel. *)
Fixpoint received_from (ch fuel k : nat) h : list chatEvent :=
  match fuel with
  | O => []
  | S fuel =>
      let '(r, h) := receive (others (PReceive k) h) ch in
      match r with
      | RWaits => received_from ch fuel (S k) h
      | RClosed => []
      | REvent e => e :: received_from ch fuel (S k) (others (PWrite k) h)
      end
  end.

(** The events the handler receives: it has written the history and announced
    its participant, on a hub that was [h] when it had subscribed. *)
Definition room_events (name : string) (hist : list chatEvent) (ch fuel : nat) (now1 now2 : Z) h
    : list chatEvent :=
  match announced PJoin PJoinSend (through_history 0 hist (others PNewStream h)) now1 now2 name
          "A participant joined the room." with
  | Some h => received_from ch fuel 0 h
  | None => []
  end.

(** ** The parts of the handler *)

Lemma same_env_part st w : stream_part (set_env_world st w) = stream_part st.
Proof. done. Qed.

(** One event: the write of the handler and that of the reference. *)
Lemma event_write sw e st st2 :
  stream_part st = stream_part st2 -> (sw < length (st_sws st))%nat ->
  exists err st1 st2',
    writeChatEvent sw e st = (Returns err, st1) /\ st_env st1 = st_env st /\
    stream_part st1 = stream_part st2' /\ (sw < length (st_sws st1))%nat /\
    (exists z, SW_Write sw (Some (enc e)) st2 = (Returns (z, err), st2')).
Proof.
  intros Hst Hsw. rewrite writeChatEvent_run, bind_run.
  destruct (write_same sw (Some (enc e)) st st2 Hst) as (Hr & Hp & He).
  destruct (write_valid sw (Some (enc e)) st Hsw) as ([z err] & st1 & HW & Hl). rewrite HW in *.
  destruct (SW_Write sw (Some (enc e)) st2) as [o st2']. cbn [fst snd] in *. subst o.
  exists err, st1, st2'. split_and!; [done..|lia|by exists z].
Qed.

(** The history: written to its end, or up to an error. *)
Lemma history_chunks sw k es st st2 :
  stream_part st = stream_part st2 -> (sw < length (st_sws st))%nat ->
  exists b st1 st2',
    send_history others sw k es st = (Returns b, st1) /\
    stream_part st1 = stream_part st2' /\ (sw < length (st_sws st1))%nat /\
    if b : bool then
      shared_world st1 = through_history k es (shared_world st) /\
      clock (st_env st1) = clock (st_env st) /\ ticks (st_env st1) = ticks (st_env st) /\
      chunks_written sw (map enc es) st2 = Some st2'
    else forall ds, write_chunks sw (map enc es ++ ds) st2 = (Returns tt, st2').
Proof.
  revert k st st2. induction es as [|e es IH]; intros k st st2 Hst Hsw;
    cbn [send_history through_history map app write_chunks chunks_written].
  { by exists true, st, st2. }
  rewrite bind_run, meanwhile_run, bind_run. set (st0 := set_env_world st _).
  destruct (event_write sw e st0 st2 Hst Hsw) as (err & st1 & st2' & -> & He & Hp & Hsw1 & z & HW).
  destruct err as [err|].
  - exists false, st1, st2'. split_and!; [done..|]. intros ds. by rewrite bind_run, HW.
  - destruct (IH (S k) st1 st2' Hp Hsw1) as (b & st3 & st4 & HS & Hp3 & Hsw3 & Hb).
    exists b, st3, st4. split_and!; [done..|]. destruct b.
    + unfold shared_world in *. rewrite He in Hb. rewrite HW. by cbn [snd] in *.
    + intros ds. rewrite bind_run, HW. apply Hb.
Qed.

(** The send loop leaves the reply alone. *)
Lemma send_each_run sends k e subs st :
  exists o st', send_each others sends k e subs st = (o, st') /\ stream_part st' = stream_part st /\
    match sends_between sends k e subs (shared_world st) with
    | Some h => o = Returns tt /\ shared_world st' = h
    | None => exists p, o = Panics p
    end.
Proof.
  revert k st. induction subs as [|ch subs IH]; intros k st; cbn [send_each sends_between].
  { by exists (Returns tt), st. }
  rewrite bind_run, meanwhile_run, bind_run, get_world_run. cbn [st_env set_env_world world].
  destruct (publish_send (others (sends k) (shared_world st)) e ch) as [h|].
  - rewrite bind_run, put_world_run. apply (IH (S k) (set_env_world st h)).
  - eexists (Panics _), _. split_and!; [done|done|by eexists].
Qed.

Lemma publish_system_run lock sends name text st :
  exists o st', publish_system order others lock sends name text st = (o, st') /\
    stream_part st' = stream_part st /\
    match announced lock sends (shared_world st) (clock (st_env st) (ticks (st_env st)))
            (clock (st_env st) (S (ticks (st_env st)))) name text with
    | Some h => o = Returns tt /\ shared_world st' = h
    | None => exists p, o = Panics p
    end.
Proof.
  unfold publish_system. rewrite bind_run, time_Now_run, bind_run, time_Now_run, bind_run, meanwhile_run,
    bind_run, get_world_run. unfold announced. cbn [st_env set_env_world world clock ticks shared_world].
  unfold shared_world. cbn [st_env set_env_world world clock ticks].
  destruct (publish_locked _ _ _) as [[e subs] h]. rewrite bind_run, put_world_run.
  match goal with |- context [send_each others sends 0 e (order subs) ?s] =>
    destruct (send_each_run sends 0 e (order subs) s) as (o & st' & -> & Hp & Hm) end.
  exists o, st'. by split_and!.
Qed.

(** Receiving and forwarding. *)
Lemma forward_chunks name id sw ch fuel k st st2 :
  stream_part st = stream_part st2 -> (sw < length (st_sws st))%nat ->
  exists r st1 st2',
    forward others name id sw ch fuel k st = (Returns r, st1) /\
    stream_part st1 = stream_part st2' /\ (sw < length (st_sws st1))%nat /\
    match r with
    | None => chunks_written sw (map enc (received_from ch fuel k (shared_world st))) st2 = Some st2'
    | Some r => r = None /\
        write_chunks sw (map enc (received_from ch fuel k (shared_world st))) st2 = (Returns tt, st2')
    end.
Proof.
  revert k st st2. induction fuel as [|fuel IH]; intros k st st2 Hst Hsw; cbn [forward received_from].
  { by exists None, st, st2. }
  unfold await. rewrite bind_run, bind_run, meanwhile_run, bind_run, get_world_run.
  cbn [st_env set_env_world world].
  destruct (receive (others (PReceive k) (shared_world st)) ch) as [r h].
  rewrite bind_run, put_world_run. unfold mret at 1, M_ret at 1.
  set (st1 := set_env_world _ h). destruct r as [e| |].
  - cbn [map write_chunks chunks_written]. rewrite bind_run, meanwhile_run, bind_run.
    set (st3 := set_env_world st1 _).
    destruct (event_write sw e st3 st2 Hst Hsw) as (err & st4 & st2' & -> & He & Hp & Hsw4 & z & HW).
    destruct err as [err|].
    + exists (Some None), st4, st2'. split_and!; [done..|]. by rewrite bind_run, HW.
    + destruct (IH (S k) st4 st2' Hp Hsw4) as (r & st5 & st6 & HF & Hp5 & Hsw5 & Hr).
      exists r, st5, st6. split_and!; [done..|].
      assert (shared_world st4 = others (PWrite k) h) as Hh by (unfold shared_world; by rewrite He).
      rewrite Hh in Hr. rewrite HW. destruct r; [|exact Hr]. by rewrite bind_run, HW.
  - eexists (Some None), _, st2. split_and!; [done|exact Hst|exact Hsw|done|done].
  - by apply (IH (S k) st1 st2).
Qed.

Lemma write_chunks_same sw ds st1 st2 :
  stream_part st1 = stream_part st2 ->
  (write_chunks sw ds st1).1 = (write_chunks sw ds st2).1 /\
  stream_part (write_chunks sw ds st1).2 = stream_part (write_chunks sw ds st2).2.
Proof.
  revert st1 st2. induction ds as [|d ds IH]; intros st1 st2 Hst; cbn [write_chunks]; [done|].
  rewrite !bind_run. destruct (write_same sw (Some d) st1 st2 Hst) as (Hr & Hp & _).
  destruct (SW_Write sw (Some d) st1) as [o1 st3], (SW_Write sw (Some d) st2) as [o2 st4].
  cbn [fst snd] in *. subst o2. destruct o1 as [[z [err|]]|p]; cbn [snd]; [done|by apply IH|done].
Qed.

Lemma run_unsubscribe_part name id st u st' :
  run_unsubscribe (V := V) name id st = (Returns u, st') -> stream_part st' = stream_part st.
Proof.
  unfold run_unsubscribe. rewrite bind_run, get_world_run.
  destruct (unsubscribe _ name id); by intros [= _ <-].
Qed.


(** Leaving closes the stream and touches nothing else of the reply. *)
Lemma leave_part name id sw st st2 u st' :
  stream_part st = stream_part st2 -> (sw < length (st_sws st))%nat ->
  leave order others name id sw st = (Returns u, st') ->
  exists r st2', SW_Close sw st2 = (Returns r, st2') /\ stream_part st' = stream_part st2'.
Proof.
  intros Hst Hsw. unfold leave. rewrite bind_run, meanwhile_run, bind_run.
  destruct (run_unsubscribe name id _) as [[[]|p] st3] eqn:Eu; [|done]. rewrite bind_run.
  destruct (publish_system_run PLeave PLeaveSend name "A participant left the room." st3)
    as (o & st4 & -> & Hp & _).
  destruct o as [[]|p]; [|done]. rewrite bind_run, meanwhile_run, bind_run.
  pose proof (run_unsubscribe_part _ _ _ _ _ Eu) as Hu.
  set (st5 := set_env_world st4 _). assert (stream_part st5 = stream_part st2) as H52.
  { unfold st5. by rewrite same_env_part, Hp, Hu. }
  destruct (close_same sw st5 st2 H52) as [Hr Hc].
  destruct (close_valid sw st5) as (r & st6 & HC & _).
  { unfold stream_part in H52, Hst. congruence. }
  rewrite HC in *. intros [= _ <-].
  destruct (SW_Close sw st2) as [o st7]. cbn [fst snd] in *. subst o. by exists r, st7.
Qed.

(** The body, and the deferred calls after it. *)
Lemma deferred_part name id sw st st1 st2 (x r : option (option error)) st' :
  stream_part st1 = stream_part st2 -> (sw < length (st_sws st1))%nat ->
  defer (leave order others name id sw) (fun _ => (Returns x, st1)) st = (Returns r, st') ->
  x = r /\ exists st'', (_ ← SW_Close sw; mret (None (A := error))) st2 = (Returns None, st'') /\
    stream_part st' = stream_part st''.
Proof.
  intros Hst Hsw. unfold defer. destruct (leave order others name id sw st1) as [[u|q] st3] eqn:El; [|done].
  intros [= -> <-]. split; [done|].
  destruct (leave_part _ _ _ _ _ _ _ Hst Hsw El) as (c & st4 & HC & Hp).
  exists st4. by rewrite bind_run, HC.
Qed.

(** After the first frame: the body and the deferred calls on one side, the
    chunks and the close on the other. *)
Lemma body_chunks name id hist sw ch fuel now1 now2 st st2 r st' :
  stream_part st = stream_part st2 -> (sw < length (st_sws st))%nat ->
  now1 = clock (st_env st) (ticks (st_env st)) -> now2 = clock (st_env st) (S (ticks (st_env st))) ->
  let evs := match announced PJoin PJoinSend (through_history 0 hist (shared_world st)) now1 now2 name
               "A participant joined the room." with
             | Some h => received_from ch fuel 0 h
             | None => []
             end in
  defer_fuel (leave order others name id sw) (room_body order others name id hist sw ch fuel) st =
    (Returns r, st') ->
  match r with
  | Some r => exists st'',
      (_ ← write_chunks sw (map enc (hist ++ evs)); _ ← SW_Close sw; mret None) st2 = (Returns r, st'') /\
      stream_part st' = stream_part st''
  | None => exists st'', chunks_written sw (map enc (hist ++ evs)) st2 = Some st'' /\
      stream_part st' = stream_part st''
  end.
Proof.
  intros Hst Hsw -> -> evs. unfold defer_fuel, defer, room_body. rewrite bind_run.
  destruct (history_chunks sw 0 hist st st2 Hst Hsw) as (b & st1 & st3 & HS & Hp & Hsw1 & Hb).
  rewrite HS, map_app. destruct b; cbn [negb].
  2: { intros Hd. destruct (deferred_part name id sw st st1 st3 (Some None) r st' Hp Hsw1 Hd) as [<- Hc].
       rewrite bind_run, Hb. exact Hc. }
  destruct Hb as (Hh & Hck & Htk & Hw). rewrite bind_run.
  destruct (publish_system_run PJoin PJoinSend name "A participant joined the room." st1)
    as (o & st4 & HP & Hp4 & Hm).
  rewrite HP. rewrite Hh, Hck, Htk in Hm. fold evs. revert Hm. unfold evs.
  destruct (announced _ _ _ _ _ _ _) as [h|].
  2: { intros [p ->]. by destruct (leave _ _ _ _ _ st4) as [[u|q] st5]. }
  intros [-> <-]. assert (stream_part st4 = stream_part st3) as H43 by congruence.
  assert (sw < length (st_sws st4))%nat as Hsw4 by (unfold stream_part in Hp4; congruence).
  destruct (forward_chunks name id sw ch fuel 0 st4 st3 H43 Hsw4) as (x & st5 & st6 & HF & Hp5 & Hsw5 & Hx).
  rewrite HF. destruct x as [x|].
  - destruct Hx as [-> Hwr]. intros Hd.
    destruct (deferred_part name id sw st st5 st6 (Some None) r st' Hp5 Hsw5 Hd) as [<- Hc].
    rewrite bind_run, (chunks_written_write _ _ _ _ _ Hw), Hwr. exact Hc.
  - intros [= <- <-]. exists st6. by rewrite chunks_written_app, Hw.
Qed.

(** C20.  What the client of a room gets, whatever the others do between the
    statements of the handler.  When the handler returns, the reply is that of
    the documented streaming handler, stream errors included, on the events of
    the snapshot it took when it subscribed, followed by the events it received
    from its channel in order.  While it runs, the reply is an open stream with
    exactly the snapshot and the events received so far. *)
Theorem room_stream_delivers fuel st r st' :
  let now k := clock (st_env st) (k + ticks (st_env st)) in
  let name := normalizeRoomName (Param (st_ctx st) "room") in
  let headers := Some {["x-stream" := "chat-room"]} in
  let '(id, hist, ch, h) := subscribe (shared_world st) (now 0%nat) name in
  let sent := map enc (hist ++ room_events name hist ch fuel (now 1%nat) (now 2%nat) h) in
  get_room_stream order others fuel st = (Returns r, st') ->
  match r with
  | Some r => exists st'',
      stream_all 200 headers sent st = (Returns r, st'') /\ stream_part st' = stream_part st''
  | None => exists sw st1 st'',
      NewStream 200 headers st = (Returns (Ok sw), st1) /\ chunks_written sw sent st1 = Some st'' /\
      stream_part st' = stream_part st''
  end.
Proof.
  intros now name headers. destruct (subscribe _ _ name) as [[[id hist] ch] h] eqn:E. intros sent.
  unfold get_room_stream, run_subscribe, stream_all. rewrite !bind_run. cbn [get_ctx]. fold name.
  rewrite !bind_run, time_Now_run, bind_run, get_world_run.
  change (clock (st_env st) (ticks (st_env st))) with (now 0%nat). unfold shared_world in E.
  cbn [st_env world]. rewrite E, bind_run, put_world_run. unfold mret at 1, M_ret at 1.
  rewrite bind_run, meanwhile_run. set (st0 := set_env_world _ (others PNewStream _)). rewrite bind_run.
  destruct (new_stream_same 200 headers st0 st eq_refl) as (Hr & Hp & He). fold headers.
  destruct (new_stream_valid 200 headers st0) as [(err & st1 & HN)|(sw & st1 & HN & Hsw)]; rewrite HN in *;
    destruct (NewStream _ _ st) as [o st1'] eqn:HN'; cbn [fst snd] in Hr, Hp, He; subst o.
  { rewrite bind_run, meanwhile_run, bind_run.
    destruct (run_unsubscribe name id _) as [[u|q] st2] eqn:Eu; [|done].
    intros [= <- <-]. exists st1'. split; [done|]. by rewrite (run_unsubscribe_part _ _ _ _ _ Eu). }
  intros Hd. pose proof (body_chunks name id hist sw ch fuel (now 1%nat) (now 2%nat) st1 st1' r st' Hp Hsw) as Hb.
  assert (shared_world st1 = others PNewStream h) as Hh by (unfold shared_world; by rewrite He).
  rewrite Hh, He in Hb. specialize (Hb eq_refl eq_refl Hd). destruct r as [r|]; [exact Hb|].
  destruct Hb as (st'' & Hb & Hq). by exists sw, st1', st''.
Qed.
End Room.

(** ** Witnesses

    Events are the only values; one is marshalled to its text. *)

#[local] Instance event_boxed : Boxed chatEvent chatEvent.
Proof. refine {| box e := e; unbox := Some |}; [done|]. by intros v e [= ->]. Defined.

#[local] Instance event_codec : Msgpack chatEvent := {|
  Marshal p :=
    match p with
    | PRequest r => ref_marshal (PRequest r)
    | PResponse r => ref_marshal (PResponse r)
    | PChunk c => ref_marshal (PChunk c)
    | PError e => ref_marshal (PError e)
    | PPing p => ref_marshal (PPing p)
    | PValue None => ref_marshal (PValue None)
    | PValue (Some e) => Ok (tagged Byte.x31 (ev_Text e))
    end;
  UnmarshalRequest := UnmarshalRequest (Msgpack := ref_codec);
  UnmarshalResponse := UnmarshalResponse (Msgpack := ref_codec);
  UnmarshalStreamChunk := UnmarshalStreamChunk (Msgpack := ref_codec);
  UnmarshalErrorFrame := UnmarshalErrorFrame (Msgpack := ref_codec);
  UnmarshalInto b v := (v, Some (errorString "msgpack: Decode(unsupported type)"));
|}.
#[local] Instance event_validator : Validator chatEvent := {| Struct v := None |}.

Section Witnesses.
#[local] Existing Instance ascii_tables.

(** The client of a room that already has a message, over a stream that takes
    [n] more bytes, when that is limited. *)
Definition in_room (n : option nat) : St chatEvent chatHub :=
  mkSt (setParams (newContext None (mkRequest "r1" "GET" "/chat/rooms/lounge/stream" None None false)
          (otherPeer (Some "[::1]:4433") [])
          (set_out (reading []) [] n)) {["room" := " Lounge"]}) []
    (mkEnv [] (fun n => Z.of_nat n) 7 (publish_locked newChatHub "lounge" hello).2).

Definition in_order (subs : gmap string nat) : list nat := (map_to_list subs).*2.

(** Somebody with the same subscriber ID leaves at a point [q]. *)
Definition leaving_at (q : point -> bool) (p : point) (h : chatHub) : chatHub :=
  if q p then default h (unsubscribe h "lounge" "sub-7") else h.

Lemma leaving_at_moves q p h : rtc hub_move h (leaving_at q p h).
Proof.
  unfold leaving_at. destruct (q p); [|apply rtc_refl].
  destruct (unsubscribe h "lounge" "sub-7") as [h'|] eqn:E; [|apply rtc_refl].
  apply rtc_once. by eapply hm_unsubscribe.
Qed.

(** After two receives, or before the announcement is sent. *)
Definition third_receive (p : point) : bool :=
  match p with PReceive k => (2 <=? k)%nat | _ => false end.
Definition first_send (p : point) : bool :=
  match p with PJoinSend _ => true | _ => false end.

Definition room_run (q : point -> bool) (fuel : nat) (n : option nat) :=
  get_room_stream in_order (leaving_at q) fuel (in_room n).

Definition full_run := room_run third_receive 4 None.

(** The history and the join notice are sent, and the stream is closed. *)
Example full_run_ends :
  full_run.1 = Returns (Some None) /\
  st_sws full_run.2 = [mkStreamWriter "r1" 2 true] /\
  map ev_Text (room_history (shared_world full_run.2) "lounge") =
    ["hi"; "A participant joined the room."; "A participant left the room."].
Proof. split_and!; vm_compute; reflexivity. Qed.

(** The announcement panics on the closed channel; the deferred calls run. *)
Definition panic_run := room_run first_send 4 None.

Example panic_run_ends :
  panic_run.1 = Panics (PanicString "send on closed channel") /\
  st_sws panic_run.2 = [mkStreamWriter "r1" 1 true].
Proof. split; vm_compute; reflexivity. Qed.

Lemma in_room_reached n : rtc hub_move newChatHub (shared_world (in_room n)).
Proof. apply rtc_once. exact (hm_publish newChatHub "lounge" hello). Qed.

(** The channel of the client is 0; one run returns, one panics, and in one
    the client goes after a few bytes. *)
Lemma room_stream_leaves_witness :
  (forall n i, ~ registered (shared_world full_run.2) n i 0) /\
  (forall n i, ~ registered (shared_world panic_run.2) n i 0) /\
  (forall n i, ~ registered (shared_world (room_run third_receive 4 (Some 30)).2) n i 0).
Proof.
  split; [|split].
  - pose proof (room_stream_leaves (V := chatEvent) in_order _ (leaving_at_moves third_receive) 4
      (in_room None) (Returns (Some None)) full_run.2 (in_room_reached None)) as Hl.
    assert (get_room_stream in_order (leaving_at third_receive) 4 (in_room None) =
      (Returns (Some None), full_run.2)) as E by (vm_compute; reflexivity).
    exact (Hl E ltac:(discriminate)).
  - pose proof (room_stream_leaves (V := chatEvent) in_order _ (leaving_at_moves first_send) 4
      (in_room None) (Panics (PanicString "send on closed channel")) panic_run.2 (in_room_reached None)) as Hl.
    assert (get_room_stream in_order (leaving_at first_send) 4 (in_room None) =
      (Panics (PanicString "send on closed channel"), panic_run.2)) as E by (vm_compute; reflexivity).
    exact (Hl E ltac:(discriminate)).
  - pose proof (room_stream_leaves (V := chatEvent) in_order _ (leaving_at_moves third_receive) 4
      (in_room (Some 30)) (Returns (Some (Some (wrapError "quicframe/protocol: write payload: " EOF))))
      (room_run third_receive 4 (Some 30)).2 (in_room_reached (Some 30))) as Hl.
    assert (get_room_stream in_order (leaving_at third_receive) 4 (in_room (Some 30)) =
      (Returns (Some (Some (wrapError "quicframe/protocol: write payload: " EOF))),
       (room_run third_receive 4 (Some 30)).2)) as E by (vm_compute; reflexivity).
    exact (Hl E ltac:(discriminate)).
Defined.

Definition event_bytes (e : chatEvent) : bytes := tagged Byte.x31 (ev_Text e).

(** The snapshot has the message, and the channel gives the announcement. *)
Definition delivered_events : list chatEvent :=
  [hello; mkChatEvent "sys-8" "system" "lounge" "system" "" "A participant joined the room." 0].

(** The run to its end, and the same followed for two receives. *)
Lemma room_stream_delivers_witness :
  (exists st'',
    stream_all 200 (Some {["x-stream" := "chat-room"]}) (map event_bytes delivered_events)
      (in_room None) = (Returns None, st'') /\
    stream_part full_run.2 = stream_part st'') /\
  (exists sw st1 st'',
    NewStream 200 (Some {["x-stream" := "chat-room"]}) (in_room None) = (Returns (Ok sw), st1) /\
    chunks_written sw (map event_bytes delivered_events) st1 = Some st'' /\
    stream_part (room_run third_receive 2 None).2 = stream_part st'').
Proof.
  split.
  - pose proof (room_stream_delivers (V := chatEvent) in_order (leaving_at third_receive) event_bytes
      (fun e => eq_refl) 4 (in_room None) (Some None) full_run.2) as Hd.
    assert (get_room_stream in_order (leaving_at third_receive) 4 (in_room None) =
      (Returns (Some None), full_run.2)) as E by (vm_compute; reflexivity).
    exact (Hd E).
  - pose proof (room_stream_delivers (V := chatEvent) in_order (leaving_at third_receive) event_bytes
      (fun e => eq_refl) 2 (in_room None) None (room_run third_receive 2 None).2) as Hd.
    assert (get_room_stream in_order (leaving_at third_receive) 2 (in_room None) =
      (Returns None, (room_run third_receive 2 None).2)) as E by (vm_compute; reflexivity).
    exact (Hd E).
Defined.
End Witnesses.
