(* ===== verification/ChatRooms.v ===== *)
(** * The clients of a chat room (examples/streaming-demo/main.go)

    Room.v runs one handler of the room stream, with what the others do to the
    hub as an argument.  Here the handlers of any number of clients and the
    posts are goroutines of one system over the hub of Chat.v: between any two
    statements of one of them the others run, and a write to a client may fail
    at any time. *)

From S2P Require Import Prelude GoStd NetURL Wire Validation Reqctx Chat.
From Stdlib Require Import Ascii.

Local Open Scope string_scope.
Local Open Scope list_scope.

(** Where the handler of a client is.  The announcements are publishers of the
    hub, named by their positions. *)
Inductive room_pc :=
  | ROpening (hist : list chatEvent)        (* before NewStream *)
  | RRefused                                (* NewStream failed *)
  | RSnapshot (rest : list chatEvent)       (* the loop over the history *)
  | RJoining (k : nat)                      (* the sends of "joined" *)
  | RForward                                (* waiting for an event *)
  | RWrite (e : chatEvent)                  (* writing it *)
  | RLeaving                                (* before the deferred unsubscribe *)
  | RParting                                (* before publishing "left" *)
  | RClosing (k : nat)                      (* its sends *)
  | RReturned
  | RPanicked.                              (* in the deferred function *)

(** [rt_written] has the events written to the client; [rt_room] is the
    handler's [roomName]. *)
Record room_client := mkRoomClient {
  rt_room : string;
  rt_id : string;
  rt_chan : nat;
  rt_history : list chatEvent;
  rt_written : list chatEvent;
  rt_pc : room_pc;
}.

Definition at_pc (t : room_client) (pc : room_pc) : room_client :=
  mkRoomClient (rt_room t) (rt_id t) (rt_chan t) (rt_history t) (rt_written t) pc.

(** A successful write of [e]. *)
Definition wrote (t : room_client) (e : chatEvent) (pc : room_pc) : room_client :=
  mkRoomClient (rt_room t) (rt_id t) (rt_chan t) (rt_history t) (rt_written t ++ [e]) pc.

Record rooms_config := mkRoomsConfig {
  rc_chat : chat;
  rc_clients : list room_client;
}.

Definition rooms_start : rooms_config := mkRoomsConfig new_chat [].

Definition sent_all (ps : list publisher) (k : nat) : Prop :=
  exists e, ps !! k = Some (mkPublisher e []).

(** The statements that leave the hub alone. *)
Inductive client_step (ps : list publisher) (t : room_client) : room_client -> Prop :=
  | cl_opened hist : rt_pc t = ROpening hist -> client_step ps t (at_pc t (RSnapshot hist))
  | cl_refused hist : rt_pc t = ROpening hist -> client_step ps t (at_pc t RRefused)
  | cl_snapshot e rest :
      rt_pc t = RSnapshot (e :: rest) -> client_step ps t (wrote t e (RSnapshot rest))
  | cl_snapshot_fails e rest :
      rt_pc t = RSnapshot (e :: rest) -> client_step ps t (at_pc t RLeaving)
  | cl_joined k : rt_pc t = RJoining k -> sent_all ps k -> client_step ps t (at_pc t RForward)
  | cl_write e : rt_pc t = RWrite e -> client_step ps t (wrote t e RForward)
  | cl_write_fails e : rt_pc t = RWrite e -> client_step ps t (at_pc t RLeaving)
  | cl_closed k : rt_pc t = RClosing k -> sent_all ps k -> client_step ps t (at_pc t RReturned).

(** A panic in the sends of publisher [k] unwinds its goroutine: the deferred
    function runs, or is cut short. *)
Definition unwind (k : nat) (t : room_client) : room_client :=
  match rt_pc t with
  | RJoining k' => if (k =? k')%nat then at_pc t RLeaving else t
  | RClosing k' => if (k =? k')%nat then at_pc t RPanicked else t
  | _ => t
  end.

(** After the unsubscription. *)
Definition unsubscribed (pc : room_pc) : option room_pc :=
  match pc with
  | RLeaving => Some RParting
  | RRefused => Some RReturned
  | _ => None
  end.

(** The text of the announcement a handler is about to publish, and its sends. *)
Definition announcing (pc : room_pc) (k : nat) : option (string * room_pc) :=
  match pc with
  | RSnapshot [] => Some ("A participant joined the room.", RJoining k)
  | RParting => Some ("A participant left the room.", RClosing k)
  | _ => None
  end.

Section Steps.
Context `{Unicode}.

Inductive rooms_step : rooms_config -> rooms_config -> Prop :=
  | rs_enter h ps l vs p ts now room id hist ch h' :
      let name := normalizeRoomName room in
      subscribe h now name = (id, hist, ch, h') ->
      rooms_step (mkRoomsConfig (mkChat h ps l vs p) ts)
        (mkRoomsConfig
           (mkChat h' ps l (vs ++ [mkView (normalizeRoomName name) (length l) [] []]) p)
           (ts ++ [mkRoomClient name id ch hist [] (ROpening hist)]))
  | rs_client c ts i t t' :
      ts !! i = Some t -> client_step (publishers c) t t' ->
      rooms_step (mkRoomsConfig c ts) (mkRoomsConfig c (<[i := t']> ts))
  | rs_announce h ps l vs p ts i t text pc now1 now2 e subs order h' :
      ts !! i = Some t -> announcing (rt_pc t) (length ps) = Some (text, pc) ->
      publish_locked h (rt_room t) (newSystemEvent now1 now2 (rt_room t) text) = (e, subs, h') ->
      collected subs order ->
      rooms_step (mkRoomsConfig (mkChat h ps l vs p) ts)
        (mkRoomsConfig (mkChat h' (ps ++ [mkPublisher e order]) (l ++ [e]) vs p)
           (<[i := at_pc t pc]> ts))
  | rs_post h ps l vs p ts name event e subs order h' :      (* POST .../messages *)
      publish_locked h name event = (e, subs, h') -> collected subs order ->
      rooms_step (mkRoomsConfig (mkChat h ps l vs p) ts)
        (mkRoomsConfig (mkChat h' (ps ++ [mkPublisher e order]) (l ++ [e]) vs p) ts)
  | rs_send h ps l vs p ts k e ch todo h' :
      ps !! k = Some (mkPublisher e (ch :: todo)) -> publish_send h e ch = Some h' ->
      rooms_step (mkRoomsConfig (mkChat h ps l vs p) ts)
        (mkRoomsConfig
           (mkChat h' (<[k := mkPublisher e todo]> ps) l
              (if full h ch then alter (lose e) ch vs else vs) p) ts)
  | rs_send_panics h ps l vs p ts k e ch todo :
      ps !! k = Some (mkPublisher e (ch :: todo)) -> publish_send h e ch = None ->
      rooms_step (mkRoomsConfig (mkChat h ps l vs p) ts)
        (mkRoomsConfig (mkChat h (<[k := mkPublisher e []]> ps) l vs true) (map (unwind k) ts))
  | rs_unsubscribe h ps l vs p ts i t pc h' :
      ts !! i = Some t -> unsubscribed (rt_pc t) = Some pc ->
      unsubscribe h (rt_room t) (rt_id t) = Some h' ->
      rooms_step (mkRoomsConfig (mkChat h ps l vs p) ts)
        (mkRoomsConfig (mkChat h' ps l vs p) (<[i := at_pc t pc]> ts))
  | rs_unsubscribe_panics h ps l vs p ts i t pc :
      ts !! i = Some t -> unsubscribed (rt_pc t) = Some pc ->
      unsubscribe h (rt_room t) (rt_id t) = None ->
      rooms_step (mkRoomsConfig (mkChat h ps l vs p) ts)
        (mkRoomsConfig (mkChat h ps l vs true) (<[i := at_pc t RPanicked]> ts))
  | rs_receive h ps l vs p ts i t e h' :
      ts !! i = Some t -> rt_pc t = RForward -> receive h (rt_chan t) = (REvent e, h') ->
      rooms_step (mkRoomsConfig (mkChat h ps l vs p) ts)
        (mkRoomsConfig (mkChat h' ps l (alter (see e) (rt_chan t) vs) p)
           (<[i := at_pc t (RWrite e)]> ts))
  | rs_closed h ps l vs p ts i t h' :
      ts !! i = Some t -> rt_pc t = RForward -> receive h (rt_chan t) = (RClosed, h') ->
      rooms_step (mkRoomsConfig (mkChat h ps l vs p) ts)
        (mkRoomsConfig (mkChat h ps l vs p) (<[i := at_pc t RLeaving]> ts)).
End Steps.
