(* ===== verification/ChatRoomsProps.v ===== *)
(** * The clients of a chat room: theorems

    The goroutines of the room streams and the posts are goroutines of the hub
    (its theorems hold of them), and each client is written the snapshot it
    subscribed with and then the events it received, in their order. *)

From S2P Require Import Prelude GoStd NetURL Wire Validation Reqctx Chat ChatProps ChatRooms.
From Stdlib Require Import Ascii.

Local Open Scope string_scope.
Local Open Scope list_scope.

(** What a handler has to write before it takes the next event. *)
Definition in_hand (pc : room_pc) : list chatEvent :=
  match pc with
  | ROpening rest | RSnapshot rest => rest
  | RWrite e => [e]
  | _ => []
  end.

(** Before the loops are left. *)
Definition streaming (pc : room_pc) : bool :=
  match pc with
  | ROpening _ | RSnapshot _ | RJoining _ | RForward | RWrite _ => true
  | _ => false
  end.

(** Before the unsubscription. *)
Definition listening (pc : room_pc) : bool :=
  streaming pc || match pc with RRefused | RLeaving => true | _ => false end.

(** What was published to a room before a view of it was taken. *)
Definition published_before (c : chat) (v : view) : list chatEvent :=
  room_log (v_room v) (take (v_from v) (log c)).

Definition written_ok (t : room_client) (received : list chatEvent) : Prop :=
  if streaming (rt_pc t)
  then rt_written t ++ in_hand (rt_pc t) = rt_history t ++ received
  else rt_written t `prefix_of` rt_history t ++ received.

Section Facts.
Context `{Unicode}.

(** ** The hub's own theorems apply *)

Lemma rooms_step_chat r r' : rooms_step r r' -> rtc any_step (rc_chat r) (rc_chat r').
Proof.
  intros Hst. destruct Hst; cbn; try apply rtc_refl; apply rtc_once.
  - exists LSubscribe. by eapply cs_subscribe.
  - exists LPublish. by eapply cs_publish.
  - exists LPublish. by eapply cs_publish.
  - exists LSend. rewrite insert_take_drop by (by eapply lookup_lt_Some).
    rewrite <- (take_drop_middle ps k (mkPublisher e (ch :: todo))) at 1 by done. by apply cs_send.
  - exists LSend. rewrite insert_take_drop by (by eapply lookup_lt_Some).
    rewrite <- (take_drop_middle ps k (mkPublisher e (ch :: todo))) at 1 by done.
    by apply cs_send_panics.
  - exists LUnsubscribe. by eapply cs_unsubscribe.
  - exists LUnsubscribe. by eapply cs_unsubscribe_panics.
  - exists LReceive. by apply cs_receive.
Qed.

Lemma rooms_chat r : rtc rooms_step rooms_start r -> rtc any_step new_chat (rc_chat r).
Proof.
  change new_chat with (rc_chat rooms_start). generalize rooms_start as r0.
  induction 1 as [|r0 r1 r2 Hst _ IH]; [done|]. etrans; [by apply rooms_step_chat|done].
Qed.

(** ** What a client is written *)

(** Its view, and the log, only grow. *)
Definition client_ok (c : chat) (i : nat) (t : room_client) : Prop :=
  rt_chan t = i /\
  exists v, views c !! i = Some v /\ v_room v = normalizeRoomName (rt_room t) /\
    rt_history t = keep_last chatHistoryLimit (published_before c v) /\
    written_ok t (v_received v).

Definition view_kept (c c' : chat) (i : nat) : Prop :=
  log c `prefix_of` log c' /\
  forall v, views c !! i = Some v -> exists v', views c' !! i = Some v' /\
    v_room v' = v_room v /\ v_from v' = v_from v /\ v_received v' = v_received v.

Lemma published_before_kept c c' v v' :
  wf c -> v ∈ views c -> log c `prefix_of` log c' -> v_room v' = v_room v -> v_from v' = v_from v ->
  published_before c' v' = published_before c v.
Proof.
  intros Hwf Hv [l Hl] Hr Hf. unfold published_before. rewrite Hr, Hf, Hl, take_app_le; [done|].
  by apply (wf_from c Hwf).
Qed.

Lemma client_ok_kept c c' i t :
  wf c -> view_kept c c' i -> client_ok c i t -> client_ok c' i t.
Proof.
  intros Hwf [Hl Hk] (Hi & v & Hv & Hr & Hh & Hw). split; [done|].
  destruct (Hk v Hv) as (v' & Hv' & Hr' & Hf' & Hg'). exists v'. split_and!; [done|congruence| |congruence].
  rewrite Hh. symmetry. f_equal. eapply published_before_kept; try done. by eapply list_elem_of_lookup_2.
Qed.

(** The same client at another statement. *)
Lemma client_ok_at c i t t' :
  rt_chan t' = rt_chan t -> rt_room t' = rt_room t -> rt_history t' = rt_history t ->
  (forall l, written_ok t l -> written_ok t' l) ->
  client_ok c i t -> client_ok c i t'.
Proof.
  intros Hc Hr Hh Hw (Hi & v & Hv & Hrv & Hhv & Hwv). split; [congruence|].
  exists v. split_and!; [done|congruence|congruence|by apply Hw].
Qed.

(** To leave the loops is always fine. *)
Lemma written_ok_stop t pc l :
  streaming pc = false -> written_ok t l -> written_ok (at_pc t pc) l.
Proof.
  unfold written_ok. cbn. intros ->. destruct (streaming (rt_pc t)); [|done].
  intros <-. by apply prefix_app_r.
Qed.

(** To go on, with the same to write. *)
Lemma written_ok_go t pc l :
  streaming (rt_pc t) = true -> streaming pc = true -> in_hand pc = in_hand (rt_pc t) ->
  written_ok t l -> written_ok (at_pc t pc) l.
Proof. unfold written_ok. cbn. by intros -> -> ->. Qed.

Lemma written_ok_wrote t e pc l :
  streaming (rt_pc t) = true -> streaming pc = true -> in_hand (rt_pc t) = e :: in_hand pc ->
  written_ok t l -> written_ok (wrote t e pc) l.
Proof. unfold written_ok. cbn. intros -> -> -> <-. by rewrite <- app_assoc. Qed.

Lemma client_step_ok ps t t' c i : client_step ps t t' -> client_ok c i t -> client_ok c i t'.
Proof.
  intros Hst. apply client_ok_at; try by destruct Hst. intros l.
  destruct Hst as [hist E|hist E|e rest E|e rest E|k E|e E|e E|k E];
    first [by apply written_ok_stop | apply written_ok_go; by rewrite ?E | apply written_ok_wrote; by rewrite ?E].
Qed.

Lemma unwind_ok k c i t : client_ok c i t -> client_ok c i (unwind k t).
Proof.
  unfold unwind. destruct (rt_pc t) eqn:E; try done; destruct (_ =? _)%nat; try done;
    (apply client_ok_at; [done..|]; intros l; by apply written_ok_stop).
Qed.

(** A property of every client, at its position. *)
Definition every (P : nat -> room_client -> Prop) (ts : list room_client) : Prop :=
  forall i t, ts !! i = Some t -> P i t.

Lemma every_insert (P : nat -> room_client -> Prop) ts i t :
  every P ts -> P i t -> every P (<[i := t]> ts).
Proof.
  intros Hts Ht j u [(<- & <- & _)|[_ Hj]]%list_lookup_insert_Some; [done|by apply Hts].
Qed.

Lemma every_impl (P Q : nat -> room_client -> Prop) ts :
  every P ts -> (forall i t, P i t -> Q i t) -> every Q ts.
Proof. intros Hts HPQ i t Ht. by apply HPQ, Hts. Qed.

Lemma every_map (P : nat -> room_client -> Prop) f ts :
  every P ts -> (forall i t, P i t -> P i (f t)) -> every P (map f ts).
Proof.
  intros Hts Hf i t Ht. rewrite list_lookup_fmap in Ht.
  apply fmap_Some in Ht as (u & Hu & ->). by apply Hf, Hts.
Qed.

Lemma every_snoc (P : nat -> room_client -> Prop) ts t :
  every P ts -> P (length ts) t -> every P (ts ++ [t]).
Proof.
  intros Hts Ht i u [Hi|[Hi Hu]]%lookup_app_Some; [by apply Hts|].
  apply list_lookup_singleton_Some in Hu as [Hz <-].
  by replace i with (length ts) by lia.
Qed.

Definition clients_ok (r : rooms_config) : Prop :=
  length (rc_clients r) = length (channels (hub (rc_chat r))) /\
  every (client_ok (rc_chat r)) (rc_clients r).

(** A view other than the one altered is kept; and so is that one by what keeps
    its events. *)
Lemma view_kept_alter h h' ps ps' l l' vs p p' f k i :
  l `prefix_of` l' -> (forall w, v_room (f w) = v_room w /\ v_from (f w) = v_from w) ->
  (i = k -> forall w, v_received (f w) = v_received w) ->
  view_kept (mkChat h ps l vs p) (mkChat h' ps' l' (alter f k vs) p') i.
Proof.
  intros Hl Hf Hk. split; [done|]. cbn. intros v Hv. rewrite lookup_alter_cases, Hv. cbn.
  case_decide as E; [|by exists v]. exists (f v). destruct (Hf v) as [-> ->]. by rewrite Hk.
Qed.

Lemma view_kept_same h h' ps ps' l l' vs vs' p p' i :
  l `prefix_of` l' -> view_kept (mkChat h ps l vs p) (mkChat h' ps' l' (vs ++ vs') p') i.
Proof.
  intros Hl. split; [done|]. cbn. intros v Hv. exists v. split_and!; try done.
  by apply lookup_app_l_Some.
Qed.

Lemma every_kept c c' ts :
  wf c -> every (client_ok c) ts -> (forall i, view_kept c c' i) -> every (client_ok c') ts.
Proof. intros Hwf Hts Hk. eapply every_impl; [done|]. intros i t. by apply client_ok_kept. Qed.

Lemma same_views h h' ps ps' l l' vs p p' ts :
  wf (mkChat h ps l vs p) -> l `prefix_of` l' ->
  every (client_ok (mkChat h ps l vs p)) ts -> every (client_ok (mkChat h' ps' l' vs p')) ts.
Proof.
  intros Hwf Hl Hts. eapply every_kept; [done..|]. intros i.
  rewrite <- (app_nil_r vs) at 2. by apply view_kept_same.
Qed.

Lemma every_at c ts i t pc :
  every (client_ok c) ts -> ts !! i = Some t ->
  (forall l, written_ok t l -> written_ok (at_pc t pc) l) ->
  every (client_ok c) (<[i := at_pc t pc]> ts).
Proof.
  intros Hts Ht Hw. apply every_insert; [done|]. by eapply (client_ok_at _ _ t), Hts.
Qed.

Lemma publish_send_length h e ch h' :
  publish_send h e ch = Some h' -> length (channels h') = length (channels h).
Proof.
  intros Hs. destruct (publish_send_spec _ _ _ _ Hs) as [_ [[_ ->]|(c & c' & _ & _ & ->)]]; [done|].
  by rewrite length_insert.
Qed.

Lemma unsubscribe_length h name id h' :
  unsubscribe h name id = Some h' -> length (channels h') = length (channels h).
Proof.
  intros Hs. destruct (unsubscribe_spec _ _ _ _ Hs) as (_ & _ & [->|(ch & c & _ & _ & ->)]); [done|].
  by rewrite length_insert.
Qed.

(** An event is received by the client of the channel, and by no other. *)
Lemma received_ok h h' ps l vs p ts i t e :
  wf (mkChat h ps l vs p) -> every (client_ok (mkChat h ps l vs p)) ts ->
  ts !! i = Some t -> rt_pc t = RForward ->
  every (client_ok (mkChat h' ps l (alter (see e) (rt_chan t) vs) p))
    (<[i := at_pc t (RWrite e)]> ts).
Proof.
  intros Hwf Hts Ht Hpc j u Hj. pose proof (Hts i t Ht) as (Hi & v & Hv & Hr & Hh & Hw).
  apply list_lookup_insert_Some in Hj as [(-> & <- & _)|[Hne Hj]].
  - split; [done|]. exists (see e v). cbn in *. rewrite lookup_alter_cases, decide_True, Hv by congruence.
    split_and!; try done. revert Hw. unfold written_ok. cbn. rewrite Hpc. cbn.
    rewrite app_nil_r, app_assoc. by intros ->.
  - eapply client_ok_kept; [done| |by apply Hts]. apply view_kept_alter; [done..|].
    intros ->. congruence.
Qed.

Lemma clients_ok_step r r' :
  wf (rc_chat r) -> history_ok (rc_chat r) -> rooms_step r r' -> clients_ok r -> clients_ok r'.
Proof.
  intros Hwf Hhist Hst [Hlen Hts].
  destruct Hst as [h ps l vs p ts now room id hist ch h' name Hs|c ts i t t' Ht Hc
    |h ps l vs p ts i t text pc now1 now2 e subs order h' Ht Ha Hp Ho
    |h ps l vs p ts nm event e subs order h' Hp Ho|h ps l vs p ts k e ch todo h' Hk Hs
    |h ps l vs p ts k e ch todo Hk Hs|h ps l vs p ts i t pc h' Ht Hu Hs
    |h ps l vs p ts i t pc Ht Hu Hs|h ps l vs p ts i t e h' Ht Hpc Hs|h ps l vs p ts i t h' Ht Hpc Hs];
    unfold clients_ok; cbn in *; (split; [rewrite ?length_app, ?length_insert, ?length_map, ?Hlen|]).
  - destruct (subscribe_spec _ _ _ _ _ _ _ Hs) as (_ & _ & _ & -> & _). by rewrite length_app.
  - destruct (subscribe_spec _ _ _ _ _ _ _ Hs) as (_ & Hch & Hhs & _).
    assert (length ts = length vs) as Hvs by (rewrite Hlen; symmetry; apply Hwf).
    apply every_snoc.
    + eapply every_kept; [done..|]. intros i. by apply view_kept_same.
    + split; [cbn; congruence|]. eexists. cbn. rewrite Hvs.
      split_and!; [by apply list_lookup_middle|done| |by unfold written_ok; cbn; rewrite app_nil_r].
      unfold published_before. cbn. rewrite firstn_all, Hhs. apply Hhist.
  - done.
  - apply every_insert; [done|]. eapply client_step_ok; [done|by apply Hts].
  - by destruct (publish_locked_spec _ _ _ _ _ _ Hp) as (_ & -> & _).
  - eapply every_at; [eapply same_views; [done| |done]; by apply prefix_app_r|done|]. intros l0.
    destruct (rt_pc t) as [| |[|e0 rest]| | | | | | | |] eqn:E; simplify_eq/=.
    + apply written_ok_go; by rewrite ?E.
    + by apply written_ok_stop.
  - by destruct (publish_locked_spec _ _ _ _ _ _ Hp) as (_ & -> & _).
  - eapply same_views; [done| |done]. by apply prefix_app_r.
  - symmetry. by eapply publish_send_length.
  - destruct (full h ch); [|by eapply same_views].
    eapply every_kept; [done..|]. intros i. by apply view_kept_alter.
  - done.
  - apply every_map; [by eapply same_views|]. intros i t. apply unwind_ok.
  - symmetry. by eapply unsubscribe_length.
  - eapply every_at; [by eapply same_views|done|]. intros l0. apply written_ok_stop.
    by destruct (rt_pc t); simplify_eq/=.
  - done.
  - eapply every_at; [by eapply same_views|done|]. intros l0. by apply written_ok_stop.
  - destruct (receive_spec _ _ _ _ Hs) as [_ (b & cl & _ & ->)]. by rewrite length_insert.
  - by eapply received_ok.
  - done.
  - eapply every_at; [done..|]. intros l0. by apply written_ok_stop.
Qed.

(** ** Nobody is cut off

    IDs are clock readings; as long as no two clients got the same one, a
    handler that has not unsubscribed is registered. *)
Definition is_registered (h : chatHub) (i : nat) (t : room_client) : Prop :=
  listening (rt_pc t) = true -> registered h (normalizeRoomName (rt_room t)) (rt_id t) i.

Definition subscribed (r : rooms_config) : Prop :=
  NoDup (rt_id <$> rc_clients r) -> every (is_registered (hub (rc_chat r))) (rc_clients r).

(** The same clients, each no earlier. *)
Definition later (t t' : room_client) : Prop :=
  rt_id t' = rt_id t /\ rt_room t' = rt_room t /\ (listening (rt_pc t') = true -> listening (rt_pc t) = true).

Lemma later_ids ts ts' : Forall2 later ts ts' -> rt_id <$> ts' = rt_id <$> ts.
Proof. induction 1 as [|t t' ts ts' (E & _) _ IH]; [done|]. by rewrite !fmap_cons, E, IH. Qed.

#[export] Instance later_refl : Reflexive later.
Proof. by intros t. Qed.

Lemma later_insert ts i t t' : ts !! i = Some t -> later t t' -> Forall2 later ts (<[i := t']> ts).
Proof.
  intros Ht Hl. rewrite <- (list_insert_id ts i t) at 1 by done.
  apply Forall2_insert; [by apply Forall_Forall2_diag, Forall_true|done].
Qed.

Lemma client_step_later ps t t' : client_step ps t t' -> later t t'.
Proof. destruct 1 as [? E|? E|? ? E|? ? E|? E|? E|? E|? E]; (split_and!; [done..|by rewrite E]). Qed.

Lemma unwind_later k t : later t (unwind k t).
Proof.
  unfold unwind. destruct (rt_pc t) eqn:E; try done; destruct (_ =? _)%nat; try done;
    (split_and!; [done..|by rewrite E]).
Qed.

Lemma at_pc_later t pc : (listening pc = true -> listening (rt_pc t) = true) -> later t (at_pc t pc).
Proof. done. Qed.

Lemma subscribed_kept c c' ts ts' :
  subscribed (mkRoomsConfig c ts) -> Forall2 later ts ts' ->
  (forall n i ch, registered (hub c) n i ch -> registered (hub c') n i ch) ->
  subscribed (mkRoomsConfig c' ts').
Proof.
  intros Hs Hl Hr Hnd i t' Ht'. cbn in *. rewrite (later_ids _ _ Hl) in Hnd.
  destruct (Forall2_lookup_r _ _ _ _ _ Hl Ht') as (t & Ht & Hid & Hroom & Hli).
  intros Hl'. rewrite Hid, Hroom. by apply Hr, (Hs Hnd), Hli.
Qed.

Lemma ids_differ (ts : list room_client) i j t u :
  NoDup (rt_id <$> ts) -> ts !! i = Some t -> ts !! j = Some u -> i <> j -> rt_id t <> rt_id u.
Proof.
  intros Hnd Ht Hu Hij E. apply Hij. eapply (NoDup_lookup _ i j (rt_id t) Hnd);
    rewrite list_lookup_fmap; [by rewrite Ht|by rewrite Hu, E].
Qed.

Lemma subscribed_enter h ps l vs p ts now room id hist ch h' :
  let name := normalizeRoomName room in
  length ts = length (channels h) ->
  subscribe h now name = (id, hist, ch, h') ->
  subscribed (mkRoomsConfig (mkChat h ps l vs p) ts) ->
  subscribed (mkRoomsConfig
    (mkChat h' ps l (vs ++ [mkView (normalizeRoomName name) (length l) [] []]) p)
    (ts ++ [mkRoomClient name id ch hist [] (ROpening hist)])).
Proof.
  intros name Hlen Hs Hsub Hnd. cbn in *.
  destruct (subscribe_spec _ _ _ _ _ _ _ Hs) as (_ & Hch & _ & _ & _ & Hr).
  rewrite fmap_app in Hnd. apply NoDup_app in Hnd as (Hnd & Hnew & _). apply every_snoc.
  - intros i t Ht Hl. apply Hr. right. split; [by apply Hsub|]. intros [_ E].
    apply (Hnew (rt_id t)); [apply list_elem_of_lookup|rewrite E; by left].
    exists i. by rewrite list_lookup_fmap, Ht.
  - intros _. apply Hr. left. cbn. split_and!; congruence.
Qed.

Lemma subscribed_leave h ps l vs p p' ts i t pc h' :
  ts !! i = Some t -> unsubscribed (rt_pc t) = Some pc ->
  unsubscribe h (rt_room t) (rt_id t) = Some h' ->
  subscribed (mkRoomsConfig (mkChat h ps l vs p) ts) ->
  subscribed (mkRoomsConfig (mkChat h' ps l vs p') (<[i := at_pc t pc]> ts)).
Proof.
  intros Ht Hpc Hu Hsub Hnd. cbn in *.
  destruct (unsubscribe_spec _ _ _ _ Hu) as (_ & Hr & _).
  assert (listening pc = false) as Hpc' by (by destruct (rt_pc t); simplify_eq/=).
  rewrite (later_ids ts) in Hnd by (eapply later_insert; [done|]; apply at_pc_later; by rewrite Hpc').
  intros j u Hj Hl. apply list_lookup_insert_Some in Hj as [(-> & <- & _)|[Hne Hj]].
  - cbn in Hl. congruence.
  - apply Hr. split; [by apply Hsub|]. intros [_ E]. by eapply (ids_differ ts i j).
Qed.

Lemma subscribed_step r r' :
  clients_ok r -> rooms_step r r' -> subscribed r -> subscribed r'.
Proof.
  intros [Hlen _] Hst.
  destruct Hst as [h ps l vs p ts now room id hist ch h' name Hs|c ts i t t' Ht Hc
    |h ps l vs p ts i t text pc now1 now2 e subs order h' Ht Ha Hp Ho
    |h ps l vs p ts nm event e subs order h' Hp Ho|h ps l vs p ts k e ch todo h' Hk Hs
    |h ps l vs p ts k e ch todo Hk Hs|h ps l vs p ts i t pc h' Ht Hu Hs
    |h ps l vs p ts i t pc Ht Hu Hs|h ps l vs p ts i t e h' Ht Hpc Hs|h ps l vs p ts i t h' Ht Hpc Hs];
    cbn in Hlen; intros Hsub.
  1: by eapply subscribed_enter.
  6: by eapply subscribed_leave.
  all: eapply subscribed_kept; [done| |cbn].
  all: try (eapply later_insert; [done|]).
  all: try (by apply Forall_Forall2_diag, Forall_true).
  all: try done.
  - by eapply client_step_later.
  - apply at_pc_later. by destruct (rt_pc t) as [| |[|]| | | | | | | |]; simplify_eq/=.
  - destruct (publish_locked_spec _ _ _ _ _ _ Hp) as (_ & _ & _ & Hr & _). intros n i' c. by rewrite Hr.
  - destruct (publish_locked_spec _ _ _ _ _ _ Hp) as (_ & _ & _ & Hr & _). intros n i' c. by rewrite Hr.
  - destruct (publish_send_spec _ _ _ _ Hs) as [Hr _]. intros n i' c. by apply registered_rooms.
  - apply Forall2_fmap_r, Forall_Forall2_diag, Forall_true. apply unwind_later.
  - apply at_pc_later. by rewrite Hpc.
  - destruct (receive_spec _ _ _ _ Hs) as [Hr _]. intros n i' c. by apply registered_rooms.
  - apply at_pc_later. by rewrite Hpc.
Qed.

(** *** Reachable states *)

Lemma rooms_inv r : rtc rooms_step rooms_start r -> clients_ok r /\ subscribed r.
Proof.
  intros Hr. assert (clients_ok rooms_start /\ subscribed rooms_start) as Hs
    by (split; [by split|by intros _]).
  assert (rtc any_step new_chat (rc_chat rooms_start)) as Hc by done.
  induction Hr as [r|r1 r2 r3 Hst _ IH]; [done|]. destruct Hs as [Ho Hs].
  destruct (reachable_inv _ Hc) as (Hwf & Hh & _). apply IH; [split|].
  - by eapply clients_ok_step.
  - by eapply subscribed_step.
  - etrans; [done|]. by apply rooms_step_chat.
Qed.

(** ** The theorems *)

(** ** Announcements *)

(** The publisher whose sends a handler is in. *)
Definition announces (t : room_client) : option nat :=
  match rt_pc t with
  | RJoining k | RClosing k => Some k
  | _ => None
  end.

(** A publisher is the announcement of one client at most. *)
Definition owners (r : rooms_config) : Prop :=
  forall i t k, rc_clients r !! i = Some t -> announces t = Some k ->
    (k < length (publishers (rc_chat r)))%nat /\
    forall j u, rc_clients r !! j = Some u -> announces u = Some k -> j = i.

Lemma owners_fewer c c' ts ts' :
  (length (publishers c) <= length (publishers c'))%nat ->
  (forall i t k, ts' !! i = Some t -> announces t = Some k ->
     exists u, ts !! i = Some u /\ announces u = Some k) ->
  owners (mkRoomsConfig c ts) -> owners (mkRoomsConfig c' ts').
Proof.
  intros Hlen Hts Ho i t k Ht Hk. cbn in *. destruct (Hts i t k Ht Hk) as (u & Hu & Hku).
  destruct (Ho i u k Hu Hku) as [Hlt Hone]. split; [cbn in *; lia|].
  intros j v Hj Hkj. destruct (Hts j v k Hj Hkj) as (x & Hx & Hkx). by eapply Hone.
Qed.

Lemma owners_insert c c' ts i t' :
  (length (publishers c) <= length (publishers c'))%nat -> announces t' = None ->
  owners (mkRoomsConfig c ts) -> owners (mkRoomsConfig c' (<[i := t']> ts)).
Proof.
  intros Hlen Ht'. apply owners_fewer; [done|]. intros j t k.
  destruct (decide (j = i)) as [->|Hne].
  - intros [(_ & <- & _)|[? _]]%list_lookup_insert_Some; [by rewrite Ht'|done].
  - rewrite list_lookup_insert_ne by done. by exists t.
Qed.

Lemma unwind_announces k0 t k : announces (unwind k0 t) = Some k -> announces t = Some k.
Proof. unfold announces, unwind. repeat case_match; simplify_eq/=; try done; congruence. Qed.

Lemma unwind_other k t : announces t <> Some k -> unwind k t = t.
Proof.
  unfold announces, unwind. destruct (rt_pc t) as [| | |k'| | | | |k'| |]; try done;
    destruct (Nat.eqb_spec k k') as [->|]; done.
Qed.

Lemma owners_step r r' : rooms_step r r' -> owners r -> owners r'.
Proof.
  intros Hs. destruct Hs as [h ps l vs p ts now room id hist ch h' name Hsub|c ts i t t' Ht Hst
    |h ps l vs p ts i t text pc now1 now2 e subs order h' Ht Ha _ _|h ps l vs p ts name ev e subs order h' _ _
    |h ps l vs p ts k e ch todo h' _ _|h ps l vs p ts k e ch todo _ _|h ps l vs p ts i t pc h' _ Hpc _
    |h ps l vs p ts i t pc _ _ _|h ps l vs p ts i t e h' _ _ _|h ps l vs p ts i t h' _ _ _].
  - apply owners_fewer; [done|]. intros j t k Hj Hk. exists t. split; [|done].
    apply lookup_snoc_Some in Hj as [[_ ?]|[_ <-]]; done.
  - apply owners_insert; [done|]. by destruct Hst.
  - intros Ho j u k Hj Hk. cbn [rc_clients rc_chat publishers] in *. rewrite length_app. cbn.
    assert (announces (at_pc t pc) = Some (length ps)) as Hown
      by (unfold announcing in Ha; repeat case_match; by simplify_eq).
    assert (forall j u k, ts !! j = Some u -> announces u = Some k -> (k < length ps)%nat) as Hlt
      by (intros j' u' k' Hj' Hk'; exact (proj1 (Ho j' u' k' Hj' Hk'))).
    apply list_lookup_insert_Some in Hj as [(<- & <- & _)|[Hne Hj]].
    + rewrite Hown in Hk. injection Hk as <-. split; [lia|].
      intros j v [(-> & _)|[_ Hv]]%list_lookup_insert_Some Hkv; [done|]. specialize (Hlt _ _ _ Hv Hkv). lia.
    + specialize (Hlt _ _ _ Hj Hk) as Hk'. split; [lia|].
      intros j' v [(<- & <- & _)|[_ Hv]]%list_lookup_insert_Some Hkv.
      * rewrite Hown in Hkv. injection Hkv as <-. lia.
      * by eapply (proj2 (Ho j u k Hj Hk)).
  - apply owners_fewer; [cbn; rewrite length_app; lia|]. intros j t k Hj Hk. by exists t.
  - apply owners_fewer; [cbn; by rewrite length_insert|]. intros j t k' Hj Hk. by exists t.
  - apply owners_fewer; [cbn; by rewrite length_insert|]. intros j t k'.
    rewrite list_lookup_fmap, fmap_Some. intros (u & Hu & ->) Hk. exists u. split; [done|].
    by eapply unwind_announces.
  - apply owners_insert; [done|]. unfold unsubscribed in Hpc. by repeat case_match; simplify_eq.
  - by apply owners_insert.
  - by apply owners_insert.
  - by apply owners_insert.
Qed.

Lemma rooms_owners r : rtc rooms_step rooms_start r -> owners r.
Proof.
  intros Hr. assert (owners rooms_start) as Ho by (intros i t k Ht; done).
  induction Hr as [|r1 r2 r3 Hs _ IH]; [done|]. by apply IH, (owners_step r1).
Qed.

(** Nobody is forgotten, and one client enters at a time. *)
Lemma rooms_step_grows r r' :
  rooms_step r r' -> (length (rc_clients r) <= length (rc_clients r') <= S (length (rc_clients r)))%nat.
Proof. destruct 1; cbn; rewrite ?length_app, ?length_insert, ?length_map; cbn; lia. Qed.

(** ** Histories *)


(** C10. Every client of a room, whatever the other clients and the posts do and
    wherever its handler is: what was written to it is a prefix of the snapshot
    it was shown, the last 120 events published to the room before it
    subscribed, followed by the events it received, in their order; and those
    are events published to the room since, none of them twice. *)
Theorem rooms_delivered r i t :
  rtc rooms_step rooms_start r -> rc_clients r !! i = Some t ->
  exists v, views (rc_chat r) !! i = Some v /\ v_room v = normalizeRoomName (rt_room t) /\
    rt_history t = keep_last chatHistoryLimit (published_before (rc_chat r) v) /\
    rt_written t `prefix_of` rt_history t ++ v_received v /\
    v_received v ⊆+ published_since (rc_chat r) v.
Proof.
  intros Hr Ht. destruct (rooms_inv _ Hr) as [[Hlen Hok] _].
  destruct (reachable_inv _ (rooms_chat _ Hr)) as (_ & _ & Hc).
  destruct (Hok i t Ht) as (Hi & v & Hv & Hroom & Hh & Hw). exists v. split_and!; [done..| |].
  - revert Hw. unfold written_ok. destruct (streaming (rt_pc t)); [|done].
    intros <-. by apply prefix_app_r.
  - apply lookup_lt_Some in Ht as Hlt. rewrite Hlen in Hlt.
    apply lookup_lt_is_Some_2 in Hlt as [cn Hcn]. destruct (Hc _ _ _ Hcn Hv) as [Hsub _].
    etrans; [|exact Hsub]. unfold accounted. apply submseteq_inserts_r. done.
Qed.

(** No send is left, and nothing waits in the channel of client [i]. *)
Definition at_rest (c : chat) (i : nat) : Prop :=
  Forall (fun p => pub_todo p = []) (publishers c) /\
  forall cn, channels (hub c) !! i = Some cn -> buffer cn = [].

Lemma at_rest_pending c i : at_rest c i -> pending (publishers c) i = [].
Proof.
  intros [Hp _]. apply pending_absent. intros p Hin. rewrite Forall_forall in Hp.
  rewrite (Hp p Hin). by intros ?%elem_of_nil.
Qed.

(** C6. Nothing is missing: as long as subscriber IDs did not collide and no
    goroutine of the hub panicked, the channel of a client that has not left is
    open, and once the room is at rest and the client waits for the next event
    it was written its snapshot and every event published to the room since,
    but those a full buffer lost. *)
Theorem rooms_complete r i t :
  rtc rooms_step rooms_start r -> NoDup (rt_id <$> rc_clients r) ->
  rc_clients r !! i = Some t -> listening (rt_pc t) = true ->
  (exists cn, channels (hub (rc_chat r)) !! i = Some cn /\ ch_closed cn = false) /\
  (panicked (rc_chat r) = false -> at_rest (rc_chat r) i -> rt_pc t = RForward ->
   exists v, views (rc_chat r) !! i = Some v /\
     Permutation (rt_written t ++ v_dropped v)
       (keep_last chatHistoryLimit (published_before (rc_chat r) v) ++
        published_since (rc_chat r) v)).
Proof.
  intros Hr Hnd Ht Hl. destruct (rooms_inv _ Hr) as [[Hlen Hok] Hsub].
  destruct (reachable_inv _ (rooms_chat _ Hr)) as (Hwf & _ & Hc).
  pose proof (Hsub Hnd i t Ht Hl) as Hreg.
  destruct (wf_reg _ Hwf _ _ _ Hreg) as (cn & v & Hcn & Hcl & Hv & Hroom). split; [by exists cn|].
  intros Hp Hrest Hpc. exists v. split; [done|].
  destruct (Hok i t Ht) as (Hi & v' & Hv' & _ & Hh & Hw). simplify_eq.
  destruct (Hc _ _ _ Hcn Hv) as [_ Heq].
  assert (Permutation (accounted (rc_chat r) (rt_chan t) cn v) (published_since (rc_chat r) v))
    as Hperm by (apply Heq; [done|by eexists _, _]).
  unfold accounted in Hperm. rewrite (at_rest_pending _ _ Hrest), app_nil_r in Hperm.
  destruct Hrest as [_ Hb]. rewrite (Hb cn Hcn) in Hperm.
  unfold written_ok in Hw. rewrite Hpc in Hw. cbn in Hw. rewrite app_nil_r in Hw.
  by rewrite Hw, Hh, <- app_assoc, <- Hperm.
Qed.
End Facts.

(** ** Runs *)

Section Demo.
#[local] Existing Instance ascii_tables.

Definition posted : chatEvent := mkChatEvent "msg-1" "message" "lounge" "ann" "1" "hi" 0.

(** Two clients enter after a message was posted. *)
Definition with_post : chatHub := (publish_locked newChatHub "lounge" posted).2.
Definition enter1 := subscribe with_post 1 "lounge".
Definition enter2 := subscribe enter1.2 2 "lounge".

Definition client1 pc : room_client := mkRoomClient "lounge" "sub-1" 0 [posted] [] pc.
Definition client2 pc : room_client := mkRoomClient "lounge" "sub-2" 1 [posted] [] pc.
Definition views2 : list view := [mkView "lounge" 1 [] []; mkView "lounge" 1 [] []].

(** The first fails to be written the history and unsubscribes; it announces
    that it left; the second, whose stream was refused, unsubscribes. *)
Definition left1 : chatHub := default newChatHub (unsubscribe enter2.2 "lounge" "sub-1").
Definition parting := publish_locked left1 "lounge"
  (newSystemEvent 3 4 "lounge" "A participant left the room.").
Definition left2 : chatHub := default newChatHub (unsubscribe parting.2 "lounge" "sub-2").

Definition room_of (h : chatHub) ps l p pc1 pc2 : rooms_config :=
  mkRoomsConfig (mkChat h ps l views2 p) [client1 pc1; client2 pc2].

Definition sends0 : publisher := mkPublisher posted [].
Definition sends1 todo : publisher := mkPublisher parting.1.1 todo.

Lemma two_entered :
  rtc rooms_step rooms_start
    (room_of enter2.2 [sends0] [posted] false (ROpening [posted]) (ROpening [posted])).
Proof.
  eapply rtc_l; [eapply (rs_post newChatHub [] [] [] false [] "lounge" posted posted ∅ []); [reflexivity|constructor]|].
  eapply rtc_l; [by apply (rs_enter with_post [sends0] [posted] [] false [] 1 "lounge" "sub-1" [posted] 0
    enter1.2)|].
  eapply rtc_l; [by apply (rs_enter enter1.2 [sends0] [posted] _ false _ 2 "lounge" "sub-2" [posted] 1
    enter2.2)|].
  apply rtc_refl.
Qed.

(** A client that leaves can stop another that is leaving: the publish in
    the deferred function of the first sends to a channel the second has just
    closed, the panic cuts the deferred function short, and its stream is
    never closed. *)
Theorem rooms_end_skipped : exists r t,
  rtc rooms_step rooms_start r /\ NoDup (rt_id <$> rc_clients r) /\
  rc_clients r !! 0%nat = Some t /\ rt_pc t = RPanicked.
Proof.
  exists (room_of left2 [sends0; sends1 []] [posted; parting.1.1] true RPanicked RReturned), (client1 RPanicked).
  split_and!; [|by repeat constructor; set_solver|done|done].
  etrans; [exact two_entered|].
  eapply rtc_l; [eapply (rs_client _ _ 0); [done|by eapply cl_opened]|].
  eapply rtc_l; [eapply (rs_client _ _ 0); [done|by eapply cl_snapshot_fails]|].
  eapply rtc_l; [by apply (rs_unsubscribe enter2.2 [sends0] [posted] views2 false _ 0 (client1 RLeaving)
    RParting left1)|].
  eapply rtc_l; [eapply (rs_client _ _ 1); [done|by eapply cl_refused]|].
  eapply rtc_l; [apply (rs_announce left1 [sends0] [posted] views2 false _ 0 (client1 RParting)
    "A participant left the room." (RClosing 1) 3 4 parting.1.1 parting.1.2 [1%nat] parting.2);
    [done..|exact (Permutation_refl [1%nat])]|].
  eapply rtc_l; [by apply (rs_unsubscribe parting.2 [sends0; sends1 [1%nat]] [posted; parting.1.1] views2
    false _ 1 (client2 RRefused) RReturned left2)|].
  eapply rtc_l; [by apply (rs_send_panics left2 [sends0; sends1 [1%nat]] [posted; parting.1.1] views2
    false _ 1 parting.1.1 1 [])|].
  apply rtc_refl.
Qed.

(** One client: it is written the history, announced, and written its own
    announcement. *)
Definition joining := publish_locked enter1.2 "lounge"
  (newSystemEvent 3 4 "lounge" "A participant joined the room.").
Definition told : chatHub := default newChatHub (publish_send joining.2 joining.1.1 0).
Definition heard : chatHub := (receive told 0).2.

Definition alone h ps l (received written : list chatEvent) pc : rooms_config :=
  mkRoomsConfig (mkChat h ps l [mkView "lounge" 1 received []] false)
    [mkRoomClient "lounge" "sub-1" 0 [posted] written pc].
Definition follows todo : list publisher := [sends0; mkPublisher joining.1.1 todo].

Definition up_to_date : rooms_config :=
  alone heard (follows []) [posted; joining.1.1] [joining.1.1] [posted; joining.1.1] RForward.

Lemma up_to_date_reached : rtc rooms_step rooms_start up_to_date.
Proof.
  eapply rtc_l; [eapply (rs_post newChatHub [] [] [] false [] "lounge" posted posted ∅ []);
    [reflexivity|constructor]|].
  eapply rtc_l; [by apply (rs_enter with_post [sends0] [posted] [] false [] 1 "lounge" "sub-1" [posted] 0
    enter1.2)|].
  eapply rtc_l; [eapply (rs_client _ _ 0); [done|by eapply cl_opened]|].
  eapply rtc_l; [eapply (rs_client _ _ 0); [done|by eapply cl_snapshot]|].
  eapply rtc_l; [apply (rs_announce enter1.2 [sends0] [posted] [mkView "lounge" 1 [] []] false _ 0
    (mkRoomClient "lounge" "sub-1" 0 [posted] [posted] (RSnapshot []))
    "A participant joined the room." (RJoining 1) 3 4 joining.1.1 joining.1.2 [0%nat] joining.2);
    [done..|exact (Permutation_refl [0%nat])]|].
  eapply rtc_l; [by apply (rs_send joining.2 (follows [0%nat]) [posted; joining.1.1] _ false _ 1
    joining.1.1 0 [] told)|].
  eapply rtc_l; [eapply (rs_client _ _ 0); [done|eapply cl_joined; [done|by eexists]]|].
  eapply rtc_l; [by apply (rs_receive told (follows []) [posted; joining.1.1] _ false _ 0
    (mkRoomClient "lounge" "sub-1" 0 [posted] [posted] RForward) joining.1.1 heard)|].
  eapply rtc_l; [eapply (rs_client _ _ 0); [done|by eapply cl_write]|].
  apply rtc_refl.
Qed.

(** The same message, [n] times. *)
Lemma posted_often n : exists r,
  rtc rooms_step rooms_start r /\ log (rc_chat r) = replicate n posted.
Proof.
  induction n as [|n (r & Hr & Hl)]; [by exists rooms_start|].
  destruct r as [[h ps l vs p] ts]. cbn in Hl. subst l.
  destruct (publish_locked h "lounge" posted) as [[e subs] h'] eqn:E.
  assert (e = posted) as -> by (unfold publish_locked in E; destruct (ensureRoomLocked _ _) as [r h1]; by injection E).
  eexists. split; [eapply rtc_r; [exact Hr|eapply (rs_post _ _ _ _ _ _ "lounge" posted); [exact E|apply Permutation_refl]]|].
  cbn [rc_chat log]. by rewrite replicate_S_end.
Qed.


Lemma rooms_delivered_witness :
  exists v, views (rc_chat up_to_date) !! 0%nat = Some v /\
    [posted; joining.1.1] `prefix_of` [posted] ++ v_received v /\
    v_received v ⊆+ published_since (rc_chat up_to_date) v.
Proof.
  destruct (rooms_delivered up_to_date 0 _ up_to_date_reached eq_refl) as (v & Hv & _ & _ & Hw & Hr).
  by exists v.
Defined.

Lemma rooms_complete_witness :
  exists v, views (rc_chat up_to_date) !! 0%nat = Some v /\
    Permutation ([posted; joining.1.1] ++ v_dropped v)
      (keep_last chatHistoryLimit (published_before (rc_chat up_to_date) v) ++
       published_since (rc_chat up_to_date) v).
Proof.
  assert (NoDup (rt_id <$> rc_clients up_to_date)) as Hnd by (repeat constructor; set_solver).
  refine (proj2 (rooms_complete up_to_date 0 _ up_to_date_reached Hnd eq_refl eq_refl) eq_refl _ eq_refl).
  split; [by repeat constructor|]. intros cn Hcn. vm_compute in Hcn. by injection Hcn as <-.
Defined.
End Demo.
