(* ===== verification/RoomClients.v ===== *)
(** * The handler of the room stream is a client of ChatRooms.v

    Room.v has the handler as it is executed, with what the other goroutines do
    to the hub as an argument; ChatRooms.v has all the clients of the hub as
    interleaved goroutines.  Every run of the handler is a run of one client of
    that system, with the others' steps in between, other clients that enter,
    post and leave among them, and what the system says was written to the
    client is what the handler wrote to the stream.  So what ChatRoomsProps.v
    shows of the system holds of the handler. *)

From S2P Require Import Prelude GoStd Scan NetURL Wire RefCodec Validation Reqctx Reply Streaming World Demos DemosProps Chat ChatProps Hub Room RoomProps ChatRooms ChatRoomsProps.
From Stdlib Require Import Ascii.

Local Open Scope string_scope.
Local Open Scope list_scope.

Section Clients.
Context {V : Type} `{Unicode} `{Msgpack V} `{Validator V} `{Boxed chatEvent V}.
Variable order : gmap string nat -> list nat.
Variable others : point -> chatHub -> chatHub.
Implicit Types (st : St V chatHub) (r : rooms_config).

(** ** Successful writes *)

Fixpoint all_written (sw : nat) (es : list chatEvent) st : option (St V chatHub) :=
  match es with
  | [] => Some st
  | e :: es =>
      match writeChatEvent sw e st with
      | (Returns None, st) => all_written sw es st
      | _ => None
      end
  end.

Lemma all_written_snoc sw es e st :
  all_written sw (es ++ [e]) st =
  match all_written sw es st with
  | Some st' =>
      match writeChatEvent sw e st' with
      | (Returns None, st'') => Some st''
      | _ => None
      end
  | None => None
  end.
Proof.
  revert st. induction es as [|e' es IH]; intros st; cbn [all_written app]; [done|].
  destruct (writeChatEvent sw e' st) as [[[err|]|p] st']; [done|apply IH|done].
Qed.

Lemma writeChatEvent_same sw e st st2 :
  stream_part st = stream_part st2 ->
  (writeChatEvent (V := V) sw e st).1 = (writeChatEvent sw e st2).1 /\
  stream_part (writeChatEvent sw e st).2 = stream_part (writeChatEvent sw e st2).2 /\
  st_env (writeChatEvent sw e st).2 = st_env st.
Proof.
  intros Hst. unfold writeChatEvent. destruct (Marshal _) as [d|err]; [|done].
  rewrite !bind_run. destruct (write_same sw (Some d) st st2 Hst) as (Hr & Hp & He).
  destruct (SW_Write sw (Some d) st) as [o st3], (SW_Write sw (Some d) st2) as [o2 st4].
  cbn [fst snd] in *. subst o2. by destruct o.
Qed.

Lemma writeChatEvent_valid sw e st : (sw < length (st_sws st))%nat ->
  exists err st', writeChatEvent (V := V) sw e st = (Returns err, st') /\
    length (st_sws st') = length (st_sws st).
Proof.
  intros Hsw. unfold writeChatEvent. destruct (Marshal _) as [d|err]; [|by eexists _, st].
  rewrite bind_run. destruct (write_valid sw (Some d) st Hsw) as (z & st' & -> & Hl). by eexists _, st'.
Qed.

(** The stream has what the writes of [es] from [st1] made of it; the same,
    after the loops were left, perhaps because of a write that failed. *)
Definition written_to sw st1 es st : Prop :=
  (sw < length (st_sws st))%nat /\
  exists stw, all_written sw es st1 = Some stw /\ stream_part st = stream_part stw.

Definition cut_off sw st1 es st : Prop :=
  (sw < length (st_sws st))%nat /\
  exists stw, all_written sw es st1 = Some stw /\
    (stream_part st = stream_part stw \/
     exists e err, (writeChatEvent sw e stw).1 = Returns (Some err) /\
       stream_part st = stream_part (writeChatEvent sw e stw).2).

Lemma written_cut sw st1 es st : written_to sw st1 es st -> cut_off sw st1 es st.
Proof. intros (Hsw & stw & Hw & Hp). split; [done|]. exists stw. by auto. Qed.

Lemma written_part sw st1 es st st' :
  stream_part st' = stream_part st -> written_to sw st1 es st -> written_to sw st1 es st'.
Proof.
  unfold written_to, stream_part. intros [= -> ->]. done.
Qed.

Lemma cut_part sw st1 es st st' :
  stream_part st' = stream_part st -> cut_off sw st1 es st -> cut_off sw st1 es st'.
Proof. unfold cut_off, stream_part. intros [= -> ->]. done. Qed.

(** One more write. *)
Lemma write_next sw st1 es st e :
  written_to sw st1 es st ->
  exists err st', writeChatEvent sw e st = (Returns err, st') /\ shared_world st' = shared_world st /\
    match err with
    | None => written_to sw st1 (es ++ [e]) st'
    | Some _ => cut_off sw st1 es st'
    end.
Proof.
  intros (Hsw & stw & Hw & Hp).
  destruct (writeChatEvent_valid sw e st Hsw) as (err & st' & HW & Hl).
  destruct (writeChatEvent_same sw e st stw Hp) as (Hr & Hp' & He). rewrite HW in *.
  exists err, st'. unfold shared_world. cbn in *. split; [done|]. split; [by rewrite He|].
  destruct (writeChatEvent sw e stw) as [o stw'] eqn:E. cbn in *. subst o.
  destruct err as [err|]; (split; [lia|]).
  - exists stw. split; [done|]. right. exists e, err. by rewrite E.
  - exists stw'. split; [|done]. by rewrite all_written_snoc, Hw, E.
Qed.

(** ** The client as the handler goes on *)

(** What Go leaves open. *)
Hypothesis order_ok : forall subs, collected subs (order subs).

(** The point of Room.v at which a client is; the close of the stream is the
    last thing the handler does, when its client has returned. *)
Definition at_point (p : point) (pc : room_pc) : bool :=
  match p, pc with
  | PNewStream, ROpening _ | PRefused, RRefused => true
  | PHistory _, RSnapshot (_ :: _) | PJoin, RSnapshot [] | PJoinSend _, RJoining _ => true
  | PReceive _, RForward | PWrite _, RWrite _ => true
  | PUnsubscribe, RLeaving | PLeave, RParting | PLeaveSend _, RClosing _ | PClose, RReturned => true
  | _, _ => false
  end.

(** What is relied on of the others, from [r0] on, where the client enters:
    whatever condition [I] on the system describes the runs in question, from
    its states with the client at a point, what the others do at that point is
    a run of theirs.  It leaves the client and its announcement alone; and [I]
    holds once the client has entered, and is kept by such runs and by every
    step that leaves the other clients alone. *)
Record rely (r0 : rooms_config) (I : rooms_config -> Prop) : Prop := mkRely {
  rely_enter r t : rooms_step r0 r -> rc_clients r = rc_clients r0 ++ [t] -> I r;
  rely_own r r' : I r -> rooms_step r r' ->
    (forall j, j <> length (rc_clients r0) -> rc_clients r' !! j = rc_clients r !! j) -> I r';
  rely_others p r t : I r -> rc_clients r !! length (rc_clients r0) = Some t ->
    at_point p (rt_pc t) = true -> exists r', rtc rooms_step r r' /\ I r' /\ hub (rc_chat r') = others p (hub (rc_chat r)) /\
      rc_clients r' !! length (rc_clients r0) = Some t /\
      forall k, announces t = Some k -> publishers (rc_chat r') !! k = publishers (rc_chat r) !! k;
}.

Section One.
Variables (r0 : rooms_config) (I : rooms_config -> Prop).
Variables (room id : string) (ch : nat) (hist : list chatEvent).
Hypothesis r0_reached : rtc rooms_step rooms_start r0.
Hypothesis relies : rely r0 I.
Abbreviation i := (length (rc_clients r0)).

Definition client_at (w : list chatEvent) (pc : room_pc) : room_client :=
  mkRoomClient room id ch hist w pc.

(** The system got to the hub of [st], with the client at [pc]; and with these
    sends left of its announcement. *)
Record at_config (r : rooms_config) st (w : list chatEvent) (pc : room_pc) : Prop := mkAtConfig {
  at_reached : rtc rooms_step r0 r;
  at_I : I r;
  at_hub : hub (rc_chat r) = shared_world st;
  at_pos : rc_clients r !! i = Some (client_at w pc);
}.

Definition sim st w pc : Prop := exists r, at_config r st w pc.

Definition sim_pub st w pc (k : nat) (e : chatEvent) (todo : list nat) : Prop :=
  exists r, at_config r st w pc /\ publishers (rc_chat r) !! k = Some (mkPublisher e todo).

(** A step of the client's own. *)
Lemma at_step r r' st st' w w' pc pc' :
  at_config r st w pc -> rooms_step r r' ->
  (forall j, j <> i -> rc_clients r' !! j = rc_clients r !! j) ->
  hub (rc_chat r') = shared_world st' -> rc_clients r' !! i = Some (client_at w' pc') ->
  at_config r' st' w' pc'.
Proof.
  intros [Hr HI Hh Hi] Hs Hj Hh' Hi'. split; [by eapply rtc_r|by eapply (rely_own _ _ relies)|done|done].
Qed.

Lemma at_insert (ts : list room_client) t t' : ts !! i = Some t -> <[i := t']> ts !! i = Some t'.
Proof. intros Hi. apply list_lookup_insert_eq. by eapply lookup_lt_Some. Qed.

Lemma at_others_insert (ts : list room_client) t' j : j <> i -> <[i := t']> ts !! j = ts !! j.
Proof. intros Hj. by apply list_lookup_insert_ne. Qed.

Lemma sim_client st st' w w' pc pc' :
  shared_world st' = shared_world st ->
  (forall ps, client_step ps (client_at w pc) (client_at w' pc')) -> sim st w pc -> sim st' w' pc'.
Proof.
  intros Hw Hc (r & Hat). pose proof Hat as [_ _ Hh Hi]. destruct r as [c ts]. eexists.
  eapply at_step; [exact Hat|by eapply rs_client|intros j; apply at_others_insert|cbn in *; congruence|].
  by eapply at_insert.
Qed.

(** *** The others *)

Lemma at_others r st w pc p : at_point p pc = true -> at_config r st w pc -> exists r',
  at_config r' (set_env_world st (others p (shared_world st))) w pc /\
  forall k, announces (client_at w pc) = Some k -> publishers (rc_chat r') !! k = publishers (rc_chat r) !! k.
Proof.
  intros Hpt [Hr HI Hh Hi]. destruct (rely_others _ _ relies p r _ HI Hi Hpt) as (r' & Hr' & HI' & Hh' & Hi' & Hp).
  exists r'. split; [|exact Hp]. split; [by etrans|done|by rewrite Hh', Hh|done].
Qed.

Lemma sim_others p st w pc :
  at_point p pc = true -> sim st w pc -> sim (set_env_world st (others p (shared_world st))) w pc.
Proof.
  intros Hpt (r & Hat). destruct (at_others r st w pc p Hpt Hat) as (r' & Hat' & _). by exists r'.
Qed.

Lemma sim_pub_others st w pc k e todo p :
  announces (client_at w pc) = Some k -> at_point p pc = true -> sim_pub st w pc k e todo ->
  sim_pub (set_env_world st (others p (shared_world st))) w pc k e todo.
Proof.
  intros Hk Hpt (r & Hat & Hp). destruct (at_others r st w pc p Hpt Hat) as (r' & Hat' & Hp').
  exists r'. split; [done|]. by rewrite Hp'.
Qed.

(** *** The history *)

Lemma sim_history sw st1 k rest st w :
  written_to sw st1 w st -> sim st w (RSnapshot rest) ->
  exists b st' w', send_history others sw k rest st = (Returns b, st') /\
    if b : bool then written_to sw st1 w' st' /\ sim st' w' (RSnapshot [])
    else cut_off sw st1 w' st' /\ sim st' w' RLeaving.
Proof.
  revert k st w. induction rest as [|e rest IH]; intros k st w Hw Hs; cbn [send_history].
  { by exists true, st, w. }
  rewrite bind_run, meanwhile_run, bind_run. apply (sim_others (PHistory k)) in Hs; [|done].
  set (st0 := set_env_world st _) in *.
  destruct (write_next _ _ _ _ e (written_part _ _ _ _ st0 eq_refl Hw)) as (err & st' & HW & Hh & Hw').
  rewrite HW. destruct err as [err|].
  - exists false, st', w. split_and!; [done..|]. eapply sim_client; [done| |exact Hs].
    intros ps. by apply (cl_snapshot_fails ps (client_at w (RSnapshot (e :: rest))) e rest).
  - apply (IH (S k) _ (w ++ [e])); [done|]. eapply sim_client; [done| |exact Hs].
    intros ps. by apply (cl_snapshot ps (client_at w (RSnapshot (e :: rest)))).
Qed.

(** *** Announcements *)

(** A panic of the client's own publisher unwinds no other goroutine. *)
Lemma unwind_others r st w pc k j :
  at_config r st w pc -> announces (client_at w pc) = Some k -> j <> i ->
  map (unwind k) (rc_clients r) !! j = rc_clients r !! j.
Proof.
  intros [Hr _ _ Hi] Hk Hj. rewrite list_lookup_fmap.
  destruct (rc_clients r !! j) as [u|] eqn:Hu; [|done]. cbn. f_equal. apply unwind_other.
  intros Hku. apply Hj. eapply (proj2 (rooms_owners r ltac:(by etrans) i _ k Hi Hk)); [exact Hu|exact Hku].
Qed.

Lemma sim_sends sends n k e todo st w pc pdone pfail :
  announces (client_at w pc) = Some k -> (forall n, at_point (sends n) pc = true) ->
  (forall ps, sent_all ps k -> client_step ps (client_at w pc) (client_at w pdone)) ->
  unwind k (client_at w pc) = client_at w pfail ->
  sim_pub st w pc k e todo -> exists res st', send_each others sends n e todo st = (res, st') /\
    stream_part st' = stream_part st /\
    sim st' w (match res with Returns _ => pdone | Panics _ => pfail end).
Proof.
  intros Hk Hpt Hdone Hfail. revert n st. induction todo as [|x todo IH]; intros n st Hs; cbn [send_each].
  { exists (Returns tt), st. split_and!; [done..|]. destruct Hs as (r & Hat & Hp).
    pose proof Hat as [_ _ Hh Hi]. destruct r as [c ts]. eexists.
    eapply at_step; [exact Hat|eapply rs_client; [exact Hi|apply Hdone; by exists e]
      |intros j; apply at_others_insert|done|by eapply at_insert]. }
  rewrite bind_run, meanwhile_run, bind_run, get_world_run. cbn [st_env set_env_world world].
  apply (sim_pub_others _ _ _ _ _ _ (sends n) Hk (Hpt n)) in Hs. set (st0 := set_env_world st _) in *.
  destruct Hs as (r & Hat & Hp). pose proof Hat as [_ _ Hh Hi].
  change (others (sends n) (shared_world st)) with (shared_world st0). rewrite <- Hh.
  destruct r as [[h ps l vs p] ts]. cbn [rc_chat rc_clients hub publishers] in *.
  assert (forall q, <[k := q]> ps !! k = Some q) as Hq
    by (intros q; apply list_lookup_insert_eq; by eapply lookup_lt_Some).
  destruct (publish_send h e x) as [h1|] eqn:E.
  - rewrite bind_run, put_world_run. apply (IH (S n) (set_env_world st0 h1)). eexists. split.
    + eapply at_step; [exact Hat|by eapply rs_send|by intros|done|exact Hi].
    + apply Hq.
  - eexists (Panics _), _. split_and!; [done|done|]. eexists.
    eapply at_step; [exact Hat|by eapply rs_send_panics| |exact Hh|].
    + intros j Hj. exact (unwind_others _ _ _ _ k j Hat Hk Hj).
    + cbn. by rewrite list_lookup_fmap, Hi, <- Hfail.
Qed.

Lemma sim_announce lock sends st w pc text (pck : nat -> room_pc) pdone pfail :
  (forall k, announcing pc k = Some (text, pck k)) ->
  (forall k, announces (client_at w (pck k)) = Some k) ->
  at_point lock pc = true -> (forall k n, at_point (sends n) (pck k) = true) ->
  (forall k ps, sent_all ps k -> client_step ps (client_at w (pck k)) (client_at w pdone)) ->
  (forall k, unwind k (client_at w (pck k)) = client_at w pfail) ->
  sim st w pc -> exists res st', publish_system order others lock sends room text st = (res, st') /\
    stream_part st' = stream_part st /\
    sim st' w (match res with Returns _ => pdone | Panics _ => pfail end).
Proof.
  intros Ha Hk Hlock Hpt Hdone Hfail Hs. unfold publish_system.
  rewrite bind_run, time_Now_run, bind_run, time_Now_run, bind_run, meanwhile_run, bind_run, get_world_run.
  match goal with |- context [set_env_world ?s (others lock _)] => set (st1 := s) end.
  assert (sim st1 w pc) as Hs1 by (destruct Hs as (r & [Hr HI Hh Hi]); by exists r).
  apply (sim_others lock) in Hs1; [|done]. set (st2 := set_env_world st1 _) in *.
  change (world (st_env st2)) with (shared_world st2). destruct Hs1 as (r & Hat).
  pose proof Hat as [_ _ Hh Hi]. rewrite <- Hh. destruct r as [[h ps l vs p] ts].
  cbn [rc_chat rc_clients hub publishers] in *. clear Hh.
  match goal with |- context [publish_locked h room ?ev] => destruct (publish_locked h room ev) as [[e subs] h1] eqn:E end.
  rewrite bind_run, put_world_run.
  assert (sim_pub (set_env_world st2 h1) w (pck (length ps)) (length ps) e (order subs)) as Hp.
  { eexists. split; [eapply at_step;
      [exact Hat|eapply (rs_announce _ _ _ _ _ _ i (client_at w pc)); [exact Hi|apply Ha|exact E|apply order_ok]
      |intros j; apply at_others_insert|done|by eapply at_insert]|by apply list_lookup_middle]. }
  destruct (sim_sends sends 0 _ _ _ _ _ _ pdone pfail (Hk _) (Hpt _) (Hdone _) (Hfail _) Hp)
    as (res & st' & -> & Hpart & Hsim). by exists res, st'.
Qed.

(** *** The events *)

(** A receive, once the others have done what they did. *)
Lemma sim_receive st w h' a : sim st w RForward -> receive (shared_world st) ch = (a, h') ->
  sim (set_env_world st h') w
    (match a with REvent e => RWrite e | RClosed => RLeaving | RWaits => RForward end).
Proof.
  intros (r & Hat) Hrec. pose proof Hat as [Hr HI Hh Hi]. destruct r as [[h ps l vs p] ts].
  cbn in Hh, Hi. subst h.
  assert (h' = shared_world st \/ exists e, a = REvent e) as Hh'.
  { unfold receive in Hrec. repeat case_match; simplify_eq; eauto. }
  destruct a as [e| |].
  - eexists. eapply at_step; [exact Hat|by eapply (rs_receive _ _ _ _ _ _ _ (client_at w RForward))
      |intros j; apply at_others_insert|done|by eapply at_insert].
  - destruct Hh' as [->|[? ?]]; [|done]. eexists.
    eapply at_step; [exact Hat|by eapply (rs_closed _ _ _ _ _ _ _ (client_at w RForward))
      |intros j; apply at_others_insert|done|by eapply at_insert].
  - destruct Hh' as [->|[? ?]]; [|done]. by eexists.
Qed.

Lemma sim_forward sw st1 name sub fuel k st w :
  written_to sw st1 w st -> sim st w RForward ->
  exists res st' w', forward others name sub sw ch fuel k st = (Returns res, st') /\
    match res with
    | None => written_to sw st1 w' st' /\ sim st' w' RForward
    | Some _ => cut_off sw st1 w' st' /\ sim st' w' RLeaving
    end.
Proof.
  revert k st w. induction fuel as [|fuel IH]; intros k st w Hw Hs; cbn [forward].
  { by exists None, st, w. }
  unfold await. rewrite bind_run, bind_run, meanwhile_run, bind_run, get_world_run.
  apply (sim_others (PReceive k)) in Hs; [|done]. set (st0 := set_env_world st _) in *.
  change (world (st_env st0)) with (shared_world st0).
  destruct (receive (shared_world st0) ch) as [a h] eqn:E.
  pose proof (sim_receive _ _ _ _ Hs E) as Hr. rewrite bind_run, put_world_run. unfold mret at 1, M_ret at 1.
  change (mkSt _ _ _) with (set_env_world st0 h). set (st2 := set_env_world st0 h) in *.
  pose proof (written_part _ _ _ _ st2 eq_refl Hw) as Hw2. destruct a as [e| |].
  - rewrite bind_run, meanwhile_run, bind_run. apply (sim_others (PWrite k)) in Hr; [|done].
    set (st3 := set_env_world st2 _) in *.
    destruct (write_next _ _ _ _ e (written_part _ _ _ _ st3 eq_refl Hw2)) as (err & st' & HW & Hh & Hw').
    rewrite HW. destruct err as [err|].
    + exists (Some None), st', w. split_and!; [done..|].
      eapply sim_client; [exact Hh| |exact Hr]. intros ps.
      by apply (cl_write_fails ps (client_at w (RWrite e)) e).
    + apply (IH _ _ (w ++ [e])); [done|]. eapply sim_client; [exact Hh| |exact Hr].
      intros ps. by apply (cl_write ps (client_at w (RWrite e))).
  - rewrite bind_run. cbn. eexists (Some None), _, w. split_and!; [done| |].
    + eapply cut_part; [|by apply (written_cut _ _ _ _ Hw2)]. done.
    + destruct Hr as (r & []). by exists r.
  - by eapply IH.
Qed.

(** *** The deferred function *)

(** The end of the stream: closed, or not when the deferred function panicked. *)
Definition ended sw st1 w st (closed : bool) : Prop := exists st2,
  cut_off sw st1 w st2 /\
  stream_part st = if closed then stream_part (SW_Close sw st2).2 else stream_part st2.

Lemma sim_unsubscribe st w pc pc' :
  unsubscribed pc = Some pc' -> sim st w pc -> exists res st',
    run_unsubscribe room id st = (res, st') /\ stream_part st' = stream_part st /\
    sim st' w (match res with Returns _ => pc' | Panics _ => RPanicked end).
Proof.
  intros Hpc (r & Hat). pose proof Hat as [_ _ Hh Hi]. destruct r as [[h ps l vs p] ts]. cbn in Hh, Hi. subst h.
  unfold run_unsubscribe. rewrite bind_run, get_world_run. change (world (st_env st)) with (shared_world st).
  destruct (unsubscribe (shared_world st) room id) as [h'|] eqn:E.
  - exists (Returns tt), (set_env_world st h'). split_and!; [done|done|]. eexists.
    eapply at_step; [exact Hat|by eapply (rs_unsubscribe _ _ _ _ _ _ _ (client_at w pc))
      |intros j; apply at_others_insert|done|by eapply at_insert].
  - eexists (Panics _), st. split_and!; [done|done|]. eexists.
    eapply at_step; [exact Hat|by eapply (rs_unsubscribe_panics _ _ _ _ _ _ _ (client_at w pc))
      |intros j; apply at_others_insert|done|by eapply at_insert].
Qed.

Lemma sim_leave sw st1 st st' w res :
  leave order others room id sw st = (res, st') -> cut_off sw st1 w st -> sim st w RLeaving ->
  match res with
  | Returns _ => ended sw st1 w st' true /\ sim st' w RReturned
  | Panics _ => ended sw st1 w st' false /\ sim st' w RPanicked
  end.
Proof.
  intros Hl Hc Hs. unfold leave in Hl. rewrite bind_run, meanwhile_run, bind_run in Hl.
  apply (sim_others PUnsubscribe) in Hs; [|done]. set (st0 := set_env_world st _) in *.
  pose proof (cut_part _ _ _ _ st0 eq_refl Hc) as Hc0.
  destruct (sim_unsubscribe _ _ RLeaving RParting eq_refl Hs) as (o & st2 & Eu & Hp2 & Hs2). rewrite Eu in Hl.
  destruct o as [[]|q]; [|injection Hl as <- <-; split; [by exists st0|done]].
  rewrite bind_run in Hl.
  destruct (sim_announce PLeave PLeaveSend st2 w RParting _ RClosing RReturned RPanicked
    ltac:(done) ltac:(done) ltac:(done) ltac:(done) ltac:(intros; by eapply (cl_closed _ (client_at w (RClosing _))))
    ltac:(intros; unfold unwind; cbn; by rewrite Nat.eqb_refl) Hs2) as (o & st3 & Ep & Hp3 & Hs3).
  rewrite Ep in Hl. assert (stream_part st3 = stream_part st0) as Hp by congruence.
  destruct o as [[]|q]; [|injection Hl as <- <-; split; [by exists st0|done]].
  rewrite bind_run, meanwhile_run, bind_run in Hl. apply (sim_others PClose) in Hs3; [|done].
  set (st4 := set_env_world st3 _) in *. change (stream_part st4 = stream_part st0) in Hp.
  pose proof (cut_part _ _ _ _ st4 Hp Hc0) as Hc4.
  destruct (close_valid sw st4) as (r' & st5 & HC & _); [exact (proj1 Hc4)|].
  rewrite HC in Hl. injection Hl as <- <-. split; [exists st4; split; [done|by rewrite HC]|].
  assert (shared_world st5 = shared_world st4) as He.
  { pose proof (moves (R := eq) (m := SW_Close (V := V) (W := chatHub) sw) st4) as Hm. by rewrite HC in Hm. }
  destruct Hs3 as (r & []). exists r. split; [done|done|by rewrite He|done].
Qed.

(** *** The handler without a stream *)

(** Its call of [unsubscribe] does not panic: the channel is open. *)
Lemma sim_refused st : sim st [] RRefused -> exists st',
  (_ ← meanwhile others PRefused; run_unsubscribe room id) st = (Returns tt, st') /\
  stream_part st' = stream_part st /\ sim st' [] RReturned.
Proof.
  intros Hs. rewrite bind_run, meanwhile_run. apply (sim_others PRefused) in Hs; [|done].
  set (st3 := set_env_world st _) in *.
  destruct (sim_unsubscribe _ _ RRefused RReturned eq_refl Hs) as (o & st4 & Eu & Hp4 & Hs4). rewrite Eu.
  destruct o as [[]|q]; [by exists st4|]. exfalso. destruct Hs as (r & [Hr _ Hh _]).
  unfold run_unsubscribe in Eu. rewrite bind_run, get_world_run in Eu.
  change (world (st_env st3)) with (shared_world st3) in Eu. rewrite <- Hh in Eu.
  destruct (unsubscribe (hub (rc_chat r)) room id) eqn:En; [done|].
  revert En. apply unsubscribe_no_panic. eapply reachable_inv, rooms_chat. by etrans.
Qed.

(** *** The handler, from its first frame on *)

Definition room_outcome sw st1 w st (res : outcome (option (option error))) : Prop :=
  match res with
  | Returns None => written_to sw st1 w st /\ sim st w RForward
  | Returns (Some _) => ended sw st1 w st true /\ sim st w RReturned
  | Panics _ =>
      (ended sw st1 w st true /\ sim st w RReturned) \/ (ended sw st1 w st false /\ sim st w RPanicked)
  end.

Lemma sim_deferred sw st1 st st2 st' w (o : outcome (option (option error))) res :
  defer (leave order others room id sw) (fun _ => (o, st2)) st = (res, st') ->
  o <> Returns None -> cut_off sw st1 w st2 -> sim st2 w RLeaving -> room_outcome sw st1 w st' res.
Proof.
  intros Hd Ho Hc Hs. unfold defer in Hd. destruct (leave order others room id sw st2) as [ol st3] eqn:El.
  pose proof (sim_leave _ _ _ _ _ _ El Hc Hs) as Hl.
  destruct o as [[r'|]|p], ol as [u|q]; simplify_eq/=; first [done|by left|by right].
Qed.

Lemma sim_body sw st1 fuel st res st' :
  defer_fuel (leave order others room id sw) (room_body order others room id hist sw ch fuel) st = (res, st') ->
  written_to sw st1 [] st -> sim st [] (RSnapshot hist) ->
  exists w, room_outcome sw st1 w st' res.
Proof.
  intros Hd Hw Hs. unfold defer_fuel, defer, room_body in Hd. rewrite bind_run in Hd.
  destruct (sim_history _ _ 0 _ _ _ Hw Hs) as (b & st2 & w & HS & Hb). rewrite HS in Hd.
  destruct b; cbn [negb] in Hd.
  2: { destruct Hb as [Hc2 Hs2]. exists w. by eapply (sim_deferred _ _ st st2 _ _ (Returns (Some None))). }
  destruct Hb as [Hw2 Hs2]. rewrite bind_run in Hd.
  destruct (sim_announce PJoin PJoinSend st2 w (RSnapshot []) _ RJoining RForward RLeaving
    ltac:(done) ltac:(done) ltac:(done) ltac:(done) ltac:(intros; by eapply (cl_joined _ (client_at w (RJoining _))))
    ltac:(intros; unfold unwind; cbn; by rewrite Nat.eqb_refl) Hs2) as (o & st3 & Ep & Hp3 & Hs3).
  rewrite Ep in Hd. pose proof (written_part _ _ _ _ _ Hp3 Hw2) as Hw3.
  destruct o as [[]|p].
  2: { exists w. eapply (sim_deferred _ _ st st3 _ _ (Panics p)); [exact Hd|done|by apply written_cut|done]. }
  destruct (sim_forward sw st1 room id fuel 0 st3 w Hw3 Hs3) as (r & st4 & w' & HF & Hr).
  rewrite HF in Hd. exists w'. destruct r as [r|]; [|by injection Hd as <- <-].
  destruct Hr as [Hc4 Hs4]. by eapply (sim_deferred _ _ st st4 _ _ (Returns (Some r))).
Qed.
End One.

(** ** The theorem *)

(** How far the handler got on a stream it opened, with [st1] when it had. *)
Definition stage sw st1 (t : room_client) (res : outcome (option (option error))) st' : Prop :=
  match res with
  | Returns None => rt_pc t = RForward /\ written_to sw st1 (rt_written t) st'
  | Returns (Some _) => rt_pc t = RReturned /\ ended sw st1 (rt_written t) st' true
  | Panics _ =>
      (rt_pc t = RReturned /\ ended sw st1 (rt_written t) st' true) \/
      (rt_pc t = RPanicked /\ ended sw st1 (rt_written t) st' false)
  end.

(** What the client of [t] was sent, and how far the handler got: its stream
    was refused; or the events written so far are those of [t], while it runs
    ([None]), when it returned, or when a panic ended it. *)
Definition client_stream st (t : room_client) (res : outcome (option (option error))) st' : Prop :=
  let opened := NewStream 200 (Some {["x-stream" := "chat-room"]}) st in
  match opened.1 with
  | Returns (Err err) =>
      res = Returns (Some (Some err)) /\ rt_pc t = RReturned /\ rt_written t = [] /\
      stream_part st' = stream_part opened.2
  | Returns (Ok sw) => exists st1, stream_part st1 = stream_part opened.2 /\ stage sw st1 t res st'
  | Panics _ => False
  end.

End Clients.

(** ** Witness: somebody else leaves while the handler waits *)

Section Witness.
#[local] Existing Instance ascii_tables.
#[local] Existing Instance event_boxed.
#[local] Existing Instance event_codec.
#[local] Existing Instance event_validator.

(** Ben entered before; his stream could not be opened, and he is about to
    leave. *)
Definition ben (pc : room_pc) : room_client := mkRoomClient "lounge" "sub-50" 0 [] [] pc.

Definition ben_entered : chatHub := (subscribe newChatHub 50 "lounge").2.

Definition ben_there : rooms_config :=
  mkRoomsConfig (mkChat ben_entered [] [] [mkView "lounge" 0 [] []] false) [ben RRefused].

Lemma ben_reached : rtc rooms_step rooms_start ben_there.
Proof.
  eapply rtc_l; [by eapply (rs_enter newChatHub [] [] [] false [] 50 "lounge")|].
  apply rtc_once. apply (rs_client _ [ben (ROpening [])] 0 (ben (ROpening []))); [done|].
  by apply (cl_refused _ (ben (ROpening [])) []).
Qed.

(** He unsubscribes before the third receive. *)
Definition ben_leaves (p : point) (h : chatHub) : chatHub :=
  match p with
  | PReceive 2 => default h (unsubscribe h "lounge" "sub-50")
  | _ => h
  end.

(** The states in which he still has to unsubscribe, or is gone. *)
Definition ben_gone (h : chatHub) : Prop :=
  forall ch, ~ registered h (normalizeRoomName "lounge") "sub-50" ch.

Definition ben_somewhere (r : rooms_config) : Prop :=
  length (rc_clients r) = 2%nat /\
  (rc_clients r !! 0%nat = Some (ben RRefused) \/
   (rc_clients r !! 0%nat = Some (ben RReturned) /\ ben_gone (hub (rc_chat r)))).

Lemma unsubscribe_absent h :
  ben_gone h -> default h (unsubscribe h "lounge" "sub-50") = h.
Proof.
  intros Hg. unfold unsubscribe. destruct (rooms h !! _) as [r|] eqn:Hr; [|done].
  destruct (subscribers r !! "sub-50") as [ch|] eqn:Hs; [|done].
  exfalso. apply (Hg ch). by exists r.
Qed.

(** What the client does itself registers nobody. *)
Lemma own_step_registers r r' :
  rooms_step r r' -> length (rc_clients r') = length (rc_clients r) ->
  ben_gone (hub (rc_chat r)) -> ben_gone (hub (rc_chat r')).
Proof.
  intros Hs Hl Hg ch Hr. apply (Hg ch). revert Hr.
  destruct Hs as [h ps l vs p ts now room id hist c h' name Hsub|c ts i t t' Ht Hst
    |h ps l vs p ts i t text pc now1 now2 e subs order h' Ht Ha Hp _|h ps l vs p ts name ev e subs order h' Hp _
    |h ps l vs p ts k e c todo h' _ Hs|h ps l vs p ts k e c todo _ _|h ps l vs p ts i t pc h' _ _ Hu
    |h ps l vs p ts i t pc _ _ _|h ps l vs p ts i t e h' _ _ Hrec|h ps l vs p ts i t h' _ _ _]; cbn in *; try done.
  - rewrite length_app in Hl. cbn in Hl. lia.
  - apply (publish_locked_spec _ _ _ _ _ _ Hp).
  - apply (publish_locked_spec _ _ _ _ _ _ Hp).
  - apply registered_rooms. symmetry. exact (proj1 (publish_send_spec _ _ _ _ Hs)).
  - intros Hr. by apply (unsubscribe_spec _ _ _ _ Hu) in Hr as [? _].
  - apply registered_rooms. symmetry. exact (proj1 (receive_spec _ _ _ _ Hrec)).
Qed.

Lemma ben_relied : rely ben_leaves ben_there ben_somewhere.
Proof.
  split; cbn [rc_clients ben_there length].
  - intros r t Hs Ht. split; [by rewrite Ht|]. left. by rewrite Ht.
  - intros r r' [Hl Hb] Hs Hj. assert (length (rc_clients r') = 2%nat) as Hl'.
    { assert (rc_clients r' !! 2%nat = None) as Hn by (rewrite Hj by done; apply lookup_ge_None; lia).
      apply lookup_ge_None in Hn. pose proof (rooms_step_grows _ _ Hs). lia. }
    split; [done|]. rewrite Hj by done. destruct Hb as [Hb|[Hb Hg]]; [by left|right].
    split; [done|]. apply (own_step_registers _ _ Hs); [lia|done].
  - intros p r t [Hl Hb] Ht _.
    assert (ben_leaves p (hub (rc_chat r)) = hub (rc_chat r) \/
      exists h', unsubscribe (hub (rc_chat r)) "lounge" "sub-50" = Some h' /\
        ben_leaves p (hub (rc_chat r)) = h' /\ rc_clients r !! 0%nat = Some (ben RRefused)) as [E|(h' & Hu & E & Hben)].
    { unfold ben_leaves. destruct p as [| | | | |[|[|[|k]]]| | | | |]; auto.
      destruct Hb as [Hb|[_ Hg]]; [|left; by apply unsubscribe_absent].
      destruct (unsubscribe (hub (rc_chat r)) "lounge" "sub-50") as [h'|]; [right; by exists h'|by left]. }
    + exists r. by rewrite E.
    + destruct r as [[h ps l vs pk] ts]. cbn in *. exists (mkRoomsConfig (mkChat h' ps l vs pk) (<[0%nat := ben RReturned]> ts)).
      split; [|split; [|split; [by rewrite E|split; [by cbn [rc_clients]; rewrite list_lookup_insert_ne|done]]]].
      * apply rtc_once. by apply (rs_unsubscribe _ _ _ _ _ _ 0 (ben RRefused) RReturned h').
      * split; [cbn [rc_clients]; by rewrite length_insert|]. right. cbn [rc_clients rc_chat hub]. rewrite list_lookup_insert_eq by lia. split; [done|].
        intros ch Hr. apply (unsubscribe_spec _ _ _ _ Hu) in Hr as [_ Hne]. by apply Hne.
Qed.

Definition asked : St chatEvent chatHub := set_env_world (RoomProps.in_room None) ben_entered.

Definition waiting : outcome (option (option error)) * St chatEvent chatHub :=
  get_room_stream in_order ben_leaves 4 asked.

(** The handler waits for its fifth event, with one chunk on the stream, and is
    alone in the room. *)
Example waiting_writes :
  waiting.1 = Returns None /\ st_sws waiting.2 = [mkStreamWriter "r1" 1 false] /\
  (subscribers <$> rooms (shared_world waiting.2) !! "lounge") = Some {["sub-7" := 1%nat]}.
Proof. split_and!; vm_compute; reflexivity. Qed.

End Witness.
