(* ===== verification/Mtls.v ===== *)
(** * The mutual-TLS example (examples/mtls-pki/main.go)

    The application [main] builds, and what its clients get.  [ListenWithPKI]
    (Lifecycle.v) is a stub that returns at once, so [main] never serves it;
    the theorem is about the application on a connection handed to
    [HandleNativeConn]. *)

From S2P Require Import Prelude GoStd NetURL Wire RefCodec Validation Reqctx Reply Router RouterProps App Middleware MiddlewareProps World.
From Stdlib Require Import Ascii.

Local Open Scope string_scope.
Local Open Scope list_scope.

(** The %s verb of [fmt] on an interface; a string prints as itself. *)
Class FormatS (V : Type) `{Boxed string V} := {
  fmt_s : option V -> string;
  fmt_s_box s : fmt_s (Some (box s)) = s;
}.

Section Mtls.
Context {V W : Type} `{Unicode} `{Msgpack V} `{Validator V} `{FormatS V}.

Definition get_secure : HandlerFunc V W :=
  ctx ← get_ctx;
  let nodeID := default None (Get_ ctx "node_id") in
  Send 200 (Some (String.list_byte_of_string
    ("Hello, " +:+ fmt_s nodeID +:+ "! Access granted via mTLS."))).

Definition mtls_app : App V W :=
  let app := App.Use New [MTLSAuth] in
  let app := App.Use app [Logger []] in
  App.GET app "/secure" get_secure.

Implicit Types (st : St V W).

Definition mtls_chain `{URLAuthority} (req : Request) : HandlerFunc V W :=
  applyMiddleware (resolve mtls_app req).1 (middleware mtls_app).

Lemma MTLSAuth_run next st :
  MTLSAuth next st =
  match PeerCertificates (st_ctx st) with
  | [] => Error 401 "mTLS: missing peer certificates" [] st
  | cert :: _ =>
      if String.eqb (Subject_CommonName cert) ""
      then Error 401 "mTLS: identity missing in certificate" [] st
      else next (with_local st "node_id" (Some (box (Subject_CommonName cert))))
  end.
Proof.
  unfold MTLSAuth. rewrite bind_run. cbn [get_ctx].
  destruct (PeerCertificates (st_ctx st)) as [|cert chain]; [done|]. cbv zeta.
  by destruct (String.eqb _ "").
Qed.

(** The handler, on a state with an identity. *)
Lemma get_secure_run cn st :
  ctx_locals (st_ctx st) !! "node_id" = Some (Some (box cn)) ->
  get_secure st = Send 200 (Some (String.list_byte_of_string
    ("Hello, " +:+ cn +:+ "! Access granted via mTLS."))) st.
Proof.
  intros Hl. unfold get_secure. rewrite bind_run. cbn [get_ctx]. unfold Get_. rewrite Hl. cbn.
  by rewrite fmt_s_box.
Qed.

Lemma match_secure (path : list string) :
  matchSegments [mkSegment segStatic "secure"] path =
  if decide (path = ["secure"]) then Some ∅ else None.
Proof.
  unfold matchSegments. destruct path as [|a [|b path]]; cbn [match_loop kind value];
    [done|destruct (String.eqb_spec "secure" a) as [<-|Hne]|destruct (String.eqb "secure" a)];
    case_decide; naive_solver.
Qed.

Lemma mtls_resolve `{URLAuthority} req :
  (resolve mtls_app req).1 =
  if decide (splitPath (Path (request_url req)) = ["secure"])
  then if String.eqb (ToUpper "GET") (ToUpper (req_Method req)) then get_secure else methodNotAllowed
  else notFound.
Proof.
  unfold resolve, Router_match.
  change (routes (router mtls_app)) with
    [mkRoute (ToUpper "GET") [mkSegment segStatic "secure"] get_secure].
  cbn [match_routes rt_segments rt_method rt_handler]. rewrite match_secure.
  case_decide; [|done]. by destruct (String.eqb _ _).
Qed.

(** The logger only sees what its handler does after the clock was read. *)
Lemma Logger_same (h1 h2 : HandlerFunc V W) st :
  (forall ts, let st1 := mkSt (st_ctx st) (st_sws st)
     (mkEnv (logs (st_env st)) (clock (st_env st)) ts (world (st_env st))) in h1 st1 = h2 st1) ->
  Logger [] h1 st = Logger [] h2 st.
Proof. intros Hh. unfold Logger. rewrite !bind_run, !time_Now_run, !bind_run. by rewrite Hh. Qed.

(** C32.  Who is greeted, and as whom: a request of a peer without certificates
    is refused with a 401 and does not reach the logger, and so is one whose
    certificate has no common name; any other request of GET /secure is logged
    and answered with the common name of the peer's first certificate, and a
    request of another path is logged and answered 404. *)
Theorem mtls_greets `{URLAuthority} req st :
  match PeerCertificates (st_ctx st) with
  | [] => mtls_chain req st = Error 401 "mTLS: missing peer certificates" [] st
  | cert :: _ =>
      let cn := Subject_CommonName cert in
      let st' := with_local st "node_id" (Some (box cn)) in
      if String.eqb cn ""
      then mtls_chain req st = Error 401 "mTLS: identity missing in certificate" [] st
      else
        (splitPath (Path (request_url req)) = ["secure"] ->
         ToUpper (req_Method req) = ToUpper "GET" ->
         mtls_chain req st =
           Logger [] (Send 200 (Some (String.list_byte_of_string
             ("Hello, " +:+ cn +:+ "! Access granted via mTLS.")))) st') /\
        (splitPath (Path (request_url req)) <> ["secure"] ->
         mtls_chain req st = Logger [] notFound st')
  end.
Proof.
  unfold mtls_chain. rewrite applyMiddleware_foldr.
  change (foldr _ _ (middleware mtls_app)) with (MTLSAuth (Logger [] (resolve mtls_app req).1)).
  rewrite MTLSAuth_run. destruct (PeerCertificates (st_ctx st)) as [|cert chain]; [done|].
  cbv zeta. destruct (String.eqb (Subject_CommonName cert) ""); [done|].
  set (st' := with_local st "node_id" (Some (box (Subject_CommonName cert)))).
  rewrite mtls_resolve. case_decide as Hp; cbn [fst].
  - split; [|done]. intros _ Hm. rewrite (proj2 (String.eqb_eq _ _) (eq_sym Hm)).
    apply Logger_same. intros ts. apply get_secure_run. cbn. by rewrite lookup_insert_eq.
  - by split.
Qed.
End Mtls.

(** ** Witness *)

Section Witness.
#[local] Existing Instance ascii_tables.
#[local] Instance no_authority : URLAuthority := {| authority_ok := fun _ => false |}.
#[local] Instance string_boxed : Boxed string string.
Proof. refine {| box s := s; unbox := Some |}; [done|]. by intros v s [= ->]. Defined.
#[local] Instance string_format : FormatS string :=
  {| fmt_s v := default "%!s(<nil>)" v; fmt_s_box s := eq_refl |}.

Definition secure_request : Request := mkRequest "r1" "get" "/secure?x=1" None None false.

Definition satellite : St string unit :=
  mkSt (newContext None secure_request
          (quicConnWrapper (mkQuicConn (Some "[::1]:4433") [mkCertificate "satellite-01" 0 0]))
          (reading [])) [] (mkEnv [] (fun n => Z.of_nat n) 0 tt).

Lemma mtls_greets_witness :
  mtls_chain secure_request satellite =
    Logger [] (Send 200 (Some (String.list_byte_of_string "Hello, satellite-01! Access granted via mTLS.")))
      (with_local satellite "node_id" (Some "satellite-01")) /\
  logs (st_env (mtls_chain secure_request satellite).2) <> [].
Proof.
  split; [|vm_compute; discriminate].
  destruct (mtls_greets (V := string) (W := unit) secure_request satellite) as [Hg _].
  apply Hg; vm_compute; reflexivity.
Defined.
End Witness.
