(* ===== verification/Startup.v ===== *)
(** * Start-up of the demo servers, the control transport, the listeners
    (examples/basic-server/main.go, examples/streaming-demo/main.go,
    examples/mtls-pki/main.go, transport/transport.go, framework/app.go)

    What [main] of each demo does once its routes are registered: load or
    create the certificates, announce the addresses and the fingerprint a
    browser pins, listen.  A run gives the exit code, the records its goroutine
    logs and the disk it leaves; the result of [ListenAddr] (Lifecycle.v) is an
    argument.  The transport package dials and listens with quic-go, whose two
    functions are arguments too. *)

From S2P Require Import Prelude GoStd NetURL Wire Validation Reqctx Reply Router App Lifecycle Running Files Certs.
From Stdlib Require Import Ascii.

Local Open Scope string_scope.
Local Open Scope list_scope.

Section Startup.
Context `{Crypto} `{OS}.

(** The files of a demo, under .local/certs. *)
Definition demo_certFile (demo : string) : string :=
  FilepathJoin [FilepathJoin [".local"; "certs"; demo]; "localhost-cert.pem"].
Definition demo_keyFile (demo : string) : string :=
  FilepathJoin [FilepathJoin [".local"; "certs"; demo]; "localhost-key.pem"].

(** The addresses and the configuration to listen with. *)
Abbreviation listener := (string -> string -> Config -> option error).

(** One clock reading for the check of the certificate, two for its creation. *)
Record times := mkTimes { t_check : Z; t_before : Z; t_after : Z }.

Abbreviation run := (Z * list LogRecord * disk)%type.

Definition failed (d : disk) (records : list LogRecord) (msg : string) (err : error) : run :=
  (1%Z, records ++ [mkLog LevelError msg [("err", AError (Some err))]], d).

Definition basic_main (r : Rand) (t : times) (d : disk) (listen : listener) : run :=
  let certFile := demo_certFile "basic-server" in
  let keyFile := demo_keyFile "basic-server" in
  match LoadOrCreateSelfSigned r (t_check t) (t_before t) (t_after t) d certFile keyFile
          ["localhost"; "127.0.0.1"] with
  | (Err err, d) => failed d [] "tls" err
  | (Ok tlsCfg, d) =>
      match CertificateSHA256Hex (Some tlsCfg) with
      | Err err => failed d [] "tls cert hash" err
      | Ok certHash =>
          let listening := mkLog LevelInfo "basic server listening"
            [("native", AString ":4433"); ("webtransport", AString ":4434");
             ("cert_file", AString certFile); ("webtransport_cert_sha256", AString certHash)] in
          match listen ":4433" ":4434" tlsCfg with
          | Some err => failed d [listening] "server error" err
          | None => (0%Z, [listening], d)
          end
      end
  end.

Definition streaming_main (r : Rand) (t : times) (d : disk) (listen : listener) : run :=
  let certFile := demo_certFile "streaming-demo" in
  let keyFile := demo_keyFile "streaming-demo" in
  match LoadOrCreateSelfSigned r (t_check t) (t_before t) (t_after t) d certFile keyFile
          ["localhost"; "127.0.0.1"] with
  | (Err err, d) => failed d [] "tls" err
  | (Ok tlsCfg, d) =>
      match CertificateSHA256Hex (Some tlsCfg) with
      | Err err => failed d [] "tls cert hash" err
      | Ok certHash =>
          let listening := mkLog LevelInfo "streaming demo listening"
            [("native", AString ":4435"); ("webtransport", AString ":4436");
             ("cert_file", AString certFile); ("webtransport_cert_sha256", AString certHash);
             ("chat_stream", AString "/chat/rooms/lounge/stream");
             ("chat_post", AString "/chat/rooms/lounge/messages")] in
          match listen ":4435" ":4436" tlsCfg with
          | Some err => failed d [listening] "server error" err
          | None => (0%Z, [listening], d)
          end
      end
  end.

(** The exit code of the mTLS example, what it prints, what it logs and the
    disk.  Its server is the goroutine that calls [ListenWithPKI]; [main] waits
    for a signal.  The directory is "./.certs", written as [Clean] has it. *)
Definition mtls_main (d : disk) : Z * list string * list string * disk :=
  let starting := "Starting QuicFrame server with automated PKI on :4433..." in
  match MkdirAll d (Clean "./.certs") with
  | (Some err, d) => (1%Z, [starting], [Error_string err], d)
  | (None, d) =>
      let server :=
        match ListenWithPKI with
        | Some err => ["Server error: " +:+ Error_string err]
        | None => []
        end in
      (0%Z, [starting; ""; "--- Client Simulation ---"; "Shutting down..."], server, d)
  end.
End Startup.

(** ** The control transport

    A [*tls.Config] is its list of protocols and the rest of it, [T]; the code
    changes a clone. *)
Section Transport.
Context {T Conn Listener : Type}.

Record tlsConfig := mkTLSConfig { NextProtos : list string; tls_rest : T }.

Definition control_config (tlsCfg : tlsConfig) : tlsConfig :=
  match NextProtos tlsCfg with
  | [] => mkTLSConfig ["control/v1"; "qf/1"] (tls_rest tlsCfg)
  | _ => tlsCfg
  end.

Definition DialControl (DialAddr : string -> tlsConfig -> result Conn)
    (addr : string) (tlsCfg : tlsConfig) : result Conn :=
  match DialAddr addr (control_config tlsCfg) with
  | Err err => Err (wrapError "transport: DialControl: " err)
  | Ok conn => Ok conn
  end.

Definition ListenControl (ListenAddr : string -> tlsConfig -> result Listener)
    (addr : string) (tlsCfg : tlsConfig) : result Listener :=
  match ListenAddr addr (control_config tlsCfg) with
  | Err err => Err (wrapError "transport: ListenControl: " err)
  | Ok ln => Ok ln
  end.
End Transport.

(** ** What the listeners of the framework listen with (framework/app.go)

    quic-go's [ListenAddr] and http3's [ConfigureTLSConfig] are arguments; the
    loops that accept are those of Lifecycle.v. *)
Section Listeners.
Context {V W T Listener : Type}.

Definition native_listen (quic_ListenAddr : string -> tlsConfig (T := T) -> QuicConfig -> result Listener)
    (a : App V W) (addr : string) (tlsCfg : tlsConfig (T := T)) : result (Listener * outcome LogRecord) :=
  let cfg := mkTLSConfig (prepend "qf/1" (NextProtos tlsCfg)) (tls_rest tlsCfg) in
  match quic_ListenAddr addr cfg (quicCfg a) with
  | Err err => Err (wrapError "quicframe: ListenNative: " err)
  | Ok listener =>
      Ok (listener, log_announcement (app_logger a) (native_listening addr))
  end.

Record wtServer := mkWTServer {
  wt_Addr : string;
  wt_TLSConfig : tlsConfig (T := T);
  wt_QUICConfig : QuicConfig;
  wt_ApplicationProtocols : list string;
  wt_CheckOrigin : string -> bool;      (* of the request's Origin header *)
  wt_endpoint : string;
}.

Definition webtransport_server (ConfigureTLSConfig : tlsConfig (T := T) -> tlsConfig (T := T))
    (a : App V W) (addr : string) (tlsCfg : tlsConfig (T := T)) : wtServer * outcome LogRecord :=
  (mkWTServer addr (ConfigureTLSConfig tlsCfg) (quicCfg a) ["quicframe"] (fun _ => true) "/wt",
   log_announcement (app_logger a) (wt_listening addr)).

(** The two wrappers of [CloseWithError]: a QUIC error code has the 64 bits of
    the argument, a WebTransport session's has 32. *)
Definition quicConn_CloseWithError (conn_CloseWithError : Z -> string -> option error)
    (code : Z) (msg : string) : option error :=
  conn_CloseWithError (uint64 code) msg.

Definition wtSession_CloseWithError (session_CloseWithError : Z -> string -> option error)
    (code : Z) (msg : string) : option error :=
  session_CloseWithError (uint32 code) msg.
End Listeners.
