(* ===== verification/StartupProps.v ===== *)
(** * Start-up: theorems

    What the demo servers announce is what they serve; and which protocol a
    client and a listener of the repository end up speaking. *)

From S2P Require Import Prelude GoStd NetURL Wire Validation Reqctx Reply Router App Client Lifecycle Running Files Certs CertsProps Startup.

Local Open Scope string_scope.
Local Open Scope list_scope.

(** ** The announced certificate *)

Section Announce.
Context `{Crypto} `{OS}.

Abbreviation listener := (string -> string -> Config -> option error).

Lemma LoadOrCreate_on_disk r now now1 now2 d cf kf hosts cfg d' :
  LoadOrCreateSelfSigned r now now1 now2 d cf kf hosts = (Ok cfg, d') ->
  FromFiles d' cf kf = Ok cfg.
Proof.
  unfold LoadOrCreateSelfSigned. destruct (reusable d now cf kf) as [c|] eqn:Hr.
  - intros [= -> ->]. unfold reusable in Hr. by cases.
  - destruct (generateSelfSignedPEM r now1 now2 hosts) as [[cp kp]|]; [|done].
    destruct (MkdirAll d _) as [[] d1]; [done|]. destruct (MkdirAll d1 _) as [[] d2]; [done|].
    destruct (WriteFile d2 cf cp) as [[] d3]; [done|].
    destruct (WriteFile d3 kf kp) as [[] d4]; [done|]. by intros [= ? <-].
Qed.

(** The pair of a demo on the disk, and the fingerprint of its certificate. *)
Definition serves_pair (demo : string) (d : disk) (cfg : Config) (hash : string) : Prop :=
  FromFiles d (demo_certFile demo) (demo_keyFile demo) = Ok cfg /\
  CertificateSHA256Hex (Some cfg) = Ok hash.

Definition listening_record (demo native wt msg hash : string) (extra : list (string * Attr)) : LogRecord :=
  mkLog LevelInfo msg
    ([("native", AString native); ("webtransport", AString wt);
      ("cert_file", AString (demo_certFile demo)); ("webtransport_cert_sha256", AString hash)]
     ++ extra).

Definition failure (msg : string) (err : error) : LogRecord :=
  mkLog LevelError msg [("err", AError (Some err))].

(** What a run of a [main] may be: stopped cleanly, stopped by the listeners'
    error, or before it could listen. *)
Inductive start_up (demo native wt msg : string) (extra : list (string * Attr)) (listen : listener) :
    Z * list LogRecord * disk -> Prop :=
  | stopped cfg hash d :
      serves_pair demo d cfg hash -> listen native wt cfg = None ->
      start_up demo native wt msg extra listen (0%Z, [listening_record demo native wt msg hash extra], d)
  | stopped_error cfg hash err d :
      serves_pair demo d cfg hash -> listen native wt cfg = Some err ->
      start_up demo native wt msg extra listen
        (1%Z, [listening_record demo native wt msg hash extra; failure "server error" err], d)
  | no_certificate err d :
      start_up demo native wt msg extra listen (1%Z, [failure "tls" err], d)
  | no_fingerprint cfg err d :
      FromFiles d (demo_certFile demo) (demo_keyFile demo) = Ok cfg ->
      CertificateSHA256Hex (Some cfg) = Err err ->
      start_up demo native wt msg extra listen (1%Z, [failure "tls cert hash" err], d).

(** The two programs differ in their names only. *)
Definition demo_main (demo native wt msg : string) (extra : list (string * Attr))
    (r : Rand) (t : times) (d : disk) (listen : listener) : Z * list LogRecord * disk :=
  match LoadOrCreateSelfSigned r (t_check t) (t_before t) (t_after t) d (demo_certFile demo)
          (demo_keyFile demo) ["localhost"; "127.0.0.1"] with
  | (Err err, d) => failed d [] "tls" err
  | (Ok tlsCfg, d) =>
      match CertificateSHA256Hex (Some tlsCfg) with
      | Err err => failed d [] "tls cert hash" err
      | Ok hash =>
          let listening := listening_record demo native wt msg hash extra in
          match listen native wt tlsCfg with
          | Some err => failed d [listening] "server error" err
          | None => (0%Z, [listening], d)
          end
      end
  end.

Definition chat_attrs : list (string * Attr) :=
  [("chat_stream", AString "/chat/rooms/lounge/stream");
   ("chat_post", AString "/chat/rooms/lounge/messages")].

Lemma basic_main_demo r t d listen :
  basic_main r t d listen =
  demo_main "basic-server" ":4433" ":4434" "basic server listening" [] r t d listen.
Proof. reflexivity. Qed.

Lemma streaming_main_demo r t d listen :
  streaming_main r t d listen =
  demo_main "streaming-demo" ":4435" ":4436" "streaming demo listening" chat_attrs r t d listen.
Proof. reflexivity. Qed.

Lemma demo_main_start_up demo native wt msg extra r t d listen :
  start_up demo native wt msg extra listen (demo_main demo native wt msg extra r t d listen).
Proof.
  unfold demo_main.
  destruct (LoadOrCreateSelfSigned _ _ _ _ _ _ _ _) as [[cfg|err] d'] eqn:Hload; [|apply no_certificate].
  apply LoadOrCreate_on_disk in Hload.
  destruct (CertificateSHA256Hex (Some cfg)) as [hash|err] eqn:Hh; [|by eapply no_fingerprint].
  destruct (listen native wt cfg) as [err|] eqn:Hl; [by eapply stopped_error|by eapply stopped].
Qed.

(** C35.  What the demo servers announce is what they serve: the fingerprint in
    the record that a browser is told to pin is that of the certificate they
    give to the listeners, which is the one on the disk when they stop; and
    they exit with 0 exactly when the listeners stopped without an error, and
    otherwise log the error that stopped them, once, as the last record. *)
Theorem servers_announce_certificate r t d listen :
  start_up "basic-server" ":4433" ":4434" "basic server listening" [] listen
    (basic_main r t d listen) /\
  start_up "streaming-demo" ":4435" ":4436" "streaming demo listening" chat_attrs listen
    (streaming_main r t d listen).
Proof. rewrite basic_main_demo, streaming_main_demo. split; apply demo_main_start_up. Qed.
End Announce.

(** ** The protocol of a connection

    crypto/tls picks the first protocol of the server that the client offers;
    over QUIC an empty offer to a server that has protocols is refused. *)

Definition negotiateALPN (server client : list string) : result string :=
  match server, client with
  | [], _ => Ok ""
  | _ :: _, [] => Err (errorString "tls: client did not request an application protocol")
  | _, _ =>
      match List.find (fun p => bool_decide (p ∈ client)) server with
      | Some p => Ok p
      | None =>
          if bool_decide ("h2" ∈ server) && bool_decide ("http/1.1" ∈ client) then Ok ""
          else Err (errorString "tls: client requested unsupported application protocols")
      end
  end.

Lemma negotiate_first p server client :
  p ∈ client -> negotiateALPN (p :: server) client = Ok p.
Proof. intros Hp. destruct client as [|c client]; [by apply not_elem_of_nil in Hp|]. cbn. by rewrite bool_decide_true. Qed.

Section Protocols.
Context {T : Type}.
Implicit Types (cfg : tlsConfig (T := T)).

(** What a native listener is opened with. *)
Lemma native_listen_protos {V W : Type} (a : App V W) addr cfg :
  native_listen (fun _ c _ => Ok (NextProtos c)) a addr cfg =
  Ok (native_protos (NextProtos cfg), log_announcement (app_logger a) (native_listening addr)).
Proof. reflexivity. Qed.

(** The protocol of a connection, whatever protocols the two TLS
    configurations ask for.  A native listener speaks "qf/1" with every client
    that offers it, those of [Dial] among them, and refuses a client that does
    not share a protocol; two ends of the control transport without protocols
    of their own speak "control/v1", while a client of [Dial] at a control
    listener, and a control dialler at a native listener, speak "qf/1". *)
Theorem protocols_agree cfg1 cfg2 protos client :
  ("qf/1" ∈ client -> negotiateALPN (native_protos protos) client = Ok "qf/1") /\
  negotiateALPN (native_protos protos) Dial_protos = Ok "qf/1" /\
  ((forall p, p ∈ client -> p ∉ "qf/1" :: protos) -> "http/1.1" ∉ client ->
   exists err, negotiateALPN (native_protos protos) client = Err err) /\
  (NextProtos cfg1 = [] -> NextProtos cfg2 = [] ->
   let server := NextProtos (control_config cfg1) in
   negotiateALPN server (NextProtos (control_config cfg2)) = Ok "control/v1" /\
   negotiateALPN server Dial_protos = Ok "qf/1" /\
   negotiateALPN (native_protos protos) (NextProtos (control_config cfg2)) = Ok "qf/1").
Proof.
  assert (forall l, "qf/1" ∈ l -> negotiateALPN (native_protos protos) l = Ok "qf/1") as Hq.
  { intros l Hl. unfold native_protos. rewrite prepend_filter. by apply negotiate_first. }
  split_and!.
  - apply Hq.
  - apply Hq. by left.
  - intros Hno Hh. unfold native_protos. rewrite prepend_filter.
    destruct client as [|c client]; [by eexists|]. unfold negotiateALPN.
    destruct (List.find _ _) as [p|] eqn:Hf.
    + apply List.find_some in Hf as [Hin Hc]. apply bool_decide_eq_true in Hc.
      destruct (Hno p Hc). apply list_elem_of_In in Hin.
      apply elem_of_cons in Hin as [->|Hin]; [by left|]. apply list_elem_of_filter in Hin as [_ Hin].
      by right.
    + rewrite (bool_decide_false ("http/1.1" ∈ _)) by done. rewrite andb_false_r. by eexists.
  - intros H1 H2. unfold control_config. rewrite H1, H2. split_and!; [done|done|].
    apply Hq. right. by left.
Qed.
End Protocols.

(** ** Witnesses *)

Section Witnesses.
Definition first_run : Z * list LogRecord * disk :=
  basic_main (H := toy) (H0 := reliable) 7%N (mkTimes start start start) empty_disk
    (fun _ _ _ => None).

(** A first run on an empty disk stops cleanly after one record. *)
Example first_run_clean : first_run.1.1 = 0%Z /\ length first_run.1.2 = 1%nat.
Proof. vm_compute. done. Qed.

Lemma protocols_agree_witness :
  negotiateALPN (native_protos ["h3"; "qf/1"]) ["h3"; "qf/1"] = Ok "qf/1".
Proof.
  refine (proj1 (protocols_agree (mkTLSConfig [] tt) (mkTLSConfig [] tt) ["h3"; "qf/1"]
    ["h3"; "qf/1"]) _).
  right. left.
Defined.
End Witnesses.
