(* ===== verification/Process.v ===== *)
(** * The servers as processes (cmd/example/main.go, the two demo servers)

    A process is its [main] goroutine and the goroutine that waits for a
    signal, beside the running server of Running.v.  Both go on a statement at
    a time, and whatever the server does may come between: [main] has called
    [ListenAddr]; once this has returned it goes through what follows the call.
    The start-up that comes before is in Startup.v and Example.v. *)

From stdpp Require Import relations.
From S2P Require Import Prelude GoStd NetURL Wire Validation Reqctx Reply Router App Lifecycle Draining Running.

Local Open Scope string_scope.
Local Open Scope list_scope.

(** ** What the goroutines do *)

Inductive statement :=
  | Log (r : LogRecord)
  | Cancel                 (* cancel() *)
  | Wait                   (* app.Shutdown() *)
  | Exit (code : Z).       (* os.Exit, or the end of main *)

Record program := mkProgram {
  pr_signal : list LogRecord;            (* of the goroutine that waits for a signal *)
  pr_failure : error -> LogRecord;
  pr_waits : bool;                       (* it calls [Shutdown] *)
  pr_stopped : list LogRecord;
}.

Definition demo_program : program :=
  mkProgram [] (fun err => mkLog LevelError "server error" [("err", AError (Some err))]) false [].

Definition example_program : program :=
  mkProgram [mkLog LevelInfo "shutdown signal received" []]
    (fun err => mkLog LevelError "server exited with error" [("err", AError (Some err))]) true
    [mkLog LevelInfo "server stopped cleanly" []].

(** The goroutine of the signal, once it has one. *)
Definition signal_body (pr : program) : list statement := map Log (pr_signal pr) ++ [Cancel].

(** [main] once [ListenAddr] has returned; the end of [main] runs the deferred
    [cancel], [os.Exit] does not. *)
Definition main_body (pr : program) (res : option error) : list statement :=
  match res with
  | Some err => [Log (pr_failure pr err); Exit 1]
  | None => (if pr_waits pr then [Wait] else []) ++ map Log (pr_stopped pr) ++ [Cancel; Exit 0]
  end.

(** ** Processes *)

(** [main] in [ListenAddr], with these statements left, or gone with the
    process. *)
Inductive phase :=
  | Serving
  | Leaving (k : list statement)
  | Exited (code : Z).

Definition live (ph : phase) : bool :=
  match ph with
  | Exited _ => false
  | _ => true
  end.

(** The goroutine of the signal waits, or has these statements left. *)
Record process (W : Type) := mkProcess {
  p_main : phase;
  p_signal : option (list statement);
  p_server : running W;
}.
Arguments mkProcess {W}. Arguments p_main {W}. Arguments p_signal {W}. Arguments p_server {W}.

(** The state with other globals and more records. *)
Definition after {W : Type} (x : running W) (s : globals) (rs : list LogRecord) : running W :=
  mkRunning s (foldl log_env (r_env x) rs) (r_tasks x) (r_served x) (r_crashed x).

(** A statement's effect; [None] is blocked. *)
Definition effect {W : Type} (st : statement) (x : running W) : option (running W) :=
  match st with
  | Log r => Some (after x (r_globals x) [r])
  | Cancel => Some (after x (cancel_ctx (r_globals x)) [])
  | Wait =>
      match Shutdown (r_globals x) with
      | Some (s', _) => Some (after x s' [])
      | None => None
      end
  | Exit _ => Some x
  end.

(** [main] after a statement, with [k] left. *)
Definition goes_on (st : statement) (k : list statement) : phase :=
  match st with
  | Exit code => Exited code
  | _ => Leaving k
  end.

Section Process.
Context {V W : Type} `{Unicode} `{URLAuthority} `{Msgpack V}.
Variable background : relation W.
Variable a : App V W.
Variable addrs : addresses.
Variable pr : program.

(** The server runs, but only [main] and the goroutine of the signal cancel
    the context; a panic ends the process with the exit code of the Go
    runtime.  Running.v lets other code call [Shutdown] and [HandleNativeConn]
    too, which these programs do not. *)
Inductive pstep : process W -> process W -> Prop :=
  | ps_run m sg x y :
      live m = true -> rstep background a addrs x y ->
      cancelled (r_globals y) = cancelled (r_globals x) ->
      pstep (mkProcess m sg x) (mkProcess m sg y)
  | ps_signal m x :
      live m = true -> r_crashed x = None ->
      pstep (mkProcess m None x) (mkProcess m (Some (signal_body pr)) x)
  | ps_handler m st k x y :
      live m = true -> r_crashed x = None -> effect st x = Some y ->
      pstep (mkProcess m (Some (st :: k)) x) (mkProcess m (Some k) y)
  | ps_returned sg x res :
      r_crashed x = None -> listen_result (r_globals x) = Some res ->
      pstep (mkProcess Serving sg x) (mkProcess (Leaving (main_body pr res)) sg x)
  | ps_main sg st k x y :
      r_crashed x = None -> effect st x = Some y ->
      pstep (mkProcess (Leaving (st :: k)) sg x) (mkProcess (goes_on st k) sg y)
  | ps_panic m sg x p :
      live m = true -> r_crashed x = Some p -> pstep (mkProcess m sg x) (mkProcess (Exited 2) sg x).

Definition started (e : Env W) : process W := mkProcess Serving None (launch addrs e).

(** ** Specifications *)

(** A moment with this property lies between the start and [p]. *)
Definition passed (e : Env W) (p : process W) (Q : running W -> Prop) : Prop :=
  exists q, rtc pstep (started e) q /\ rtc pstep q p /\ Q (p_server q).

(** The last record was [r]; a [Shutdown] has returned and nothing is in
    flight. *)
Definition logged (r : LogRecord) (x : running W) : Prop := last (logs (r_env x)) = Some r.

Definition drained (x : running W) : Prop :=
  shutdown_returned (r_globals x) = true /\ wg (r_globals x) = 0%Z /\
  Forall (fun t => ~ in_flight (goroutine_of t)) (r_tasks x).

(** What an exit code tells. *)
Definition exit_means (e : Env W) (code : Z) (p : process W) : Prop :=
  match code with
  | 0%Z =>
      listen_result (r_globals (p_server p)) = Some None /\
      is_Some (p_signal p) /\
      passed e p (fun x => cancelled (r_globals x) = true) /\
      (pr_waits pr = true -> passed e p drained) /\
      Forall (fun r => passed e p (logged r)) (pr_stopped pr)
  | 1%Z => exists err, listen_result (r_globals (p_server p)) = Some (Some err) /\
      passed e p (logged (pr_failure pr err))
  | _ => code = 2%Z /\ is_Some (r_crashed (p_server p))
  end.

(** What is left to happen once the network has nothing more to give: a step
    of the server that is one of [drain], a panic, or a step of [main] or of the
    goroutine of the signal. *)
Inductive pdrain : process W -> process W -> Prop :=
  | pd_run m sg x y :
      pstep (mkProcess m sg x) (mkProcess m sg y) ->
      drain (lifecycle x) (lifecycle y) \/
      (r_crashed x = None /\ is_Some (r_crashed y) /\ lifecycle y = lifecycle x) ->
      pdrain (mkProcess m sg x) (mkProcess m sg y)
  | pd_main p q :
      pstep p q -> (p_main q, p_signal q) <> (p_main p, p_signal p) -> pdrain p q.

(** Nothing of it has to happen any more: the server is settled, and the two
    other goroutines can make no step. *)
Definition quiet (p : process W) : Prop :=
  settled (lifecycle (p_server p)) /\
  forall q, pstep p q -> ~ (p_main q, p_signal q) <> (p_main p, p_signal p).

(** [main] is in [Shutdown], and there are handlers that have not returned. *)
Definition held_by_handlers (p : process W) : Prop :=
  (exists k, p_main p = Leaving (Wait :: k)) /\
  (0 < running_handlers (lifecycle (p_server p)).2)%nat.
End Process.
