(* ===== verification/ProcessProps.v ===== *)
(** * Processes: theorems

    What the exit code of a server tells, and that a process that got its
    signal ends once its clients are gone. *)

From stdpp Require Import relations.
From S2P Require Import Prelude GoStd NetURL Wire RefCodec Validation Reqctx Reply Router App AppProps Middleware RateLimit World Lifecycle LifecycleProps Draining Running RunningProps Files Certs Startup Example Process.

Local Open Scope string_scope.
Local Open Scope list_scope.

(** ** The result of [ListenAddr] *)

(** It returns nil only after the context was cancelled. *)
Definition nil_cancelled (s : globals) : Prop :=
  None ∈ errCh s \/ listen_result s = Some None -> cancelled s = true.

Lemma gstep_nil i g s s' gs :
  gstep i g s = Some (s', gs) -> nil_cancelled s -> nil_cancelled s'.
Proof.
  unfold nil_cancelled.
  destruct g as [[]| |[]|[]|[]|[]|[]|[] []|], i; cbn; unfold watch, ListenAddr, Shutdown;
    intros Hg Hn; repeat case_match; simplify_eq/=; rewrite ?elem_of_app, ?list_elem_of_singleton;
    try tauto; try (intros [[?|?]|?]; simplify_eq; tauto);
    try (intros [?|?]; apply Hn; left; simplify_eq; set_solver);
    intros [[?|?]|?]; try done; exfalso; apply diff_false_true, Hn; tauto.
Qed.

Lemma lstep_nil c c' : lstep c c' -> nil_cancelled c.1 -> nil_cancelled c'.1.
Proof. destruct 1; cbn; try done. by eapply gstep_nil. Qed.

(** Once it has returned its result stays. *)
Lemma lstep_result c c' :
  lstep c c' -> listen_inv c -> is_Some (listen_result c.1) ->
  listen_result c'.1 = listen_result c.1.
Proof.
  destruct 1 as [i s s' l1 g l2 gs Hg|s gs|s gs|s gs]; try done. cbn. intros [Hi _] Hs.
  unfold returned in Hi. destruct Hs as [r Hr]. cbn in Hi. rewrite Hr, sum_list_with_app in Hi. cbn in Hi.
  destruct g as [[]| |[]|[]|[]|[]|[]|[] []|], i; cbn in Hg; unfold watch, ListenAddr, Shutdown in Hg;
    repeat case_match; simplify_eq/=; try done; cbn in Hi; rewrite ?sum_list_with_app in Hi; cbn in Hi; lia.
Qed.

Section Process.
Context {V W : Type} `{Unicode} `{URLAuthority} `{Msgpack V}.
Variable background : relation W.
Variable a : App V W.
Variable addrs : addresses.
Variable pr : program.
Implicit Types (x y : running W) (p q : process W) (e : Env W).

Abbreviation step := (pstep background a addrs pr).
Abbreviation passes := (passed background a addrs pr).
Abbreviation wt := (negb (String.eqb (wtAddr addrs) "")).

(** ** Processes and the lifecycle *)

Lemma lifecycle_after x s rs : lifecycle (after x s rs) = (s, (lifecycle x).2).
Proof. done. Qed.

Lemma Shutdown_inv s s' gs :
  Shutdown s = Some (s', gs) -> gs = [] /\ wg s = 0%Z /\
  s' = mkGlobals (wg s) (cancelled s) (listening s) (errCh s) (listen_result s) true.
Proof. unfold Shutdown. destruct (Z.eqb_spec (wg s) 0); [|done]. by intros [= <- <-]. Qed.

(** A statement is a step of the lifecycle, or none. *)
Lemma effect_lifecycle st x y : effect st x = Some y -> rtc lstep (lifecycle x) (lifecycle y).
Proof.
  destruct st; cbn; intros E; try (by simplify_eq).
  - simplify_eq. apply rtc_once, ls_cancel.
  - destruct (Shutdown (r_globals x)) as [[s' gs]|] eqn:Hs; [|done]. simplify_eq.
    pose proof (Shutdown_inv _ _ _ Hs) as [-> _].
    eapply rtc_l; [apply (ls_shutdown (r_globals x))|]. apply rtc_once. rewrite lifecycle_after. cbn.
    pose proof (ls_run Accepted _ _ (map goroutine_of (r_tasks x)) GShutdown [] [] Hs) as Hl.
    by rewrite !app_nil_r in Hl.
Qed.

Lemma step_lifecycle p q : step p q -> rtc lstep (lifecycle (p_server p)) (lifecycle (p_server q)).
Proof.
  destruct 1 as [m sg x y _ Hs _| |m st k x y _ _ Hs| |sg st k x y _ Hs|]; cbn; try apply rtc_refl.
  - by eapply rstep_lifecycle.
  - by eapply effect_lifecycle.
  - by eapply effect_lifecycle.
Qed.

Lemma process_lifecycle e p :
  rtc step (started addrs e) p -> rtc lstep (launched wt) (lifecycle (p_server p)).
Proof.
  intros Hr. change (launched wt) with (lifecycle (p_server (started addrs e))).
  induction Hr as [|p q r Hs _ IH]; [apply rtc_refl|]. etrans; [by eapply step_lifecycle|done].
Qed.

Lemma reachable_nil c : rtc lstep (launched wt) c -> nil_cancelled c.1.
Proof.
  intros Hr. assert (nil_cancelled (launched wt).1) as Hn.
  { intros [Hx|Hx]; [by apply elem_of_nil in Hx|done]. }
  induction Hr as [|c1 c2 c3 Hst _ IH]; [done|]. by apply IH, (lstep_nil c1).
Qed.

Lemma run_result c c' :
  rtc lstep (launched wt) c -> rtc lstep c c' -> is_Some (listen_result c.1) ->
  listen_result c'.1 = listen_result c.1.
Proof.
  intros Hr Hc. induction Hc as [|c1 c2 c3 Hst _ IH]; intros Hs; [done|].
  pose proof (lstep_result _ _ Hst (listen_inv_reachable _ _ Hr) Hs) as E.
  rewrite <- E. apply IH; [by eapply rtc_r|by rewrite E].
Qed.

(** What [ListenAddr] returned stays. *)
Lemma step_result e p q res :
  rtc step (started addrs e) p -> step p q -> listen_result (r_globals (p_server p)) = Some res ->
  listen_result (r_globals (p_server q)) = Some res.
Proof.
  intros Hr Hs Hres. pose proof (step_lifecycle _ _ Hs) as Hl.
  pose proof (run_result _ _ (process_lifecycle _ _ Hr) Hl) as E. cbn in E. rewrite E, Hres; [done|].
  by rewrite Hres.
Qed.

(** Every statement leads on to the exit of [main]. *)
Lemma effect_crashed st x y : effect st x = Some y -> r_crashed y = r_crashed x.
Proof. destruct st; cbn; intros; repeat case_match; by simplify_eq. Qed.

(** ** Moments passed *)

Lemma passed_step e p q Q : passes e p Q -> step p q -> passes e q Q.
Proof. intros (r & Hp1 & Hp2 & HQ) Hs. exists r. split_and!; [done|by eapply rtc_r|done]. Qed.

Lemma passed_now e p (Q : running W -> Prop) : rtc step (started addrs e) p -> Q (p_server p) -> passes e p Q.
Proof. intros Hr HQ. exists p. by split_and!. Qed.

(** What is true right after a statement. *)
Definition done_by (st : statement) (x : running W) : Prop :=
  match st with
  | Log r => logged r x
  | Cancel => cancelled (r_globals x) = true
  | Wait => drained x
  | Exit _ => True
  end.

Lemma idle_tasks x :
  rtc lstep (launched wt) (lifecycle x) -> wg (r_globals x) = 0%Z ->
  Forall (fun t => ~ in_flight (goroutine_of t)) (r_tasks x).
Proof.
  intros Hr Hw. pose proof (reachable_counts _ _ Hr) as Hc. cbn in Hc. rewrite Hw in Hc.
  symmetry in Hc. apply counted_zero, Forall_map in Hc. eapply Forall_impl; [exact Hc|].
  intros t Ht. by apply weight_zero in Ht as [Ht _].
Qed.

Lemma effect_done st x y :
  rtc lstep (launched wt) (lifecycle x) -> effect st x = Some y -> done_by st y.
Proof.
  intros Hr. destruct st; cbn; intros E; simplify_eq; try done.
  - unfold logged. cbn. by rewrite last_snoc.
  - destruct (Shutdown (r_globals x)) as [[s' gs]|] eqn:Hs; [|done]. simplify_eq.
    apply Shutdown_inv in Hs as (_ & Hw & ->). unfold drained. cbn. split_and!; [done|done|].
    by apply idle_tasks.
Qed.

(** ** What an exit code tells *)

(** The statements of [main] that are done: they came to pass in their turn. *)
Definition behind e p (l : list statement) : Prop := Forall (fun st => passes e p (done_by st)) l.

Definition main_ok e p : Prop :=
  match p_main p with
  | Serving => True
  | Leaving k => exists res l,
      listen_result (r_globals (p_server p)) = Some res /\ main_body pr res = l ++ k /\ behind e p l /\
      exists k' code, k = k' ++ [Exit code]
  | Exited code =>
      (code = 2%Z /\ is_Some (r_crashed (p_server p))) \/
      exists res l k, listen_result (r_globals (p_server p)) = Some res /\
        main_body pr res = l ++ Exit code :: k /\ behind e p l
  end.

Lemma behind_step e p q l : behind e p l -> step p q -> behind e q l.
Proof. intros Hb Hs. eapply Forall_impl; [exact Hb|]. intros st Hst. exact (passed_step _ _ _ _ Hst Hs). Qed.

Lemma main_ok_step e p q :
  rtc step (started addrs e) p -> main_ok e p -> step p q -> main_ok e q.
Proof.
  intros Hr Hp Hs. pose proof (step_result e p q) as Hres. pose proof (behind_step e p q) as Hb.
  pose proof Hs as Hs'. unfold main_ok in *.
  destruct Hs as [m sg x y Hl _ _|m x Hl _|m st k x y Hl _ _|sg x res Hc He|sg st k x y Hc He|m sg x pv Hl Hc];
    cbn [p_main] in *.
  1-3: destruct m; [done| |done]; destruct Hp as (res & l & Hp1' & Hp2' & H3' & H4'); exists res, l; by auto.
  - exists res, []. split_and!; [done|done|constructor|]. destruct res as [err|]; [by exists [Log (pr_failure pr err)], 1%Z|].
    exists ((if pr_waits pr then [Wait] else []) ++ map Log (pr_stopped pr) ++ [Cancel]), 0%Z.
    cbn. by rewrite <- !app_assoc.
  - destruct Hp as (res & l & Hp1' & Hp2' & H3' & k' & c & Hk).
    assert (behind e (mkProcess (goes_on st k) sg y) (l ++ [st])) as Hbq.
    { apply Forall_app. split; [by apply Hb|]. constructor; [|constructor].
      apply passed_now; [by eapply rtc_r|]. eapply effect_done; [|exact He].
      exact (process_lifecycle _ _ Hr). }
    pose proof (Hres _ Hr Hs' Hp1') as Hq. apply Hb in H3'; [|exact Hs'].
    destruct st as [r| | |code]; cbn [goes_on] in *; [exists res, (l ++ [Log r])|exists res, (l ++ [Cancel])
      |exists res, (l ++ [Wait])|right; exists res, l, k; split_and!; [done..|exact H3']];
      (split_and!; [exact Hq|rewrite <- app_assoc; exact Hp2'|exact Hbq|]);
      destruct k' as [|? k']; injection Hk as ? ->; try done; by exists k', c.
  - left. split; [done|by eexists].
Qed.

(** Only the goroutine of the signal cancels the context before [ListenAddr]
    has returned nil. *)
Definition signal_ok p : Prop :=
  (cancelled (r_globals (p_server p)) = true -> is_Some (p_signal p)) /\
  match p_signal p with
  | Some k => (Wait ∉ k) /\ (cancelled (r_globals (p_server p)) = true \/ exists l, k = l ++ [Cancel])
  | None => True
  end.

Lemma effect_cancelled st x y :
  effect st x = Some y ->
  cancelled (r_globals y) = (match st with Cancel => true | _ => cancelled (r_globals x) end).
Proof.
  destruct st; cbn; intros E; simplify_eq; try done.
  destruct (Shutdown (r_globals x)) as [[s' gs]|] eqn:Hs; [|done]. simplify_eq.
  by apply Shutdown_inv in Hs as (_ & _ & ->).
Qed.

(** [main] has a nil result behind it when it cancels the context. *)
Lemma main_cancel e p k :
  rtc step (started addrs e) p -> main_ok e p -> p_main p = Leaving (Cancel :: k) ->
  cancelled (r_globals (p_server p)) = true.
Proof.
  unfold main_ok. intros Hr Hp E. rewrite E in Hp. destruct Hp as (res & l & Hp1' & Hp2' & _ & _).
  apply (reachable_nil _ (process_lifecycle _ _ Hr)). right. cbn. rewrite Hp1'. destruct res as [err|]; [|done].
  cbn in Hp2'. by destruct l as [|? [|? [|]]].
Qed.

Lemma signal_ok_step e p q :
  rtc step (started addrs e) p -> main_ok e p -> signal_ok p -> step p q -> signal_ok q.
Proof.
  intros Hr Hp [Hp1' Hp2'] Hs. pose proof (main_cancel e p) as Hmc. unfold signal_ok.
  destruct Hs as [m sg x y Hl _ E|m x Hl _|m st k x y Hl _ He|sg x res Hc He|sg st k x y Hc He|m sg x pv Hl Hc];
    cbn [p_server p_signal] in *; try done.
  - by rewrite E.
  - split; [by eexists|]. split; [|right; by eexists]. unfold signal_body.
    rewrite elem_of_app, list_elem_of_fmap, list_elem_of_singleton. intros [(? & ? & _)|?]; done.
  - apply effect_cancelled in He. rewrite He. split; [by eexists|].
    destruct Hp2' as [Hw [Hx|[l Hk]]]; (split; [intros Hx'; apply Hw; by right|]);
      [left; by destruct st|]. destruct l as [|st' l]; injection Hk as -> ->; [by left|right; by eexists].
  - apply effect_cancelled in He. rewrite He.
    assert (cancelled (r_globals x) = true -> (match st with Cancel => true | _ => cancelled (r_globals x) end) = true)
      as Hmono by (by destruct st).
    split; [|destruct sg; [|done]; destruct Hp2' as [Hw [Hp2'|?]]; (split; [done|]); [left; by apply Hmono|by right]].
    destruct st; try done. intros _. by eapply Hp1', Hmc.
Qed.

Lemma process_ok e p : rtc step (started addrs e) p -> main_ok e p /\ signal_ok p.
Proof.
  revert p. refine (rtc_ind_r (fun p => main_ok e p /\ signal_ok p) (started addrs e) _ _);
    [|intros p q Hr Hs [IH1 IH2]].
  - by split.
  - split; [by eapply main_ok_step|by eapply signal_ok_step].
Qed.

(** What a step of the server keeps, a step of the process does. *)
Lemma process_keeps (P : running W -> Prop) e p :
  (forall x y, rstep background a addrs x y -> P x -> P y) ->
  (forall x s rs, P x -> P (after x s rs)) ->
  rtc step (started addrs e) p -> P (launch addrs e) -> P (p_server p).
Proof.
  intros Hstep Hafter Hr. change (launch addrs e) with (p_server (started addrs e)).
  assert (forall st x y, effect st x = Some y -> P x -> P y) as Heff.
  { intros [] x y E; cbn in E; repeat case_match; simplify_eq; auto. }
  induction Hr as [|p q r Hs _ IH]; [done|]. intros Hp. apply IH. destruct Hs; cbn in *; eauto.
Qed.

(** Where [main] exits. *)
Lemma main_body_exit res l code k :
  main_body pr res = l ++ Exit code :: k ->
  match res with
  | Some err => code = 1%Z /\ l = [Log (pr_failure pr err)]
  | None => code = 0%Z /\ l = (if pr_waits pr then [Wait] else []) ++ map Log (pr_stopped pr) ++ [Cancel]
  end.
Proof.
  destruct res as [err|]; cbn; intros E.
  - destruct l as [|? [|? [|]]]; by simplify_eq/=.
  - assert (forall l1, (forall c, Exit c ∉ l1) -> l1 ++ [Exit 0] = l ++ Exit code :: k ->
      code = 0%Z /\ l = l1) as Hgen.
    { clear E. revert l. induction l as [|st l IH]; intros [|st1 l1] Hno E; cbn in E; simplify_eq.
      - done.
      - destruct (Hno code). by left.
      - by destruct l.
      - destruct (IH l1) as [-> ->]; [|done..]. intros c Hc. apply (Hno c). by right. }
    apply Hgen; [|by rewrite <- !app_assoc].
    intros c. rewrite !elem_of_app, list_elem_of_fmap, list_elem_of_singleton.
    intros [Hx|[(? & ? & _)|?]]; [|done..]. destruct (pr_waits pr); [|by apply elem_of_nil in Hx].
    by apply list_elem_of_singleton in Hx.
Qed.

Lemma exit_ok e code p :
  rtc step (started addrs e) p -> p_main p = Exited code -> exit_means background a addrs pr e code p.
Proof.
  intros Hr Hm. destruct (process_ok e p Hr) as [Hok [Hsig _]]. unfold main_ok in Hok. rewrite Hm in Hok.
  destruct Hok as [[-> Hc]|(res & l & k & Hres & Hb & Hl)]; [by split|].
  pose proof (reachable_nil _ (process_lifecycle _ _ Hr)) as Hn.
  apply main_body_exit in Hb. destruct res as [err|]; destruct Hb as [-> ->]; cbn.
  - exists err. split; [done|]. by apply Forall_cons in Hl as [? _].
  - assert (cancelled (r_globals (p_server p)) = true) as Hcan by (apply Hn; by right).
    apply Forall_app in Hl as [Hl1 [Hl2 _]%Forall_app]. split_and!; [done|by apply Hsig| | |].
    + by apply passed_now.
    + intros Hw. rewrite Hw in Hl1. by apply Forall_cons in Hl1 as [? _].
    + exact (proj1 (Forall_map _ _ _) Hl2).
Qed.


(** ** A process ends *)

Definition task_ok (t : task) : Prop :=
  match t with
  | Plain g => is_plain g = true
  | _ => True
  end.

(** The variables a goroutine may start another with. *)
Definition task_for (t : task) (g : goroutine) : task :=
  match g, t with
  | GConn pc, ConnTask _ c id => ConnTask pc c id
  | GConn pc, _ => ConnTask pc (mkQuicConn None []) 0
  | GSession pc, SessionTask _ addr id => SessionTask pc addr id
  | GSession pc, _ => SessionTask pc None 0
  | GStream pc, ConnTask _ c id =>
      StreamTask pc (quicConnWrapper c) (connContext id) (mkStream [] EOF [] None EOF)
  | GStream pc, SessionTask _ addr id =>
      StreamTask pc (wtSessionWrapper addr) (connContext id) (mkStream [] EOF [] None EOF)
  | GStream pc, StreamTask _ peer gc s => StreamTask pc peer gc s
  | g, _ => Plain g
  end.

Lemma task_for_spawned i t s s' gs :
  task_ok t -> gstep i (goroutine_of t) s = Some (s', gs) ->
  Forall2 (spawned t) gs (map (task_for t) gs).
Proof.
  intros Ht Hg.
  destruct t as [[[]| |[]|[]|[]|[]|[]|[] []|]|[] c id|[] addr id|[] peer gc st], i; try done;
    cbn in Hg; unfold watch, ListenAddr, Shutdown in Hg; repeat case_match; simplify_eq; by repeat constructor.
Qed.

Lemma rstep_tasks_ok x y :
  rstep background a addrs x y -> Forall task_ok (r_tasks x) -> Forall task_ok (r_tasks y).
Proof.
  destruct 1 as [i s s' e e' l1 t l2 gs ts sv _ _ _ Hsp| |s e e' l1 peer gc st st' l2 sv _
    |s e e' l1 peer gc st st' l2 sv p _| | | |]; cbn; try done;
    rewrite ?Forall_app, ?Forall_cons; try tauto.
  - intros (Hp1' & Ht & Hp2'). split_and!; [done| |done].
    induction Hsp as [|g u gs ts [_ Hu] _ IH]; constructor; [|done].
    by destruct u, t.
  - intros Hx. split_and!; [done|done|constructor].
  - intros Hx. split_and!; [done|done|constructor].
Qed.

Abbreviation pdrains := (pdrain background a addrs pr).

(** How many steps the three parts of a process have left. *)
Definition main_left (m : phase) : nat :=
  match m with
  | Serving => 4 + length (main_body pr None)
  | Leaving k => S (length k)
  | Exited _ => 0
  end.

Definition signal_left (sg : option (list statement)) : nat :=
  match sg with
  | None => S (length (signal_body pr))
  | Some k => length k
  end.

Definition server_left x : nat :=
  match r_crashed x with Some _ => 0 | None => 1 end + sum_list_with steps_left (lifecycle x).2.

Definition left_of p : nat := main_left (p_main p) + signal_left (p_signal p) + server_left (p_server p).

Lemma rstep_running x y : rstep background a addrs x y -> r_crashed x = None.
Proof. by destruct 1. Qed.

Lemma effect_left st x y : effect st x = Some y -> server_left y = server_left x.
Proof. destruct st; cbn; intros; repeat case_match; by simplify_eq. Qed.

Lemma pdrain_left p q : pdrains p q -> (left_of q < left_of p)%nat.
Proof.
  destruct 1 as [m sg x y Hs [Hd|(Hx & [pv Hy] & Hl)]|p q Hs Hne]; unfold left_of; cbn [p_main p_signal p_server].
  - assert (r_crashed x = None) as Hx by (inversion Hs; subst; [by eapply rstep_running|done..]).
    apply drain_left in Hd. unfold server_left. rewrite Hx. destruct (r_crashed y); lia.
  - unfold server_left. rewrite Hx, Hy, Hl. lia.
  - destruct Hs as [m sg x y _ _ _|m x _ _|m st k x y _ _ He|sg x res _ _|sg st k x y _ He|m sg x pv Hl _];
      cbn [p_main p_signal p_server] in *; [done|..].
    + cbn [signal_left]. lia.
    + rewrite (effect_left _ _ _ He). cbn [signal_left length]. lia.
    + destruct res as [err|]; cbn [main_left]; [cbn [main_body length]|]; lia.
    + rewrite (effect_left _ _ _ He). destruct st; cbn [goes_on main_left length]; lia.
    + destruct m; [..|done]; cbn [main_left]; lia.
Qed.

Lemma pdrain_step p q : pdrains p q -> step p q.
Proof. by destruct 1. Qed.

Lemma pdrain_ends p : sn pdrains p.
Proof.
  remember (left_of p) as n eqn:E. revert p E.
  induction n as [n IH] using lt_wf_ind. intros p ->. constructor. intros q Hd.
  eapply IH; [by apply pdrain_left|done].
Qed.

(** What the lifecycle can still do, the server can. *)
Lemma drain_follows m sg x c' :
  live m = true -> r_crashed x = None -> Forall task_ok (r_tasks x) -> drain (lifecycle x) c' ->
  exists y, pdrains (mkProcess m sg x) (mkProcess m sg y).
Proof.
  intros Hlive Hc Hok [g Hd]. destruct x as [s e ts sv cr]. cbn in *. subst cr.
  remember (lifecycle (mkRunning s e ts sv None)) as c eqn:E.
  destruct Hd as [i s0 s' l1 l2 gs Hi Hg]. unfold lifecycle in E. cbn in E.
  injection E as -> E. symmetry in E. apply map_eq_app in E as (t1 & t2' & -> & <- & E).
  apply map_eq_cons in E as (t & t2 & -> & <- & <-).
  apply Forall_app in Hok as [_ [Ht _]%Forall_cons].
  pose proof (proj1 (gstep_keeps _ _ _ _ _ Hg)) as Hcan.
  destruct (dispatching t) eqn:Hdisp.
  - destruct t as [| | |[] peer gc st]; try done. cbn in Hg. injection Hg as <- <-.
    destruct (dispatchStream a gc peer st e) as [[[[]|pv] st'] e'] eqn:Hds.
    + eexists. apply pd_run; [by apply ps_run; [|by eapply rs_dispatch|]|]. left. exists (GStream SRun).
      unfold lifecycle. cbn. rewrite !map_app. by apply (drain_run _ i _ _ _ _ [GStream SClose]).
    + eexists. apply pd_run; [by apply ps_run; [|by eapply rs_panic|]|]. right. by split_and!.
  - destruct (announce a addrs i (goroutine_of t) e) as [e'|pv] eqn:Han.
    + pose proof (task_for_spawned _ _ _ _ _ Ht Hg) as Hsp.
      eexists. apply pd_run; [by apply ps_run; [|by eapply rs_go|]|]. left. exists (goroutine_of t).
      unfold lifecycle. cbn. rewrite !map_app, (spawned_goroutines _ _ _ Hsp). by apply (drain_run _ i).
    + eexists. apply pd_run; [by apply ps_run; [|by eapply rs_mute|]|]. right. split_and!; [done|done|].
      by rewrite (announced_keeps addrs _ _ _ _ _ _ _ _ Hg Han).
Qed.

Lemma step_signal p q : step p q -> is_Some (p_signal p) -> is_Some (p_signal q).
Proof. destruct 1; cbn; try done; by eexists. Qed.

(** A statement that can make no step is a [Shutdown] that waits. *)
Lemma effect_blocked st x : effect st x = None -> st = Wait /\ wg (r_globals x) <> 0%Z.
Proof.
  destruct st; cbn; try done. unfold Shutdown. destruct (Z.eqb_spec (wg (r_globals x)) 0); [done|]. by split.
Qed.

Lemma quiet_process e p :
  rtc step (started addrs e) p -> is_Some (p_signal p) -> quiet background a addrs pr p ->
  (exists code, p_main p = Exited code) \/ held_by_handlers p.
Proof.
  intros Hr [k Hk] [Hset Hq]. destruct (process_ok e p Hr) as [Hm [_ Hsg]].
  pose proof (process_lifecycle _ _ Hr) as Hl. destruct p as [m sg x]. cbn [p_main p_signal p_server] in *.
  subst sg. destruct (live m) eqn:Hlive; [|left; destruct m; [done|done|by eexists]].
  destruct (r_crashed x) as [pv|] eqn:Hcr.
  { destruct (Hq _ (ps_panic _ _ _ _ m (Some k) x pv Hlive Hcr)). cbn. intros E. by simplify_eq. }
  cbn in Hsg. assert (k = []) as ->.
  { destruct k as [|st k]; [done|]. destruct (effect st x) as [y|] eqn:He.
    - destruct (Hq _ (ps_handler _ _ _ _ m st k x y Hlive Hcr He)). cbn. intros E. injection E as E.
      apply (f_equal length) in E. cbn in E. lia.
    - apply effect_blocked in He as [-> _]. destruct Hsg as [Hw _]. destruct Hw. by left. }
  destruct Hsg as [_ [Hc|[l Hl']]]; [|by destruct l].
  destruct (settled_results _ _ _ Hl Hc Hset) as (Hres & Hwg & _).
  unfold main_ok in Hm. cbn [p_main] in Hm. destruct m as [|k|code]; [exfalso|right|done].
  - destruct Hres as [res Hres]. by destruct (Hq _ (ps_returned _ _ _ _ (Some []) x res Hcr Hres)).
  - destruct Hm as (res & l & _ & _ & _ & k' & code & ->).
    assert (exists st k, k' ++ [Exit code] = st :: k) as (st & k & Hk) by (destruct k'; by eexists _, _).
    unfold held_by_handlers. cbn [p_main p_server]. rewrite Hk in *.
    destruct (effect st x) as [y|] eqn:He.
    + destruct (Hq _ (ps_main _ _ _ _ (Some []) st k x y Hcr He)). cbn. intros E.
      destruct st; cbn in E; try done; injection E as E; apply (f_equal length) in E; cbn in E; lia.
    + apply effect_blocked in He as [-> Hne]. split; [by eexists|].
      change (lifecycle x).2 with (map goroutine_of (r_tasks x)). lia.
Qed.

(** A process that can make no step at all is quiet, and no handler runs. *)
Lemma stuck_process e p :
  rtc step (started addrs e) p -> is_Some (p_signal p) -> (forall q, ~ pdrains p q) ->
  exists code, p_main p = Exited code.
Proof.
  intros Hr Hk Hstop.
  assert (Forall task_ok (r_tasks (p_server p))) as Hok.
  { eapply (process_keeps (fun x => Forall task_ok (r_tasks x)));
      [apply rstep_tasks_ok|done|exact Hr|by repeat constructor]. }
  destruct (live (p_main p)) eqn:Hlive; [|destruct (p_main p); [done|done|by eexists]].
  destruct (r_crashed (p_server p)) as [pv|] eqn:Hcr.
  { destruct p as [m sg x]. destruct (Hstop (mkProcess (Exited 2) sg x)).
    apply pd_main; [by eapply ps_panic|]. cbn. intros E. by simplify_eq. }
  assert (forall c', ~ drain (lifecycle (p_server p)) c') as Hno.
  { intros c' Hdr. destruct p as [m sg x].
    destruct (drain_follows m sg x c' Hlive Hcr Hok Hdr) as [y Hy]. by apply (Hstop _ Hy). }
  destruct (quiet_process e p Hr Hk) as [Hx|[_ Hh]]; [|done|exfalso].
  - split; [intros g c' Hd; destruct (Hno c'); by exists g|].
    intros q Hs Hne. destruct (Hstop q). by apply pd_main.
  - apply running_handlers_in, list_elem_of_split in Hh as (l1 & l2 & E).
    destruct (lifecycle (p_server p)) as [s gs] eqn:El. cbn in E. subst gs.
    apply (Hno (s, l1 ++ [GStream SClose] ++ l2)). exists (GStream SRun). by apply (drain_run _ Accepted).
Qed.

(** C24.  A process ends.  Whatever it was doing when its signal came, once
    the clients are gone it has finitely many steps left.  When none is left
    but that a handler returns or that the WebTransport listener fails, it has
    exited, or its [main] is in [Shutdown] and there are handlers that have
    not returned; and if they return it has exited: [main] is not left behind
    in [ListenAddr] or in [Shutdown], and no deferred call or panic keeps it
    from its end. *)
Theorem process_ends e p :
  rtc step (started addrs e) p -> is_Some (p_signal p) ->
  sn pdrains p /\
  (forall q, rtc pdrains p q -> quiet background a addrs pr q ->
     (exists code, p_main q = Exited code) \/ held_by_handlers q) /\
  (forall q, rtc pdrains p q -> (forall q', ~ pdrains q q') -> exists code, p_main q = Exited code).
Proof.
  intros Hr Hk.
  assert (forall q, rtc pdrains p q -> rtc step (started addrs e) q /\ is_Some (p_signal q)) as Hq.
  { intros q Hd. revert Hr Hk. induction Hd as [|p1 p2 p3 Hst _ IH]; [done|]. intros Hr Hk.
    apply pdrain_step in Hst. apply IH; [by eapply rtc_r|by eapply step_signal]. }
  split_and!; [apply pdrain_ends| |]; intros q Hd Hx; destruct (Hq q Hd).
  - by eapply quiet_process.
  - by eapply stuck_process.
Qed.

(** ** Runs of the server as runs of the process *)

Lemma rstep_cancelled x y :
  rstep background a addrs x y -> cancelled (r_globals x) = true -> cancelled (r_globals y) = true.
Proof.
  destruct 1 as [i s s' e e' l1 t l2 gs ts sv _ Hg _ _|i s s' e l1 t l2 gs sv p Hg _| | | | | |]; cbn; try done;
    by rewrite (proj1 (gstep_keeps _ _ _ _ _ Hg)).
Qed.

Lemma run_cancelled x y :
  rtc (rstep background a addrs) x y -> cancelled (r_globals x) = true ->
  cancelled (r_globals y) = true.
Proof. induction 1 as [|x y z Hs _ IH]; [done|]. intros Hx. by eapply IH, rstep_cancelled. Qed.

Lemma run_process sg x y :
  rtc (rstep background a addrs) x y -> cancelled (r_globals y) = cancelled (r_globals x) ->
  rtc step (mkProcess Serving sg x) (mkProcess Serving sg y).
Proof.
  induction 1 as [x|x y z Hs Hr IH]; intros E; [apply rtc_refl|].
  assert (cancelled (r_globals y) = cancelled (r_globals x)) as Ey.
  { destruct (cancelled (r_globals x)) eqn:Ex; [by eapply rstep_cancelled|].
    destruct (cancelled (r_globals y)) eqn:Ey; [|done]. by rewrite (run_cancelled _ _ Hr Ey) in E. }
  eapply rtc_l; [by apply ps_run|]. apply IH. congruence.
Qed.

(** The signal's goroutine, and [main] through its records, by themselves. *)
Lemma handler_logs sg m rs k x :
  live m = true -> r_crashed x = None ->
  sg = Some (map Log rs ++ k) ->
  rtc step (mkProcess m sg x) (mkProcess m (Some k) (after x (r_globals x) rs)).
Proof.
  intros Hm Hc ->. revert x Hc. induction rs as [|r rs IH]; intros x Hc; [by destruct x|].
  eapply rtc_l; [by apply ps_handler|]. by apply (IH (after x (r_globals x) [r])).
Qed.

Lemma main_logs sg rs k x :
  r_crashed x = None ->
  rtc step (mkProcess (Leaving (map Log rs ++ k)) sg x) (mkProcess (Leaving k) sg (after x (r_globals x) rs)).
Proof.
  revert x. induction rs as [|r rs IH]; intros x Hc; [by destruct x|].
  eapply rtc_l; [by apply ps_main|]. by apply (IH (after x (r_globals x) [r])).
Qed.

Lemma signal_comes x :
  r_crashed x = None ->
  rtc step (mkProcess Serving None x) (mkProcess Serving (Some []) (after x (cancel_ctx (r_globals x)) (pr_signal pr))).
Proof.
  intros Hc. eapply rtc_l; [by apply ps_signal|]. etrans; [by eapply handler_logs|].
  apply rtc_once. by eapply ps_handler.
Qed.

(** [ListenAddr] returned nil, and [main] goes through the rest. *)
Lemma main_leaves sg x :
  r_crashed x = None -> listen_result (r_globals x) = Some None ->
  (pr_waits pr = true -> wg (r_globals x) = 0%Z) ->
  exists y, rtc step (mkProcess Serving sg x) (mkProcess (Exited 0) sg y) /\
    r_tasks y = r_tasks x /\ r_served y = r_served x.
Proof.
  intros Hc Hl Hw.
  assert (exists x', rtc step (mkProcess Serving sg x)
      (mkProcess (Leaving (map Log (pr_stopped pr) ++ [Cancel; Exit 0])) sg x') /\
    r_crashed x' = None /\ r_tasks x' = r_tasks x /\ r_served x' = r_served x) as (x' & Hr & Hc' & <- & <-).
  { destruct (pr_waits pr) eqn:Hwt.
    - eexists. split; [eapply rtc_l; [by eapply ps_returned|]; cbn [main_body]; rewrite Hwt; apply rtc_once;
        apply ps_main; [done|cbn; unfold Shutdown; by rewrite Hw]|done].
    - exists x. split; [apply rtc_once; pose proof (ps_returned background a addrs pr sg x None Hc Hl) as Hx;
        cbn [main_body] in Hx; by rewrite Hwt in Hx|done]. }
  eexists. split.
  - etrans; [exact Hr|]. etrans; [by apply main_logs|]. eapply rtc_l; [by apply ps_main|]. apply rtc_once. by apply ps_main.
  - done.
Qed.
End Process.

(** ** Runs with one transport *)

Section Runs.
Context {V W : Type} `{Unicode} `{URLAuthority} `{Msgpack V}.
Variable background : relation W.
Implicit Types (a : App V W) (pr : program) (e : Env W).

(** What becomes of [globals] when the signal came and [ListenAddr] returned. *)
Definition returned_globals (s : globals) : globals :=
  mkGlobals (wg s) true false [] (Some None) (shutdown_returned s).

(** With [ListenAddr] waiting and the native listener accepting, a signal makes
    [ListenAddr] return nil, whatever else runs. *)
Lemma signal_returns a pr s e ts sv :
  cancelled s = false -> errCh s = [] ->
  rtc (pstep background a one_addr pr)
    (mkProcess Serving None
       (mkRunning s e (Plain (GListenAddr true false) :: Plain (GListenNative LAccept) :: ts) sv None))
    (mkProcess Serving (Some []) (mkRunning (returned_globals s) (foldl log_env e (pr_signal pr)) ts sv None)).
Proof.
  intros Hc He. etrans; [by apply signal_comes|]. unfold after. cbn [r_globals r_env r_tasks r_served r_crashed].
  apply run_process; [|done].
  eapply (run_task _ (Failed EOF) _ (send_errCh None (set_listening false (cancel_ctx s))) _ _
    [Plain (GListenAddr true false)] _ ts [] []); [done..|constructor|]. cbn [app].
  eapply (run_task _ (Failed EOF) _ (returned_globals s) _ _ [] _ ts [] []); [done|done| |done|constructor|apply rtc_refl].
  cbn. by rewrite He.
Qed.

(** A [main] that does not call [Shutdown] ends under the requests in flight:
    a stream whose request is being served stays without a reply. *)
Theorem demo_exit_cuts a pr e c id s :
  is_Some (app_logger a) -> pr_waits pr = false ->
  exists p, rtc (pstep background a one_addr pr) (started one_addr e) p /\ p_main p = Exited 0 /\
    StreamTask SRun (quicConnWrapper c) (connContext id) s ∈ r_tasks (p_server p) /\ r_served (p_server p) = [].
Proof.
  intros Hl Hw.
  assert (exists x, rtc (pstep background a one_addr pr) (started one_addr e) (mkProcess Serving (Some []) x) /\
    r_crashed x = None /\ listen_result (r_globals x) = Some None /\
    StreamTask SRun (quicConnWrapper c) (connContext id) s ∈ r_tasks x /\ r_served x = [])
    as (x & Hr & Hc & Hres & Hin & Hsv).
  { eexists. split; [etrans; [apply run_process; [by apply (one_accept background a e c id s)|done]|];
      by apply signal_returns|]. split_and!; [done|done| |done]. right. by left. }
  destruct (main_leaves background a one_addr pr (Some []) x Hc Hres) as (y & Hy & Et & Es); [by rewrite Hw|].
  eexists. split; [etrans; [exact Hr|exact Hy]|]. cbn. by rewrite Et, Es.
Qed.

(** One that does, and has nothing to wait for, stops. *)
Lemma idle_exit a e :
  is_Some (app_logger a) ->
  exists p, rtc (pstep background a one_addr example_program) (started one_addr e) p /\ p_main p = Exited 0.
Proof.
  intros [log Hl].
  assert (exists x, rtc (pstep background a one_addr example_program) (started one_addr e)
      (mkProcess Serving (Some []) x) /\
    r_crashed x = None /\ listen_result (r_globals x) = Some None /\ wg (r_globals x) = 0%Z)
    as (x & Hr & Hc & Hres & Hwg).
  { eexists. split; [etrans; [apply (run_process background a one_addr example_program None (launch one_addr e)
      (mkRunning (set_listening true no_globals) (opened a e)
        [Plain (GListenAddr true false); Plain (GListenNative LAccept); Plain GWatch] [] None)); [|done]|
      by apply signal_returns]|done].
    eapply (run_task _ Accepted _ no_globals _ _ [] _ [] [GListenAddr true false; GListenNative LStart]
        [Plain (GListenAddr true false); Plain (GListenNative LStart)]); goes.
    eapply (run_task _ Accepted _ (set_listening true no_globals) _ _ [Plain (GListenAddr true false)] _ []
      [GListenNative LOpen] [Plain (GListenNative LOpen)]); goes.
    eapply (run_task _ Accepted _ (set_listening true no_globals) _ (opened a e)
        [Plain (GListenAddr true false)] _ [] [GListenNative LAccept; GWatch]
        [Plain (GListenNative LAccept); Plain GWatch]); [done..| |by repeat constructor|apply rtc_refl].
    unfold opened, announce. cbn. by rewrite Hl. }
  destruct (main_leaves background a one_addr example_program (Some []) x Hc Hres) as (y & Hy & _); [done|].
  eexists. split; [etrans; [exact Hr|exact Hy]|done].
Qed.
End Runs.

(** ** The start-ups and their processes *)

Section Mains.
Context {V W : Type} `{Unicode} `{URLAuthority} `{Msgpack V} `{Crypto} `{OS}.

Definition code_of (res : option error) : Z :=
  match res with
  | None => 0%Z
  | Some _ => 1%Z
  end.

Lemma basic_main_code r t d res :
  (basic_main r t d (fun _ _ _ => None)).1.1 = 0%Z ->
  (basic_main r t d (fun _ _ _ => res)).1.1 = code_of res.
Proof. unfold basic_main. by cases; destruct res. Qed.

Lemma streaming_main_code r t d res :
  (streaming_main r t d (fun _ _ _ => None)).1.1 = 0%Z ->
  (streaming_main r t d (fun _ _ _ => res)).1.1 = code_of res.
Proof. unfold streaming_main. by cases; destruct res. Qed.

Lemma example_main_code getenv r now1 now2 res :
  (example_main getenv r now1 now2 (fun _ _ _ => None)).1 = 0%Z ->
  (example_main getenv r now1 now2 (fun _ _ _ => res)).1 = code_of res.
Proof. unfold example_main. by cases; destruct res. Qed.

(** The exit code of a process that did not panic is the one its [main] gives
    for what [ListenAddr] returned, whichever of the three servers it is. *)
Theorem main_exit background (a : App V W) addrs pr e code p :
  rtc (pstep background a addrs pr) (started addrs e) p -> p_main p = Exited code -> code <> 2%Z ->
  exists res, listen_result (r_globals (p_server p)) = Some res /\ code = code_of res.
Proof.
  intros Hr Hm Hne. pose proof (exit_ok background a addrs pr e code p Hr Hm) as Hok.
  unfold exit_means in Hok. repeat case_match; unpack; try done; by eexists.
Qed.
End Mains.

(** ** Witnesses *)

Section Witnesses.
#[local] Existing Instance ascii_tables.
#[local] Existing Instance any_authority.


(** The signal comes while a request is waiting to be served. *)
Definition signalled : process unit :=
  mkProcess Serving (Some (signal_body example_program))
    (one_accepted guarded_demo demo_env demo_conn 0 (request_stream sample_request)).

Lemma signalled_reachable :
  rtc (pstep no_background guarded_demo one_addr example_program) (started one_addr demo_env) signalled.
Proof.
  eapply rtc_r; [apply run_process; [apply (one_accept no_background guarded_demo demo_env demo_conn 0
    (request_stream sample_request)); by eexists|done]|]. by apply ps_signal.
Qed.

Lemma process_ends_witness :
  sn (pdrain no_background guarded_demo one_addr example_program) signalled.
Proof.
  exact (proj1 (process_ends no_background guarded_demo one_addr example_program demo_env signalled
    signalled_reachable (mk_is_Some _ _ eq_refl))).
Defined.
End Witnesses.
